(** * Speaker-compensation FIR filter: delay line, convolution, filter selection

    A shallow embedding of [fir.c], [fir.h], the filter table and the
    filter handling of [main.c] (initialisation, clean-up, rate adaptation
    and the callbacks), together with the properties of the delay line, the
    convolution kernels, the filter swap and the program state.

    Conventions of the embedding.
    - A C [float] is an element of a type [F] carrying the operations the code
      uses ([0.0f], [+], [*]); the code is translated with the operations in
      the order the source performs them.  [binary32] instantiates [F] with
      IEEE-754 single precision (round to nearest even).
    - A C array is a [list F]; a pointer into an array is the array with an
      offset of type [Z].  A load or store outside the array is undefined
      behaviour and makes the embedded function return [None].
    - An [int] is a [Z]; the signed arithmetic that can leave the range of
      [int] is guarded and returns [None] when it does.
    - A pointer argument that may be null is an [option].
    - The filters are blocks of a heap.  The delay line of a channel is held
      by value where samples are processed; the functions that create and
      release the blocks of a channel are also embedded with the delay line
      as two blocks of the heap (module [Lifetime]). *)

From Stdlib Require Import ZArith Lia.
From Stdlib Require Import Floats.SpecFloat.
From stdpp Require Import base option list gmap.

Local Open Scope Z_scope.

(** ** Sample arithmetic *)

Class Arith (F : Type) := {
  fzero : F;
  fadd : F -> F -> F;
  fmul : F -> F -> F
}.

(** The fused multiply-add of the vector unit, [ffma a b c] for [a*b + c]. *)
Class Fused (F : Type) `{Arith F} := {
  ffma : F -> F -> F -> F
}.

(** IEEE-754 binary32, the C [float] of the target. *)
Module Binary32.
Definition prec : Z := 24.
Definition emax : Z := 128.
Definition t : Type := spec_float.
Definition zero : t := S754_zero false.
Definition add : t -> t -> t := SFadd prec emax.
Definition mul : t -> t -> t := SFmul prec emax.
Definition div : t -> t -> t := SFdiv prec emax.
Definition of_Z (z : Z) : t := binary_normalize prec emax z 0 false.
(** The value of the decimal literal [n/d] with one rounding. *)
Definition lit (n d : Z) : t := div (of_Z n) (of_Z d).
Definition one : t := of_Z 1.
End Binary32.

#[export] Instance binary32 : Arith Binary32.t :=
  {| fzero := Binary32.zero; fadd := Binary32.add; fmul := Binary32.mul |}.

(** Exact integer arithmetic, where sums can be reassociated. *)
#[export] Instance exactZ : Arith Z :=
  {| fzero := 0; fadd := Z.add; fmul := Z.mul |}.

#[export] Instance exactZ_fused : Fused Z :=
  {| ffma := fun a b c => a * b + c |}.

(** ** Integer ranges and memory accesses *)

Definition INT_MAX : Z := 2147483647.
Definition INT_MIN : Z := -2147483648.

Definition int_ok (z : Z) : bool := (INT_MIN <=? z) && (z <=? INT_MAX).

Section Memory.
Context {F : Type} `{Arith F}.

(** [*(a + off) = x]; [None] outside the array. *)
Definition store (a : list F) (off : Z) (x : F) : option (list F) :=
  if (0 <=? off) && (off <? Z.of_nat (length a))
  then Some (<[Z.to_nat off := x]> a)
  else None.

(** A load that the caller has already shown to be inside the array. *)
Definition rd (a : list F) (i : nat) : F := default fzero (a !! i).
End Memory.

(** ** fir.h *)

Record fir_filter (F : Type) := mk_fir_filter {
  rate : Z;
  coeffs : list F;
  order : Z
}.
Arguments mk_fir_filter {F} _ _ _.
Arguments rate {F} _.
Arguments coeffs {F} _.
Arguments order {F} _.

Record delay_line (F : Type) := mk_delay_line {
  buffer : list F;
  size : Z;
  index : Z
}.
Arguments mk_delay_line {F} _ _ _.
Arguments buffer {F} _.
Arguments size {F} _.
Arguments index {F} _.

(** ** fir.c *)

Section Fir.
Context {F : Type} `{Arith F}.

(** The inner loop of [fir_filter_apply_scalar]:
    [sum = 0.0f; for (j = 0; j < len; j++) sum += coeff[j] * samples[i + j];] *)
Definition scalar_sum (len : nat) (coeff samples : list F) (i : nat) : F :=
  fold_left (fun sum j => fadd sum (fmul (rd coeff j) (rd samples (i + j))))
            (seq 0 len) fzero.

(** [fir_filter_apply_scalar]: the outer loop stores [output[i] = sum]. *)
Definition fir_filter_apply_scalar (len : Z) (coeff : list F) (count : Z)
    (samples output : list F) : list F :=
  fold_left (fun out i => <[i := scalar_sum (Z.to_nat len) coeff samples i]> out)
            (seq 0 (Z.to_nat count)) output.

(** What the kernels dereference: [coeff[0..len)], [samples[0..count+len-1)]
    (nothing when [len <= 0]) and [output[0..count)]; the index [i + j] is
    an [int]. *)
Definition kernel_in_bounds (len : Z) (coeff : list F) (count : Z)
    (samples output : list F) : bool :=
  (count <=? Z.of_nat (length output)) &&
  ((len <=? 0) ||
   ((len <=? Z.of_nat (length coeff)) &&
    (count + len - 1 <=? Z.of_nat (length samples)) &&
    int_ok (count + len - 2))).

(** [fir_filter_apply], scalar build (no [__AVX512F__]).  The result is the
    output array after the call; [None] is undefined behaviour. *)
Definition fir_filter_apply (filter : option (fir_filter F))
    (dl : option (delay_line F)) (count : Z) (output : option (list F))
    : option (option (list F)) :=
  match filter, dl, output with
  | Some f, Some d, Some out =>
      if count <=? 0 then Some output
      else
        let start := index d - order f - count in
        if (0 <=? start) && (start <=? Z.of_nat (length (buffer d))) then
          let samples := drop (Z.to_nat start) (buffer d) in
          if kernel_in_bounds (order f) (coeffs f) count samples out
          then Some (Some (fir_filter_apply_scalar (order f) (coeffs f) count samples out))
          else None
        else None
  | _, _, _ => Some output
  end.

(** The loop of [delay_line_append_samples] over the samples still to be
    written; [w] and [m] are [buffer_write] and [buffer_mirror] as offsets
    from [buffer], [e] is [buffer_end]. *)
Fixpoint append_loop (buf : list F) (e w m : Z) (samples : list F)
    : option (list F * Z) :=
  match samples with
  | [] => Some (buf, w)
  | x :: rest =>
      buf1 ← store buf w x;
      buf2 ← store buf1 m x;
      let w' := w + 1 in
      let m' := m + 1 in
      if w' =? e then append_loop buf2 e m' 0 rest
      else append_loop buf2 e w' m' rest
  end.

(** [delay_line_append_samples].  The result is the delay line after the
    call; [None] is undefined behaviour. *)
Definition delay_line_append_samples (filter : option (fir_filter F))
    (dl : option (delay_line F)) (samples : option (list F)) (count : Z)
    : option (option (delay_line F)) :=
  match filter, dl, samples with
  | Some f, Some d, Some s =>
      if count <=? 0 then Some dl
      else if negb (int_ok (order f * 2)) then None
      else if Z.of_nat (length s) <? count then None
      else
        '(buf, w) ← append_loop (buffer d) (size d) (index d)
                                (index d - order f * 2)
                                (take (Z.to_nat count) s);
        Some (Some (mk_delay_line buf (size d) w))
  | _, _, _ => Some dl
  end.

(** [delay_line_init], by value: the line that the call creates.
    [alloc_ok] tells whether [malloc] and [calloc] both succeed; [None] is
    the null pointer.  The two blocks themselves are allocated in
    [Lifetime.delay_line_init]. *)
Definition delay_line_init (alloc_ok : bool) (sz : Z) : option (delay_line F) :=
  if sz =? 0 then None
  else if alloc_ok
       then Some (mk_delay_line (replicate (Z.to_nat sz) fzero) sz (sz - 1))
       else None.
End Fir.

(** ** The AVX-512 kernel of fir.c

    A [__m512] register is the list of its 16 lanes.  *)

Definition SIMD_WIDTH_AVX512 : Z := 16.
Definition OUTPUT_UNROLL_FACTOR : Z := 4.

Section Avx512.
Context {F : Type} `{Fused F}.

Definition mm512_setzero_ps : list F := replicate 16 fzero.

Definition mm512_loadu_ps (a : list F) (off : nat) : list F :=
  map (fun lane => rd a (off + lane)) (seq 0 16).

(** Lane-wise [a*b + c]. *)
Definition mm512_fmadd_ps (a b c : list F) : list F :=
  zip_with (fun ab c => ffma (fst ab) (snd ab) c) (zip a b) c.

(** One level of the reduction: the upper half is added onto the lower. *)
Definition fold_halves (v : list F) : list F :=
  zip_with fadd (take (length v / 2) v) (drop (length v / 2) v).

(** [_mm512_reduce_add_ps]: 16 -> 8 -> 4 -> 2 -> 1 lanes. *)
Definition mm512_reduce_add_ps (v : list F) : F :=
  rd (fold_halves (fold_halves (fold_halves (fold_halves v)))) 0.

(** The scalar tail [for (j = vectorized_len; j < len; j++) sum += ...].
    The C expression [sum += c * x] is a product followed by a sum, each
    with its own rounding.  A compiler may contract it into one fused
    multiply-add, and may do so in one loop and not in the other; the rounded
    result then differs from this definition.  The kernel is therefore
    compared with the scalar one only in arithmetics where the fused
    multiply-add is the product followed by the sum ([ExactSums]). *)
Definition tail_sum (vlen len : nat) (coeff samples : list F) (i : nat) (sum : F) : F :=
  fold_left (fun sum j => fadd sum (fmul (rd coeff j) (rd samples (i + j))))
            (seq vlen (len - vlen)) sum.

(** The body of the unrolled loop for the outputs [i .. i+3]: the four
    accumulators advance together over the coefficient blocks. *)
Definition unrolled_acc (nblk : nat) (coeff samples : list F) (i : nat)
    : list F * list F * list F * list F :=
  fold_left
    (fun '(s0, s1, s2, s3) b =>
       let j := (16 * b)%nat in
       let coeff_vec := mm512_loadu_ps coeff j in
       (mm512_fmadd_ps coeff_vec (mm512_loadu_ps samples (i + 0 + j)) s0,
        mm512_fmadd_ps coeff_vec (mm512_loadu_ps samples (i + 1 + j)) s1,
        mm512_fmadd_ps coeff_vec (mm512_loadu_ps samples (i + 2 + j)) s2,
        mm512_fmadd_ps coeff_vec (mm512_loadu_ps samples (i + 3 + j)) s3))
    (seq 0 nblk)
    (mm512_setzero_ps, mm512_setzero_ps, mm512_setzero_ps, mm512_setzero_ps).

Definition unrolled_tail (vlen len : nat) (coeff samples : list F) (i : nat)
    (sums : F * F * F * F) : F * F * F * F :=
  fold_left
    (fun '(sum0, sum1, sum2, sum3) j =>
       let c := rd coeff j in
       (fadd sum0 (fmul c (rd samples (i + 0 + j))),
        fadd sum1 (fmul c (rd samples (i + 1 + j))),
        fadd sum2 (fmul c (rd samples (i + 2 + j))),
        fadd sum3 (fmul c (rd samples (i + 3 + j)))))
    (seq vlen (len - vlen)) sums.

Definition unrolled_step (nblk vlen len : nat) (coeff samples : list F)
    (out : list F) (g : nat) : list F :=
  let i := (4 * g)%nat in
  let '(v0, v1, v2, v3) := unrolled_acc nblk coeff samples i in
  let '(sum0, sum1, sum2, sum3) :=
    unrolled_tail vlen len coeff samples i
      (mm512_reduce_add_ps v0, mm512_reduce_add_ps v1,
       mm512_reduce_add_ps v2, mm512_reduce_add_ps v3) in
  <[(i + 3)%nat := sum3]>
    (<[(i + 2)%nat := sum2]> (<[(i + 1)%nat := sum1]> (<[(i + 0)%nat := sum0]> out))).

(** The body of the remainder loop for one output [i]. *)
Definition single_acc (nblk : nat) (coeff samples : list F) (i : nat) : list F :=
  fold_left
    (fun sum_vec b =>
       let j := (16 * b)%nat in
       mm512_fmadd_ps (mm512_loadu_ps coeff j) (mm512_loadu_ps samples (i + j)) sum_vec)
    (seq 0 nblk) mm512_setzero_ps.

Definition single_step (nblk vlen len : nat) (coeff samples : list F)
    (out : list F) (i : nat) : list F :=
  <[i := tail_sum vlen len coeff samples i
           (mm512_reduce_add_ps (single_acc nblk coeff samples i))]> out.

(** [fir_filter_apply_avx512]; the C divisions truncate. *)
Definition fir_filter_apply_avx512 (len : Z) (coeff : list F) (count : Z)
    (samples output : list F) : list F :=
  let vectorized_len := Z.quot len SIMD_WIDTH_AVX512 * SIMD_WIDTH_AVX512 in
  let vectorized_count := Z.quot count OUTPUT_UNROLL_FACTOR * OUTPUT_UNROLL_FACTOR in
  let nblk := Z.to_nat (Z.quot vectorized_len SIMD_WIDTH_AVX512) in
  let vlen := Z.to_nat vectorized_len in
  let out1 :=
    fold_left (unrolled_step nblk vlen (Z.to_nat len) coeff samples)
              (seq 0 (Z.to_nat (Z.quot vectorized_count OUTPUT_UNROLL_FACTOR))) output in
  fold_left (single_step nblk vlen (Z.to_nat len) coeff samples)
            (seq (Z.to_nat vectorized_count)
                 (Z.to_nat count - Z.to_nat vectorized_count)) out1.

(** [fir_filter_apply] as built with [__AVX512F__]. *)
Definition fir_filter_apply_simd (filter : option (fir_filter F))
    (dl : option (delay_line F)) (count : Z) (output : option (list F))
    : option (option (list F)) :=
  match filter, dl, output with
  | Some f, Some d, Some out =>
      if count <=? 0 then Some output
      else
        let start := index d - order f - count in
        if (0 <=? start) && (start <=? Z.of_nat (length (buffer d))) then
          let samples := drop (Z.to_nat start) (buffer d) in
          if kernel_in_bounds (order f) (coeffs f) count samples out
          then Some (Some (fir_filter_apply_avx512 (order f) (coeffs f) count samples out))
          else None
        else None
  | _, _, _ => Some output
  end.
End Avx512.

(** ** Memory: static tables and the allocator

    The filter structures and the coefficient arrays are reached through
    pointers.  The table [FIR_FILTERS] and the arrays [FIR_COEFF_*] are
    constants in static storage; everything else is a block obtained from
    [malloc].  The outcomes of the calls of [malloc] still to come are an
    oracle: [true] for a block, [false] for the null pointer. *)

Inductive addr :=
  | StaticFilter (i : nat)      (* &FIR_FILTERS[i] *)
  | StaticCoeffs (i : nat)      (* FIR_COEFF_<rate of entry i> *)
  | Dyn (n : nat).              (* a block of the allocator *)

Inductive object (F : Type) :=
  | OFloats (a : list F)
  | OFilter (o_rate : Z) (o_coeffs : option addr) (o_order : Z)
  | ODelayLine (o_buffer : option addr) (o_size : Z) (o_index : Z).
Arguments OFloats {F} _.
Arguments OFilter {F} _ _ _.
Arguments ODelayLine {F} _ _ _.

Record memory (F : Type) := mk_memory {
  heap : gmap nat (object F);
  oracle : list bool
}.
Arguments mk_memory {F} _ _.
Arguments heap {F} _.
Arguments oracle {F} _.

Definition SIZE_MAX : Z := 2 ^ 64 - 1.
Definition PTRDIFF_MAX : Z := 2 ^ 63 - 1.
Definition SIZEOF_FLOAT : Z := 4.
Definition SIZEOF_FIR_FILTER : Z := 24.

(** Conversion of an [int] expression to [size_t]. *)
Definition to_size_t (z : Z) : Z := z mod (SIZE_MAX + 1).

(** Conversion of an unsigned value to [int] (two's complement). *)
Definition to_int (z : Z) : Z := (z + 2 ^ 31) mod 2 ^ 32 - 2 ^ 31.

Section Allocator.
Context {F : Type} `{Arith F}.

(** [malloc(bytes)]; the new block holds [init] until it is written.  A
    request above [PTRDIFF_MAX] always fails. *)
Definition malloc (bytes : Z) (init : object F) (m : memory F)
    : option nat * memory F :=
  let '(ok, rest) := match oracle m with
                     | [] => (true, [])
                     | b :: r => (b, r)
                     end in
  if ok && (bytes <=? PTRDIFF_MAX) then
    let n := fresh (dom (heap m)) in
    (Some n, mk_memory (<[n := init]> (heap m)) rest)
  else (None, mk_memory (heap m) rest).

(** [free(p)]: nothing for the null pointer; undefined for anything that is
    not a live block of the allocator. *)
Definition free (p : option addr) (m : memory F) : option (memory F) :=
  match p with
  | None => Some m
  | Some (Dyn n) =>
      match heap m !! n with
      | Some _ => Some (mk_memory (delete n (heap m)) (oracle m))
      | None => None
      end
  | Some _ => None
  end.

(** An assignment through a pointer to a live block. *)
Definition write_block (n : nat) (o : object F) (m : memory F) : memory F :=
  mk_memory (<[n := o]> (heap m)) (oracle m).
End Allocator.

(** ** The filter table and main.c *)

Definition MAX_FILTER_ORDER : Z := 16383.
Definition NUM_CHANNELS : nat := 2.

(** The rate and the order of [FIR_FILTERS[i]]. *)
Definition FIR_FILTERS_fields : list (Z * Z) :=
  [(44100, 4095); (88200, 8191); (176400, 16383);
   (48000, 4095); (96000, 8191); (192000, 16383)].

Record channel (F : Type) := mk_channel {
  ch_delay_line : option (delay_line F);
  current : option addr
}.
Arguments mk_channel {F} _ _.
Arguments ch_delay_line {F} _.
Arguments current {F} _.

Record data (F : Type) := mk_data {
  channels : list (channel F);
  current_rate : Z
}.
Arguments mk_data {F} _ _.
Arguments channels {F} _.
Arguments current_rate {F} _.

(** The fields of [struct spa_io_position] that the callback reads. *)
Record spa_io_position := mk_position {
  clock_duration : Z;      (* uint64_t *)
  clock_rate_denom : Z     (* uint32_t *)
}.

(** The coefficient arrays [extern const float FIR_COEFF_*[]] are defined
    outside the sources at hand; they are parameters of the development. *)
Class Coefficients (F : Type) := {
  FIR_COEFF_44100 : list F;
  FIR_COEFF_88200 : list F;
  FIR_COEFF_176400 : list F;
  FIR_COEFF_48000 : list F;
  FIR_COEFF_96000 : list F;
  FIR_COEFF_192000 : list F
}.

Section Main.
Context {F : Type} `{Arith F} `{Coefficients F}.

Definition FIR_COEFF (i : nat) : option (list F) :=
  [FIR_COEFF_44100; FIR_COEFF_88200; FIR_COEFF_176400;
   FIR_COEFF_48000; FIR_COEFF_96000; FIR_COEFF_192000] !! i.

(** [FIR_FILTERS[i]] as an object of static storage. *)
Definition FIR_FILTERS (i : nat) : option (object F) :=
  '(r, o) ← FIR_FILTERS_fields !! i;
  Some (OFilter r (Some (StaticCoeffs i)) o).

(** The object a pointer designates, [None] for a dangling pointer. *)
Definition deref (m : memory F) (a : addr) : option (object F) :=
  match a with
  | StaticFilter i => FIR_FILTERS i
  | StaticCoeffs i => OFloats <$> FIR_COEFF i
  | Dyn n => heap m !! n
  end.

(** The array behind a coefficient pointer; the empty array when there is
    nothing to read. *)
Definition floats_at (m : memory F) (p : option addr) : list F :=
  match p with
  | Some a => match deref m a with
              | Some (OFloats l) => l
              | _ => []
              end
  | None => []
  end.

(** The filter a [const struct fir_filter *] designates: [Some None] for
    the null pointer, [None] when the pointer dangles. *)
Definition filter_at (m : memory F) (p : option addr)
    : option (option (fir_filter F)) :=
  match p with
  | None => Some None
  | Some a =>
      match deref m a with
      | Some (OFilter r c o) => Some (Some (mk_fir_filter r (floats_at m c) o))
      | _ => None
      end
  end.

(** [fir_filter_free] *)
Definition fir_filter_free (filter : option addr) (m : memory F)
    : option (memory F) :=
  match filter with
  | None => Some m
  | Some a =>
      match deref m a with
      | Some (OFilter _ c _) =>
          m1 ← free c m;
          free (Some a) m1
      | _ => None
      end
  end.

(** [fir_filter_clone]: the pointer returned and the memory after the
    call.  What [filter] designates is looked up in the memory of the call:
    the blocks obtained inside the function are new, so they are not what
    the caller's pointers designate. *)
Definition fir_filter_clone (filter : option addr) (m : memory F)
    : option (option addr * memory F) :=
  match filter with
  | None => Some (None, m)
  | Some a =>
      let '(new_filter, m1) := malloc SIZEOF_FIR_FILTER (OFilter 0 None 0) m in
      match new_filter with
      | None => Some (None, m1)
      | Some nf =>
          match deref m a with
          | Some (OFilter r c o) =>
              let bytes := to_size_t (SIZEOF_FLOAT * o) in
              let '(coeffs_copy, m2) :=
                malloc bytes (OFloats (replicate (Z.to_nat o) fzero)) m1 in
              match coeffs_copy with
              | None =>
                  m3 ← free (Some (Dyn nf)) m2;
                  Some (None, m3)
              | Some cc =>
                  (* memcpy(coeffs_copy, filter->coeffs, sizeof(float) * order) *)
                  let src := floats_at m c in
                  if (0 <? o) && (Z.of_nat (length src) <? o) then None
                  else
                    let m3 := write_block cc (OFloats (take (Z.to_nat o) src)) m2 in
                    let m4 := write_block nf (OFilter r (Some (Dyn cc)) o) m3 in
                    Some (Some (Dyn nf), m4)
              end
          | _ => None
          end
      end
  end.

(** The scan of [update_channel_filter] over the table indices still to be
    visited: clone the first entry of the requested rate and stop. *)
Fixpoint clone_matching (idxs : list nat) (rate : Z) (m : memory F)
    : option (option addr * memory F) :=
  match idxs with
  | [] => Some (None, m)
  | i :: rest =>
      match FIR_FILTERS_fields !! i with
      | Some (r, _) =>
          if rate =? r then fir_filter_clone (Some (StaticFilter i)) m
          else clone_matching rest rate m
      | None => None
      end
  end.

(** [update_channel_filter]: the value returned, the channel and the
    memory after the call. *)
Definition update_channel_filter (ch : channel F) (rate : Z) (m : memory F)
    : option (Z * channel F * memory F) :=
  '(new_filter, m1) ← clone_matching (seq 0 6) rate m;
  '(new_filter, m2) ←
     match new_filter with
     | None => fir_filter_clone (Some (StaticFilter 5)) m1
     | Some _ => Some (new_filter, m1)
     end;
  match new_filter with
  | None => Some (-1, ch, m2)
  | Some _ =>
      let old_filter := current ch in
      let ch' := mk_channel (ch_delay_line ch) new_filter in
      m3 ← fir_filter_free old_filter m2;
      Some (0, ch', m3)
  end.

Definition fallback_rate : Z := 192000.   (* FIR_FILTERS[5].rate *)

(** The loop of [select_filter_for_rate] over the channels still to be
    updated. *)
Fixpoint select_channels (chs : list (channel F)) (rate actual_rate : Z)
    (m : memory F) : option (list (channel F) * Z * memory F) :=
  match chs with
  | [] => Some ([], actual_rate, m)
  | ch :: rest =>
      '(r, ch1, m1) ← update_channel_filter ch rate m;
      '(ch2, actual, m2) ←
         (if r =? 0 then Some (ch1, actual_rate, m1)
          else match update_channel_filter ch1 fallback_rate m1 with
               | Some (_, ch2, m2) => Some (ch2, fallback_rate, m2)
               | None => None
               end);
      '(rest', actual', m3) ← select_channels rest rate actual m2;
      Some (ch2 :: rest', actual', m3)
  end.

(** [select_filter_for_rate]; the final [printf] reads
    [data->channels[0].current->order]. *)
Definition select_filter_for_rate (d : data F) (rate : Z) (m : memory F)
    : option (data F * memory F) :=
  '(chs, actual_rate, m1) ← select_channels (channels d) rate rate m;
  ch0 ← chs !! 0%nat;
  f0 ← filter_at m1 (current ch0);
  _ ← f0;
  Some (mk_data chs actual_rate, m1).

(** One iteration of the last loop of [on_filter_process]: append the
    input block to the channel's delay line, then filter into the output
    block. *)
Definition process_channel (ch : channel F) (m : memory F)
    (input output : option (list F)) (n_samples : Z)
    : option (channel F * option (list F)) :=
  f ← filter_at m (current ch);
  dl ← delay_line_append_samples f (ch_delay_line ch) input n_samples;
  out ← fir_filter_apply f dl n_samples output;
  Some (mk_channel dl (current ch), out).

Fixpoint process_channels (chs : list (channel F)) (m : memory F)
    (inputs outputs : list (option (list F))) (n_samples : Z)
    : option (list (channel F) * list (option (list F))) :=
  match chs, inputs, outputs with
  | [], _, _ => Some ([], [])
  | ch :: chs', i :: inputs', o :: outputs' =>
      '(ch', o') ← process_channel ch m i o n_samples;
      '(rest, os) ← process_channels chs' m inputs' outputs' n_samples;
      Some (ch' :: rest, o' :: os)
  | _, _, _ => None
  end.

(** [memset(output, 0, n_samples * sizeof(float))] on a non-null block. *)
Definition silence (n_samples : Z) (output : option (list F))
    : option (option (list F)) :=
  match output with
  | None => Some None
  | Some out =>
      let bytes := to_size_t (to_size_t n_samples * SIZEOF_FLOAT) in
      if bytes <=? SIZEOF_FLOAT * Z.of_nat (length out)
      then Some (Some (replicate (Z.to_nat (bytes / SIZEOF_FLOAT)) fzero
                         ++ drop (Z.to_nat (bytes / SIZEOF_FLOAT)) out))
      else None
  end.

(** [on_filter_process].  [inputs] and [outputs] are the blocks that
    [pw_filter_get_dsp_buffer] hands out for the ports of the channels.
    The result is the program state and the output blocks after the
    callback. *)
Definition on_filter_process (d : data F) (m : memory F)
    (position : option spa_io_position)
    (inputs outputs : list (option (list F)))
    : option (data F * memory F * list (option (list F))) :=
  match position with
  | None => Some (d, m, outputs)
  | Some pos =>
      let n_samples := to_int (clock_duration pos) in
      let rate := to_int (clock_rate_denom pos) in
      '(d1, m1) ←
         (if (0 <? rate) && negb (rate =? current_rate d)
          then select_filter_for_rate d rate m
          else Some (d, m));
      if forallb (fun b : option (list F) => bool_decide (is_Some b))
                 (take NUM_CHANNELS inputs ++ take NUM_CHANNELS outputs)
      then
        '(chs, outs) ← process_channels (channels d1) m1 inputs outputs n_samples;
        Some (mk_data chs (current_rate d1), m1, outs)
      else
        outs ← mapM (silence n_samples) (take NUM_CHANNELS outputs);
        Some (d1, m1, outs)
  end.

(** [init_channel] on the channel [ch]: [FIR_FILTERS[0]] is cloned for it.
    When the delay line cannot be had, [current] is not assigned.  The delay
    line is held by value here, so its two blocks are not blocks of the heap
    [m]; [Lifetime.init_channel] below has them. *)
Definition init_channel (alloc_ok : bool) (delay_size : Z) (ch : channel F)
    (m : memory F) : option (Z * channel F * memory F) :=
  match delay_line_init alloc_ok (to_size_t delay_size) with
  | None => Some (-1, mk_channel None (current ch), m)
  | Some dl =>
      '(cur, m1) ← fir_filter_clone (Some (StaticFilter 0)) m;
      match cur with
      | None => Some (-1, mk_channel None None, m1)
      | Some _ => Some (0, mk_channel (Some dl) cur, m1)
      end
  end.

(** The clean-up loop of [init_fir_filters] over the channels that were
    initialised before the failing one.  With the delay lines held by value
    only the filters are blocks of the heap. *)
Fixpoint release_channels (chs : list (channel F)) (m : memory F)
    : option (memory F) :=
  match chs with
  | [] => Some m
  | ch :: rest =>
      m1 ← fir_filter_free (current ch) m;
      release_channels rest m1
  end.

(** The loop of [init_fir_filters]; [todo] lists the channels still to be
    initialised, each with whether its delay line can be allocated, [done]
    are the channels initialised so far. *)
Fixpoint init_channels (todo : list (bool * channel F)) (delay_size : Z)
    (done : list (channel F)) (m : memory F)
    : option (Z * list (channel F) * memory F) :=
  match todo with
  | [] => Some (0, done, m)
  | (ok, ch) :: rest =>
      '(r, ch', m1) ← init_channel ok delay_size ch m;
      if r =? 0 then init_channels rest delay_size (done ++ [ch']) m1
      else
        m2 ← release_channels done m1;
        Some (-1, done ++ [ch'], m2)
  end.

(** [init_fir_filters]: every delay line has [MAX_FILTER_ORDER * 4] slots.
    A channel that [d] does not list is the zeroed one of [main]. *)
Definition init_fir_filters (allocs : list bool) (d : data F) (m : memory F)
    : option (Z * data F * memory F) :=
  let delay_size := MAX_FILTER_ORDER * 4 in
  '(r, chs, m1) ←
     init_channels
       (map (fun ch => (default true (allocs !! ch),
                        default (mk_channel None None) (channels d !! ch)))
            (seq 0 NUM_CHANNELS))
       delay_size [] m;
  if r =? 0 then Some (0, mk_data chs 44100, m1)
  else Some (-1, mk_data (chs ++ drop (length chs) (channels d)) (current_rate d), m1).
End Main.

(** ** main.c: the format callback *)

(** What [on_filter_param_changed] learns about its [param] argument from
    the calls into the host library: whether [id] is [SPA_PARAM_Format], the
    values returned by [spa_format_parse] and [spa_format_audio_raw_parse],
    whether the media type and subtype are audio and raw, and the rate that
    the second parse stores in [info.info.raw.rate]. *)
Record format_param := mk_format_param {
  id_is_format : bool;
  format_parse : Z;
  media_is_raw_audio : bool;
  raw_parse : Z;
  raw_rate : Z               (* uint32_t *)
}.

Section ParamChanged.
Context {F : Type} `{Arith F} `{Coefficients F}.

(** [on_filter_param_changed]: a null [param], another [id], a failed parse
    or another media type returns at once; otherwise the filters are
    selected for the rate of the format, whatever the current rate is. *)
Definition on_filter_param_changed (d : data F) (m : memory F)
    (param : option format_param) : option (data F * memory F) :=
  match param with
  | None => Some (d, m)
  | Some p =>
      if negb (id_is_format p) then Some (d, m)
      else if format_parse p <? 0 then Some (d, m)
      else if negb (media_is_raw_audio p) then Some (d, m)
      else if raw_parse p <? 0 then Some (d, m)
      else select_filter_for_rate d (to_int (raw_rate p)) m
  end.
End ParamChanged.

(** ** fir.c and main.c: the blocks of a channel

    [struct channel] as it is in memory: the pointer to the delay line and
    the pointer to the filter.  [delay_line_init] obtains two blocks, the
    structure and the buffer; here they are blocks of the heap, and the
    functions that create and release the blocks of a channel are followed
    block by block. *)

Definition SIZEOF_DELAY_LINE : Z := 24.   (* a pointer and two size_t *)

Module Lifetime.

Record channel := mk_channel {
  ch_delay_line : option addr;   (* struct delay_line *delay_line *)
  current : option addr          (* const struct fir_filter *current *)
}.

Record data := mk_data {
  channels : list channel;       (* struct channel channels[NUM_CHANNELS] *)
  current_rate : Z
}.

Section Functions.
Context {F : Type} `{Arith F} `{Coefficients F}.

(** [delay_line_init]: the pointer returned and the memory after the call.
    [calloc(size, sizeof(float))] fails when the product is more than any
    block can have. *)
Definition delay_line_init (size : Z) (m : memory F)
    : option (option addr * memory F) :=
  if size =? 0 then Some (None, m)
  else
    let '(delay_line, m1) := malloc SIZEOF_DELAY_LINE (ODelayLine None 0 0) m in
    match delay_line with
    | None => Some (None, m1)
    | Some n =>
        let '(buffer, m2) :=
          malloc (size * SIZEOF_FLOAT)
                 (OFloats (replicate (Z.to_nat size) fzero)) m1 in
        match buffer with
        | None =>
            m3 ← free (Some (Dyn n)) m2;
            Some (None, m3)
        | Some b =>
            Some (Some (Dyn n),
                  write_block n (ODelayLine (Some (Dyn b)) size (size - 1)) m2)
        end
    end.

(** [delay_line_free] *)
Definition delay_line_free (delay_line : option addr) (m : memory F)
    : option (memory F) :=
  match delay_line with
  | None => Some m
  | Some a =>
      match deref m a with
      | Some (ODelayLine buffer _ _) =>
          m1 ← free buffer m;
          free (Some a) m1
      | _ => None
      end
  end.

(** [init_channel]: the value returned, the channel and the memory after
    the call. *)
Definition init_channel (ch : channel) (delay_size : Z) (m : memory F)
    : option (Z * channel * memory F) :=
  '(dl, m1) ← delay_line_init (to_size_t delay_size) m;
  match dl with
  | None => Some (-1, mk_channel None (current ch), m1)
  | Some _ =>
      '(cur, m2) ← fir_filter_clone (Some (StaticFilter 0)) m1;
      match cur with
      | None =>
          m3 ← delay_line_free dl m2;
          Some (-1, mk_channel None None, m3)
      | Some _ => Some (0, mk_channel dl cur, m2)
      end
  end.

(** The clean-up loop of [init_fir_filters] over the channels initialised
    before the failing one; their pointers are not reset. *)
Fixpoint release_channels (chs : list channel) (m : memory F)
    : option (memory F) :=
  match chs with
  | [] => Some m
  | ch :: rest =>
      m1 ← match current ch with
           | Some _ => fir_filter_free (current ch) m
           | None => Some m
           end;
      m2 ← match ch_delay_line ch with
           | Some _ => delay_line_free (ch_delay_line ch) m1
           | None => Some m1
           end;
      release_channels rest m2
  end.

(** The loop of [init_fir_filters]: [done] are the channels initialised so
    far, [todo] the ones still to be initialised. *)
Fixpoint init_channels (done todo : list channel) (delay_size : Z)
    (m : memory F) : option (Z * list channel * memory F) :=
  match todo with
  | [] => Some (0, done, m)
  | ch :: rest =>
      '(r, ch', m1) ← init_channel ch delay_size m;
      if r =? 0 then init_channels (done ++ [ch']) rest delay_size m1
      else
        m2 ← release_channels done m1;
        Some (-1, done ++ ch' :: rest, m2)
  end.

(** [init_fir_filters]; [data->channels] is an array of [NUM_CHANNELS]
    channels. *)
Definition init_fir_filters (d : data) (m : memory F)
    : option (Z * data * memory F) :=
  if decide (length (channels d) = NUM_CHANNELS) then
    '(r, chs, m1) ← init_channels [] (channels d) (MAX_FILTER_ORDER * 4) m;
    if r =? 0 then Some (0, mk_data chs 44100, m1)
    else Some (-1, mk_data chs (current_rate d), m1)
  else None.

(** [cleanup_channel] *)
Definition cleanup_channel (ch : channel) (m : memory F)
    : option (channel * memory F) :=
  '(cur, m1) ← match current ch with
               | Some _ => m1 ← fir_filter_free (current ch) m; Some (None, m1)
               | None => Some (current ch, m)
               end;
  '(dl, m2) ← match ch_delay_line ch with
              | Some _ => m2 ← delay_line_free (ch_delay_line ch) m1; Some (None, m2)
              | None => Some (ch_delay_line ch, m1)
              end;
  Some (mk_channel dl cur, m2).

(** The loop of [cleanup_fir_filters]. *)
Fixpoint cleanup_channels (chs : list channel) (m : memory F)
    : option (list channel * memory F) :=
  match chs with
  | [] => Some ([], m)
  | ch :: rest =>
      '(ch', m1) ← cleanup_channel ch m;
      '(rest', m2) ← cleanup_channels rest m1;
      Some (ch' :: rest', m2)
  end.

(** [cleanup_fir_filters] *)
Definition cleanup_fir_filters (d : data) (m : memory F)
    : option (data * memory F) :=
  if decide (length (channels d) = NUM_CHANNELS) then
    '(chs, m1) ← cleanup_channels (channels d) m;
    Some (mk_data chs (current_rate d), m1)
  else None.
End Functions.
End Lifetime.

(** ** Vocabulary of the properties *)

Section Vocabulary.
Context {F : Type} `{Arith F}.

(** The sum [term 0 + term 1 + ... + term (n-1)], accumulated from the
    left starting from zero. *)
Fixpoint sigma (n : nat) (term : nat -> F) : F :=
  match n with
  | O => fzero
  | S k => fadd (sigma k term) (term k)
  end.

(** The slice of [n] samples of the delay line that ends at the write
    cursor, [buffer + index - n .. buffer + index); [None] when it is not
    inside the buffer. *)
Definition window (d : delay_line F) (n : Z) : option (list F) :=
  if (0 <=? n) && (0 <=? index d - n) && (index d <=? Z.of_nat (length (buffer d)))
  then Some (take (Z.to_nat n) (drop (Z.to_nat (index d - n)) (buffer d)))
  else None.

(** The samples that [fir_filter_apply] hands to the kernel: the buffer
    from [index - order - count] on. *)
Definition kernel_window (f : fir_filter F) (d : delay_line F) (count : Z) : list F :=
  drop (Z.to_nat (index d - order f - count)) (buffer d).

(** Following the words of the specification: the sum over [j] from [0]
    to [order] inclusive ([order + 1] terms) of [coeff[j] * window[i + j]]. *)
Definition claimed_tap_sum (f : fir_filter F) (d : delay_line F) (count : Z)
    (i : nat) : F :=
  sigma (Z.to_nat (order f + 1))
        (fun j => fmul (rd (coeffs f) j) (rd (kernel_window f d count) (i + j))).

(** The additions and multiplications that an impulse response goes
    through are exact on the coefficients [cs]: adding [c * 0] changes
    neither zero nor a coefficient, and [0 + c * one] is [c]. *)
Definition impulse_exact (one : F) (cs : list F) : Prop :=
  Forall (fun c =>
            fadd fzero (fmul c fzero) = fzero /\
            fadd fzero (fmul c one) = c /\
            Forall (fun c' => fadd c (fmul c' fzero) = c) cs) cs.

(** A unit impulse after [p] quanta of silence, followed by [k] quanta of
    silence, one sample per quantum. *)
Definition impulse_blocks (one : F) (p k : nat) : list (list F) :=
  replicate p [fzero] ++ [one] :: replicate k [fzero].

(** An unbounded, non-circular history: [pad] zeros followed by every
    sample appended so far; [reference_window] is its last [n] samples. *)
Definition reference_buffer (pad : nat) (appended : list F) : list F :=
  replicate pad fzero ++ appended.

Definition reference_window (pad : nat) (appended : list F) (n : nat) : list F :=
  drop (length (reference_buffer pad appended) - n) (reference_buffer pad appended).

(** The sample appended at time [t], counted from 0; silence before the
    first sample. *)
Definition hist (xs : list F) (t : Z) : F :=
  if t <? 0 then fzero else rd xs (Z.to_nat t).

(** Where the sample appended [a] steps ago sits in the primary region
    [sz - span .. sz) when the cursor is at [w]. *)
Definition slot_of_age (sz span w a : Z) : Z :=
  if sz - span <=? w - a then w - a else w - a + span.

(** The state of the delay line after the samples [xs]: the last [span]
    samples are in the primary region, and from slot [beta] on the mirror
    region [sz - 2 span .. sz - span) repeats the primary region. *)
Definition ring_invariant (sz span beta : Z) (xs buf : list F) (w : Z) : Prop :=
  Z.of_nat (length buf) = sz /\
  sz - span <= w < sz /\
  (forall a : Z, 1 <= a <= span ->
     buf !! Z.to_nat (slot_of_age sz span w a)
     = Some (hist xs (Z.of_nat (length xs) - a))) /\
  (forall k : Z, beta <= k < span ->
     buf !! Z.to_nat (sz - 2 * span + k) = buf !! Z.to_nat (sz - span + k)).

(** Successive calls of [delay_line_append_samples], one per batch, each
    with the batch length as [count]. *)
Fixpoint append_batches (f : fir_filter F) (d : delay_line F)
    (batches : list (list F)) : option (delay_line F) :=
  match batches with
  | [] => Some d
  | b :: rest =>
      match delay_line_append_samples (Some f) (Some d) (Some b)
              (Z.of_nat (length b)) with
      | Some (Some d') => append_batches f d' rest
      | _ => None
      end
  end.

(** Successive calls of [delay_line_append_samples], each with its own
    filter and its own batch. *)
Fixpoint append_calls (d : delay_line F)
    (calls : list (fir_filter F * list F)) : option (delay_line F) :=
  match calls with
  | [] => Some d
  | (f, b) :: rest =>
      match delay_line_append_samples (Some f) (Some d) (Some b)
              (Z.of_nat (length b)) with
      | Some (Some d') => append_calls d' rest
      | _ => None
      end
  end.

(** The delay line is as large as its [size] field says, at least four
    times [omax], and its cursor is in the last [2 * omax] slots. *)
Definition cursor_in_range (omax : Z) (d : delay_line F) : Prop :=
  size d = Z.of_nat (length (buffer d)) /\
  4 * omax <= size d /\
  size d - 2 * omax <= index d < size d.

(** One processing quantum of a channel: append the block, then filter
    into a fresh output block of the same length. *)
Definition quantum (f : fir_filter F) (d : delay_line F) (block : list F)
    : option (delay_line F * list F) :=
  match delay_line_append_samples (Some f) (Some d) (Some block)
          (Z.of_nat (length block)) with
  | Some (Some d') =>
      match fir_filter_apply (Some f) (Some d') (Z.of_nat (length block))
              (Some (replicate (length block) fzero)) with
      | Some (Some out) => Some (d', out)
      | _ => None
      end
  | _ => None
  end.

(** The outputs of successive quanta. *)
Fixpoint quanta (f : fir_filter F) (d : delay_line F) (blocks : list (list F))
    : option (delay_line F * list (list F)) :=
  match blocks with
  | [] => Some (d, [])
  | b :: rest =>
      '(d', out) ← quantum f d b;
      '(d'', outs) ← quanta f d' rest;
      Some (d'', out :: outs)
  end.
End Vocabulary.

(** ** Arithmetic in which sums can be reordered

    The laws under which two orders of accumulation give the same sum:
    addition is associative and commutative with zero as unit, and the fused
    multiply-add is the product followed by the addition.  Rounded
    floating-point addition is commutative but not associative; the exact
    sum of the same products obeys these laws. *)

Class ExactSums (F : Type) `{Fused F} : Prop := {
  fadd_assoc : forall a b c : F, fadd a (fadd b c) = fadd (fadd a b) c;
  fadd_comm : forall a b : F, fadd a b = fadd b a;
  fadd_zero_l : forall a : F, fadd fzero a = a;
  ffma_exact : forall a b c : F, ffma a b c = fadd (fmul a b) c
}.

#[export] Instance exactZ_sums : ExactSums Z.
Proof.
  split; intros; cbn [fadd fmul fzero ffma exactZ exactZ_fused]; lia.
Qed.

Section LaneSums.
Context {F : Type} `{Arith F}.

(** The sum of the lanes of a vector. *)
Definition lsum (v : list F) : F := fold_right fadd fzero v.

(** The product that tap [j] contributes to output [i]. *)
Definition tap_term (coeff samples : list F) (i j : nat) : F :=
  fmul (rd coeff j) (rd samples (i + j)).
End LaneSums.

Section AvxVocabulary.
Context {F : Type} `{Fused F}.

(** The value the AVX-512 kernel computes for output [i]: the reduced
    vector accumulator followed by the scalar tail. *)
Definition avx512_sum (nblk vlen len : nat) (coeff samples : list F) (i : nat) : F :=
  tail_sum vlen len coeff samples i
    (mm512_reduce_add_ps (single_acc nblk coeff samples i)).
End AvxVocabulary.

(** ** Vocabulary of the filter swap *)

Section SwapVocabulary.
Context {F : Type} `{Arith F} `{Coefficients F}.

(** Every coefficient array holds at least as many floats as the order
    recorded for it in the table. *)
Definition table_arrays_cover_orders : Prop :=
  forall (i : nat) (r o : Z) (l : list F),
    FIR_FILTERS_fields !! i = Some (r, o) ->
    FIR_COEFF i = Some l ->
    o <= Z.of_nat (length l).

(** The pointer is null or designates a filter structure of the allocator
    whose coefficient array is another live block of the allocator. *)
Definition owns_filter (m : memory F) (p : option addr) : Prop :=
  p = None \/
  exists (n c : nat) (r o : Z),
    p = Some (Dyn n) /\ n <> c /\
    heap m !! n = Some (OFilter r (Some (Dyn c)) o) /\
    is_Some (heap m !! c).

(** The next [k] calls of [malloc] return a block. *)
Definition allocations_succeed (k : nat) (m : memory F) : Prop :=
  forallb (fun b : bool => b) (take k (oracle m)) = true.

(** The filter that a clone of [FIR_FILTERS[i]] holds. *)
Definition cloned_entry (i : nat) : option (fir_filter F) :=
  '(r, o) ← FIR_FILTERS_fields !! i;
  l ← FIR_COEFF i;
  Some (mk_fir_filter r (take (Z.to_nat o) l) o).

(** [h'] is [h] with a new clone of [FIR_FILTERS[i]] at [p]. *)
Definition is_clone_of (h h' : gmap nat (object F)) (p : option addr) (i : nat)
    : Prop :=
  exists (nf cc : nat) (r o : Z) (l : list F),
    p = Some (Dyn nf) /\ nf <> cc /\
    FIR_FILTERS_fields !! i = Some (r, o) /\ FIR_COEFF i = Some l /\
    h !! nf = None /\ h !! cc = None /\
    h' = <[nf := OFilter r (Some (Dyn cc)) o]>
           (<[cc := OFloats (take (Z.to_nat o) l)]> h).

(** The channel's filter is a live clone: its structure is block [n] and
    its coefficient array block [c]. *)
Definition holds_filter (m : memory F) (ch : channel F) (n c : nat) : Prop :=
  current ch = Some (Dyn n) /\ n <> c /\
  (exists (r o : Z), heap m !! n = Some (OFilter r (Some (Dyn c)) o)) /\
  is_Some (heap m !! c).

(** The blocks of a list of filters. *)
Definition blocks_of (bl : list (nat * nat)) : list nat :=
  bl ≫= fun b => [fst b; snd b].

(** The channels hold filters in the blocks [bl], which are all distinct. *)
Definition channels_hold (m : memory F) (chs : list (channel F))
    (bl : list (nat * nat)) : Prop :=
  Forall2 (fun ch b => holds_filter m ch (fst b) (snd b)) chs bl /\
  NoDup (blocks_of bl).

(** No entry of the table has the rate. *)
Definition no_entry_for (rate : Z) : Prop :=
  forall (j : nat) (r o : Z), FIR_FILTERS_fields !! j = Some (r, o) -> r <> rate.
End SwapVocabulary.

(** ** Vocabulary of the stream, the program state and the heap *)

Section StreamVocabulary.
Context {F : Type} `{Arith F}.

(** The response of the filter to the stream [xs] at time [t]: the sum over
    [j < order] of [coeff[j] * x[t - order + j]], accumulated from [j = 0]
    upwards, with silence before the stream. *)
Definition fir_response (f : fir_filter F) (xs : list F) (t : nat) : F :=
  sigma (Z.to_nat (order f))
        (fun j => fmul (rd (coeffs f) j)
                       (hist xs (Z.of_nat t - order f + Z.of_nat j))).

(** A block that, when it is there, has room for [count] samples. *)
Definition has_room (count : Z) (b : option (list F)) : Prop :=
  forall l : list F, b = Some l -> count <= Z.of_nat (length l).

(** A block that is there and has room for [count] samples. *)
Definition block_for (count : Z) (b : option (list F)) : Prop :=
  exists l : list F, b = Some l /\ count <= Z.of_nat (length l).

(** [h0] is the heap [h] without the blocks [bs]. *)
Definition without_blocks (h : gmap nat (object F)) (bs : list nat)
    (h0 : gmap nat (object F)) : Prop :=
  forall b : nat, h0 !! b = if decide (b ∈ bs) then None else h !! b.

(** The number of live blocks of the allocator. *)
Definition live_blocks (m : memory F) : nat := base.size (heap m).
End StreamVocabulary.

Section ReadyVocabulary.
Context {F : Type} `{Arith F} `{Coefficients F}.

(** The entry [i] of the table is the one [update_channel_filter] looks for
    when asked for [rate]: the entry of that rate, or the last one when no
    entry has it. *)
Definition selected (rate : Z) (i : nat) : Prop :=
  (exists o : Z, FIR_FILTERS_fields !! i = Some (rate, o)) \/
  (no_entry_for rate /\ i = 5%nat).

(** The channel's filter is a live clone of the table entry [i], with its
    structure in block [n] and its coefficients in block [c]. *)
Definition holds_entry (m : memory F) (ch : channel F) (n c i : nat) : Prop :=
  holds_filter m ch n c /\
  exists f : fir_filter F,
    cloned_entry i = Some f /\ filter_at m (current ch) = Some (Some f).

(** The channel has a delay line of at least [4 * MAX_FILTER_ORDER] slots
    whose cursor is in the last [2 * MAX_FILTER_ORDER] ones. *)
Definition delay_line_ready (ch : channel F) : Prop :=
  exists dl : delay_line F,
    ch_delay_line ch = Some dl /\ cursor_in_range MAX_FILTER_ORDER dl.

(** The channels hold clones of table entries, channel [k] the entry and
    the blocks that [tl] lists at [k], and all the blocks are distinct. *)
Definition channels_hold_entries (m : memory F) (chs : list (channel F))
    (tl : list (nat * nat * nat)) : Prop :=
  Forall2 (fun ch t => holds_entry m ch t.1.1 t.1.2 t.2) chs tl /\
  NoDup (blocks_of (map fst tl)).

(** What [init_fir_filters] establishes and the callbacks keep: there are
    [NUM_CHANNELS] channels, each with a delay line as above and with a
    live clone of a table entry. *)
Definition ready (d : data F) (m : memory F) : Prop :=
  length (channels d) = NUM_CHANNELS /\
  Forall delay_line_ready (channels d) /\
  exists tl : list (nat * nat * nat), channels_hold_entries m (channels d) tl.
End ReadyVocabulary.

(** ** Vocabulary of the blocks of the channels *)

Section LifetimeVocabulary.
Context {F : Type} `{Arith F} `{Coefficients F}.

(** The delay line that a [struct delay_line *] designates, read from the
    structure and its buffer: [Some None] for the null pointer, [None] when
    a pointer dangles. *)
Definition line_at (m : memory F) (p : option addr)
    : option (option (delay_line F)) :=
  match p with
  | None => Some None
  | Some a =>
      match deref m a with
      | Some (ODelayLine (Some b) sz idx) =>
          match deref m b with
          | Some (OFloats buf) => Some (Some (mk_delay_line buf sz idx))
          | _ => None
          end
      | _ => None
      end
  end.

(** The channel with its delay line read from the heap. *)
Definition channel_by_value (m : memory F) (ch : Lifetime.channel)
    : option (channel F) :=
  dl ← line_at m (Lifetime.ch_delay_line ch);
  Some (mk_channel dl (Lifetime.current ch)).

Definition data_by_value (m : memory F) (d : Lifetime.data) : option (data F) :=
  chs ← mapM (channel_by_value m) (Lifetime.channels d);
  Some (mk_data chs (Lifetime.current_rate d)).

(** The four blocks of a channel: the structure of its delay line, the
    buffer, the structure of its filter and the coefficient array. *)
Definition blocks4 (t : nat * nat * nat * nat) : list nat :=
  [t.1.1.1; t.1.1.2; t.1.2; t.2].

(** The channel owns these four blocks, distinct and live. *)
Definition channel_owns (m : memory F) (ch : Lifetime.channel)
    (t : nat * nat * nat * nat) : Prop :=
  NoDup (blocks4 t) /\
  Lifetime.ch_delay_line ch = Some (Dyn t.1.1.1) /\
  (exists sz idx : Z,
     heap m !! t.1.1.1 = Some (ODelayLine (Some (Dyn t.1.1.2)) sz idx)) /\
  is_Some (heap m !! t.1.1.2) /\
  Lifetime.current ch = Some (Dyn t.1.2) /\
  (exists r o : Z, heap m !! t.1.2 = Some (OFilter r (Some (Dyn t.2)) o)) /\
  is_Some (heap m !! t.2).

(** The channels own the blocks that [ts] lists, which are all distinct. *)
Definition channels_own (m : memory F) (chs : list Lifetime.channel)
    (ts : list (nat * nat * nat * nat)) : Prop :=
  Forall2 (channel_owns m) chs ts /\ NoDup (ts ≫= blocks4).
End LifetimeVocabulary.

Section InitialisedVocabulary.
Context {F : Type} `{Arith F} `{Coefficients F}.

(** The channel is as [init_channel] leaves it on success: it owns the
    blocks [t], its delay line is the new line of [size] slots and its
    filter a clone of [FIR_FILTERS[0]]. *)
Definition channel_initialised (size : Z) (m : memory F) (ch : Lifetime.channel)
    (t : nat * nat * nat * nat) : Prop :=
  channel_owns m ch t /\
  line_at m (Lifetime.ch_delay_line ch) = Some (delay_line_init true size) /\
  exists f : fir_filter F,
    cloned_entry 0 = Some f /\
    filter_at m (Lifetime.current ch) = Some (Some f).

(** Both pointers of the channel are null. *)
Definition channel_null (ch : Lifetime.channel) : Prop :=
  Lifetime.ch_delay_line ch = None /\ Lifetime.current ch = None.
End InitialisedVocabulary.

(** ** Vocabulary of successive callbacks *)

(** One call of [on_filter_process]: the position and the blocks that the
    input and the output ports hand out. *)
Definition call (F : Type) : Type :=
  (spa_io_position * list (option (list F)) * list (option (list F)))%type.

Section CallbackVocabulary.
Context {F : Type} `{Arith F} `{Coefficients F}.

(** Successive calls of [on_filter_process]; the result is the last state
    and the output blocks of every call. *)
Fixpoint callbacks (d : data F) (m : memory F) (calls : list (call F))
    : option (data F * memory F * list (list (option (list F)))) :=
  match calls with
  | [] => Some (d, m, [])
  | (pos, inputs, outputs) :: rest =>
      '(d1, m1, outs) ← on_filter_process d m (Some pos) inputs outputs;
      '(d2, m2, later) ← callbacks d1 m1 rest;
      Some (d2, m2, outs :: later)
  end.

(** The input blocks of a call. *)
Definition inputs_of (c : call F) : list (option (list F)) := c.1.2.

(** The samples of channel [c] in the blocks of one call, and in the blocks
    of successive calls put end to end. *)
Definition channel_block (c : nat) (blocks : list (option (list F))) : list F :=
  match blocks !! c with
  | Some (Some l) => l
  | _ => []
  end.

Definition channel_stream (c : nat) (blocks : list (list (option (list F))))
    : list F :=
  concat (map (channel_block c) blocks).

(** A call at the rate [rate] with between 1 and [cmax] samples and, for
    every channel, an input and an output block of that many samples. *)
Definition steady_call (rate cmax : Z) (c : call F) : Prop :=
  clock_rate_denom c.1.1 = rate /\
  1 <= clock_duration c.1.1 <= cmax /\
  length c.1.2 = NUM_CHANNELS /\ length c.2 = NUM_CHANNELS /\
  Forall (fun b : option (list F) =>
            exists l : list F,
              b = Some l /\ Z.of_nat (length l) = clock_duration c.1.1)
         (c.1.2 ++ c.2).

(** The channel's filter is [f] and its delay line, of [sz] slots, holds
    the stream [xs]. *)
Definition channel_tracks (m : memory F) (f : fir_filter F) (sz beta : Z)
    (ch : channel F) (xs : list F) : Prop :=
  filter_at m (current ch) = Some (Some f) /\
  exists dl : delay_line F,
    ch_delay_line ch = Some dl /\ size dl = sz /\
    ring_invariant sz (order f * 2) beta xs (buffer dl) (index dl).
End CallbackVocabulary.

(** The format is one that [on_filter_param_changed] acts on. *)
Definition accepted_format (p : format_param) : Prop :=
  id_is_format p = true /\ 0 <= format_parse p /\
  media_is_raw_audio p = true /\ 0 <= raw_parse p.

(** ** The scenario of the specification

    One table entry of order 3 with the coefficients 0.1, 0.2, 0.3, 0.4, and
    a delay line sized as [init_fir_filters] does, four times the largest
    order. *)

Module Scenario.
Import Binary32.

Definition taps : list Binary32.t := [lit 1 10; lit 2 10; lit 3 10; lit 4 10].
Definition filter : fir_filter Binary32.t := mk_fir_filter 48000 taps 3.
Definition fresh : option (delay_line Binary32.t) := delay_line_init true (3 * 4).
Definition blocks : list (list Binary32.t) := [[one]; [zero]; [zero]; [zero]].

(** The outputs of the four quanta. *)
Definition outputs : option (list (list Binary32.t)) :=
  d ← fresh; snd <$> quanta filter d blocks.

(** The delay line after the first quantum of the scenario. *)
Definition after_impulse : delay_line Binary32.t :=
  mk_delay_line (<[5%nat := one]> (<[11%nat := one]> (replicate 12 zero))) 12 6.

(** A heap in which the filter of the scenario, with its four
    coefficients, is block 0 and its coefficient array block 1. *)
Definition heap_with_filter : memory Binary32.t :=
  mk_memory (<[0%nat := OFilter 48000 (Some (Dyn 1)) 3]>
               (<[1%nat := OFloats taps]> ∅)) [].

(** The same heap when no allocation can be served. *)
Definition exhausted_heap : memory Binary32.t :=
  mk_memory (heap heap_with_filter) [false; false].

(** A channel that owns that filter. *)
Definition a_channel : channel Binary32.t := mk_channel fresh (Some (Dyn 0)).
End Scenario.

(** Coefficient arrays of the recorded orders, as a stand-in for the arrays
    of the build. *)
#[export] Instance flat_arrays : Coefficients Binary32.t := {|
  FIR_COEFF_44100 := replicate (Z.to_nat 4095) Binary32.one;
  FIR_COEFF_88200 := replicate (Z.to_nat 8191) Binary32.one;
  FIR_COEFF_176400 := replicate (Z.to_nat 16383) Binary32.one;
  FIR_COEFF_48000 := replicate (Z.to_nat 4095) Binary32.one;
  FIR_COEFF_96000 := replicate (Z.to_nat 8191) Binary32.one;
  FIR_COEFF_192000 := replicate (Z.to_nat 16383) Binary32.one
|}.

(** The state that [main] starts from: the heap is empty, every allocation
    is served, and [init_fir_filters] runs on the zeroed [data]. *)
Definition empty_memory : memory Binary32.t := mk_memory ∅ [].

Definition started : option (Z * data Binary32.t * memory Binary32.t) :=
  init_fir_filters [] (mk_data [] 0) empty_memory.

(** The heap of the scenario when the next four allocations are refused. *)
Definition starved_memory : memory Binary32.t :=
  mk_memory (heap Scenario.heap_with_filter) (replicate 4 false).



(** A swap between filters of different orders, on a delay line of four
    times the larger order: a filter of order 1 is replaced by one of
    order 4. *)
Module SwapScenario.
Import Binary32.

Definition two : t := of_Z 2.
Definition three : t := of_Z 3.
Definition order1 : fir_filter t := mk_fir_filter 48000 [one] 1.
Definition order4 : fir_filter t := mk_fir_filter 96000 [one; one; one; one] 4.

(** The heap after the swap: block 0 is the filter of order 4. *)
Definition heap_after : memory t :=
  mk_memory (<[0%nat := OFilter 96000 (Some (Dyn 1)) 4]>
               (<[1%nat := OFloats [one; one; one; one]]> ∅)) [].
End SwapScenario.

(** A swap of the program between table entries of different orders, on the
    delay line of [init_fir_filters]: the samples 1 and 2 are processed, one
    per quantum, with a filter of order 4095 (block 0 of
    [heap_with_long_filter]); [update_channel_filter] for 88200 Hz installs
    a clone of the entry of that rate; the sample 3 is processed next. *)
Module RateChange.
Import Binary32.


End RateChange.

(** The zeroed [data] that [main] starts from, with its channels as
    pointers. *)
Definition zeroed_data : Lifetime.data :=
  Lifetime.mk_data (replicate NUM_CHANNELS (Lifetime.mk_channel None None)) 0.

(** The empty heap when the sixth allocation is refused: the buffer of the
    second delay line. *)
Definition sixth_refused : memory Binary32.t :=
  mk_memory ∅ [true; true; true; true; true; false].

(** Two channels that own their blocks: delay lines of twelve slots in the
    blocks 0, 1 and 4, 5, and the filter of the scenario in the blocks 2, 3
    and 6, 7. *)
Module OwnedScenario.
Import Binary32.

Definition line : object t := OFloats (replicate 12 zero).

Definition heap_of_two : memory t :=
  mk_memory
    (<[0%nat := ODelayLine (Some (Dyn 1)) 12 11]>
       (<[1%nat := line]>
          (<[2%nat := OFilter 48000 (Some (Dyn 3)) 3]>
             (<[3%nat := OFloats Scenario.taps]>
                (<[4%nat := ODelayLine (Some (Dyn 5)) 12 11]>
                   (<[5%nat := line]>
                      (<[6%nat := OFilter 48000 (Some (Dyn 7)) 3]>
                         (<[7%nat := OFloats Scenario.taps]> ∅)))))))) [].

Definition two_channels : Lifetime.data :=
  Lifetime.mk_data [Lifetime.mk_channel (Some (Dyn 0)) (Some (Dyn 2));
                    Lifetime.mk_channel (Some (Dyn 4)) (Some (Dyn 6))] 48000.

Definition blocks : list (nat * nat * nat * nat) :=
  [(0, 1, 2, 3); (4, 5, 6, 7)]%nat.
End OwnedScenario.

(** * Properties *)

(** ** Loads, stores and the scalar kernel *)

Section FirFacts.
Context {F : Type} `{Arith F}.

Lemma store_Some (a : list F) (off : Z) (x : F) :
  0 <= off < Z.of_nat (length a) ->
  store a off x = Some (<[Z.to_nat off := x]> a).
Proof.
  intros Hoff. unfold store.
  destruct (0 <=? off) eqn:E1; [|lia].
  destruct (off <? Z.of_nat (length a)) eqn:E2; [|lia].
  reflexivity.
Qed.

Lemma store_inv (a a' : list F) (off : Z) (x : F) :
  store a off x = Some a' ->
  0 <= off < Z.of_nat (length a) /\ a' = <[Z.to_nat off := x]> a.
Proof.
  unfold store.
  destruct (0 <=? off) eqn:E1; destruct (off <? Z.of_nat (length a)) eqn:E2;
    simpl; intros Heq; inversion Heq; subst. split; [lia|reflexivity].
Qed.

Lemma rd_lookup (a : list F) (i : nat) (x : F) :
  a !! i = Some x -> rd a i = x.
Proof. unfold rd. intros ->. reflexivity. Qed.

Lemma rd_drop (a : list F) (k i : nat) : rd (drop k a) i = rd a (k + i).
Proof. unfold rd. rewrite lookup_drop. reflexivity. Qed.

Lemma fold_left_seq_S {A : Type} (g : A -> nat -> A) (n : nat) (a : A) :
  fold_left g (seq 0 (S n)) a = g (fold_left g (seq 0 n) a) n.
Proof. rewrite seq_S, fold_left_app. reflexivity. Qed.

Lemma scalar_sum_sigma (len : nat) (coeff samples : list F) (i : nat) :
  scalar_sum len coeff samples i
  = sigma len (fun j => fmul (rd coeff j) (rd samples (i + j))).
Proof.
  unfold scalar_sum. induction len as [|len IH]; [reflexivity|].
  rewrite fold_left_seq_S, IH. reflexivity.
Qed.

(** A loop that stores [g i] at [out[i]] for [i = 0 .. n-1]. *)
Lemma store_loop (g : nat -> F) (n : nat) (out : list F) :
  (n <= length out)%nat ->
  fold_left (fun o i => <[i := g i]> o) (seq 0 n) out
  = map g (seq 0 n) ++ drop n out.
Proof.
  induction n as [|n IH]; intros Hn; [rewrite drop_0; reflexivity|].
  rewrite fold_left_seq_S, IH by lia.
  rewrite seq_S, map_app. simpl.
  assert (Hlen : length (map g (seq 0 n)) = n)
    by (rewrite length_map, length_seq; reflexivity).
  rewrite insert_app_r_alt by lia. rewrite Hlen, Nat.sub_diag.
  destruct (drop n out) as [|y tl] eqn:Hd.
  - apply (f_equal length) in Hd. rewrite length_drop in Hd. simpl in Hd. lia.
  - simpl. rewrite <- app_assoc. simpl.
    replace (drop (S n) out) with tl; [reflexivity|].
    rewrite <- (Nat.add_1_r n), <- drop_drop, Hd. reflexivity.
Qed.

Lemma fir_filter_apply_scalar_eq (len : Z) (coeff : list F) (count : Z)
    (samples out : list F) :
  count <= Z.of_nat (length out) ->
  fir_filter_apply_scalar len coeff count samples out
  = map (scalar_sum (Z.to_nat len) coeff samples) (seq 0 (Z.to_nat count))
    ++ drop (Z.to_nat count) out.
Proof. intros Hc. unfold fir_filter_apply_scalar. apply store_loop. lia. Qed.

Lemma lookup_map_seq (g : nat -> F) (n i : nat) :
  (i < n)%nat -> map g (seq 0 n) !! i = Some (g i).
Proof.
  intros Hi. rewrite list_lookup_fmap, lookup_seq_lt by lia. reflexivity.
Qed.
End FirFacts.

(** ** Invalid arguments and the output of the scalar build *)

Section Apply.
Context {F : Type} `{Arith F}.

(** C8. With a null pointer among the arguments or [count <= 0],
    [fir_filter_apply] returns with the output block as it was and
    [delay_line_append_samples] returns with the delay line as it was;
    neither call is undefined. *)
Theorem invalid_arguments_are_noops
    (filter : option (fir_filter F)) (dl : option (delay_line F))
    (samples output : option (list F)) (count : Z) :
  (filter = None \/ dl = None \/ output = None \/ count <= 0 ->
     fir_filter_apply filter dl count output = Some output) /\
  (filter = None \/ dl = None \/ samples = None \/ count <= 0 ->
     delay_line_append_samples filter dl samples count = Some dl).
Proof.
  split.
  - intros Hbad. unfold fir_filter_apply.
    destruct filter as [f|]; [|reflexivity].
    destruct dl as [d|]; [|reflexivity].
    destruct output as [out|]; [|reflexivity].
    destruct (count <=? 0) eqn:Hc; [reflexivity|].
    destruct Hbad as [Hb|[Hb|[Hb|Hb]]]; try discriminate. lia.
  - intros Hbad. unfold delay_line_append_samples.
    destruct filter as [f|]; [|reflexivity].
    destruct dl as [d|]; [|reflexivity].
    destruct samples as [s|]; [|reflexivity].
    destruct (count <=? 0) eqn:Hc; [reflexivity|].
    destruct Hbad as [Hb|[Hb|[Hb|Hb]]]; try discriminate. lia.
Qed.

(** A call of [fir_filter_apply] with every access inside its array. *)
Lemma fir_filter_apply_result
    (f : fir_filter F) (d : delay_line F) (count : Z) (out : list F) :
  0 < count ->
  0 <= order f <= Z.of_nat (length (coeffs f)) ->
  0 <= index d - order f - count ->
  index d <= Z.of_nat (length (buffer d)) ->
  count <= Z.of_nat (length out) ->
  count + order f <= INT_MAX ->
  fir_filter_apply (Some f) (Some d) count (Some out)
  = Some (Some (map (scalar_sum (Z.to_nat (order f)) (coeffs f) (kernel_window f d count))
                    (seq 0 (Z.to_nat count))
                ++ drop (Z.to_nat count) out)).
Proof.
  intros Hc Ho Hs Hi Hout Hint.
  assert (Hlenw : length (kernel_window f d count)
                  = (length (buffer d) - Z.to_nat (index d - order f - count))%nat)
    by (unfold kernel_window; apply length_drop).
  unfold fir_filter_apply.
  destruct (count <=? 0) eqn:E0; [lia|].
  destruct (0 <=? index d - order f - count) eqn:E1; [|lia].
  destruct (index d - order f - count <=? Z.of_nat (length (buffer d))) eqn:E2; [|lia].
  cbn [andb]. fold (kernel_window f d count).
  assert (Hk : kernel_in_bounds (order f) (coeffs f) count
                 (kernel_window f d count) out = true).
  { unfold kernel_in_bounds, int_ok, INT_MIN. unfold INT_MAX in Hint.
    rewrite Hlenw.
    destruct (count <=? Z.of_nat (length out)) eqn:E3; [|lia].
    destruct (order f <=? 0) eqn:E4; [reflexivity|].
    destruct (order f <=? Z.of_nat (length (coeffs f))) eqn:E5; [|lia].
    cbn [andb orb]. unfold INT_MAX.
    repeat (apply andb_true_intro; split); apply Z.leb_le; lia. }
  rewrite Hk, fir_filter_apply_scalar_eq by lia. reflexivity.
Qed.

(** C2, as the code has it.  For a call with non-null arguments, [count > 0]
    and every access inside its array, [output[i]] for [i < count] is the
    sum over [j] from [0] to [order - 1] ([order] terms) of
    [coeff[j] * window[i + j]], accumulated from [j = 0] upwards, where
    [window] starts at [buffer + index - order - count]; the rest of the
    output block is untouched. *)
Theorem fir_filter_apply_output
    (f : fir_filter F) (d : delay_line F) (count : Z) (out : list F) :
  0 < count ->
  0 <= order f <= Z.of_nat (length (coeffs f)) ->
  0 <= index d - order f - count ->
  index d <= Z.of_nat (length (buffer d)) ->
  count <= Z.of_nat (length out) ->
  count + order f <= INT_MAX ->
  exists out',
    fir_filter_apply (Some f) (Some d) count (Some out) = Some (Some out') /\
    length out' = length out /\
    (forall i : nat, Z.of_nat i < count ->
       out' !! i = Some (sigma (Z.to_nat (order f))
                           (fun j => fmul (rd (coeffs f) j)
                                          (rd (kernel_window f d count) (i + j))))) /\
    (forall i : nat, count <= Z.of_nat i -> out' !! i = out !! i).
Proof.
  intros Hc Ho Hs Hi Hout Hint.
  eexists. split; [apply fir_filter_apply_result; assumption|].
  split; [|split].
  - rewrite length_app, length_map, length_seq, length_drop. lia.
  - intros i Hi'.
    rewrite lookup_app_l by (rewrite length_map, length_seq; lia).
    rewrite lookup_map_seq by lia. rewrite scalar_sum_sigma. reflexivity.
  - intros i Hi'.
    rewrite lookup_app_r by (rewrite length_map, length_seq; lia).
    rewrite length_map, length_seq, lookup_drop. f_equal. lia.
Qed.
End Apply.

(** ** The specification's scenario on binary32 *)

Section ScenarioFacts.
Import Binary32 Scenario.

Lemma scenario_outputs :
  outputs = Some [[zero]; [lit 3 10]; [lit 2 10]; [lit 1 10]].
Proof. vm_compute. reflexivity. Qed.

Lemma after_impulse_reached :
  (d ← fresh; fst <$> quantum filter d [one]) = Some after_impulse.
Proof. vm_compute. reflexivity. Qed.
End ScenarioFacts.

Lemma invalid_arguments_are_noops_witness :
  fir_filter_apply (Some Scenario.filter) (Some Scenario.after_impulse) 0
                   (Some [Binary32.one]) = Some (Some [Binary32.one]) /\
  delay_line_append_samples (Some Scenario.filter) (Some Scenario.after_impulse)
                            None 1 = Some (Some Scenario.after_impulse).
Proof.
  destruct (invalid_arguments_are_noops (Some Scenario.filter)
              (Some Scenario.after_impulse) None (Some [Binary32.one]) 0) as [Ha _].
  destruct (invalid_arguments_are_noops (Some Scenario.filter)
              (Some Scenario.after_impulse) None (Some [Binary32.one]) 1) as [_ Hb].
  split.
  - apply Ha. right. right. right. lia.
  - apply Hb. right. right. left. reflexivity.
Defined.

Lemma fir_filter_apply_output_witness :
  exists out',
    fir_filter_apply (Some Scenario.filter) (Some Scenario.after_impulse) 1
                     (Some [Binary32.zero]) = Some (Some out') /\
    length out' = 1%nat /\
    (forall i : nat, Z.of_nat i < 1 ->
       out' !! i = Some (sigma 3 (fun j => fmul (rd Scenario.taps j)
                     (rd (kernel_window Scenario.filter Scenario.after_impulse 1) (i + j))))) /\
    (forall i : nat, 1 <= Z.of_nat i -> out' !! i = [Binary32.zero] !! i).
Proof.
  apply (fir_filter_apply_output Scenario.filter Scenario.after_impulse 1 [Binary32.zero]);
    vm_compute; try split; congruence.
Defined.

(** C2 as stated fails: in the first quantum of the scenario the code
    writes 0, the sum of three products, while the sum of [order + 1 = 4]
    products over the same window is 0.4. *)
Lemma order_plus_one_terms_counterexample :
  fir_filter_apply (Some Scenario.filter) (Some Scenario.after_impulse) 1
                   (Some [Binary32.zero]) = Some (Some [Binary32.zero]) /\
  claimed_tap_sum Scenario.filter Scenario.after_impulse 1 0 = Binary32.lit 4 10 /\
  Binary32.zero <> Binary32.lit 4 10.
Proof. vm_compute. repeat split; congruence. Qed.

(** ** The allocator and [fir_filter_clone] *)

Section HeapFacts.
Context {F : Type} `{Arith F} `{Coefficients F}.

Lemma malloc_cases (bytes : Z) (init : object F) (m : memory F) :
  oracle (malloc bytes init m).2 = drop 1 (oracle m) /\
  ((malloc bytes init m).1 = None /\ heap (malloc bytes init m).2 = heap m \/
   exists n, (malloc bytes init m).1 = Some n /\ heap m !! n = None /\
             heap (malloc bytes init m).2 = <[n := init]> (heap m)).
Proof.
  unfold malloc.
  destruct (oracle m) as [|b rest]; simpl.
  - destruct (bytes <=? PTRDIFF_MAX); simpl; split; try reflexivity.
    + right. eexists. split; [reflexivity|]. split; [|reflexivity].
      apply not_elem_of_dom, is_fresh.
    + left. split; reflexivity.
  - destruct (b && (bytes <=? PTRDIFF_MAX)); simpl; split; try reflexivity.
    + right. eexists. split; [reflexivity|]. split; [|reflexivity].
      apply not_elem_of_dom, is_fresh.
    + left. split; reflexivity.
Qed.

Lemma allocations_succeed_S (k : nat) (m : memory F) :
  allocations_succeed (S k) m ->
  (oracle m = [] \/ exists rest, oracle m = true :: rest) /\
  forallb (fun b : bool => b) (take k (drop 1 (oracle m))) = true.
Proof.
  unfold allocations_succeed. destruct (oracle m) as [|b rest]; simpl.
  - intros _. split; [left; reflexivity|]. destruct k; reflexivity.
  - destruct b; simpl; [|discriminate]. intros Hr.
    split; [right; eexists; reflexivity|]. rewrite drop_0. exact Hr.
Qed.

Lemma malloc_succeeds (k : nat) (bytes : Z) (init : object F) (m : memory F) :
  allocations_succeed (S k) m ->
  bytes <= PTRDIFF_MAX ->
  exists n, heap m !! n = None /\
    malloc bytes init m
    = (Some n, mk_memory (<[n := init]> (heap m)) (drop 1 (oracle m))) /\
    allocations_succeed k (mk_memory (<[n := init]> (heap m)) (drop 1 (oracle m))).
Proof.
  intros Hk Hb. apply allocations_succeed_S in Hk as [Ho Hrest].
  exists (fresh (dom (heap m))).
  split; [apply not_elem_of_dom, is_fresh|]. split; [|exact Hrest].
  unfold malloc.
  assert (Hle : (bytes <=? PTRDIFF_MAX) = true) by (apply Z.leb_le; lia).
  destruct Ho as [Ho|[rest Ho]]; rewrite Ho; simpl; rewrite Hle; reflexivity.
Qed.

Lemma deref_static_filter (m : memory F) (i : nat) (r o : Z) :
  FIR_FILTERS_fields !! i = Some (r, o) ->
  deref m (StaticFilter i) = Some (OFilter r (Some (StaticCoeffs i)) o).
Proof. intros Hi. simpl. unfold FIR_FILTERS. rewrite Hi. reflexivity. Qed.

Lemma FIR_COEFF_is_Some (i : nat) (r o : Z) :
  FIR_FILTERS_fields !! i = Some (r, o) -> is_Some (FIR_COEFF i).
Proof.
  intros Hi. apply lookup_lt_Some in Hi. simpl in Hi.
  unfold FIR_COEFF. apply lookup_lt_is_Some. simpl. lia.
Qed.

Lemma floats_at_static (m : memory F) (i : nat) (l : list F) :
  FIR_COEFF i = Some l -> floats_at m (Some (StaticCoeffs i)) = l.
Proof. intros Hl. unfold floats_at. simpl. rewrite Hl. reflexivity. Qed.

(** What a call of [fir_filter_clone] on a readable filter can do: fail
    and leave the heap as it was, or add two new blocks. *)
Lemma fir_filter_clone_inv (a : addr) (m m' : memory F) (res : option addr) :
  fir_filter_clone (Some a) m = Some (res, m') ->
  (res = None /\ heap m' = heap m) \/
  (exists (nf cc : nat) (r o : Z) (c : option addr),
      res = Some (Dyn nf) /\ nf <> cc /\
      deref m a = Some (OFilter r c o) /\
      heap m !! nf = None /\ heap m !! cc = None /\
      heap m' = <[nf := OFilter r (Some (Dyn cc)) o]>
                  (<[cc := OFloats (take (Z.to_nat o) (floats_at m c))]> (heap m))).
Proof.
  unfold fir_filter_clone.
  destruct (malloc_cases SIZEOF_FIR_FILTER (OFilter 0 None 0) m) as [_ Hm1].
  destruct (malloc SIZEOF_FIR_FILTER (OFilter 0 None 0) m) as [new_filter m1].
  simpl in Hm1.
  destruct Hm1 as [[-> Hh1]|[nf [-> [Hnf Hh1]]]].
  { intros Heq. inversion Heq; subst. left. split; [reflexivity|exact Hh1]. }
  destruct (deref m a) as [[l|r c o|lb ls li]|]; try discriminate.
  destruct (malloc_cases (to_size_t (SIZEOF_FLOAT * o))
              (OFloats (replicate (Z.to_nat o) fzero)) m1) as [_ Hm2].
  destruct (malloc (to_size_t (SIZEOF_FLOAT * o))
              (OFloats (replicate (Z.to_nat o) fzero)) m1) as [coeffs_copy m2].
  simpl in Hm2.
  destruct Hm2 as [[-> Hh2]|[cc [-> [Hcc Hh2]]]].
  - unfold free. rewrite Hh2, Hh1, lookup_insert_eq. simpl.
    intros Heq. inversion Heq; subst. left. split; [reflexivity|]. simpl.
    apply delete_insert_id. exact Hnf.
  - destruct ((0 <? o) && (Z.of_nat (length (floats_at m c)) <? o)); [discriminate|].
    intros Heq. inversion Heq; subst. right.
    rewrite Hh1 in Hcc.
    assert (Hne : nf <> cc).
    { intros ->. rewrite lookup_insert_eq in Hcc. discriminate. }
    rewrite lookup_insert_ne in Hcc by exact Hne.
    exists nf, cc, r, o, c. repeat split; try assumption.
    simpl. rewrite Hh2, Hh1.
    rewrite insert_insert_eq.
    rewrite (insert_insert_ne _ cc nf) by congruence.
    rewrite insert_insert_eq. reflexivity.
Qed.
End HeapFacts.

Section CloneFacts.
Context {F : Type} `{Arith F} `{Coefficients F}.

Lemma fir_filter_clone_succeeds (k : nat) (m : memory F) (a : addr)
    (r o : Z) (c : option addr) :
  deref m a = Some (OFilter r c o) ->
  0 <= o <= INT_MAX ->
  o <= Z.of_nat (length (floats_at m c)) ->
  allocations_succeed (S (S k)) m ->
  exists (nf cc : nat) (m' : memory F),
    fir_filter_clone (Some a) m = Some (Some (Dyn nf), m') /\
    nf <> cc /\ heap m !! nf = None /\ heap m !! cc = None /\
    heap m' = <[nf := OFilter r (Some (Dyn cc)) o]>
                (<[cc := OFloats (take (Z.to_nat o) (floats_at m c))]> (heap m)) /\
    allocations_succeed k m'.
Proof.
  intros Ha Ho Hlen Hk. unfold fir_filter_clone.
  destruct (malloc_succeeds (S k) SIZEOF_FIR_FILTER (OFilter 0 None 0) m Hk)
    as [nf [Hnf [-> Hk1]]]; [unfold SIZEOF_FIR_FILTER, PTRDIFF_MAX; lia|].
  rewrite Ha.
  assert (Hbytes : to_size_t (SIZEOF_FLOAT * o) = 4 * o).
  { unfold to_size_t, SIZEOF_FLOAT, SIZE_MAX. unfold INT_MAX in Ho.
    apply Z.mod_small. lia. }
  rewrite Hbytes.
  destruct (malloc_succeeds k (4 * o) (OFloats (replicate (Z.to_nat o) fzero)) _ Hk1)
    as [cc [Hcc [-> Hk2]]]; [unfold PTRDIFF_MAX; unfold INT_MAX in Ho; lia|].
  simpl in Hcc.
  assert (Hne : nf <> cc).
  { intros ->. rewrite lookup_insert_eq in Hcc. discriminate. }
  rewrite lookup_insert_ne in Hcc by exact Hne.
  destruct (Z.of_nat (length (floats_at m c)) <? o) eqn:E; [lia|].
  rewrite andb_false_r.
  eexists nf, cc, _. split; [reflexivity|].
  repeat split; try assumption.
  simpl. rewrite insert_insert_eq.
  rewrite (insert_insert_ne _ cc nf) by congruence.
  rewrite insert_insert_eq. reflexivity.
Qed.

Lemma filter_at_clone (m m' : memory F) (nf cc : nat) (r o : Z) (l : list F) :
  nf <> cc ->
  heap m' = <[nf := OFilter r (Some (Dyn cc)) o]> (<[cc := OFloats l]> (heap m)) ->
  filter_at m' (Some (Dyn nf)) = Some (Some (mk_fir_filter r l o)).
Proof.
  intros Hne Hh. unfold filter_at, floats_at. simpl.
  rewrite Hh, lookup_insert_eq. simpl.
  rewrite Hh, lookup_insert_ne, lookup_insert_eq by congruence.
  reflexivity.
Qed.

(** C7, as the code has it.  A clone of a readable filter of order
    [o >= 0], when both allocations succeed, is a new structure with the
    rate and the order of the original whose coefficient array is a new
    block holding the first [o] coefficients of the original ([o], not
    [o + 1]); every block that was live keeps its contents, also when the
    clone's array is overwritten afterwards, and freeing the clone gives
    back the heap of before the call. *)
Theorem fir_filter_clone_copies_order_taps (m : memory F) (a : addr)
    (r o : Z) (c : option addr) :
  deref m a = Some (OFilter r c o) ->
  0 <= o <= INT_MAX ->
  o <= Z.of_nat (length (floats_at m c)) ->
  allocations_succeed 2 m ->
  exists (nf cc : nat) (m' : memory F),
    fir_filter_clone (Some a) m = Some (Some (Dyn nf), m') /\
    heap m !! nf = None /\ heap m !! cc = None /\ nf <> cc /\
    heap m' !! nf = Some (OFilter r (Some (Dyn cc)) o) /\
    heap m' !! cc = Some (OFloats (take (Z.to_nat o) (floats_at m c))) /\
    filter_at m' (Some (Dyn nf))
      = Some (Some (mk_fir_filter r (take (Z.to_nat o) (floats_at m c)) o)) /\
    (forall b : nat, is_Some (heap m !! b) -> heap m' !! b = heap m !! b) /\
    (forall (x : object F) (b : nat), is_Some (heap m !! b) ->
       heap (write_block cc x m') !! b = heap m !! b) /\
    (exists m'' : memory F,
       fir_filter_free (Some (Dyn nf)) m' = Some m'' /\ heap m'' = heap m).
Proof.
  intros Ha Ho Hlen Hk.
  destruct (fir_filter_clone_succeeds 0 m a r o c Ha Ho Hlen Hk)
    as [nf [cc [m' [Hcl [Hne [Hnf [Hcc [Hh _]]]]]]]].
  exists nf, cc, m'. split; [exact Hcl|].
  assert (Hold : forall b : nat, is_Some (heap m !! b) -> b <> nf /\ b <> cc).
  { intros b [x Hb]. split; intros ->; congruence. }
  repeat split; try assumption.
  - rewrite Hh, lookup_insert_eq. reflexivity.
  - rewrite Hh, lookup_insert_ne, lookup_insert_eq by congruence. reflexivity.
  - eapply filter_at_clone; eassumption.
  - intros b Hb. destruct (Hold b Hb) as [H1 H2].
    rewrite Hh, !lookup_insert_ne by congruence. reflexivity.
  - intros x b Hb. destruct (Hold b Hb) as [H1 H2]. simpl.
    rewrite Hh, !lookup_insert_ne by congruence. reflexivity.
  - unfold fir_filter_free, free. simpl.
    rewrite Hh, lookup_insert_eq. simpl.
    rewrite lookup_insert_ne, lookup_insert_eq by congruence. simpl.
    rewrite lookup_delete_ne, lookup_insert_eq by congruence.
    eexists. split; [reflexivity|]. simpl.
    rewrite delete_insert_ne by congruence.
    rewrite (delete_insert_id _ cc) by exact Hcc.
    rewrite delete_insert_id by exact Hnf. reflexivity.
Qed.
End CloneFacts.

(** ** [update_channel_filter] *)

Section UpdateFacts.
Context {F : Type} `{Arith F} `{Coefficients F}.

Lemma table_order_range (i : nat) (r o : Z) :
  FIR_FILTERS_fields !! i = Some (r, o) -> 0 <= o <= INT_MAX.
Proof.
  unfold INT_MAX. intros Hi.
  do 6 (destruct i as [|i]; [simpl in Hi; inversion Hi; subst; lia|]).
  simpl in Hi. discriminate.
Qed.

Lemma table_rates_distinct (i j : nat) (r o o' : Z) :
  FIR_FILTERS_fields !! i = Some (r, o) ->
  FIR_FILTERS_fields !! j = Some (r, o') -> i = j.
Proof.
  intros Hi Hj.
  do 6 (destruct i as [|i];
        [simpl in Hi; inversion Hi; subst;
         do 6 (destruct j as [|j]; [simpl in Hj; inversion Hj; reflexivity|]);
         simpl in Hj; discriminate|]).
  simpl in Hi. discriminate.
Qed.

Lemma rate_in_table_or_not (rate : Z) :
  (exists (i : nat) (o : Z), FIR_FILTERS_fields !! i = Some (rate, o)) \/
  no_entry_for rate.
Proof.
  destruct (decide (rate = 44100)) as [->|H1]; [left; exists 0%nat; eexists; reflexivity|].
  destruct (decide (rate = 88200)) as [->|H2]; [left; exists 1%nat; eexists; reflexivity|].
  destruct (decide (rate = 176400)) as [->|H3]; [left; exists 2%nat; eexists; reflexivity|].
  destruct (decide (rate = 48000)) as [->|H4]; [left; exists 3%nat; eexists; reflexivity|].
  destruct (decide (rate = 96000)) as [->|H5]; [left; exists 4%nat; eexists; reflexivity|].
  destruct (decide (rate = 192000)) as [->|H6]; [left; exists 5%nat; eexists; reflexivity|].
  right. intros j r o Hj.
  do 6 (destruct j as [|j]; [simpl in Hj; inversion Hj; subst; congruence|]).
  simpl in Hj. discriminate.
Qed.

Lemma clone_matching_match (i : nat) (rate o : Z) (m : memory F) :
  FIR_FILTERS_fields !! i = Some (rate, o) ->
  clone_matching (seq 0 6) rate m = fir_filter_clone (Some (StaticFilter i)) m.
Proof.
  intros Hi.
  do 6 (destruct i as [|i]; [simpl in Hi; inversion Hi; subst; reflexivity|]).
  simpl in Hi. discriminate.
Qed.

Lemma clone_matching_skips (idxs : list nat) (rate : Z) (m : memory F) :
  Forall (fun i => is_Some (FIR_FILTERS_fields !! i)) idxs ->
  no_entry_for rate -> clone_matching idxs rate m = Some (None, m).
Proof.
  intros Hall Hno. induction Hall as [|i rest [[r o] Hi] _ IH]; [reflexivity|].
  cbn [clone_matching]. rewrite Hi.
  destruct (Z.eqb_spec rate r) as [->|_]; [|exact IH].
  exfalso. exact (Hno i r o Hi eq_refl).
Qed.

Lemma clone_matching_no_match (rate : Z) (m : memory F) :
  no_entry_for rate -> clone_matching (seq 0 6) rate m = Some (None, m).
Proof.
  apply clone_matching_skips.
  repeat constructor; eexists; reflexivity.
Qed.

(** A clone of a table entry is never undefined: it fails and leaves the
    heap as it was, or it adds the clone. *)
Lemma clone_static_cases (i : nat) (r o : Z) (m : memory F) :
  table_arrays_cover_orders ->
  FIR_FILTERS_fields !! i = Some (r, o) ->
  exists (res : option addr) (m1 : memory F),
    fir_filter_clone (Some (StaticFilter i)) m = Some (res, m1) /\
    ((res = None /\ heap m1 = heap m) \/ is_clone_of (heap m) (heap m1) res i).
Proof.
  intros Htab Hi.
  destruct (FIR_COEFF_is_Some i r o Hi) as [l Hl].
  pose proof (Htab i r o l Hi Hl) as Hlen.
  pose proof (table_order_range i r o Hi) as Ho.
  assert (Hdef : is_Some (fir_filter_clone (Some (StaticFilter i)) m)).
  { unfold fir_filter_clone.
    destruct (malloc_cases SIZEOF_FIR_FILTER (OFilter 0 None 0) m) as [_ Hm1].
    destruct (malloc SIZEOF_FIR_FILTER (OFilter 0 None 0) m) as [new_filter m1].
    simpl in Hm1. destruct Hm1 as [[-> Hh1]|[nf [-> [Hnf Hh1]]]]; [eexists; reflexivity|].
    rewrite (deref_static_filter m i r o Hi).
    destruct (malloc_cases (to_size_t (SIZEOF_FLOAT * o))
                (OFloats (replicate (Z.to_nat o) fzero)) m1) as [_ Hm2].
    destruct (malloc (to_size_t (SIZEOF_FLOAT * o))
                (OFloats (replicate (Z.to_nat o) fzero)) m1) as [coeffs_copy m2].
    simpl in Hm2. destruct Hm2 as [[-> Hh2]|[cc [-> [Hcc Hh2]]]].
    - unfold free. rewrite Hh2, Hh1, lookup_insert_eq. eexists; reflexivity.
    - rewrite (floats_at_static m i l Hl).
      destruct (Z.of_nat (length l) <? o) eqn:E; [lia|].
      rewrite andb_false_r. eexists; reflexivity. }
  destruct Hdef as [[res m1] Hcl]. exists res, m1. split; [exact Hcl|].
  destruct (fir_filter_clone_inv _ _ _ _ Hcl)
    as [Hfail|[nf [cc [r' [o' [c [-> [Hne [Hd [Hnf [Hcc Hh]]]]]]]]]]];
    [left; exact Hfail|].
  right. rewrite (deref_static_filter m i r o Hi) in Hd.
  inversion Hd; subst. rewrite (floats_at_static m i l Hl) in Hh.
  exists nf, cc, r', o', l. repeat split; assumption.
Qed.
End UpdateFacts.

Section InstallFacts.
Context {F : Type} `{Arith F} `{Coefficients F}.

#[local] Arguments fir_filter_clone : simpl never.
#[local] Arguments fir_filter_free : simpl never.
#[local] Arguments clone_matching : simpl never.

(** Releasing the filter a channel owned, after a clone has been added to
    the heap, leaves the clone in place. *)
Lemma install_clone (ch : channel F) (m m2 : memory F) (res : option addr) (i : nat) :
  owns_filter m (current ch) ->
  is_clone_of (heap m) (heap m2) res i ->
  exists (m3 : memory F) (f : fir_filter F),
    fir_filter_free (current ch) m2 = Some m3 /\
    cloned_entry i = Some f /\
    filter_at m3 res = Some (Some f) /\
    owns_filter m3 res /\ res <> None.
Proof.
  intros Hown (nf & cc & r & o & l & -> & Hne & Hi & Hl & Hnf & Hcc & Hh).
  assert (Hf : cloned_entry i = Some (mk_fir_filter r (take (Z.to_nat o) l) o)).
  { unfold cloned_entry. rewrite Hi. simpl. rewrite Hl. reflexivity. }
  destruct Hown as [Hnull|(n & c & r0 & o0 & Hp & Hnc & Hn & [y Hc])].
  - rewrite Hnull. exists m2. eexists. split; [reflexivity|].
    split; [exact Hf|]. split; [eapply filter_at_clone; eassumption|].
    split; [|discriminate]. right. exists nf, cc, r, o.
    repeat split; try assumption.
    + rewrite Hh, lookup_insert_eq. reflexivity.
    + rewrite Hh, lookup_insert_ne, lookup_insert_eq by congruence. eexists; reflexivity.
  - assert (Hd : n <> nf /\ n <> cc /\ c <> nf /\ c <> cc)
      by (repeat split; intros ->; congruence).
    destruct Hd as (D1 & D2 & D3 & D4).
    assert (Hfree : fir_filter_free (Some (Dyn n)) m2
                    = Some (mk_memory (delete n (delete c (heap m2))) (oracle m2))).
    { unfold fir_filter_free, free. simpl.
      rewrite Hh, !lookup_insert_ne, Hn by congruence. simpl.
      rewrite !lookup_insert_ne, Hc by congruence. simpl.
      rewrite lookup_delete_ne, !lookup_insert_ne, Hn by congruence.
      reflexivity. }
    rewrite Hp, Hfree.
    eexists. eexists. split; [reflexivity|]. split; [exact Hf|].
    assert (Lnf : delete n (delete c (heap m2)) !! nf
                  = Some (OFilter r (Some (Dyn cc)) o)).
    { rewrite Hh, !lookup_delete_ne, lookup_insert_eq by congruence. reflexivity. }
    assert (Lcc : delete n (delete c (heap m2)) !! cc
                  = Some (OFloats (take (Z.to_nat o) l))).
    { rewrite Hh, !lookup_delete_ne, lookup_insert_ne, lookup_insert_eq by congruence.
      reflexivity. }
    split; [|split; [|discriminate]].
    + unfold filter_at, floats_at. simpl. rewrite Lnf. simpl. rewrite Lcc. reflexivity.
    + right. exists nf, cc, r, o. simpl. rewrite Lnf, Lcc.
      repeat split; try assumption. eexists; reflexivity.
Qed.

(** Every call of [update_channel_filter] on a channel that owns its
    filter returns: [-1] with the channel and the heap as they were, or [0]
    with a clone of a table entry installed and the delay line as it was. *)
Lemma update_channel_filter_cases (ch : channel F) (rate : Z) (m : memory F) :
  table_arrays_cover_orders ->
  owns_filter m (current ch) ->
  exists (r : Z) (ch' : channel F) (m' : memory F),
    update_channel_filter ch rate m = Some (r, ch', m') /\
    ch_delay_line ch' = ch_delay_line ch /\
    ((r = -1 /\ ch' = ch /\ heap m' = heap m) \/
     (r = 0 /\ current ch' <> None /\ owns_filter m' (current ch') /\
      exists (i : nat) (f : fir_filter F),
        cloned_entry i = Some f /\ filter_at m' (current ch') = Some (Some f))).
Proof.
  intros Htab Hown. unfold update_channel_filter.
  assert (Hstage : exists (res : option addr) (m2 : memory F),
             (clone_matching (seq 0 6) rate m ≫= fun '(new_filter, m1) =>
                match new_filter with
                | None => fir_filter_clone (Some (StaticFilter 5)) m1
                | Some _ => Some (new_filter, m1)
                end) = Some (res, m2) /\
             ((res = None /\ heap m2 = heap m) \/
              exists i, is_clone_of (heap m) (heap m2) res i)).
  { destruct (rate_in_table_or_not rate) as [[i [o Hi]]|Hno].
    - rewrite (clone_matching_match i rate o m Hi).
      destruct (clone_static_cases i rate o m Htab Hi) as (res & m1 & -> & Hc).
      simpl. destruct Hc as [[-> Hh]|Hc].
      + destruct (clone_static_cases 5 192000 16383 m1 Htab eq_refl)
          as (res & m2 & -> & Hc2).
        exists res, m2. split; [reflexivity|]. rewrite Hh in Hc2.
        destruct Hc2 as [[-> Hh2]|Hc2]; [left; split; [reflexivity|congruence]|].
        right. exists 5%nat. exact Hc2.
      + pose proof Hc as (nf & cc & r & o' & l & -> & _).
        exists (Some (Dyn nf)), m1. split; [reflexivity|]. right. exists i. exact Hc.
    - rewrite (clone_matching_no_match rate m Hno). simpl.
      destruct (clone_static_cases 5 192000 16383 m Htab eq_refl)
        as (res & m2 & -> & Hc2).
      exists res, m2. split; [reflexivity|].
      destruct Hc2 as [Hc2|Hc2]; [left; exact Hc2|right; exists 5%nat; exact Hc2]. }
  destruct Hstage as (res & m2 & Hst & Hc).
  destruct Hc as [[-> Hh]|[i Hc]].
  - exists (-1), ch, m2. split.
    + destruct (clone_matching (seq 0 6) rate m) as [[nf1 m1]|]; simpl in Hst;
        [|discriminate]. simpl. rewrite Hst. reflexivity.
    + split; [reflexivity|]. left. repeat split. exact Hh.
  - destruct (install_clone ch m m2 res i Hown Hc) as (m3 & f & Hfree & Hf & Hat & Ho & Hnn).
    exists 0, (mk_channel (ch_delay_line ch) res), m3. split.
    + destruct (clone_matching (seq 0 6) rate m) as [[nf1 m1]|]; simpl in Hst;
        [|discriminate]. simpl. rewrite Hst. simpl.
      destruct res as [p|]; [|congruence]. rewrite Hfree. reflexivity.
    + split; [reflexivity|]. right. simpl.
      repeat split; try assumption. exists i, f. split; assumption.
Qed.
End InstallFacts.

Section SwapTheorems.
Context {F : Type} `{Arith F} `{Coefficients F}.

#[local] Arguments fir_filter_clone : simpl never.
#[local] Arguments fir_filter_free : simpl never.
#[local] Arguments clone_matching : simpl never.

(** When the allocations succeed, the entry of the requested rate, or the
    last entry when there is none, is cloned and installed. *)
Lemma update_channel_filter_success (ch : channel F) (rate : Z) (m : memory F) :
  table_arrays_cover_orders ->
  owns_filter m (current ch) ->
  allocations_succeed 2 m ->
  exists (i : nat) (r o : Z) (f : fir_filter F) (p : addr) (m' : memory F),
    FIR_FILTERS_fields !! i = Some (r, o) /\
    (r = rate \/ (no_entry_for rate /\ i = 5%nat)) /\
    cloned_entry i = Some f /\
    update_channel_filter ch rate m
      = Some (0, mk_channel (ch_delay_line ch) (Some p), m') /\
    filter_at m' (Some p) = Some (Some f) /\
    owns_filter m' (Some p).
Proof.
  intros Htab Hown Hk.
  assert (Hsel : exists (i : nat) (r o : Z),
             FIR_FILTERS_fields !! i = Some (r, o) /\
             (r = rate \/ (no_entry_for rate /\ i = 5%nat)) /\
             (clone_matching (seq 0 6) rate m ≫= fun '(new_filter, m1) =>
                match new_filter with
                | None => fir_filter_clone (Some (StaticFilter 5)) m1
                | Some _ => Some (new_filter, m1)
                end) = fir_filter_clone (Some (StaticFilter i)) m).
  { destruct (rate_in_table_or_not rate) as [[i [o Hi]]|Hno].
    - exists i, rate, o. split; [exact Hi|]. split; [left; reflexivity|].
      rewrite (clone_matching_match i rate o m Hi).
      destruct (FIR_COEFF_is_Some i rate o Hi) as [l Hl].
      destruct (fir_filter_clone_succeeds 0 m (StaticFilter i) rate o
                  (Some (StaticCoeffs i)))
        as (nf & cc & m' & -> & _);
        [apply deref_static_filter; exact Hi
        |eapply table_order_range; exact Hi
        |rewrite (floats_at_static m i l Hl); eapply Htab; eassumption
        |exact Hk|].
      reflexivity.
    - exists 5%nat, 192000, 16383. split; [reflexivity|].
      split; [right; split; [exact Hno|reflexivity]|].
      rewrite (clone_matching_no_match rate m Hno). reflexivity. }
  destruct Hsel as (i & r & o & Hi & Hwhich & Hstage).
  destruct (FIR_COEFF_is_Some i r o Hi) as [l Hl].
  destruct (fir_filter_clone_succeeds 0 m (StaticFilter i) r o (Some (StaticCoeffs i)))
    as (nf & cc & m2 & Hcl & Hne & Hnf & Hcc & Hh & _);
    [apply deref_static_filter; exact Hi
    |eapply table_order_range; exact Hi
    |rewrite (floats_at_static m i l Hl); eapply Htab; eassumption
    |exact Hk|].
  rewrite (floats_at_static m i l Hl) in Hh.
  assert (Hc : is_clone_of (heap m) (heap m2) (Some (Dyn nf)) i).
  { exists nf, cc, r, o, l. repeat split; assumption. }
  destruct (install_clone ch m m2 _ i Hown Hc) as (m3 & f & Hfree & Hf & Hat & Ho & _).
  exists i, r, o, f, (Dyn nf), m3.
  repeat split; try assumption.
  unfold update_channel_filter.
  rewrite Hcl in Hstage.
  destruct (clone_matching (seq 0 6) rate m) as [[nf1 m1]|]; simpl in Hstage;
    [|discriminate].
  simpl. rewrite Hstage. simpl. rewrite Hfree. reflexivity.
Qed.

(** C6. When the allocations succeed, [update_channel_filter] returns 0
    and the channel's filter is a clone of the table entry whose rate is
    the requested one; when no entry has that rate it is a clone of the
    last entry, of rate 192000 and order 16383. *)
Theorem update_channel_filter_installs_entry
    (ch : channel F) (rate : Z) (m : memory F) :
  table_arrays_cover_orders ->
  owns_filter m (current ch) ->
  allocations_succeed 2 m ->
  exists (i : nat) (r o : Z) (f : fir_filter F) (ch' : channel F) (m' : memory F),
    update_channel_filter ch rate m = Some (0, ch', m') /\
    FIR_FILTERS_fields !! i = Some (r, o) /\
    cloned_entry i = Some f /\
    filter_at m' (current ch') = Some (Some f) /\
    (r = rate \/
     (no_entry_for rate /\ i = 5%nat /\ r = 192000 /\ o = 16383)).
Proof.
  intros Htab Hown Hk.
  destruct (update_channel_filter_success ch rate m Htab Hown Hk)
    as (i & r & o & f & p & m' & Hi & Hwhich & Hf & Hup & Hat & _).
  exists i, r, o, f, (mk_channel (ch_delay_line ch) (Some p)), m'.
  repeat split; try assumption.
  destruct Hwhich as [Hr|[Hno ->]]; [left; exact Hr|right].
  simpl in Hi. inversion Hi; subst. repeat split. exact Hno.
Qed.

End SwapTheorems.

(** ** The swap on a concrete heap *)

Lemma flat_arrays_cover_orders : table_arrays_cover_orders (F := Binary32.t).
Proof.
  intros i r o l Hi Hl.
  do 6 (destruct i as [|i];
        [simpl in Hi; inversion Hi; subst;
         match type of Hl with
         | ?lhs = _ =>
             match goal with
             | |- ?o <= _ =>
                 assert (E : (fun x : list Binary32.t => Z.of_nat (length x)) <$> lhs
                             = Some o) by (vm_compute; reflexivity)
             end
         end;
         rewrite Hl in E; cbn [fmap option_fmap option_map] in E;
         injection E as E; lia|]).
  simpl in Hi. discriminate.
Qed.

Lemma a_channel_owns_filter :
  owns_filter Scenario.heap_with_filter (current Scenario.a_channel).
Proof.
  right. exists 0%nat, 1%nat, 48000, 3. repeat split.
  - discriminate.
  - eexists. reflexivity.
Qed.

Lemma a_channel_owns_filter_exhausted :
  owns_filter Scenario.exhausted_heap (current Scenario.a_channel).
Proof.
  right. exists 0%nat, 1%nat, 48000, 3. repeat split.
  - discriminate.
  - eexists. reflexivity.
Qed.

Lemma fir_filter_clone_copies_order_taps_witness :
  exists (nf cc : nat) (m' : memory Binary32.t),
    fir_filter_clone (Some (Dyn 0)) Scenario.heap_with_filter
      = Some (Some (Dyn nf), m') /\
    heap Scenario.heap_with_filter !! nf = None /\
    heap Scenario.heap_with_filter !! cc = None /\ nf <> cc /\
    heap m' !! nf = Some (OFilter 48000 (Some (Dyn cc)) 3) /\
    heap m' !! cc
      = Some (OFloats (take 3 (floats_at Scenario.heap_with_filter (Some (Dyn 1))))) /\
    filter_at m' (Some (Dyn nf))
      = Some (Some (mk_fir_filter 48000
                      (take 3 (floats_at Scenario.heap_with_filter (Some (Dyn 1)))) 3)) /\
    (forall b : nat, is_Some (heap Scenario.heap_with_filter !! b) ->
       heap m' !! b = heap Scenario.heap_with_filter !! b) /\
    (forall (x : object Binary32.t) (b : nat),
       is_Some (heap Scenario.heap_with_filter !! b) ->
       heap (write_block cc x m') !! b = heap Scenario.heap_with_filter !! b) /\
    (exists m'' : memory Binary32.t,
       fir_filter_free (Some (Dyn nf)) m' = Some m'' /\
       heap m'' = heap Scenario.heap_with_filter).
Proof.
  apply (fir_filter_clone_copies_order_taps Scenario.heap_with_filter (Dyn 0)
           48000 3 (Some (Dyn 1))).
  - reflexivity.
  - unfold INT_MAX. lia.
  - vm_compute. discriminate.
  - reflexivity.
Defined.

(** C7 as stated fails: the clone of a filter of order 3 that has
    [order + 1 = 4] coefficients holds the first 3 of them only. *)
Lemma clone_drops_last_tap_counterexample :
  exists (nf cc : nat) (m' : memory Binary32.t),
    deref Scenario.heap_with_filter (Dyn 0) = Some (OFilter 48000 (Some (Dyn 1)) 3) /\
    floats_at Scenario.heap_with_filter (Some (Dyn 1)) = Scenario.taps /\
    length Scenario.taps = Z.to_nat (3 + 1) /\
    fir_filter_clone (Some (Dyn 0)) Scenario.heap_with_filter
      = Some (Some (Dyn nf), m') /\
    heap m' !! nf = Some (OFilter 48000 (Some (Dyn cc)) 3) /\
    floats_at m' (Some (Dyn cc)) = take 3 Scenario.taps /\
    floats_at m' (Some (Dyn cc)) <> Scenario.taps.
Proof.
  destruct fir_filter_clone_copies_order_taps_witness
    as (nf & cc & m' & Hcl & _ & _ & _ & Hnf & Hcc & _).
  exists nf, cc, m'. repeat split; try assumption.
  - unfold floats_at, deref. rewrite Hcc. reflexivity.
  - unfold floats_at, deref. rewrite Hcc. vm_compute. discriminate.
Qed.

Lemma update_channel_filter_installs_entry_witness :
  exists (i : nat) (r o : Z) (f : fir_filter Binary32.t)
         (ch' : channel Binary32.t) (m' : memory Binary32.t),
    update_channel_filter Scenario.a_channel 96000 Scenario.heap_with_filter
      = Some (0, ch', m') /\
    FIR_FILTERS_fields !! i = Some (r, o) /\
    cloned_entry i = Some f /\
    filter_at m' (current ch') = Some (Some f) /\
    (r = 96000 \/
     (no_entry_for 96000 /\ i = 5%nat /\ r = 192000 /\ o = 16383)).
Proof.
  apply (update_channel_filter_installs_entry Scenario.a_channel 96000
           Scenario.heap_with_filter).
  - exact flat_arrays_cover_orders.
  - exact a_channel_owns_filter.
  - reflexivity.
Defined.

(** ** [select_filter_for_rate] never leaves a channel without a filter *)

Section SelectFacts.
Context {F : Type} `{Arith F} `{Coefficients F}.

#[local] Arguments fir_filter_clone : simpl never.
#[local] Arguments fir_filter_free : simpl never.
#[local] Arguments clone_matching : simpl never.
#[local] Arguments update_channel_filter : simpl never.

Lemma free_owned (m : memory F) (n c : nat) (r o : Z) :
  n <> c ->
  heap m !! n = Some (OFilter r (Some (Dyn c)) o) ->
  is_Some (heap m !! c) ->
  fir_filter_free (Some (Dyn n)) m
  = Some (mk_memory (delete n (delete c (heap m))) (oracle m)).
Proof.
  intros Hne Hn [y Hc]. unfold fir_filter_free, free. cbn [deref].
  rewrite Hn. cbn [mbind option_bind]. rewrite Hc.
  cbn [mbind option_bind heap oracle].
  rewrite lookup_delete_ne, Hn by congruence. reflexivity.
Qed.

(** The two attempts of [update_channel_filter] to obtain a clone. *)
Lemma clone_attempts (rate : Z) (m : memory F) :
  table_arrays_cover_orders ->
  exists (res : option addr) (m2 : memory F),
    (clone_matching (seq 0 6) rate m ≫= fun '(new_filter, m1) =>
       match new_filter with
       | None => fir_filter_clone (Some (StaticFilter 5)) m1
       | Some _ => Some (new_filter, m1)
       end) = Some (res, m2) /\
    ((res = None /\ heap m2 = heap m) \/
     exists i, is_clone_of (heap m) (heap m2) res i).
Proof.
  intros Htab.
  destruct (rate_in_table_or_not rate) as [[i [o Hi]]|Hno].
  - rewrite (clone_matching_match i rate o m Hi).
    destruct (clone_static_cases i rate o m Htab Hi) as (res & m1 & -> & Hc).
    cbn [mbind option_bind]. destruct Hc as [[-> Hh]|Hc].
    + destruct (clone_static_cases 5 192000 16383 m1 Htab eq_refl)
        as (res & m2 & -> & Hc2).
      exists res, m2. split; [reflexivity|]. rewrite Hh in Hc2.
      destruct Hc2 as [[-> Hh2]|Hc2]; [left; split; [reflexivity|congruence]|].
      right. exists 5%nat. exact Hc2.
    + pose proof Hc as (nf & cc & r & o' & l & -> & _).
      exists (Some (Dyn nf)), m1. split; [reflexivity|]. right. exists i. exact Hc.
  - rewrite (clone_matching_no_match rate m Hno). cbn [mbind option_bind].
    destruct (clone_static_cases 5 192000 16383 m Htab eq_refl)
      as (res & m2 & -> & Hc2).
    exists res, m2. split; [reflexivity|].
    destruct Hc2 as [Hc2|Hc2]; [left; exact Hc2|right; exists 5%nat; exact Hc2].
Qed.

Lemma holds_filter_same_heap (m m' : memory F) (ch : channel F) (n c : nat) :
  heap m' = heap m -> holds_filter m ch n c -> holds_filter m' ch n c.
Proof. unfold holds_filter. intros ->. tauto. Qed.

(** One call of [update_channel_filter] on a channel that holds a filter:
    the channel holds a filter afterwards, in the same blocks on failure and
    in new blocks on success, and no other live block is touched. *)
Lemma update_channel_filter_holds (ch : channel F) (rate : Z) (m : memory F)
    (n c : nat) :
  table_arrays_cover_orders ->
  holds_filter m ch n c ->
  exists (r : Z) (ch' : channel F) (m' : memory F) (n' c' : nat),
    update_channel_filter ch rate m = Some (r, ch', m') /\
    ch_delay_line ch' = ch_delay_line ch /\
    holds_filter m' ch' n' c' /\
    (forall b : nat, is_Some (heap m !! b) -> b <> n -> b <> c ->
       heap m' !! b = heap m !! b) /\
    ((r = -1 /\ n' = n /\ c' = c /\ ch' = ch /\ heap m' = heap m) \/
     (r = 0 /\ heap m !! n' = None /\ heap m !! c' = None)).
Proof.
  intros Htab Hold. pose proof Hold as (Hcur & Hnc & (r0 & o0 & Hn) & Hc).
  destruct (clone_attempts rate m Htab) as (res & m2 & Hst & Hcases).
  unfold update_channel_filter.
  destruct (clone_matching (seq 0 6) rate m) as [[nf1 m1]|];
    cbn [mbind option_bind] in Hst |- *; [|discriminate]. rewrite Hst.
  cbn [mbind option_bind].
  destruct Hcases as [[-> Hh]|[i (nf & cc & r & o & l & -> & Hne & Hi & Hl & Hnf & Hcc & Hh)]].
  - exists (-1), ch, m2, n, c. split; [reflexivity|]. split; [reflexivity|].
    split; [eapply holds_filter_same_heap; eassumption|].
    split; [intros b _ _ _; rewrite Hh; reflexivity|]. left. repeat split. exact Hh.
  - assert (Hd : n <> nf /\ n <> cc /\ c <> nf /\ c <> cc).
    { destruct Hc as [y Hc]. repeat split; intros ->; congruence. }
    destruct Hd as (D1 & D2 & D3 & D4).
    rewrite Hcur.
    rewrite (free_owned m2 n c r0 o0 Hnc).
    + cbn [mbind option_bind].
      exists 0, (mk_channel (ch_delay_line ch) (Some (Dyn nf))),
             (mk_memory (delete n (delete c (heap m2))) (oracle m2)), nf, cc.
      split; [reflexivity|]. split; [reflexivity|]. split.
      * unfold holds_filter. cbn [current heap].
        split; [reflexivity|]. split; [exact Hne|]. split.
        -- exists r, o.
           rewrite Hh, !lookup_delete_ne, lookup_insert_eq by congruence. reflexivity.
        -- rewrite Hh, !lookup_delete_ne, lookup_insert_ne, lookup_insert_eq by congruence.
           eexists; reflexivity.
      * split; [|right; repeat split; assumption].
        intros b [y Hb] Hbn Hbc. cbn [heap].
        assert (b <> nf /\ b <> cc) as [B1 B2] by (split; intros ->; congruence).
        rewrite Hh, !lookup_delete_ne, !lookup_insert_ne by congruence. reflexivity.
    + rewrite Hh, !lookup_insert_ne by congruence. exact Hn.
    + rewrite Hh, !lookup_insert_ne by congruence. exact Hc.
Qed.
Lemma holds_filter_transfer (m m' : memory F) (ch : channel F) (n c : nat) :
  holds_filter m ch n c ->
  heap m' !! n = heap m !! n -> heap m' !! c = heap m !! c ->
  holds_filter m' ch n c.
Proof. unfold holds_filter. intros (Hcur & Hne & Hn & Hc) -> ->. tauto. Qed.

Lemma held_blocks_live (m : memory F) (chs : list (channel F)) (bl : list (nat * nat)) :
  Forall2 (fun ch b => holds_filter m ch (fst b) (snd b)) chs bl ->
  forall b : nat, b ∈ blocks_of bl -> is_Some (heap m !! b).
Proof.
  induction 1 as [|ch [n c] chs bl (Hcur & Hne & (r & o & Hn) & Hc) _ IH];
    intros b Hb.
  - inversion Hb.
  - unfold blocks_of in Hb. cbn [mbind list_bind fst snd app] in Hb.
    apply elem_of_cons in Hb as [->|Hb]; [eexists; exact Hn|].
    apply elem_of_cons in Hb as [->|Hb]; [exact Hc|].
    apply IH. exact Hb.
Qed.

Lemma holds_all_transfer (m m' : memory F) (chs : list (channel F))
    (bl : list (nat * nat)) :
  Forall2 (fun ch b => holds_filter m ch (fst b) (snd b)) chs bl ->
  (forall b : nat, b ∈ blocks_of bl -> heap m' !! b = heap m !! b) ->
  Forall2 (fun ch b => holds_filter m' ch (fst b) (snd b)) chs bl.
Proof.
  induction 1 as [|ch [n c] chs bl Hh _ IH]; intros Hsame; [constructor|].
  constructor.
  - cbn [fst snd] in *. apply (holds_filter_transfer m m' _ _ _ Hh); apply Hsame.
    + left.
    + right. left.
  - apply IH. intros b Hb. apply Hsame. do 2 right. exact Hb.
Qed.

(** One turn of the loop of [select_filter_for_rate]: the update and, when
    it fails, the update with the fallback rate. *)
Lemma select_turn_holds (ch : channel F) (rate a0 : Z) (m : memory F) (n c : nat) :
  table_arrays_cover_orders ->
  holds_filter m ch n c ->
  exists (r : Z) (ch1 ch2 : channel F) (m1 m2 : memory F) (actual : Z) (n' c' : nat),
    update_channel_filter ch rate m = Some (r, ch1, m1) /\
    (if r =? 0 then Some (ch1, a0, m1)
     else match update_channel_filter ch1 fallback_rate m1 with
          | Some (_, ch2, m2) => Some (ch2, fallback_rate, m2)
          | None => None
          end) = Some (ch2, actual, m2) /\
    ch_delay_line ch2 = ch_delay_line ch /\
    holds_filter m2 ch2 n' c' /\
    (forall b : nat, is_Some (heap m !! b) -> b <> n -> b <> c ->
       heap m2 !! b = heap m !! b) /\
    ((n' = n /\ c' = c) \/ (heap m !! n' = None /\ heap m !! c' = None)).
Proof.
  intros Htab Hold.
  destruct (update_channel_filter_holds ch rate m n c Htab Hold)
    as (r & ch1 & m1 & n1 & c1 & Hup & Hdl & Hh1 & Hfr & Hcase).
  destruct Hcase as [(-> & -> & -> & -> & Hheap)|(-> & Hn1 & Hc1)].
  - destruct (update_channel_filter_holds ch fallback_rate m1 n c Htab Hh1)
      as (r2 & ch2 & m2 & n2 & c2 & Hup2 & Hdl2 & Hh2 & Hfr2 & Hcase2).
    exists (-1), ch, ch2, m1, m2, fallback_rate, n2, c2.
    split; [exact Hup|]. split; [cbn; rewrite Hup2; reflexivity|].
    split; [exact Hdl2|]. split; [exact Hh2|]. split.
    + intros b Hb Hbn Hbc. rewrite <- Hheap. apply Hfr2; [rewrite Hheap|..]; assumption.
    + destruct Hcase2 as [(_ & -> & -> & _)|(_ & Hn2 & Hc2)];
        [left; split; reflexivity|right; rewrite <- Hheap; split; assumption].
  - exists 0, ch1, ch1, m1, m1, a0, n1, c1.
    split; [exact Hup|]. split; [reflexivity|].
    split; [exact Hdl|]. split; [exact Hh1|]. split; [exact Hfr|].
    right. split; assumption.
Qed.

(** The loop of [select_filter_for_rate]: every channel holds a filter
    afterwards, in distinct blocks, the delay lines are as they were, and the
    live blocks outside the channels' filters are untouched. *)
Lemma select_channels_hold (rate : Z) :
  table_arrays_cover_orders ->
  forall (chs : list (channel F)) (bl : list (nat * nat)) (m : memory F)
         (protected : list nat) (a0 : Z),
    Forall2 (fun ch b => holds_filter m ch (fst b) (snd b)) chs bl ->
    NoDup (protected ++ blocks_of bl) ->
    (forall b : nat, b ∈ protected -> is_Some (heap m !! b)) ->
    exists (chs' : list (channel F)) (a : Z) (m' : memory F) (bl' : list (nat * nat)),
      select_channels chs rate a0 m = Some (chs', a, m') /\
      map ch_delay_line chs' = map ch_delay_line chs /\
      Forall2 (fun ch b => holds_filter m' ch (fst b) (snd b)) chs' bl' /\
      NoDup (protected ++ blocks_of bl') /\
      (forall b : nat, b ∈ protected -> heap m' !! b = heap m !! b).
Proof.
  intros Htab. induction chs as [|ch chs IH]; intros bl m protected a0 Hall Hnd Hlive.
  - inversion Hall; subst. exists [], a0, m, [].
    split; [reflexivity|]. split; [reflexivity|]. split; [constructor|].
    split; [exact Hnd|]. intros b _. reflexivity.
  - inversion Hall as [|? [n c] ? bl_rest Hhead Hrest]; subst.
    cbn [fst snd] in Hhead.
    change (blocks_of ((n, c) :: bl_rest)) with (n :: c :: blocks_of bl_rest) in Hnd.
    apply NoDup_app in Hnd as (Hndp & Hdisj & Hndb).
    apply NoDup_cons in Hndb as (Hn_rest & Hndb).
    apply NoDup_cons in Hndb as (Hc_rest & Hndb).
    destruct (select_turn_holds ch rate a0 m n c Htab Hhead)
      as (r & ch1 & ch2 & m1 & m2 & actual & n' & c' &
          Hup & Hturn & Hdl & Hh2 & Hfr & Hwhere).
    pose proof (held_blocks_live m chs bl_rest Hrest) as Hrest_live.
    assert (Hp_nc : forall b, b ∈ protected -> b <> n /\ b <> c).
    { intros b Hb. pose proof (Hdisj b Hb) as Hnot.
      split; intros ->; apply Hnot; [left|right; left]. }
    assert (Hr_nc : forall b, b ∈ blocks_of bl_rest -> b <> n /\ b <> c).
    { intros b Hb. split; intros ->.
      - apply Hn_rest. right. exact Hb.
      - apply Hc_rest. exact Hb. }
    assert (Hnew_p : (n' ∉ protected) /\ (c' ∉ protected)).
    { destruct Hwhere as [[-> ->]|[Hn' Hc']].
      - split; intros Hb; apply (Hdisj _ Hb); [left|right; left].
      - split; intros Hb; destruct (Hlive _ Hb) as [y Hy]; congruence. }
    assert (Hnew_r : (n' ∉ blocks_of bl_rest) /\ (c' ∉ blocks_of bl_rest)).
    { destruct Hwhere as [[-> ->]|[Hn' Hc']].
      - split; [intros Hb; apply Hn_rest; right; exact Hb|exact Hc_rest].
      - split; intros Hb; destruct (Hrest_live _ Hb) as [y Hy]; congruence. }
    destruct Hnew_p as [Hnp Hcp]. destruct Hnew_r as [Hnr Hcr].
    pose proof Hh2 as (_ & Hn'c' & (r2 & o2 & Hn'2) & Hc'2).
    assert (Hrest2 : Forall2 (fun ch b => holds_filter m2 ch (fst b) (snd b)) chs bl_rest).
    { apply (holds_all_transfer m m2 _ _ Hrest). intros b Hb.
      apply Hfr; [apply Hrest_live; exact Hb| |]; apply (Hr_nc b Hb). }
    destruct (IH bl_rest m2 (protected ++ [n'; c']) actual Hrest2)
      as (chs' & a & m3 & bl' & Hsel & Hdls & Hall3 & Hnd3 & Hkeep3).
    { rewrite <- app_assoc. apply NoDup_app. split; [exact Hndp|]. split.
      - intros b Hb Hin. cbn [app] in Hin.
        apply elem_of_cons in Hin as [->|Hin]; [apply Hnp; exact Hb|].
        apply elem_of_cons in Hin as [->|Hin]; [apply Hcp; exact Hb|].
        apply (Hdisj b Hb). do 2 right. exact Hin.
      - cbn [app]. apply NoDup_cons. split.
        + intros Hin. apply elem_of_cons in Hin as [Heq|Hin]; [congruence|].
          apply Hnr. exact Hin.
        + apply NoDup_cons. split; [exact Hcr|exact Hndb]. }
    { intros b Hb. apply elem_of_app in Hb as [Hb|Hb].
      - rewrite Hfr; [apply Hlive; exact Hb|apply Hlive; exact Hb| |];
          apply (Hp_nc b Hb).
      - apply elem_of_cons in Hb as [->|Hb]; [eexists; exact Hn'2|].
        apply elem_of_cons in Hb as [->|Hb]; [exact Hc'2|]. inversion Hb. }
    exists (ch2 :: chs'), a, m3, ((n', c') :: bl').
    split.
    { cbn [select_channels]. rewrite Hup. cbn [mbind option_bind].
      rewrite Hturn. cbn [mbind option_bind]. rewrite Hsel. reflexivity. }
    split; [cbn [map]; rewrite Hdl, Hdls; reflexivity|].
    split.
    { constructor; [|exact Hall3]. cbn [fst snd].
      apply (holds_filter_transfer m2 m3 _ _ _ Hh2); apply Hkeep3;
        apply elem_of_app; right; [left|right; left]. }
    split.
    { change (blocks_of ((n', c') :: bl')) with ([n'; c'] ++ blocks_of bl').
      rewrite app_assoc. exact Hnd3. }
    intros b Hb. rewrite Hkeep3 by (apply elem_of_app; left; exact Hb).
    apply Hfr; [apply Hlive; exact Hb| |]; apply (Hp_nc b Hb).
Qed.

(** [select_filter_for_rate] on channels that hold filters in distinct
    blocks is defined, leaves every delay line as it was and leaves every
    channel with a filter. *)
Lemma select_filter_for_rate_keeps_filters (d : data F) (rate : Z) (m : memory F)
    (bl : list (nat * nat)) :
  table_arrays_cover_orders ->
  channels_hold m (channels d) bl ->
  channels d <> [] ->
  exists (d' : data F) (m' : memory F) (bl' : list (nat * nat)),
    select_filter_for_rate d rate m = Some (d', m') /\
    map ch_delay_line (channels d') = map ch_delay_line (channels d) /\
    channels_hold m' (channels d') bl'.
Proof.
  intros Htab [Hall Hnd] Hne.
  destruct (select_channels_hold rate Htab (channels d) bl m [] rate Hall Hnd)
    as (chs' & a & m' & bl' & Hsel & Hdls & Hall' & Hnd' & _).
  { intros b Hb. inversion Hb. }
  exists (mk_data chs' a), m', bl'.
  split; [|split; [exact Hdls|split; [exact Hall'|exact Hnd']]].
  unfold select_filter_for_rate. rewrite Hsel. cbn [mbind option_bind].
  destruct chs' as [|ch0 chs'].
  { destruct (channels d); [congruence|discriminate]. }
  inversion Hall' as [|? [n0 c0] ? ? (Hcur & _ & (r0 & o0 & Hn0) & _) _]; subst.
  cbn [lookup list_lookup mbind option_bind fst snd] in *.
  unfold filter_at. rewrite Hcur. cbn [deref]. rewrite Hn0. reflexivity.
Qed.
End SelectFacts.

(** ** The cursor of the delay line stays in range *)

Section CursorRange.
Context {F : Type} `{Arith F}.

Lemma store_length (a a' : list F) (off : Z) (x : F) :
  store a off x = Some a' -> length a' = length a.
Proof.
  intros Hs. apply store_inv in Hs as [_ ->]. apply length_insert.
Qed.

(** After the cursor has wrapped within a call: the primary pointer runs
    from [e - span] and the mirror from the start of the buffer. *)
Lemma append_loop_after_wrap (e span : Z) (xs : list F) :
  forall (buf : list F) (m : Z),
    Z.of_nat (length buf) = e ->
    0 <= m -> span <= e - span ->
    m + Z.of_nat (length xs) < span ->
    exists buf',
      append_loop buf e (e - span + m) m xs
        = Some (buf', e - span + m + Z.of_nat (length xs)) /\
      length buf' = length buf.
Proof.
  induction xs as [|x xs IH]; intros buf m Hlen Hm Hspan Hfit.
  - simpl. exists buf. split; [|reflexivity]. do 2 f_equal. lia.
  - cbn [append_loop]. cbn [length] in Hfit.
    rewrite store_Some by lia. cbn [mbind option_bind].
    rewrite store_Some by (rewrite length_insert; lia). cbn [mbind option_bind].
    destruct (Z.eqb_spec (e - span + m + 1) e) as [Heq|Hne]; [lia|].
    destruct (IH (<[Z.to_nat m := x]> (<[Z.to_nat (e - span + m) := x]> buf)) (m + 1))
      as (buf' & Hrun & Hl); try lia.
    { rewrite !length_insert. exact Hlen. }
    exists buf'. split.
    + replace (e - span + m + 1) with (e - span + (m + 1)) by lia.
      rewrite Hrun. do 2 f_equal. cbn [length]. lia.
    + rewrite Hl, !length_insert. reflexivity.
Qed.

(** A call that starts with the mirror [span] slots behind the cursor and
    appends at most [span] samples. *)
Lemma append_loop_in_bounds (e span : Z) (xs : list F) :
  forall (buf : list F) (w : Z),
    Z.of_nat (length buf) = e ->
    0 < span -> span <= e - span ->
    span <= w < e ->
    Z.of_nat (length xs) <= span ->
    exists buf' w',
      append_loop buf e w (w - span) xs = Some (buf', w') /\
      length buf' = length buf /\
      ((w' = w + Z.of_nat (length xs) /\ w' < e) \/
       (e <= w + Z.of_nat (length xs) /\
        w' = w + Z.of_nat (length xs) - span)).
Proof.
  induction xs as [|x xs IH]; intros buf w Hlen Hpos Hspan Hw Hfit.
  - simpl. exists buf, w. split; [reflexivity|]. split; [reflexivity|]. left. lia.
  - cbn [append_loop]. cbn [length] in Hfit.
    rewrite store_Some by lia. cbn [mbind option_bind].
    rewrite store_Some by (rewrite length_insert; lia). cbn [mbind option_bind].
    set (buf2 := <[Z.to_nat (w - span) := x]> (<[Z.to_nat w := x]> buf)).
    assert (Hlen2 : length buf2 = length buf)
      by (unfold buf2; rewrite !length_insert; reflexivity).
    destruct (Z.eqb_spec (w + 1) e) as [Heq|Hne].
    + destruct (append_loop_after_wrap e span xs buf2 0) as (buf' & Hrun & Hl); try lia.
      replace (w - span + 1) with (e - span + 0) by lia.
      rewrite Hrun. exists buf', (e - span + 0 + Z.of_nat (length xs)).
      split; [reflexivity|]. split; [congruence|]. right. cbn [length]. lia.
    + destruct (IH buf2 (w + 1)) as (buf' & w' & Hrun & Hl & Hw'); try lia.
      replace (w - span + 1) with (w + 1 - span) by lia.
      rewrite Hrun. exists buf', w'.
      split; [reflexivity|]. split; [congruence|]. cbn [length]. lia.
Qed.

Lemma append_in_range (omax : Z) (f : fir_filter F) (d : delay_line F) (b : list F) :
  cursor_in_range omax d ->
  1 <= order f <= omax -> 2 * omax <= INT_MAX ->
  0 < Z.of_nat (length b) <= 2 * order f ->
  exists d',
    delay_line_append_samples (Some f) (Some d) (Some b) (Z.of_nat (length b))
      = Some (Some d') /\
    cursor_in_range omax d' /\
    size d' = size d /\
    (size d - 2 * order f <= index d -> size d - 2 * order f <= index d').
Proof.
  intros (Hsz & Hbig & Hidx) Ho Hint Hb.
  unfold delay_line_append_samples.
  destruct (Z.of_nat (length b) <=? 0) eqn:E0; [lia|].
  assert (Hi : int_ok (order f * 2) = true).
  { unfold int_ok, INT_MIN. unfold INT_MAX in *.
    apply andb_true_intro; split; apply Z.leb_le; lia. }
  rewrite Hi. cbn [negb].
  destruct (Z.of_nat (length b) <? Z.of_nat (length b)) eqn:E1; [lia|].
  rewrite Nat2Z.id, firstn_all.
  destruct (append_loop_in_bounds (size d) (order f * 2) b (buffer d) (index d))
    as (buf' & w' & Hrun & Hl & Hw'); try lia.
  rewrite Hrun. cbn [mbind option_bind].
  eexists. split; [reflexivity|].
  unfold cursor_in_range. cbn [buffer size index].
  rewrite Hl. repeat split; try lia.
Qed.
End CursorRange.

Section CursorInvariant.
Context {F : Type} `{Arith F}.

(** C10, as the code has it.  [delay_line_init] of a size of at least
    [4 * omax] puts the cursor in the last [2 * omax] slots.  From a delay
    line with the cursor there, every sequence of appends whose orders are
    between 1 and [omax] and whose counts are at most twice the order of
    their call is defined (every store, primary and mirror, is inside the
    buffer) and leaves the cursor in the last [2 * omax] slots. *)
Theorem appends_keep_cursor_in_range (omax : Z) :
  1 <= omax -> 2 * omax <= INT_MAX ->
  (forall sz : Z, 4 * omax <= sz ->
     exists d0, delay_line_init true sz = Some d0 /\ cursor_in_range omax d0) /\
  (forall (calls : list (fir_filter F * list F)) (d : delay_line F),
     cursor_in_range omax d ->
     Forall (fun call => 1 <= order (fst call) <= omax /\
                         0 < Z.of_nat (length (snd call)) <= 2 * order (fst call))
            calls ->
     exists d', append_calls d calls = Some d' /\
                cursor_in_range omax d' /\ size d' = size d).
Proof.
  intros Homax Hint. split.
  - intros sz Hsz. unfold delay_line_init.
    destruct (Z.eqb_spec sz 0) as [->|_]; [lia|].
    eexists. split; [reflexivity|].
    unfold cursor_in_range. cbn [buffer size index].
    rewrite length_replicate. lia.
  - induction calls as [|[f b] calls IH]; intros d Hd Hall.
    + exists d. split; [reflexivity|]. split; [exact Hd|reflexivity].
    + inversion Hall as [|? ? [Ho Hb] Hrest]; subst. cbn [fst snd] in Ho, Hb.
      destruct (append_in_range omax f d b Hd Ho Hint Hb) as (d1 & Hrun & Hd1 & Hs1 & _).
      destruct (IH d1 Hd1 Hrest) as (d' & Hruns & Hd' & Hs').
      exists d'. cbn [append_calls]. rewrite Hrun.
      split; [exact Hruns|]. split; [exact Hd'|congruence].
Qed.
End CursorInvariant.

(** The sizes of the program: [init_fir_filters] gives every channel a delay
    line of [4 * MAX_FILTER_ORDER] slots with the cursor on the last one, and
    every order of the table is between 1 and [MAX_FILTER_ORDER]. *)
Lemma init_channel_cursor_in_range {F : Type} `{Arith F} `{Coefficients F}
    (ok : bool) (m m' : memory F) (ch0 ch : channel F) :
  init_channel ok (MAX_FILTER_ORDER * 4) ch0 m = Some (0, ch, m') ->
  exists dl, ch_delay_line ch = Some dl /\ cursor_in_range MAX_FILTER_ORDER dl.
Proof.
  unfold init_channel.
  remember (to_size_t (MAX_FILTER_ORDER * 4)) as sz eqn:Hsz.
  assert (Hval : sz = 65532) by (rewrite Hsz; reflexivity).
  clear Hsz.
  destruct (delay_line_init ok sz) as [dl|] eqn:Hd; [|intros Hx; discriminate Hx].
  destruct (fir_filter_clone (Some (StaticFilter 0)) m) as [[[p|] m1]|];
    cbn [mbind option_bind]; intros Hx; try discriminate Hx.
  injection Hx as <- _. exists dl. split; [reflexivity|].
  unfold delay_line_init in Hd.
  destruct (Z.eqb_spec sz 0) as [Hz|_]; [lia|].
  destruct ok; [|discriminate Hd]. injection Hd as <-.
  unfold cursor_in_range, MAX_FILTER_ORDER. cbn [buffer size index].
  rewrite length_replicate. lia.
Qed.

Lemma table_orders_within_max (i : nat) (r o : Z) :
  FIR_FILTERS_fields !! i = Some (r, o) -> 1 <= o <= MAX_FILTER_ORDER.
Proof.
  unfold MAX_FILTER_ORDER. intros Hi.
  do 6 (destruct i as [|i]; [simpl in Hi; inversion Hi; subst; lia|]).
  simpl in Hi. discriminate.
Qed.

Lemma appends_keep_cursor_in_range_witness :
  (forall sz : Z, 4 * 2 <= sz ->
     exists d0 : delay_line Binary32.t,
       delay_line_init true sz = Some d0 /\ cursor_in_range 2 d0) /\
  (forall (calls : list (fir_filter Binary32.t * list Binary32.t))
          (d : delay_line Binary32.t),
     cursor_in_range 2 d ->
     Forall (fun call => 1 <= order (fst call) <= 2 /\
                         0 < Z.of_nat (length (snd call)) <= 2 * order (fst call))
            calls ->
     exists d', append_calls d calls = Some d' /\
                cursor_in_range 2 d' /\ size d' = size d).
Proof.
  apply (appends_keep_cursor_in_range (F := Binary32.t) 2).
  - lia.
  - unfold INT_MAX. lia.
Defined.

(** C10 as stated fails.  With [omax = 2], a fresh delay line of size 8 and
    a filter of order 1, a call with three samples wraps twice and leaves the
    cursor at 2, outside the last [2 * order] slots and outside the last
    [2 * omax] slots; an append of one sample with a filter of order 2 then
    stores its mirror copy before the start of the buffer. *)
Lemma cursor_leaves_range_counterexample :
  let f1 := mk_fir_filter 48000 [Binary32.one] 1 in
  let f2 := mk_fir_filter 48000 [Binary32.one; Binary32.one] 2 in
  let burst := [Binary32.one; Binary32.one; Binary32.one] in
  exists d0 d1 : delay_line Binary32.t,
    delay_line_init true 8 = Some d0 /\
    (4 * 2 <= size d0 /\ size d0 - 2 * 2 <= index d0 < size d0) /\
    (order f1 <= 2 /\ order f2 <= 2) /\
    delay_line_append_samples (Some f1) (Some d0) (Some burst) 3 = Some (Some d1) /\
    index d1 = 2 /\
    ~ (size d1 - 2 * order f1 <= index d1 < size d1) /\
    ~ (size d1 - 2 * 2 <= index d1 < size d1) /\
    delay_line_append_samples (Some f2) (Some d1) (Some [Binary32.one]) 1 = None.
Proof.
  cbv zeta. eexists. eexists.
  split; [vm_compute; reflexivity|].
  split; [cbn [size index]; lia|].
  split; [cbn [order]; lia|].
  split; [vm_compute; reflexivity|].
  split; [reflexivity|].
  split; [cbn [size index order]; lia|].
  split; [cbn [size index]; lia|].
  vm_compute. reflexivity.
Qed.

(** ** The delay line against an unbounded history *)

Section Ring.
Context {F : Type} `{Arith F}.

Lemma hist_negative (xs : list F) (t : Z) : t < 0 -> hist xs t = fzero.
Proof. intros Ht. unfold hist. destruct (Z.ltb_spec t 0); [reflexivity|lia]. Qed.

Lemma hist_app_l (xs ys : list F) (t : Z) :
  t < Z.of_nat (length xs) -> hist (xs ++ ys) t = hist xs t.
Proof.
  intros Ht. unfold hist, rd. destruct (Z.ltb_spec t 0); [reflexivity|].
  rewrite lookup_app_l by lia. reflexivity.
Qed.

Lemma hist_snoc (xs : list F) (x : F) :
  hist (xs ++ [x]) (Z.of_nat (length xs)) = x.
Proof.
  unfold hist, rd. destruct (Z.ltb_spec (Z.of_nat (length xs)) 0); [lia|].
  rewrite Nat2Z.id, lookup_app_r by lia. rewrite Nat.sub_diag. reflexivity.
Qed.

Lemma hist_lookup (xs : list F) (t : Z) :
  0 <= t < Z.of_nat (length xs) -> xs !! Z.to_nat t = Some (hist xs t).
Proof.
  intros Ht. unfold hist, rd. destruct (Z.ltb_spec t 0); [lia|].
  destruct (lookup_lt_is_Some_2 xs (Z.to_nat t)) as [y Hy]; [lia|].
  rewrite Hy. reflexivity.
Qed.

(** The two stores of one iteration, seen from any slot. *)
Lemma lookup_after_stores (buf : list F) (w m p : Z) (x : F) :
  0 <= w < Z.of_nat (length buf) ->
  0 <= m < Z.of_nat (length buf) ->
  0 <= p ->
  <[Z.to_nat m := x]> (<[Z.to_nat w := x]> buf) !! Z.to_nat p
  = if decide (p = w \/ p = m) then Some x else buf !! Z.to_nat p.
Proof.
  intros Hw Hm Hp.
  destruct (decide (p = w \/ p = m)) as [[->| ->]|Hne].
  - destruct (decide (w = m)) as [->|Hwm].
    + apply list_lookup_insert_eq. rewrite length_insert. lia.
    + rewrite list_lookup_insert_ne by lia.
      apply list_lookup_insert_eq. lia.
  - apply list_lookup_insert_eq. rewrite length_insert. lia.
  - rewrite !list_lookup_insert_ne by lia. reflexivity.
Qed.

Lemma ring_invariant_init (sz span beta : Z) :
  0 < span -> 2 * span <= sz -> 0 <= beta ->
  ring_invariant sz span beta [] (replicate (Z.to_nat sz) fzero) (sz - 1).
Proof.
  intros Hspan Hsz Hbeta. unfold ring_invariant.
  rewrite length_replicate. split; [lia|]. split; [lia|]. split.
  - intros a Ha. rewrite hist_negative by (cbn [length]; lia).
    apply lookup_replicate_2.
    unfold slot_of_age. destruct (Z.leb_spec (sz - span) (sz - 1 - a)); lia.
  - intros k Hk. rewrite !lookup_replicate_2 by lia. reflexivity.
Qed.

(** One iteration of the loop of [delay_line_append_samples]: the mirror
    pointer is [span] behind the cursor, or the cursor has wrapped within
    the call and the mirror pointer is in the first [beta] slots of the
    buffer. *)
Lemma ring_step (sz span beta : Z) (xs buf : list F) (w m : Z) (x : F) :
  0 < span -> 2 * span <= sz -> 0 <= beta ->
  ring_invariant sz span beta xs buf w ->
  (m = w - span \/ (m = w - (sz - span) /\ m < beta /\ w + 1 < sz)) ->
  ring_invariant sz span beta (xs ++ [x])
    (<[Z.to_nat m := x]> (<[Z.to_nat w := x]> buf))
    (if w + 1 =? sz then sz - span else w + 1).
Proof.
  intros Hspan Hsz Hbeta (Hlen & Hw & Hprim & Hmir) Hmode.
  assert (Hm : 0 <= m < sz - span) by lia.
  set (w' := if w + 1 =? sz then sz - span else w + 1).
  assert (Hw' : sz - span <= w' < sz /\ (w' = w + 1 \/ (w + 1 = sz /\ w' = sz - span))).
  { unfold w'. destruct (Z.eqb_spec (w + 1) sz); lia. }
  unfold ring_invariant.
  rewrite !length_insert, length_app. cbn [length].
  split; [exact Hlen|]. split; [lia|]. split.
  - intros a Ha.
    assert (Hslot : 0 <= slot_of_age sz span w' a)
      by (unfold slot_of_age; destruct (Z.leb_spec (sz - span) (w' - a)); lia).
    rewrite lookup_after_stores by lia.
    destruct (decide (a = 1)) as [->|Ha1].
    + assert (Hs : slot_of_age sz span w' 1 = w)
        by (unfold slot_of_age; destruct (Z.leb_spec (sz - span) (w' - 1)); lia).
      rewrite Hs, decide_True by (left; reflexivity).
      replace (Z.of_nat (length xs + 1) - 1) with (Z.of_nat (length xs)) by lia.
      rewrite hist_snoc. reflexivity.
    + assert (Hs : slot_of_age sz span w' a = slot_of_age sz span w (a - 1)).
      { unfold slot_of_age.
        destruct (Z.leb_spec (sz - span) (w' - a));
          destruct (Z.leb_spec (sz - span) (w - (a - 1))); lia. }
      assert (Hq : sz - span <= slot_of_age sz span w (a - 1) < sz /\
                   slot_of_age sz span w (a - 1) <> w).
      { unfold slot_of_age.
        destruct (Z.leb_spec (sz - span) (w - (a - 1))); lia. }
      rewrite Hs, decide_False by lia.
      rewrite Hprim by lia.
      rewrite hist_app_l by lia. do 2 f_equal. lia.
  - intros k Hk.
    rewrite !lookup_after_stores by lia.
    destruct Hmode as [->|(-> & Hmb & Hnw)].
    + destruct (decide (k = w - (sz - span))) as [->|Hkr].
      * rewrite !decide_True by lia. reflexivity.
      * rewrite !decide_False by lia. apply Hmir. lia.
    + rewrite !decide_False by lia. apply Hmir. lia.
Qed.
End Ring.

Section RingRuns.
Context {F : Type} `{Arith F}.

(** The loop of one call keeps the invariant when the call appends at most
    [beta + 1] samples. *)
Lemma append_loop_ring (sz span beta : Z) (ys : list F) :
  0 < span -> 2 * span <= sz -> 0 <= beta < span ->
  forall (xs buf : list F) (w m : Z),
    ring_invariant sz span beta xs buf w ->
    ((m = w - span /\ Z.of_nat (length ys) <= beta + 1) \/
     (m = w - (sz - span) /\ m + Z.of_nat (length ys) <= beta)) ->
    exists buf' w',
      append_loop buf sz w m ys = Some (buf', w') /\
      ring_invariant sz span beta (xs ++ ys) buf' w'.
Proof.
  intros Hspan Hsz Hbeta.
  induction ys as [|x ys IH]; intros xs buf w m Hinv Hmode.
  - exists buf, w. rewrite app_nil_r. split; [reflexivity|exact Hinv].
  - pose proof Hinv as (Hlen & Hw & _ & _).
    cbn [length] in Hmode. cbn [append_loop].
    rewrite store_Some by lia. cbn [mbind option_bind].
    rewrite store_Some by (rewrite length_insert; lia). cbn [mbind option_bind].
    assert (Hstep : ring_invariant sz span beta (xs ++ [x])
                      (<[Z.to_nat m := x]> (<[Z.to_nat w := x]> buf))
                      (if w + 1 =? sz then sz - span else w + 1)).
    { apply ring_step; [lia|lia|lia|exact Hinv|].
      destruct Hmode as [[-> _]|[-> Hfit]]; [left; reflexivity|right; lia]. }
    replace (xs ++ x :: ys) with ((xs ++ [x]) ++ ys)
      by (rewrite <- app_assoc; reflexivity).
    destruct (Z.eqb_spec (w + 1) sz) as [Heq|Hne].
    + assert (Hm1 : m + 1 = sz - span) by lia. rewrite Hm1.
      apply (IH (xs ++ [x]) _ (sz - span) 0 Hstep). right. lia.
    + apply (IH (xs ++ [x]) _ (w + 1) (m + 1) Hstep).
      destruct Hmode as [[-> Hfit]|[-> Hfit]]; [left|right]; lia.
Qed.

Lemma append_batches_ring (f : fir_filter F) (sz beta : Z) (batches : list (list F)) :
  1 <= order f -> 2 * order f <= INT_MAX -> 4 * order f <= sz ->
  0 <= beta < 2 * order f ->
  Forall (fun b : list F => 0 < Z.of_nat (length b) <= beta + 1) batches ->
  forall (xs : list F) (d : delay_line F),
    size d = sz ->
    ring_invariant sz (order f * 2) beta xs (buffer d) (index d) ->
    exists d',
      append_batches f d batches = Some d' /\ size d' = sz /\
      ring_invariant sz (order f * 2) beta (xs ++ concat batches)
                     (buffer d') (index d').
Proof.
  intros Ho Hint Hsz Hbeta Hall.
  induction Hall as [|b batches Hb _ IH]; intros xs d Hsize Hinv.
  - exists d. cbn [concat]. rewrite app_nil_r.
    split; [reflexivity|]. split; assumption.
  - cbn [append_batches]. unfold delay_line_append_samples.
    destruct (Z.of_nat (length b) <=? 0) eqn:E0; [lia|].
    assert (Hi : int_ok (order f * 2) = true).
    { unfold int_ok, INT_MIN. unfold INT_MAX in *.
      apply andb_true_intro; split; apply Z.leb_le; lia. }
    rewrite Hi. cbn [negb].
    destruct (Z.of_nat (length b) <? Z.of_nat (length b)) eqn:E1; [lia|].
    rewrite Nat2Z.id, firstn_all, Hsize.
    destruct (append_loop_ring sz (order f * 2) beta b
                ltac:(lia) ltac:(lia) ltac:(lia)
                xs (buffer d) (index d) (index d - order f * 2) Hinv
                ltac:(left; lia))
      as (buf' & w' & Hrun & Hinv').
    rewrite Hrun. cbn [mbind option_bind].
    destruct (IH (xs ++ b) (mk_delay_line buf' sz w')) as (d' & Hruns & Hs' & Hinv'');
      [reflexivity|exact Hinv'|].
    exists d'. cbn [concat]. rewrite app_assoc.
    split; [exact Hruns|]. split; assumption.
Qed.

(** When the buffer is exactly two spans long, the mirror pointer is one
    span behind the cursor also after a wrap within the call, so a call of
    any length keeps the invariant with the whole mirror region valid. *)
Lemma append_loop_ring_exact (sz span : Z) (ys : list F) :
  0 < span -> sz = 2 * span ->
  forall (xs buf : list F) (w : Z),
    ring_invariant sz span 0 xs buf w ->
    exists buf' w',
      append_loop buf sz w (w - span) ys = Some (buf', w') /\
      ring_invariant sz span 0 (xs ++ ys) buf' w'.
Proof.
  intros Hspan Hsz.
  induction ys as [|x ys IH]; intros xs buf w Hinv.
  - exists buf, w. rewrite app_nil_r. split; [reflexivity|exact Hinv].
  - pose proof Hinv as (Hlen & Hw & _ & _).
    cbn [append_loop].
    rewrite store_Some by lia. cbn [mbind option_bind].
    rewrite store_Some by (rewrite length_insert; lia). cbn [mbind option_bind].
    assert (Hstep : ring_invariant sz span 0 (xs ++ [x])
                      (<[Z.to_nat (w - span) := x]> (<[Z.to_nat w := x]> buf))
                      (if w + 1 =? sz then sz - span else w + 1)).
    { apply ring_step; [lia|lia|lia|exact Hinv|left; reflexivity]. }
    replace (xs ++ x :: ys) with ((xs ++ [x]) ++ ys)
      by (rewrite <- app_assoc; reflexivity).
    destruct (Z.eqb_spec (w + 1) sz) as [Heq|Hne].
    + replace (w - span + 1) with (sz - span) by lia.
      destruct (IH (xs ++ [x]) _ (sz - span) Hstep) as (buf' & w' & Hrun & Hinv').
      replace (sz - span - span) with 0 in Hrun by lia.
      exists buf', w'. split; assumption.
    + replace (w - span + 1) with (w + 1 - span) by lia.
      apply (IH (xs ++ [x]) _ (w + 1) Hstep).
Qed.

Lemma append_batches_ring_exact (f : fir_filter F) (sz : Z) (batches : list (list F)) :
  1 <= order f -> 2 * order f <= INT_MAX -> sz = 4 * order f ->
  Forall (fun b : list F => 0 < Z.of_nat (length b)) batches ->
  forall (xs : list F) (d : delay_line F),
    size d = sz ->
    ring_invariant sz (order f * 2) 0 xs (buffer d) (index d) ->
    exists d',
      append_batches f d batches = Some d' /\ size d' = sz /\
      ring_invariant sz (order f * 2) 0 (xs ++ concat batches)
                     (buffer d') (index d').
Proof.
  intros Ho Hint Hsz Hall.
  induction Hall as [|b batches Hb _ IH]; intros xs d Hsize Hinv.
  - exists d. cbn [concat]. rewrite app_nil_r.
    split; [reflexivity|]. split; assumption.
  - cbn [append_batches]. unfold delay_line_append_samples.
    destruct (Z.of_nat (length b) <=? 0) eqn:E0; [lia|].
    assert (Hi : int_ok (order f * 2) = true).
    { unfold int_ok, INT_MIN. unfold INT_MAX in *.
      apply andb_true_intro; split; apply Z.leb_le; lia. }
    rewrite Hi. cbn [negb].
    destruct (Z.of_nat (length b) <? Z.of_nat (length b)) eqn:E1; [lia|].
    rewrite Nat2Z.id, firstn_all, Hsize.
    destruct (append_loop_ring_exact sz (order f * 2) b
                ltac:(lia) ltac:(lia) xs (buffer d) (index d) Hinv)
      as (buf' & w' & Hrun & Hinv').
    rewrite Hrun. cbn [mbind option_bind].
    destruct (IH (xs ++ b) (mk_delay_line buf' sz w')) as (d' & Hruns & Hs' & Hinv'');
      [reflexivity|exact Hinv'|].
    exists d'. cbn [concat]. rewrite app_assoc.
    split; [exact Hruns|]. split; assumption.
Qed.

(** Going back [a] slots from the cursor finds the sample appended [a]
    steps ago, as long as the mirror region is valid that far back. *)
Lemma ring_lookup_back (sz span beta : Z) (xs buf : list F) (w a : Z) :
  0 < span -> 2 * span <= sz ->
  ring_invariant sz span beta xs buf w ->
  1 <= a <= span - beta ->
  0 <= beta ->
  buf !! Z.to_nat (w - a) = Some (hist xs (Z.of_nat (length xs) - a)).
Proof.
  intros Hspan Hsz (Hlen & Hw & Hprim & Hmir) Ha Hbeta.
  rewrite <- (Hprim a) by lia. unfold slot_of_age.
  destruct (Z.leb_spec (sz - span) (w - a)); [reflexivity|].
  replace (w - a) with (sz - 2 * span + (w - a - (sz - 2 * span))) at 1 by lia.
  rewrite Hmir by lia. f_equal. lia.
Qed.

Lemma window_is_reference (sz span beta : Z) (xs : list F) (d : delay_line F)
    (n : Z) (pad : nat) :
  0 < span -> 2 * span <= sz -> 0 <= beta ->
  ring_invariant sz span beta xs (buffer d) (index d) ->
  0 <= n <= span - beta ->
  n <= Z.of_nat pad ->
  window d n = Some (reference_window pad xs (Z.to_nat n)).
Proof.
  intros Hspan Hsz Hbeta Hinv Hn Hpad.
  pose proof Hinv as (Hlen & Hw & _ & _).
  unfold window.
  destruct (Z.leb_spec 0 n); [|lia].
  destruct (Z.leb_spec 0 (index d - n)); [|lia].
  destruct (Z.leb_spec (index d) (Z.of_nat (length (buffer d)))); [|lia].
  cbn [andb]. f_equal. apply list_eq. intros i.
  unfold reference_window, reference_buffer.
  rewrite length_app, length_replicate, lookup_drop.
  destruct (decide (i < Z.to_nat n)%nat) as [Hi|Hi].
  - rewrite lookup_take_lt, lookup_drop by exact Hi.
    replace (Z.to_nat (index d - n) + i)%nat
      with (Z.to_nat (index d - (n - Z.of_nat i))) by lia.
    rewrite (ring_lookup_back sz span beta xs) by (try assumption; lia).
    destruct (Z.ltb_spec (Z.of_nat (length xs) - (n - Z.of_nat i)) 0) as [Hneg|Hpos].
    + rewrite hist_negative by exact Hneg.
      rewrite lookup_app_l by (rewrite length_replicate; lia).
      symmetry. apply lookup_replicate_2. lia.
    + rewrite lookup_app_r by (rewrite length_replicate; lia).
      rewrite length_replicate.
      replace (pad + length xs - Z.to_nat n + i - pad)%nat
        with (Z.to_nat (Z.of_nat (length xs) - (n - Z.of_nat i))) by lia.
      symmetry. apply hist_lookup. lia.
  - rewrite lookup_take_ge by lia.
    symmetry. apply lookup_ge_None_2.
    rewrite length_app, length_replicate. lia.
Qed.
End RingRuns.

Section Refinement.
Context {F : Type} `{Arith F}.

(** A run of appends on a fresh delay line and the window it leaves. *)
Lemma fresh_appends_window
    (f : fir_filter F) (sz cmax count : Z) (batches : list (list F)) (pad : nat) :
  1 <= order f -> 2 * order f <= INT_MAX -> 4 * order f <= sz ->
  1 <= cmax ->
  Forall (fun b : list F => 0 < Z.of_nat (length b) <= cmax) batches ->
  0 <= count -> count + cmax <= order f + 1 ->
  order f + count <= Z.of_nat pad ->
  exists d0 d,
    delay_line_init true sz = Some d0 /\
    append_batches f d0 batches = Some d /\
    Z.of_nat (length (buffer d)) = sz /\
    sz - 2 * order f <= index d < sz /\
    window d (order f + count)
    = Some (reference_window pad (concat batches) (Z.to_nat (order f + count))).
Proof.
  intros Ho Hint Hsz Hcmax Hall Hcount Hfit Hpad.
  unfold delay_line_init. destruct (Z.eqb_spec sz 0) as [->|_]; [lia|].
  eexists.
  destruct (append_batches_ring f sz (cmax - 1) batches Ho Hint Hsz) with
    (xs := @nil F) (d := mk_delay_line (replicate (Z.to_nat sz) fzero) sz (sz - 1))
    as (d & Hrun & Hsize & Hinv).
  - lia.
  - eapply Forall_impl; [exact Hall|]. intros b Hb. cbn beta in Hb |- *. lia.
  - reflexivity.
  - apply ring_invariant_init; lia.
  - exists d. split; [reflexivity|]. split; [exact Hrun|].
    pose proof Hinv as (Hlen & Hw & _ & _).
    split; [exact Hlen|]. split; [lia|].
    apply (window_is_reference sz (order f * 2) (cmax - 1)); try lia.
    exact Hinv.
Qed.

(** The same on a delay line of exactly four times the order, for batches
    of any length. *)
Lemma fresh_appends_window_exact
    (f : fir_filter F) (count : Z) (batches : list (list F)) (pad : nat) :
  1 <= order f -> 2 * order f <= INT_MAX ->
  Forall (fun b : list F => 0 < Z.of_nat (length b)) batches ->
  0 <= count <= order f ->
  order f + count <= Z.of_nat pad ->
  exists d0 d,
    delay_line_init true (4 * order f) = Some d0 /\
    append_batches f d0 batches = Some d /\
    window d (order f + count)
    = Some (reference_window pad (concat batches) (Z.to_nat (order f + count))).
Proof.
  intros Ho Hint Hall Hcount Hpad.
  unfold delay_line_init. destruct (Z.eqb_spec (4 * order f) 0) as [Hz|_]; [lia|].
  eexists.
  destruct (append_batches_ring_exact f (4 * order f) batches Ho Hint eq_refl Hall)
    with (xs := @nil F)
         (d := mk_delay_line (replicate (Z.to_nat (4 * order f)) fzero)
                             (4 * order f) (4 * order f - 1))
    as (d & Hrun & Hsize & Hinv).
  - reflexivity.
  - apply ring_invariant_init; lia.
  - exists d. split; [reflexivity|]. split; [exact Hrun|].
    apply (window_is_reference (4 * order f) (order f * 2) 0); try lia.
    exact Hinv.
Qed.

(** C3, as the code has it.  Take a fresh delay line and any sequence of
    appends of non-empty batches with one order ([order >= 1]).  The slice
    of [order + count] samples that ends at the write cursor, which is the
    slice [fir_filter_apply] is handed for [count] outputs, is sample for
    sample the last [order + count] samples of an unbounded history that
    starts with zeros, wrapped or not, in two cases: the delay line has
    exactly four times the order slots and [count <= order]; or it has at
    least that many, no batch has more than [cmax] samples and
    [count + cmax <= order + 1]. *)
Theorem window_matches_unbounded_history
    (f : fir_filter F) (sz cmax count : Z) (batches : list (list F)) (pad : nat) :
  1 <= order f -> 2 * order f <= INT_MAX ->
  Forall (fun b : list F => 0 < Z.of_nat (length b)) batches ->
  0 <= count ->
  order f + count <= Z.of_nat pad ->
  (sz = 4 * order f /\ count <= order f) \/
  (4 * order f <= sz /\ 1 <= cmax /\
   Forall (fun b : list F => Z.of_nat (length b) <= cmax) batches /\
   count + cmax <= order f + 1) ->
  exists d0 d,
    delay_line_init true sz = Some d0 /\
    append_batches f d0 batches = Some d /\
    window d (order f + count)
    = Some (reference_window pad (concat batches) (Z.to_nat (order f + count))).
Proof.
  intros Ho Hint Hpos Hcount Hpad [[-> Hc]|(Hsz & Hcmax & Hshort & Hfit)].
  - apply fresh_appends_window_exact; try assumption. lia.
  - destruct (fresh_appends_window f sz cmax count batches pad)
      as (d0 & d & Hinit & Hrun & _ & _ & Hwin); try assumption.
    { apply Forall_forall. intros b Hb.
      rewrite Forall_forall in Hpos, Hshort.
      split; [apply Hpos|apply Hshort]; exact Hb. }
    exists d0, d. repeat split; assumption.
Qed.
End Refinement.

Lemma window_matches_unbounded_history_witness :
  exists d0 d : delay_line Binary32.t,
    delay_line_init true 12 = Some d0 /\
    append_batches Scenario.filter d0 Scenario.blocks = Some d /\
    window d (3 + 1)
    = Some (reference_window 4 (concat Scenario.blocks) (Z.to_nat (3 + 1))).
Proof.
  apply (window_matches_unbounded_history Scenario.filter 12 1 1 Scenario.blocks 4).
  - cbn [order Scenario.filter]. lia.
  - cbn [order Scenario.filter]. unfold INT_MAX. lia.
  - repeat constructor.
  - lia.
  - cbn [order Scenario.filter]. lia.
  - left. cbn [order Scenario.filter]. lia.
Defined.

(** C3 as stated fails.  A delay line of 16 slots (four times a largest
    order of 4) is used with a filter of order 3 and batches of 3, 1 and 3
    samples: the capacity exceeds twice the largest order plus the longest
    batch, and the window of [3 + 3] samples is not longer than the mirror
    distance of 6.  The first call wraps after one sample and stores the
    mirror copies of samples 2 and 3 at the start of the buffer; the third
    call wraps at its end, and the window then holds two zeros where the
    history has the samples 2 and 3. *)
Lemma window_differs_counterexample :
  let f := mk_fir_filter 48000 (replicate 3 Binary32.one) 3 in
  let s := Binary32.of_Z in
  let batches := [[s 1; s 2; s 3]; [s 4]; [s 5; s 6; s 7]] in
  exists d0 d : delay_line Binary32.t,
    (4 * 4 <= 16 /\ order f <= 4 /\ 2 * 4 + 3 <= 16 /\ order f + 3 <= 2 * order f) /\
    delay_line_init true 16 = Some d0 /\
    append_batches f d0 batches = Some d /\
    index d = 10 /\
    window d (order f + 3)
    = Some [Binary32.zero; Binary32.zero; s 4; s 5; s 6; s 7] /\
    reference_window 6 (concat batches) 6 = [s 2; s 3; s 4; s 5; s 6; s 7] /\
    Binary32.zero <> s 2.
Proof.
  cbv zeta. eexists. eexists.
  split; [cbn [order]; lia|].
  split; [vm_compute; reflexivity|].
  split; [vm_compute; reflexivity|].
  split; [reflexivity|].
  split; [vm_compute; reflexivity|].
  split; [vm_compute; reflexivity|].
  vm_compute. discriminate.
Qed.

(** The same happens with a constant quantum.  With 20 slots, order 4 and
    3 samples per call, the window after the eleventh call starts with
    sample 19 where the history has sample 27. *)
Lemma window_differs_constant_quantum :
  let f := mk_fir_filter 48000 (replicate 4 Binary32.one) 4 in
  let quantum_of (j : nat) :=
    map (fun i : nat => Binary32.of_Z (Z.of_nat (3 * j + i + 1))) (seq 0 3) in
  let batches := map quantum_of (seq 0 11) in
  exists (d0 d : delay_line Binary32.t) (w : list Binary32.t),
    delay_line_init true 20 = Some d0 /\
    append_batches f d0 batches = Some d /\
    window d (order f + 3) = Some w /\
    w !! 0%nat = Some (Binary32.of_Z 19) /\
    reference_window 7 (concat batches) 7 !! 0%nat = Some (Binary32.of_Z 27).
Proof.
  cbv zeta. eexists. eexists. eexists.
  split; [vm_compute; reflexivity|].
  split; [vm_compute; reflexivity|].
  split; [vm_compute; reflexivity|].
  split; vm_compute; reflexivity.
Qed.

(** ** The impulse response *)

Section Impulse.
Context {F : Type} `{Arith F}.

Lemma sigma_impulse (one : F) (n : nat) (c s : nat -> F) (z0 : Z) :
  (forall j, (j < n)%nat -> fadd fzero (fmul (c j) fzero) = fzero) ->
  (forall j, (j < n)%nat -> fadd fzero (fmul (c j) one) = c j) ->
  (forall i j, (i < n)%nat -> (j < n)%nat -> fadd (c i) (fmul (c j) fzero) = c i) ->
  (forall j, (j < n)%nat -> s j = if decide (Z.of_nat j = z0) then one else fzero) ->
  sigma n (fun j => fmul (c j) (s j))
  = if decide (0 <= z0 < Z.of_nat n) then c (Z.to_nat z0) else fzero.
Proof.
  induction n as [|n IH]; intros H0 H1 H2 Hs.
  - cbn [sigma]. rewrite decide_False by lia. reflexivity.
  - cbn [sigma]. rewrite IH; try (intros; auto with lia).
    rewrite (Hs n) by lia.
    destruct (decide (Z.of_nat n = z0)) as [Hn|Hn].
    + rewrite decide_False, decide_True by lia.
      rewrite <- Hn, Nat2Z.id. apply H1. lia.
    + destruct (decide (0 <= z0 < Z.of_nat n)) as [Hlt|Hge].
      * rewrite decide_True by lia. apply H2; lia.
      * rewrite decide_False by lia. apply H0. lia.
Qed.

Lemma reference_window_lookup (pad : nat) (xs : list F) (n j : nat) :
  (n <= pad)%nat -> (j < n)%nat ->
  reference_window pad xs n !! j
  = Some (hist xs (Z.of_nat (length xs) - Z.of_nat n + Z.of_nat j)).
Proof.
  intros Hn Hj. unfold reference_window, reference_buffer.
  rewrite length_app, length_replicate, lookup_drop.
  destruct (Z.ltb_spec (Z.of_nat (length xs) - Z.of_nat n + Z.of_nat j) 0) as [Hneg|Hpos].
  - rewrite hist_negative by exact Hneg.
    rewrite lookup_app_l by (rewrite length_replicate; lia).
    apply lookup_replicate_2. lia.
  - rewrite lookup_app_r by (rewrite length_replicate; lia).
    rewrite length_replicate.
    replace (pad + length xs - n + j - pad)%nat
      with (Z.to_nat (Z.of_nat (length xs) - Z.of_nat n + Z.of_nat j)) by lia.
    apply hist_lookup. lia.
Qed.

Lemma concat_replicate_singleton (x : F) (k : nat) :
  concat (replicate k [x]) = replicate k x.
Proof. induction k as [|k IH]; [reflexivity|]. cbn. rewrite IH. reflexivity. Qed.

Lemma concat_impulse_blocks (one : F) (p k : nat) :
  concat (impulse_blocks one p k) = replicate p fzero ++ one :: replicate k fzero.
Proof.
  unfold impulse_blocks. rewrite concat_app. cbn [concat].
  rewrite !concat_replicate_singleton. reflexivity.
Qed.

Lemma hist_impulse (one : F) (p k : nat) (t : Z) :
  hist (replicate p fzero ++ one :: replicate k fzero) t
  = if decide (t = Z.of_nat p) then one else fzero.
Proof.
  unfold hist, rd. destruct (Z.ltb_spec t 0) as [Hneg|Hpos].
  - rewrite decide_False by lia. reflexivity.
  - destruct (decide (t = Z.of_nat p)) as [->|Hne].
    + rewrite Nat2Z.id, lookup_app_r by (rewrite length_replicate; lia).
      rewrite length_replicate, Nat.sub_diag. reflexivity.
    + destruct (decide (Z.to_nat t < p)%nat) as [Hlt|Hge].
      * rewrite lookup_app_l by (rewrite length_replicate; lia).
        rewrite lookup_replicate_2 by lia. reflexivity.
      * rewrite lookup_app_r by (rewrite length_replicate; lia).
        rewrite length_replicate.
        destruct (Z.to_nat t - p)%nat as [|q] eqn:Hq; [lia|]. cbn [lookup list_lookup].
        destruct (decide (q < k)%nat) as [Hq1|Hq1].
        -- change (from_option id fzero (replicate k fzero !! q) = fzero).
           rewrite lookup_replicate_2 by lia. reflexivity.
        -- change (from_option id fzero (replicate k fzero !! q) = fzero).
           rewrite lookup_ge_None_2 by (rewrite length_replicate; lia). reflexivity.
Qed.
End Impulse.

Section ImpulseResponse.
Context {F : Type} `{Arith F}.

(** C1, as the code has it.  On a fresh delay line of at least four times
    the order, with one sample per quantum, [p] quanta of silence, a unit
    impulse and [k] more quanta of silence, the output of the last quantum
    is [coeff[order - k]] for [1 <= k <= order] and zero otherwise, zero in
    the quantum of the impulse itself ([k = 0]) in particular, whenever
    the arithmetic is exact on the first [order] coefficients. *)
Theorem impulse_response_reversed_taps
    (f : fir_filter F) (sz : Z) (one out0 : F) (p k : nat) :
  1 <= order f <= Z.of_nat (length (coeffs f)) ->
  2 * order f <= INT_MAX -> 4 * order f <= sz ->
  impulse_exact one (take (Z.to_nat (order f)) (coeffs f)) ->
  exists d0 d,
    delay_line_init true sz = Some d0 /\
    append_batches f d0 (impulse_blocks one p k) = Some d /\
    fir_filter_apply (Some f) (Some d) 1 (Some [out0])
    = Some (Some [if decide (1 <= Z.of_nat k <= order f)
                  then rd (coeffs f) (Z.to_nat (order f - Z.of_nat k))
                  else fzero]).
Proof.
  intros Ho Hint Hsz Hexact.
  destruct (fresh_appends_window f sz 1 1 (impulse_blocks one p k)
              (Z.to_nat (order f + 1)))
    as (d0 & d & Hinit & Hrun & Hlen & Hidx & Hwin); try lia.
  { unfold impulse_blocks. apply Forall_app. split; [apply Forall_replicate|].
    - cbn [length]. lia.
    - constructor; [cbn [length]; lia|]. apply Forall_replicate. cbn [length]. lia. }
  exists d0, d. split; [exact Hinit|]. split; [exact Hrun|].
  rewrite fir_filter_apply_result by (cbn [length]; unfold INT_MAX in *; lia).
  change (Z.to_nat 1) with 1%nat. cbn [seq map drop app].
  do 3 f_equal. rewrite scalar_sum_sigma.
  set (n := Z.to_nat (order f)).
  assert (Hc : forall j, (j < n)%nat ->
             take n (coeffs f) !! j = Some (rd (coeffs f) j)).
  { intros j Hj. rewrite lookup_take_lt by exact Hj.
    destruct (lookup_lt_is_Some_2 (coeffs f) j) as [y Hy]; [lia|].
    rewrite (rd_lookup _ _ _ Hy). exact Hy. }
  assert (Hex : forall j, (j < n)%nat ->
             fadd fzero (fmul (rd (coeffs f) j) fzero) = fzero /\
             fadd fzero (fmul (rd (coeffs f) j) one) = rd (coeffs f) j /\
             forall i, (i < n)%nat ->
               fadd (rd (coeffs f) j) (fmul (rd (coeffs f) i) fzero) = rd (coeffs f) j).
  { intros j Hj. unfold impulse_exact in Hexact. fold n in Hexact.
    rewrite Forall_lookup in Hexact.
    destruct (Hexact j _ (Hc j Hj)) as (E0 & E1 & E2).
    split; [exact E0|]. split; [exact E1|]. intros i Hi.
    rewrite Forall_lookup in E2. exact (E2 i _ (Hc i Hi)). }
  rewrite (sigma_impulse one n (fun j => rd (coeffs f) j)
             (fun j => rd (kernel_window f d 1) (0 + j))
             (order f - Z.of_nat k)).
  - destruct (decide (1 <= Z.of_nat k <= order f)) as [Hk|Hk].
    + rewrite decide_True by lia. reflexivity.
    + rewrite decide_False by lia. reflexivity.
  - intros j Hj. apply (Hex j Hj).
  - intros j Hj. apply (Hex j Hj).
  - intros i j Hi Hj. apply (Hex i Hi). exact Hj.
  - intros j Hj. cbn [Nat.add].
    unfold window in Hwin.
    destruct ((0 <=? order f + 1) && (0 <=? index d - (order f + 1))
              && (index d <=? Z.of_nat (length (buffer d)))) eqn:Eb; [|discriminate].
    injection Hwin as Hwin.
    assert (Hkw : kernel_window f d 1 !! j
                  = reference_window (Z.to_nat (order f + 1))
                      (concat (impulse_blocks one p k)) (Z.to_nat (order f + 1)) !! j).
    { rewrite <- Hwin. rewrite lookup_take_lt by lia.
      unfold kernel_window. do 3 f_equal. lia. }
    rewrite reference_window_lookup in Hkw by lia.
    rewrite concat_impulse_blocks, hist_impulse in Hkw.
    rewrite (rd_lookup _ _ _ Hkw).
    rewrite length_app, length_replicate in *. cbn [length].
    rewrite length_replicate.
    destruct (decide (Z.of_nat j = order f - Z.of_nat k)) as [Hj0|Hj0].
    + rewrite decide_True by lia. reflexivity.
    + rewrite decide_False by lia. reflexivity.
Qed.
End ImpulseResponse.

Lemma scenario_taps_exact :
  impulse_exact Binary32.one (take (Z.to_nat 3) Scenario.taps).
Proof.
  unfold impulse_exact.
  repeat (constructor; [repeat split; try (vm_compute; reflexivity);
                        repeat (constructor; [vm_compute; reflexivity|]);
                        constructor|]).
  constructor.
Qed.

Lemma impulse_response_reversed_taps_witness :
  exists d0 d : delay_line Binary32.t,
    delay_line_init true 12 = Some d0 /\
    append_batches Scenario.filter d0 (impulse_blocks Binary32.one 0 2) = Some d /\
    fir_filter_apply (Some Scenario.filter) (Some d) 1 (Some [Binary32.zero])
    = Some (Some [if decide (1 <= Z.of_nat 2 <= order Scenario.filter)
                  then rd (coeffs Scenario.filter)
                          (Z.to_nat (order Scenario.filter - Z.of_nat 2))
                  else fzero]).
Proof.
  apply (impulse_response_reversed_taps Scenario.filter 12 Binary32.one
           Binary32.zero 0 2).
  - cbn [order coeffs Scenario.filter Scenario.taps length]. lia.
  - cbn [order Scenario.filter]. unfold INT_MAX. lia.
  - cbn [order Scenario.filter]. lia.
  - exact scenario_taps_exact.
Defined.

(** C1 as stated fails: the four quanta of the scenario give 0, 0.3, 0.2,
    0.1; the output of the quantum of the impulse is 0, not 0.4. *)
Lemma scenario_outputs_counterexample :
  Scenario.outputs
  = Some [[Binary32.zero]; [Binary32.lit 3 10]; [Binary32.lit 2 10]; [Binary32.lit 1 10]] /\
  Scenario.outputs
  <> Some [[Binary32.lit 4 10]; [Binary32.lit 3 10]; [Binary32.lit 2 10];
           [Binary32.lit 1 10]].
Proof.
  split; [vm_compute; reflexivity|]. vm_compute. discriminate.
Qed.

(** ** The AVX-512 kernel against the scalar kernel *)

Section LaneSumFacts.
Context {F : Type} `{ExactSums F}.

Lemma fadd_zero_r (a : F) : fadd a fzero = a.
Proof. rewrite fadd_comm. apply fadd_zero_l. Qed.

Lemma lsum_app (a b : list F) : lsum (a ++ b) = fadd (lsum a) (lsum b).
Proof.
  induction a as [|x a IH]; cbn [app lsum fold_right].
  - rewrite fadd_zero_l. reflexivity.
  - fold (lsum (a ++ b)). fold (lsum a). rewrite IH. apply fadd_assoc.
Qed.

Lemma lsum_zip_add (a b : list F) :
  length a = length b ->
  lsum (zip_with fadd a b) = fadd (lsum a) (lsum b).
Proof.
  revert b. induction a as [|x a IH]; intros [|y b] Hlen; try discriminate.
  - cbn. rewrite fadd_zero_l. reflexivity.
  - cbn [zip_with lsum fold_right].
    fold (lsum (zip_with fadd a b)). fold (lsum a). fold (lsum b).
    rewrite IH by (cbn [length] in Hlen; lia).
    rewrite <- !fadd_assoc. f_equal.
    rewrite !fadd_assoc. f_equal. apply fadd_comm.
Qed.

Lemma fold_left_add (l : list F) (a : F) :
  fold_left fadd l a = fadd a (lsum l).
Proof.
  revert a. induction l as [|x l IH]; intros a; cbn [fold_left lsum fold_right].
  - rewrite fadd_zero_r. reflexivity.
  - fold (lsum l). rewrite IH. symmetry. apply fadd_assoc.
Qed.

Lemma fold_left_terms (term : nat -> F) (js : list nat) (a : F) :
  fold_left (fun sum j => fadd sum (term j)) js a
  = fadd a (lsum (map term js)).
Proof.
  rewrite <- fold_left_add. revert a.
  induction js as [|j js IH]; intros a; [reflexivity|].
  cbn [fold_left map]. apply IH.
Qed.

Lemma lsum_replicate_zero (n : nat) : lsum (replicate n fzero) = fzero.
Proof.
  induction n as [|n IH]; [reflexivity|].
  cbn [replicate lsum fold_right]. fold (lsum (replicate n fzero)).
  rewrite IH. apply fadd_zero_l.
Qed.

Lemma lsum_fold_halves (v : list F) (h : nat) :
  length v = (2 * h)%nat ->
  lsum (fold_halves v) = lsum v /\ length (fold_halves v) = h.
Proof.
  intros Hlen. unfold fold_halves.
  assert (Hh : (length v / 2 = h)%nat).
  { rewrite Hlen, Nat.mul_comm. apply Nat.div_mul. discriminate. }
  rewrite Hh. split.
  - rewrite lsum_zip_add by (rewrite length_take, length_drop; lia).
    rewrite <- lsum_app, take_drop. reflexivity.
  - rewrite length_zip_with, length_take, length_drop. lia.
Qed.

Lemma mm512_reduce_add_ps_lsum (v : list F) :
  length v = 16%nat -> mm512_reduce_add_ps v = lsum v.
Proof.
  intros Hlen. unfold mm512_reduce_add_ps.
  destruct (lsum_fold_halves v 8 Hlen) as [S1 L1].
  destruct (lsum_fold_halves _ 4 L1) as [S2 L2].
  destruct (lsum_fold_halves _ 2 L2) as [S3 L3].
  destruct (lsum_fold_halves _ 1 L3) as [S4 L4].
  rewrite <- S1, <- S2, <- S3, <- S4.
  destruct (fold_halves (fold_halves (fold_halves (fold_halves v)))) as [|x [|y tl]];
    try discriminate.
  cbn. rewrite fadd_zero_r. reflexivity.
Qed.
End LaneSumFacts.

Section AvxFacts.
Context {F : Type} `{ExactSums F}.

Lemma mm512_fmadd_ps_exact (a b c : list F) :
  mm512_fmadd_ps a b c = zip_with fadd (zip_with fmul a b) c.
Proof.
  unfold mm512_fmadd_ps. revert b c.
  induction a as [|x a IH]; intros [|y b] [|z c]; try reflexivity.
  cbn [zip zip_with fst snd]. rewrite ffma_exact, IH. reflexivity.
Qed.

Lemma map_seq_shift {A : Type} (h : nat -> A) (k n : nat) :
  map (fun lane => h (k + lane)%nat) (seq 0 n) = map h (seq k n).
Proof.
  replace (seq k n) with (seq (k + 0) n) by (f_equal; lia).
  rewrite <- fmap_add_seq. rewrite <- list_fmap_compose. reflexivity.
Qed.

Lemma zip_with_map_same {A : Type} (g1 g2 : A -> F) (l : list A) :
  zip_with fmul (map g1 l) (map g2 l) = map (fun x => fmul (g1 x) (g2 x)) l.
Proof. induction l as [|x l IH]; [reflexivity|]. cbn. rewrite IH. reflexivity. Qed.

Lemma block_products (coeff samples : list F) (i b : nat) :
  zip_with fmul (mm512_loadu_ps coeff (16 * b)) (mm512_loadu_ps samples (i + 16 * b))
  = map (tap_term coeff samples i) (seq (16 * b) 16).
Proof.
  unfold mm512_loadu_ps. rewrite zip_with_map_same.
  rewrite <- (map_seq_shift (tap_term coeff samples i) (16 * b) 16).
  apply map_ext. intros lane. unfold tap_term. do 2 f_equal. lia.
Qed.

Lemma single_acc_lsum (coeff samples : list F) (i nblk : nat) :
  length (single_acc nblk coeff samples i) = 16%nat /\
  lsum (single_acc nblk coeff samples i)
  = lsum (map (tap_term coeff samples i) (seq 0 (16 * nblk))).
Proof.
  unfold single_acc. induction nblk as [|n [IHlen IHsum]].
  - split; [reflexivity|]. cbn [fold_left seq Nat.mul map].
    apply (lsum_replicate_zero 16).
  - rewrite fold_left_seq_S. rewrite mm512_fmadd_ps_exact, block_products.
    split.
    + rewrite length_zip_with, length_map, length_seq, IHlen. reflexivity.
    + rewrite lsum_zip_add by (rewrite length_map, length_seq, IHlen; reflexivity).
      rewrite IHsum, fadd_comm, <- lsum_app, <- map_app, <- seq_app.
      do 3 f_equal. lia.
Qed.

Lemma scalar_sum_terms (len : nat) (coeff samples : list F) (i : nat) :
  scalar_sum len coeff samples i
  = fold_left (fun sum j => fadd sum (tap_term coeff samples i j)) (seq 0 len) fzero.
Proof. reflexivity. Qed.

(** Per output, the vector accumulation, its reduction and the scalar
    tail add up the same products as the scalar loop. *)
Lemma avx512_sum_scalar (nblk len : nat) (coeff samples : list F) (i : nat) :
  (16 * nblk <= len)%nat ->
  avx512_sum nblk (16 * nblk) len coeff samples i = scalar_sum len coeff samples i.
Proof.
  intros Hle. unfold avx512_sum, tail_sum.
  destruct (single_acc_lsum coeff samples i nblk) as [Hlen Hsum].
  rewrite mm512_reduce_add_ps_lsum by exact Hlen. rewrite Hsum.
  rewrite scalar_sum_terms.
  replace (seq 0 len) with (seq 0 (16 * nblk) ++ seq (16 * nblk) (len - 16 * nblk))
    by (rewrite <- seq_app; f_equal; lia).
  rewrite fold_left_app. f_equal.
  rewrite fold_left_terms, fadd_zero_l. reflexivity.
Qed.

Lemma unrolled_acc_split (nblk : nat) (coeff samples : list F) (i : nat) :
  unrolled_acc nblk coeff samples i
  = (single_acc nblk coeff samples (i + 0), single_acc nblk coeff samples (i + 1),
     single_acc nblk coeff samples (i + 2), single_acc nblk coeff samples (i + 3)).
Proof.
  unfold unrolled_acc, single_acc. induction nblk as [|n IH]; [reflexivity|].
  rewrite !fold_left_seq_S, IH. reflexivity.
Qed.

Lemma unrolled_tail_split (vlen len : nat) (coeff samples : list F) (i : nat)
    (s0 s1 s2 s3 : F) :
  unrolled_tail vlen len coeff samples i (s0, s1, s2, s3)
  = (tail_sum vlen len coeff samples (i + 0) s0,
     tail_sum vlen len coeff samples (i + 1) s1,
     tail_sum vlen len coeff samples (i + 2) s2,
     tail_sum vlen len coeff samples (i + 3) s3).
Proof.
  unfold unrolled_tail, tail_sum.
  generalize (seq vlen (len - vlen)) as js. intros js.
  revert s0 s1 s2 s3. induction js as [|j js IH]; intros s0 s1 s2 s3; [reflexivity|].
  cbn [fold_left]. apply IH.
Qed.

(** One pass of the unrolled loop is four passes of the store loop. *)
Lemma unrolled_step_stores (nblk vlen len : nat) (coeff samples out : list F) (g : nat) :
  unrolled_step nblk vlen len coeff samples out g
  = fold_left (fun o i => <[i := avx512_sum nblk vlen len coeff samples i]> o)
              (seq (4 * g) 4) out.
Proof.
  unfold unrolled_step. rewrite unrolled_acc_split, unrolled_tail_split.
  cbn [seq fold_left]. unfold avx512_sum.
  replace (4 * g + 0)%nat with (4 * g)%nat by lia.
  replace (4 * g + 1)%nat with (S (4 * g)) by lia.
  replace (4 * g + 2)%nat with (S (S (4 * g))) by lia.
  replace (4 * g + 3)%nat with (S (S (S (4 * g)))) by lia.
  reflexivity.
Qed.

Lemma unrolled_loop_stores (nblk vlen len : nat) (coeff samples : list F) (ng : nat) :
  forall out : list F,
    fold_left (unrolled_step nblk vlen len coeff samples) (seq 0 ng) out
    = fold_left (fun o i => <[i := avx512_sum nblk vlen len coeff samples i]> o)
                (seq 0 (4 * ng)) out.
Proof.
  induction ng as [|n IH]; intros out; [reflexivity|].
  rewrite fold_left_seq_S, IH, unrolled_step_stores.
  replace (4 * S n)%nat with (4 * n + 4)%nat by lia.
  rewrite seq_app, fold_left_app. reflexivity.
Qed.
End AvxFacts.

Section AvxTheorem.
Context {F : Type} `{ExactSums F}.

Lemma quot_blocks (z k : Z) :
  0 < k ->
  Z.to_nat (Z.quot (Z.quot z k * k) k) = Z.to_nat (Z.quot z k) /\
  Z.to_nat (Z.quot z k * k) = (Z.to_nat k * Z.to_nat (Z.quot z k))%nat /\
  (Z.to_nat k * Z.to_nat (Z.quot z k) <= Z.to_nat z)%nat.
Proof.
  intros Hk. rewrite Z.quot_mul by lia. split; [reflexivity|].
  destruct (Z.le_gt_cases 0 z) as [Hz|Hz].
  - assert (Hq : 0 <= Z.quot z k) by (apply Z.quot_pos; lia).
    assert (Hle : Z.quot z k * k <= z)
      by (rewrite Z.mul_comm; apply Z.mul_quot_le; lia).
    split; [|nia]. rewrite Z2Nat.inj_mul by lia. lia.
  - assert (Hq : Z.quot z k <= 0).
    { replace z with (- (- z)) by lia. rewrite Z.quot_opp_l by lia.
      pose proof (Z.quot_pos (- z) k ltac:(lia) ltac:(lia)). lia. }
    rewrite !Z2Nat.nonpos by nia. lia.
Qed.

Lemma fir_filter_apply_avx512_eq
    (len : Z) (coeff : list F) (count : Z) (samples output : list F) :
  fir_filter_apply_avx512 len coeff count samples output
  = fir_filter_apply_scalar len coeff count samples output.
Proof.
  unfold fir_filter_apply_avx512, fir_filter_apply_scalar.
  unfold SIMD_WIDTH_AVX512, OUTPUT_UNROLL_FACTOR.
  destruct (quot_blocks len 16 ltac:(lia)) as (Hb1 & Hb2 & Hb3).
  destruct (quot_blocks count 4 ltac:(lia)) as (Hg1 & Hg2 & Hg3).
  rewrite Hb1, Hb2, Hg1, Hg2.
  change (Z.to_nat 16) with 16%nat in *. change (Z.to_nat 4) with 4%nat in *.
  set (nblk := Z.to_nat (Z.quot len 16)) in *.
  set (ng := Z.to_nat (Z.quot count 4)) in *.
  rewrite unrolled_loop_stores.
  change (single_step nblk (16 * nblk) (Z.to_nat len) coeff samples)
    with (fun (o : list F) (i : nat) =>
            <[i := avx512_sum nblk (16 * nblk) (Z.to_nat len) coeff samples i]> o).
  rewrite <- fold_left_app, <- seq_app.
  replace (4 * ng + (Z.to_nat count - 4 * ng))%nat with (Z.to_nat count) by lia.
  generalize (seq 0 (Z.to_nat count)) as idxs. intros idxs. revert output.
  induction idxs as [|i idxs IH]; intros output; [reflexivity|].
  cbn [fold_left]. rewrite avx512_sum_scalar by exact Hb3. apply IH.
Qed.

(** C9.  In arithmetic where sums can be reordered, the AVX-512 kernel
    (batches of four outputs, sixteen lanes with fused multiply-add, the
    lane reduction and the scalar tails) leaves in the output block exactly
    what the scalar kernel leaves, for every length, count and arrays: for
    every output it adds up the same products, in another order.  The two
    builds of [fir_filter_apply] then agree as well. *)
Theorem avx512_kernel_is_scalar_sum_reordered
    (len : Z) (coeff : list F) (count : Z) (samples output : list F) :
  fir_filter_apply_avx512 len coeff count samples output
  = fir_filter_apply_scalar len coeff count samples output /\
  (forall (filter : option (fir_filter F)) (dl : option (delay_line F))
          (out : option (list F)),
     fir_filter_apply_simd filter dl count out = fir_filter_apply filter dl count out).
Proof.
  split; [apply fir_filter_apply_avx512_eq|].
  intros filter dl out. unfold fir_filter_apply_simd, fir_filter_apply.
  destruct filter as [f|], dl as [d|], out as [o|]; try reflexivity.
  rewrite fir_filter_apply_avx512_eq. reflexivity.
Qed.
End AvxTheorem.

Lemma avx512_kernel_is_scalar_sum_reordered_witness :
  let coeff := map Z.of_nat (seq 1 40) in
  let samples := map (fun n : nat => Z.of_nat (n * n + 1)) (seq 0 60) in
  fir_filter_apply_avx512 37 coeff 11 samples (replicate 12 0)
  = fir_filter_apply_scalar 37 coeff 11 samples (replicate 12 0) /\
  (forall (filter : option (fir_filter Z)) (dl : option (delay_line Z))
          (out : option (list Z)),
     fir_filter_apply_simd filter dl 11 out = fir_filter_apply filter dl 11 out).
Proof.
  cbv zeta.
  apply (avx512_kernel_is_scalar_sum_reordered (F := Z) (H1 := exactZ_sums)).
Defined.

(** ** The window of the AVX-512 kernel *)

Section AvxStores.
Context {F : Type} `{Fused F}.

(** The two loops of the kernel are one store loop over the outputs. *)
Lemma fir_filter_apply_avx512_stores
    (len : Z) (coeff : list F) (count : Z) (samples output : list F) :
  fir_filter_apply_avx512 len coeff count samples output
  = fold_left (fun o i =>
       <[i := avx512_sum (Z.to_nat (Z.quot len 16)) (16 * Z.to_nat (Z.quot len 16))
                         (Z.to_nat len) coeff samples i]> o)
      (seq 0 (Z.to_nat count)) output.
Proof.
  unfold fir_filter_apply_avx512.
  unfold SIMD_WIDTH_AVX512, OUTPUT_UNROLL_FACTOR.
  destruct (quot_blocks len 16 ltac:(lia)) as (Hb1 & Hb2 & Hb3).
  destruct (quot_blocks count 4 ltac:(lia)) as (Hg1 & Hg2 & Hg3).
  rewrite Hb1, Hb2, Hg1, Hg2.
  change (Z.to_nat 16) with 16%nat in *. change (Z.to_nat 4) with 4%nat in *.
  set (nblk := Z.to_nat (Z.quot len 16)) in *.
  set (ng := Z.to_nat (Z.quot count 4)) in *.
  rewrite unrolled_loop_stores.
  change (single_step nblk (16 * nblk) (Z.to_nat len) coeff samples)
    with (fun (o : list F) (i : nat) =>
            <[i := avx512_sum nblk (16 * nblk) (Z.to_nat len) coeff samples i]> o).
  rewrite <- fold_left_app, <- seq_app.
  replace (4 * ng + (Z.to_nat count - 4 * ng))%nat with (Z.to_nat count) by lia.
  reflexivity.
Qed.
End AvxStores.

Section AvxWindow.
Context {F : Type} `{Fused F}.

Lemma fold_left_ext_in {A B : Type} (g h : A -> B -> A) (l : list B) :
  (forall x, In x l -> forall a, g a x = h a x) ->
  forall a, fold_left g l a = fold_left h l a.
Proof.
  induction l as [|x l IH]; intros Hgh a; [reflexivity|].
  cbn [fold_left]. rewrite (Hgh x (or_introl eq_refl)).
  apply IH. intros y Hy. apply Hgh. right. exact Hy.
Qed.

(** Arrays with the same first [n] elements are read alike below [n]. *)
Lemma rd_take_eq (a a' : list F) (n k : nat) :
  take n a = take n a' -> (k < n)%nat -> rd a k = rd a' k.
Proof.
  intros Ht Hk. unfold rd.
  rewrite <- (lookup_take_lt a n k Hk), <- (lookup_take_lt a' n k Hk), Ht.
  reflexivity.
Qed.

Lemma mm512_loadu_ps_take_eq (a a' : list F) (n off : nat) :
  take n a = take n a' -> (off + 16 <= n)%nat ->
  mm512_loadu_ps a off = mm512_loadu_ps a' off.
Proof.
  intros Ht Hoff. unfold mm512_loadu_ps. apply map_ext_in.
  intros lane Hlane. apply in_seq in Hlane. apply (rd_take_eq a a' n); [exact Ht|lia].
Qed.

(** X20.  The AVX-512 kernel reads only what the scalar kernel reads: what
    it leaves in the output block depends on no coefficient beyond
    [coeff[len - 1]] and on no sample beyond [samples[count + len - 2]].
    The vector loads of sixteen floats start at multiples of 16 below
    [(len / 16) * 16], so they stay inside the window of [count + len - 1]
    samples. *)
Theorem avx512_reads_only_the_window
    (len : Z) (coeff coeff' : list F) (count : Z) (samples samples' output : list F) :
  take (Z.to_nat len) coeff = take (Z.to_nat len) coeff' ->
  take (Z.to_nat (count + len - 1)) samples
  = take (Z.to_nat (count + len - 1)) samples' ->
  fir_filter_apply_avx512 len coeff count samples output
  = fir_filter_apply_avx512 len coeff' count samples' output.
Proof.
  intros Hc Hs. rewrite !fir_filter_apply_avx512_stores.
  assert (Hblk : (16 * Z.to_nat (Z.quot len 16) <= Z.to_nat len)%nat).
  { pose proof (Z.quot_rem' len 16) as Hqr.
    destruct (Z.le_gt_cases 0 len) as [Hpos|Hneg].
    - pose proof (Z.rem_bound_pos len 16 Hpos ltac:(lia)). lia.
    - assert (Hq : Z.quot len 16 <= 0).
      { replace len with (- - len) by lia. rewrite Z.quot_opp_l by lia.
        pose proof (Z.quot_pos (- len) 16 ltac:(lia) ltac:(lia)). lia. }
      lia. }
  set (nblk := Z.to_nat (Z.quot len 16)) in *.
  apply fold_left_ext_in. intros i Hi o. apply in_seq in Hi. f_equal.
  unfold avx512_sum.
  assert (Hacc : single_acc nblk coeff samples i = single_acc nblk coeff' samples' i).
  { unfold single_acc. apply fold_left_ext_in. intros b Hb v. apply in_seq in Hb.
    rewrite (mm512_loadu_ps_take_eq coeff coeff' (Z.to_nat len) (16 * b) Hc) by lia.
    rewrite (mm512_loadu_ps_take_eq samples samples' (Z.to_nat (count + len - 1))
               (i + 16 * b) Hs) by lia.
    reflexivity. }
  rewrite Hacc. unfold tail_sum. apply fold_left_ext_in. intros j Hj sum.
  apply in_seq in Hj.
  rewrite (rd_take_eq coeff coeff' (Z.to_nat len) j Hc) by lia.
  rewrite (rd_take_eq samples samples' (Z.to_nat (count + len - 1)) (i + j) Hs) by lia.
  reflexivity.
Qed.
End AvxWindow.

Lemma avx512_reads_only_the_window_witness :
  fir_filter_apply_avx512 17 (map Z.of_nat (seq 1 17) ++ [100; 200]) 5
    (map Z.of_nat (seq 3 21) ++ [7; 7; 7]) (replicate 5 0)
  = fir_filter_apply_avx512 17 (map Z.of_nat (seq 1 17)) 5
      (map Z.of_nat (seq 3 21)) (replicate 5 0).
Proof.
  apply (avx512_reads_only_the_window (F := Z)); reflexivity.
Defined.

(** ** Quanta: append and convolution together *)

Section QuantumSafety.
Context {F : Type} `{Arith F}.

Lemma sigma_ext (n : nat) (g h : nat -> F) :
  (forall j, (j < n)%nat -> g j = h j) -> sigma n g = sigma n h.
Proof.
  induction n as [|n IH]; intros Hgh; [reflexivity|].
  cbn [sigma]. rewrite IH by (intros; apply Hgh; lia).
  rewrite Hgh by lia. reflexivity.
Qed.

(** X3.  One quantum, the append of a block followed by the convolution
    into an output block of the same length, is defined (every load and
    store is inside its array) and leaves the cursor in range, whenever the
    cursor is in the last [2 * omax] slots of a delay line of at least
    [4 * omax] slots, the order is between 1 and [omax] with that many
    coefficients, the block has between 1 and [2 * order] samples and
    [order] plus the block length is at most [2 * omax]. *)
Theorem quantum_is_defined (omax : Z) (f : fir_filter F) (d : delay_line F)
    (block : list F) :
  cursor_in_range omax d ->
  1 <= order f <= omax ->
  order f <= Z.of_nat (length (coeffs f)) ->
  2 * omax <= INT_MAX ->
  0 < Z.of_nat (length block) <= 2 * order f ->
  order f + Z.of_nat (length block) <= 2 * omax ->
  exists d' out,
    quantum f d block = Some (d', out) /\
    cursor_in_range omax d' /\ size d' = size d /\
    length out = length block.
Proof.
  intros Hd Ho Hc Hint Hb Hfit.
  destruct (append_in_range omax f d block Hd Ho Hint Hb) as (d' & Hrun & Hd' & Hs & _).
  pose proof Hd' as (Hsz' & Hbig' & Hidx').
  unfold quantum. rewrite Hrun.
  rewrite fir_filter_apply_result
    by (rewrite ?length_replicate; unfold INT_MAX in *; lia).
  eexists. eexists. split; [reflexivity|].
  split; [exact Hd'|]. split; [exact Hs|].
  rewrite length_app, length_map, length_seq, length_drop, length_replicate. lia.
Qed.
End QuantumSafety.

Section QuantaRing.
Context {F : Type} `{Arith F}.
Variables (f : fir_filter F) (sz beta : Z) (admissible : list F -> Prop).
Hypothesis Horder : 1 <= order f <= Z.of_nat (length (coeffs f)).
Hypothesis Hint : 2 * order f <= INT_MAX.
Hypothesis Hsz : 4 * order f <= sz.
Hypothesis Hbeta : 0 <= beta.
Hypothesis Hfits : forall b : list F, admissible b ->
  0 < Z.of_nat (length b) /\ order f + Z.of_nat (length b) <= 2 * order f - beta.
Hypothesis Hstep : forall b : list F, admissible b ->
  forall (xs : list F) (d : delay_line F),
    size d = sz ->
    ring_invariant sz (order f * 2) beta xs (buffer d) (index d) ->
    exists d',
      delay_line_append_samples (Some f) (Some d) (Some b) (Z.of_nat (length b))
        = Some (Some d') /\
      size d' = sz /\
      ring_invariant sz (order f * 2) beta (xs ++ b) (buffer d') (index d').

Lemma quantum_ring (b xs : list F) (d : delay_line F) :
  admissible b -> size d = sz ->
  ring_invariant sz (order f * 2) beta xs (buffer d) (index d) ->
  exists d',
    quantum f d b
    = Some (d', map (fun i => fir_response f (xs ++ b) (length xs + i))
                    (seq 0 (length b))) /\
    size d' = sz /\
    ring_invariant sz (order f * 2) beta (xs ++ b) (buffer d') (index d').
Proof.
  intros Hb Hsize Hinv.
  destruct (Hfits b Hb) as [Hpos Hfit].
  destruct (Hstep b Hb xs d Hsize Hinv) as (d' & Hrun & Hsize' & Hinv').
  pose proof Hinv' as (Hlen & Hw & _ & _).
  exists d'. split; [|split; assumption].
  unfold quantum. rewrite Hrun.
  rewrite fir_filter_apply_result
    by (rewrite ?length_replicate; unfold INT_MAX in *; lia).
  rewrite Nat2Z.id.
  rewrite drop_ge by (rewrite length_replicate; lia). rewrite app_nil_r.
  do 2 f_equal. apply map_ext_in. intros i Hi. apply in_seq in Hi.
  rewrite scalar_sum_sigma. unfold fir_response.
  apply sigma_ext. intros j Hj. f_equal.
  unfold kernel_window. rewrite rd_drop.
  replace (Z.to_nat (index d' - order f - Z.of_nat (length b)) + (i + j))%nat
    with (Z.to_nat (index d' - (order f + Z.of_nat (length b) - Z.of_nat i - Z.of_nat j)))
    by lia.
  erewrite rd_lookup;
    [|apply (ring_lookup_back sz (order f * 2) beta (xs ++ b)); try assumption; lia].
  f_equal. rewrite length_app. lia.
Qed.

Lemma fir_response_app (xs ys : list F) (t : nat) :
  (t < length xs)%nat -> fir_response f (xs ++ ys) t = fir_response f xs t.
Proof.
  intros Ht. unfold fir_response.
  apply sigma_ext. intros j Hj. f_equal. apply hist_app_l. lia.
Qed.

Lemma quanta_ring (blocks : list (list F)) :
  Forall admissible blocks ->
  forall (xs : list F) (d : delay_line F),
    size d = sz ->
    ring_invariant sz (order f * 2) beta xs (buffer d) (index d) ->
    exists d' outs,
      quanta f d blocks = Some (d', outs) /\
      size d' = sz /\
      ring_invariant sz (order f * 2) beta (xs ++ concat blocks)
                     (buffer d') (index d') /\
      map length outs = map length blocks /\
      concat outs
      = map (fun t => fir_response f (xs ++ concat blocks) (length xs + t))
            (seq 0 (length (concat blocks))).
Proof.
  induction 1 as [|b blocks Hb _ IH]; intros xs d Hsize Hinv.
  - exists d, []. cbn [concat]. rewrite app_nil_r.
    split; [reflexivity|]. split; [exact Hsize|]. split; [exact Hinv|].
    split; reflexivity.
  - destruct (quantum_ring b xs d Hb Hsize Hinv) as (d1 & Hq & Hs1 & Hinv1).
    destruct (IH (xs ++ b) d1 Hs1 Hinv1) as (d' & outs & Hqs & Hs' & Hinv' & Hlens & Houts).
    cbn [quanta]. rewrite Hq. cbn [mbind option_bind]. rewrite Hqs.
    cbn [mbind option_bind]. eexists. eexists. split; [reflexivity|].
    cbn [concat]. rewrite app_assoc.
    split; [exact Hs'|]. split; [exact Hinv'|]. split.
    + cbn [map]. rewrite length_map, length_seq, Hlens. reflexivity.
    + rewrite Houts, (length_app b), seq_app, map_app. f_equal.
      * apply map_ext_in. intros i Hi. apply in_seq in Hi.
        symmetry. apply fir_response_app. rewrite length_app. lia.
      * cbn [Nat.add].
        rewrite <- (map_seq_shift
                      (fun t => fir_response f ((xs ++ b) ++ concat blocks)
                                             (length xs + t)) (length b)).
        apply map_ext. intros t. rewrite length_app. f_equal. lia.
Qed.
End QuantaRing.

Section Streaming.
Context {F : Type} `{Arith F}.

Lemma single_batch_step (f : fir_filter F) (sz beta : Z) (b xs : list F)
    (d : delay_line F) :
  (exists d',
     append_batches f d [b] = Some d' /\ size d' = sz /\
     ring_invariant sz (order f * 2) beta (xs ++ concat [b]) (buffer d') (index d')) ->
  exists d',
    delay_line_append_samples (Some f) (Some d) (Some b) (Z.of_nat (length b))
      = Some (Some d') /\
    size d' = sz /\
    ring_invariant sz (order f * 2) beta (xs ++ b) (buffer d') (index d').
Proof.
  intros (d' & Hrun & Hsize & Hinv). exists d'.
  cbn [append_batches concat] in Hrun, Hinv. rewrite app_nil_r in Hinv.
  destruct (delay_line_append_samples (Some f) (Some d) (Some b)
              (Z.of_nat (length b))) as [[d1|]|]; try discriminate.
  injection Hrun as ->. split; [reflexivity|]. split; assumption.
Qed.

(** X4.  A stream fed quantum by quantum through append and convolution,
    starting from a fresh delay line, comes out filtered: the outputs of
    the quanta, put end to end, are the response of the filter to the
    whole stream, [y[t] = sum over j < order of coeff[j] * x[t - order + j]]
    with silence before the stream, and every output block has the length
    of its input block.  This holds when the delay line has exactly four
    times the order slots and no block is longer than the order, and when
    it has at least that many and no block has more than [cmax] samples
    with [2 * cmax <= order + 1]. *)
Theorem quanta_filter_the_stream
    (f : fir_filter F) (sz cmax : Z) (blocks : list (list F)) :
  1 <= order f <= Z.of_nat (length (coeffs f)) ->
  2 * order f <= INT_MAX ->
  Forall (fun b : list F => 0 < Z.of_nat (length b)) blocks ->
  (sz = 4 * order f /\
   Forall (fun b : list F => Z.of_nat (length b) <= order f) blocks) \/
  (4 * order f <= sz /\ 1 <= cmax /\ 2 * cmax <= order f + 1 /\
   Forall (fun b : list F => Z.of_nat (length b) <= cmax) blocks) ->
  exists d0 d outs,
    delay_line_init true sz = Some d0 /\
    quanta f d0 blocks = Some (d, outs) /\
    map length outs = map length blocks /\
    concat outs
    = map (fir_response f (concat blocks)) (seq 0 (length (concat blocks))).
Proof.
  intros Ho Hint Hpos Hcases.
  assert (Hsz : 4 * order f <= sz) by (destruct Hcases as [[-> _]|[Hs _]]; lia).
  unfold delay_line_init. destruct (Z.eqb_spec sz 0) as [->|_]; [lia|].
  eexists.
  set (d0 := mk_delay_line (replicate (Z.to_nat sz) fzero) sz (sz - 1)).
  assert (Hadm : forall bound : Z,
             Forall (fun b : list F => Z.of_nat (length b) <= bound) blocks ->
             Forall (fun b : list F => 0 < Z.of_nat (length b) <= bound) blocks).
  { intros bound Hshort. apply Forall_forall. intros b Hb.
    rewrite Forall_forall in Hpos, Hshort.
    split; [apply Hpos|apply Hshort]; exact Hb. }
  destruct Hcases as [[Hexact Hshort]|(_ & Hcmax & Hfit & Hshort)].
  - destruct (quanta_ring f sz 0 (fun b => 0 < Z.of_nat (length b) <= order f)
                Ho Hint Hsz ltac:(lia))
      with (blocks := blocks) (xs := @nil F) (d := d0)
      as (d & outs & Hq & _ & _ & Hlens & Houts).
    + intros b Hb. cbn beta in Hb. lia.
    + intros b Hb xs d Hsize Hinv. cbn beta in Hb. apply single_batch_step.
      apply (append_batches_ring_exact f sz [b]); try assumption; try lia.
      constructor; [lia|constructor].
    + apply Hadm, Hshort.
    + reflexivity.
    + apply ring_invariant_init; lia.
    + exists d, outs. repeat split; assumption.
  - destruct (quanta_ring f sz (cmax - 1) (fun b => 0 < Z.of_nat (length b) <= cmax)
                Ho Hint Hsz ltac:(lia))
      with (blocks := blocks) (xs := @nil F) (d := d0)
      as (d & outs & Hq & _ & _ & Hlens & Houts).
    + intros b Hb. cbn beta in Hb. lia.
    + intros b Hb xs d Hsize Hinv. cbn beta in Hb. apply single_batch_step.
      apply (append_batches_ring f sz (cmax - 1) [b]); try assumption; try lia.
      constructor; [lia|constructor].
    + apply Hadm, Hshort.
    + reflexivity.
    + apply ring_invariant_init; lia.
    + exists d, outs. repeat split; assumption.
Qed.
End Streaming.

Section Chunking.
Context {F : Type} `{Arith F}.

(** On a buffer of exactly two spans the loop is defined for any number of
    samples and leaves the cursor in the last span. *)
Lemma append_loop_exact_defined (sz span : Z) (xs : list F) :
  0 < span -> sz = 2 * span ->
  forall (buf : list F) (w : Z),
    Z.of_nat (length buf) = sz -> sz - span <= w < sz ->
    exists buf' w',
      append_loop buf sz w (w - span) xs = Some (buf', w') /\
      Z.of_nat (length buf') = sz /\ sz - span <= w' < sz.
Proof.
  intros Hspan Hsz.
  induction xs as [|x xs IH]; intros buf w Hlen Hw.
  - exists buf, w. split; [reflexivity|]. split; assumption.
  - cbn [append_loop].
    rewrite store_Some by lia. cbn [mbind option_bind].
    rewrite store_Some by (rewrite length_insert; lia). cbn [mbind option_bind].
    set (buf2 := <[Z.to_nat (w - span) := x]> (<[Z.to_nat w := x]> buf)).
    assert (Hlen2 : Z.of_nat (length buf2) = sz)
      by (unfold buf2; rewrite !length_insert; exact Hlen).
    destruct (Z.eqb_spec (w + 1) sz) as [Heq|Hne].
    + destruct (IH buf2 (sz - span) Hlen2 ltac:(lia)) as (buf' & w' & Hrun & Hr).
      replace (w - span + 1) with (sz - span) by lia.
      replace (sz - span - span) with 0 in Hrun by lia.
      exists buf', w'. split; assumption.
    + destruct (IH buf2 (w + 1) Hlen2 ltac:(lia)) as (buf' & w' & Hrun & Hr).
      replace (w - span + 1) with (w + 1 - span) by lia.
      exists buf', w'. split; assumption.
Qed.

(** There, the loop over [xs ++ ys] is the loop over [xs] followed by the
    loop over [ys] as a new call would start it. *)
Lemma append_loop_app_exact (sz span : Z) (xs ys : list F) :
  0 < span -> sz = 2 * span ->
  forall (buf : list F) (w : Z),
    Z.of_nat (length buf) = sz -> sz - span <= w < sz ->
    append_loop buf sz w (w - span) (xs ++ ys)
    = '(buf1, w1) ← append_loop buf sz w (w - span) xs;
      append_loop buf1 sz w1 (w1 - span) ys.
Proof.
  intros Hspan Hsz.
  induction xs as [|x xs IH]; intros buf w Hlen Hw; [reflexivity|].
  cbn [app append_loop].
  rewrite store_Some by lia. cbn [mbind option_bind].
  rewrite store_Some by (rewrite length_insert; lia). cbn [mbind option_bind].
  set (buf2 := <[Z.to_nat (w - span) := x]> (<[Z.to_nat w := x]> buf)).
  assert (Hlen2 : Z.of_nat (length buf2) = sz)
    by (unfold buf2; rewrite !length_insert; exact Hlen).
  destruct (Z.eqb_spec (w + 1) sz) as [Heq|Hne].
  - replace (w - span + 1) with (sz - span) by lia.
    replace 0 with (sz - span - span) by lia.
    apply IH; [exact Hlen2|lia].
  - replace (w - span + 1) with (w + 1 - span) by lia.
    apply IH; [exact Hlen2|lia].
Qed.

Lemma append_exact (f : fir_filter F) (d : delay_line F) (b : list F) :
  1 <= order f -> 2 * order f <= INT_MAX ->
  size d = 4 * order f -> Z.of_nat (length (buffer d)) = size d ->
  size d - 2 * order f <= index d < size d ->
  0 < Z.of_nat (length b) ->
  exists buf' w',
    append_loop (buffer d) (size d) (index d) (index d - order f * 2) b
      = Some (buf', w') /\
    delay_line_append_samples (Some f) (Some d) (Some b) (Z.of_nat (length b))
      = Some (Some (mk_delay_line buf' (size d) w')) /\
    Z.of_nat (length buf') = size d /\ size d - 2 * order f <= w' < size d.
Proof.
  intros Ho Hint Hsz Hlen Hidx Hb.
  destruct (append_loop_exact_defined (size d) (order f * 2) b ltac:(lia) ltac:(lia)
              (buffer d) (index d) Hlen ltac:(lia)) as (buf' & w' & Hrun & Hl & Hw).
  exists buf', w'. split; [exact Hrun|]. split; [|split; [exact Hl|lia]].
  unfold delay_line_append_samples.
  destruct (Z.of_nat (length b) <=? 0) eqn:E0; [lia|].
  assert (Hi : int_ok (order f * 2) = true).
  { unfold int_ok, INT_MIN. unfold INT_MAX in *.
    apply andb_true_intro; split; apply Z.leb_le; lia. }
  rewrite Hi. cbn [negb].
  destruct (Z.of_nat (length b) <? Z.of_nat (length b)) eqn:E1; [lia|].
  rewrite Nat2Z.id, firstn_all, Hrun. reflexivity.
Qed.

(** X5.  On a delay line of exactly four times the order slots, with the
    cursor in its last [2 * order] slots, an append is defined for any
    number of samples, leaves the cursor there, and does not depend on how
    the samples are cut into calls: appending the batches one call after
    the other leaves the delay line that one call with all the samples
    leaves. *)
Theorem append_is_chunking_invariant
    (f : fir_filter F) (d : delay_line F) (batches : list (list F)) :
  1 <= order f -> 2 * order f <= INT_MAX ->
  size d = 4 * order f -> Z.of_nat (length (buffer d)) = size d ->
  size d - 2 * order f <= index d < size d ->
  Forall (fun b : list F => 0 < Z.of_nat (length b)) batches ->
  Z.of_nat (length (concat batches)) <= INT_MAX ->
  exists d',
    append_batches f d batches = Some d' /\
    delay_line_append_samples (Some f) (Some d) (Some (concat batches))
      (Z.of_nat (length (concat batches))) = Some (Some d') /\
    Z.of_nat (length (buffer d')) = size d' /\ size d' = size d /\
    size d - 2 * order f <= index d' < size d.
Proof.
  intros Ho Hint Hsz Hlen Hidx Hall _. revert d Hsz Hlen Hidx.
  induction Hall as [|b batches Hb _ IH]; intros d Hsz Hlen Hidx.
  - exists d. cbn [append_batches concat length]. 
    split; [reflexivity|]. split; [destruct d; reflexivity|].
    split; [exact Hlen|]. split; [reflexivity|exact Hidx].
  - destruct (append_exact f d b Ho Hint Hsz Hlen Hidx Hb)
      as (buf1 & w1 & Hloop1 & Hrun1 & Hl1 & Hw1).
    destruct (IH (mk_delay_line buf1 (size d) w1)) as (d' & Hruns & Hone & Hl' & Hs' & Hw');
      [exact Hsz|exact Hl1|exact Hw1|].
    cbn [size index buffer] in *.
    exists d'. cbn [append_batches concat]. rewrite Hrun1.
    split; [exact Hruns|]. split; [|split; [exact Hl'|split; [exact Hs'|exact Hw']]].
    destruct (decide (concat batches = [])) as [Hnil|Hne].
    + rewrite Hnil in Hone |- *. rewrite app_nil_r.
      cbn [length] in Hone. change (Z.of_nat 0) with 0 in Hone.
      unfold delay_line_append_samples in Hone. cbn in Hone.
      injection Hone as <-. exact Hrun1.
    + assert (Hpos : 0 < Z.of_nat (length (concat batches)))
        by (destruct (concat batches); [congruence|cbn [length]; lia]).
      destruct (append_exact f (mk_delay_line buf1 (size d) w1) (concat batches))
        as (buf2 & w2 & Hloop2 & Hrun2 & _); try assumption.
      cbn [size index buffer] in *.
      rewrite Hrun2 in Hone. injection Hone as <-.
      destruct (append_exact f d (b ++ concat batches))
        as (buf3 & w3 & Hloop3 & Hrun3 & _); try assumption.
      { rewrite length_app. lia. }
      rewrite Hrun3. do 2 f_equal.
      rewrite (append_loop_app_exact (size d) (order f * 2)) in Hloop3
        by (try assumption; lia).
      rewrite Hloop1 in Hloop3. cbn [mbind option_bind] in Hloop3.
      rewrite Hloop2 in Hloop3. injection Hloop3 as <- <-. reflexivity.
Qed.
End Chunking.

(** ** A first quantum of more than twice the order *)

Section Overlong.
Context {F : Type} `{Arith F}.

(** A run of the loop that does not reach the end of the buffer. *)
Lemma append_loop_no_wrap (e : Z) (xs : list F) :
  forall (buf : list F) (w m : Z),
    Z.of_nat (length buf) = e ->
    0 <= w -> 0 <= m -> w + Z.of_nat (length xs) < e -> m + Z.of_nat (length xs) <= e ->
    exists buf',
      append_loop buf e w m xs = Some (buf', w + Z.of_nat (length xs)) /\
      Z.of_nat (length buf') = e.
Proof.
  induction xs as [|x xs IH]; intros buf w m Hlen Hw Hm Hfit Hmfit.
  - exists buf. cbn [append_loop length]. split; [do 2 f_equal; lia|exact Hlen].
  - cbn [length] in Hfit, Hmfit. cbn [append_loop].
    rewrite store_Some by lia. cbn [mbind option_bind].
    rewrite store_Some by (rewrite length_insert; lia). cbn [mbind option_bind].
    destruct (Z.eqb_spec (w + 1) e) as [Heq|_]; [lia|].
    destruct (IH (<[Z.to_nat m := x]> (<[Z.to_nat w := x]> buf)) (w + 1) (m + 1))
      as (buf' & Hrun & Hlen'); try lia.
    { rewrite !length_insert. exact Hlen. }
    exists buf'. rewrite Hrun. split; [|exact Hlen'].
    do 2 f_equal. cbn [length]. lia.
Qed.

(** After a first wrap within the call, with the cursor [k] slots into the
    last span and the mirror pointer at [k]: the samples that remain reach
    the end of the buffer again, the cursor wraps to the mirror pointer, and
    the call ends with the cursor at [k] plus their number. *)
Lemma append_loop_wraps_again (e span : Z) (xs : list F) :
  forall (buf : list F) (k : Z),
    Z.of_nat (length buf) = e ->
    0 < span -> span <= e ->
    0 <= k < span ->
    span <= k + Z.of_nat (length xs) -> k + Z.of_nat (length xs) < e ->
    exists buf',
      append_loop buf e (e - span + k) k xs = Some (buf', k + Z.of_nat (length xs)) /\
      Z.of_nat (length buf') = e.
Proof.
  induction xs as [|x xs IH]; intros buf k Hlen Hspan He Hk Hreach Hfit.
  - cbn [length] in Hreach. lia.
  - cbn [length] in Hreach, Hfit. cbn [append_loop].
    rewrite store_Some by lia. cbn [mbind option_bind].
    rewrite store_Some by (rewrite length_insert; lia). cbn [mbind option_bind].
    set (buf2 := <[Z.to_nat k := x]> (<[Z.to_nat (e - span + k) := x]> buf)).
    assert (Hlen2 : Z.of_nat (length buf2) = e)
      by (unfold buf2; rewrite !length_insert; exact Hlen).
    destruct (Z.eqb_spec (e - span + k + 1) e) as [Heq|Hne].
    + destruct (append_loop_no_wrap e xs buf2 (k + 1) 0) as (buf' & Hrun & Hlen');
        try lia.
      exists buf'. rewrite Hrun. split; [|exact Hlen'].
      do 2 f_equal. cbn [length]. lia.
    + destruct (IH buf2 (k + 1)) as (buf' & Hrun & Hlen'); try lia.
      replace (e - span + k + 1) with (e - span + (k + 1)) by lia.
      exists buf'. rewrite Hrun. split; [|exact Hlen'].
      do 2 f_equal. cbn [length]. lia.
Qed.

(** The first append on a fresh delay line, with more than twice the order
    samples. *)
Lemma append_overlong (f : fir_filter F) (sz : Z) (block : list F) :
  1 <= order f -> 2 * order f <= INT_MAX ->
  2 * order f + 1 <= sz ->
  2 * order f + 1 <= Z.of_nat (length block) <= sz ->
  exists buf',
    delay_line_append_samples (Some f)
      (Some (mk_delay_line (replicate (Z.to_nat sz) fzero) sz (sz - 1)))
      (Some block) (Z.of_nat (length block))
    = Some (Some (mk_delay_line buf' sz (Z.of_nat (length block) - 1))) /\
    Z.of_nat (length buf') = sz.
Proof.
  intros Ho Hint Hsz Hb.
  unfold delay_line_append_samples. cbn [buffer size index order].
  destruct (Z.of_nat (length block) <=? 0) eqn:E0; [lia|].
  assert (Hi : int_ok (order f * 2) = true).
  { unfold int_ok, INT_MIN. unfold INT_MAX in *.
    apply andb_true_intro; split; apply Z.leb_le; lia. }
  rewrite Hi. cbn [negb].
  destruct (Z.of_nat (length block) <? Z.of_nat (length block)) eqn:E1; [lia|].
  rewrite Nat2Z.id, firstn_all.
  destruct block as [|x rest]; [cbn [length] in Hb; lia|].
  cbn [length] in Hb. cbn [append_loop].
  assert (Hlen0 : Z.of_nat (length (replicate (Z.to_nat sz) (fzero : F))) = sz)
    by (rewrite length_replicate; lia).
  rewrite store_Some by lia. cbn [mbind option_bind].
  rewrite store_Some by (rewrite length_insert; lia). cbn [mbind option_bind].
  destruct (Z.eqb_spec (sz - 1 + 1) sz) as [_|Hne]; [|lia].
  destruct (append_loop_wraps_again sz (order f * 2) rest
              (<[Z.to_nat (sz - 1 - order f * 2) := x]>
                 (<[Z.to_nat (sz - 1) := x]> (replicate (Z.to_nat sz) fzero))) 0)
    as (buf' & Hrun & Hlen'); try lia.
  { rewrite !length_insert. exact Hlen0. }
  replace (sz - 1 - order f * 2 + 1) with (sz - order f * 2 + 0) by lia.
  rewrite Hrun. cbn [mbind option_bind]. exists buf'. split; [|exact Hlen'].
  do 3 f_equal. cbn [length]. lia.
Qed.

(** X17.  On a fresh delay line, a first append of more than [2 * order]
    samples (and at most as many as the line has slots) is defined, but the
    cursor wraps twice and ends at [count - 1].  The [fir_filter_apply] that
    follows with the same count starts its window at
    [count - 1 - order - count], that is [order + 1] slots before the buffer:
    it is undefined. *)
Theorem overlong_first_quantum_is_undefined
    (f : fir_filter F) (sz : Z) (block out : list F) :
  1 <= order f -> 2 * order f <= INT_MAX ->
  2 * order f + 1 <= sz ->
  2 * order f + 1 <= Z.of_nat (length block) <= sz ->
  exists d0 d1 : delay_line F,
    delay_line_init true sz = Some d0 /\
    delay_line_append_samples (Some f) (Some d0) (Some block)
      (Z.of_nat (length block)) = Some (Some d1) /\
    index d1 = Z.of_nat (length block) - 1 /\
    index d1 - order f - Z.of_nat (length block) < 0 /\
    fir_filter_apply (Some f) (Some d1) (Z.of_nat (length block)) (Some out) = None.
Proof.
  intros Ho Hint Hsz Hb.
  destruct (append_overlong f sz block Ho Hint Hsz Hb) as (buf' & Hrun & Hlen').
  unfold delay_line_init. destruct (Z.eqb_spec sz 0) as [Hz|_]; [lia|].
  eexists. eexists. split; [reflexivity|]. split; [exact Hrun|].
  cbn [index]. split; [reflexivity|]. split; [lia|].
  unfold fir_filter_apply. cbn [index buffer].
  destruct (Z.of_nat (length block) <=? 0) eqn:E0; [lia|].
  destruct (Z.leb_spec 0 (Z.of_nat (length block) - 1 - order f - Z.of_nat (length block)));
    [lia|reflexivity].
Qed.
End Overlong.

(** ** [fir_filter_clone] when the allocator refuses *)

Section CloneFailure.
Context {F : Type} `{Arith F} `{Coefficients F}.

(** X6.  When [fir_filter_clone] cannot allocate, it returns the null
    pointer and leaves the heap as it was: when the structure is refused,
    when the coefficient array is refused (the structure obtained just
    before is released again), and for a negative order, whose byte count
    converted to [size_t] is more than any allocation can serve. *)
Theorem fir_filter_clone_failure_is_clean (m : memory F) (a : addr)
    (r o : Z) (c : option addr) :
  deref m a = Some (OFilter r c o) ->
  (exists tl : list bool, oracle m = false :: tl) \/
  (exists tl : list bool, oracle m = true :: false :: tl) \/
  INT_MIN <= o < 0 ->
  exists m' : memory F,
    fir_filter_clone (Some a) m = Some (None, m') /\ heap m' = heap m.
Proof.
  intros Ha [[tl Ho]|[[tl Ho]|Hneg]].
  - exists (mk_memory (heap m) tl). split; [|reflexivity].
    unfold fir_filter_clone, malloc. rewrite Ho. reflexivity.
  - exists (mk_memory (heap m) tl). split; [|reflexivity].
    unfold fir_filter_clone, malloc. rewrite Ho.
    cbn [andb]. change (SIZEOF_FIR_FILTER <=? PTRDIFF_MAX) with true.
    cbn iota beta. rewrite Ha. cbn [oracle heap andb].
    unfold free. cbn [heap oracle]. rewrite lookup_insert_eq.
    cbn [mbind option_bind]. rewrite delete_insert_id; [reflexivity|].
    apply not_elem_of_dom, is_fresh.
  - unfold fir_filter_clone.
    destruct (malloc_cases SIZEOF_FIR_FILTER (OFilter 0 None 0) m) as [_ Hm1].
    destruct (malloc SIZEOF_FIR_FILTER (OFilter 0 None 0) m) as [new_filter m1].
    cbn [fst snd] in Hm1.
    destruct Hm1 as [[-> Hh1]|[nf [-> [Hnf Hh1]]]].
    { eexists. split; [reflexivity|exact Hh1]. }
    rewrite Ha.
    assert (Hbig : (to_size_t (SIZEOF_FLOAT * o) <=? PTRDIFF_MAX) = false).
    { apply Z.leb_gt. unfold to_size_t, SIZEOF_FLOAT, SIZE_MAX, PTRDIFF_MAX.
      unfold INT_MIN in Hneg.
      replace (4 * o) with (4 * o + 2 ^ 64 + (-1) * (2 ^ 64 - 1 + 1)) by lia.
      rewrite Z.mod_add by lia. rewrite Z.mod_small by lia. lia. }
    unfold malloc at 1. rewrite Hbig.
    destruct (oracle m1) as [|b rest]; cbn iota beta; rewrite andb_false_r.
    + unfold free. cbn [heap oracle]. rewrite Hh1, lookup_insert_eq.
      cbn [mbind option_bind]. eexists. split; [reflexivity|].
      cbn [heap]. apply delete_insert_id. exact Hnf.
    + unfold free. cbn [heap oracle]. rewrite Hh1, lookup_insert_eq.
      cbn [mbind option_bind]. eexists. split; [reflexivity|].
      cbn [heap]. apply delete_insert_id. exact Hnf.
Qed.
End CloneFailure.

(** ** Channels that hold clones of table entries *)

Section UpdateHeap.
Context {F : Type} `{Arith F} `{Coefficients F}.

#[local] Arguments fir_filter_clone : simpl never.
#[local] Arguments fir_filter_free : simpl never.
#[local] Arguments clone_matching : simpl never.
#[local] Arguments update_channel_filter : simpl never.

(** The heap after a call of [update_channel_filter]. *)
Lemma update_channel_filter_heap (ch : channel F) (rate : Z) (m : memory F)
    (n c : nat) :
  table_arrays_cover_orders ->
  holds_filter m ch n c ->
  exists (r : Z) (ch' : channel F) (m' : memory F),
    update_channel_filter ch rate m = Some (r, ch', m') /\
    ((r = -1 /\ ch' = ch /\ heap m' = heap m) \/
     (r = 0 /\
      exists (nf cc i : nat) (r' o' : Z) (l : list F),
        ch' = mk_channel (ch_delay_line ch) (Some (Dyn nf)) /\
        FIR_FILTERS_fields !! i = Some (r', o') /\ FIR_COEFF i = Some l /\
        nf <> cc /\ heap m !! nf = None /\ heap m !! cc = None /\
        heap m' = delete n (delete c
                    (<[nf := OFilter r' (Some (Dyn cc)) o']>
                       (<[cc := OFloats (take (Z.to_nat o') l)]> (heap m)))))).
Proof.
  intros Htab Hold. pose proof Hold as (Hcur & Hnc & (r0 & o0 & Hn) & Hc).
  destruct (clone_attempts rate m Htab) as (res & m2 & Hst & Hcases).
  unfold update_channel_filter.
  destruct (clone_matching (seq 0 6) rate m) as [[nf1 m1]|];
    cbn [mbind option_bind] in Hst |- *; [|discriminate]. rewrite Hst.
  cbn [mbind option_bind].
  destruct Hcases as [[-> Hh]|[i (nf & cc & r & o & l & -> & Hne & Hi & Hl & Hnf & Hcc & Hh)]].
  - exists (-1), ch, m2. split; [reflexivity|]. left. repeat split. exact Hh.
  - assert (Hd : n <> nf /\ n <> cc /\ c <> nf /\ c <> cc).
    { destruct Hc as [y Hc]. repeat split; intros ->; congruence. }
    destruct Hd as (D1 & D2 & D3 & D4).
    rewrite Hcur.
    rewrite (free_owned m2 n c r0 o0 Hnc).
    + cbn [mbind option_bind].
      eexists 0, _, _. split; [reflexivity|]. right. split; [reflexivity|].
      exists nf, cc, i, r, o, l. cbn [heap]. rewrite Hh.
      repeat split; assumption.
    + rewrite Hh, !lookup_insert_ne by congruence. exact Hn.
    + rewrite Hh, !lookup_insert_ne by congruence. exact Hc.
Qed.
End UpdateHeap.

Section ReadyFacts.
Context {F : Type} `{Arith F} `{Coefficients F}.

#[local] Arguments fir_filter_clone : simpl never.
#[local] Arguments fir_filter_free : simpl never.
#[local] Arguments clone_matching : simpl never.
#[local] Arguments update_channel_filter : simpl never.

Lemma holds_entry_transfer (m m' : memory F) (ch : channel F) (n c i : nat) :
  holds_entry m ch n c i ->
  heap m' !! n = heap m !! n -> heap m' !! c = heap m !! c ->
  holds_entry m' ch n c i.
Proof.
  intros [Hh (f & Hf & Hat)] Hn Hc.
  split; [eapply holds_filter_transfer; eassumption|].
  exists f. split; [exact Hf|]. rewrite <- Hat.
  destruct Hh as (Hcur & Hne & (r & o & Hhn) & Hhc).
  rewrite Hcur. unfold filter_at, floats_at. cbn [deref].
  rewrite Hn, Hhn. cbn [deref]. rewrite Hc. reflexivity.
Qed.

(** The heap after a swap: the two blocks of the old filter are gone, the
    two blocks of the new one are there, nothing else has changed. *)
Lemma swap_heap_facts (h : gmap nat (object F)) (n c nf cc : nat) (x y : object F) :
  is_Some (h !! n) -> is_Some (h !! c) -> n <> c -> nf <> cc ->
  h !! nf = None -> h !! cc = None ->
  let h' := delete n (delete c (<[nf := x]> (<[cc := y]> h))) in
  h' !! nf = Some x /\ h' !! cc = Some y /\ h' !! n = None /\ h' !! c = None /\
  (forall b : nat, b <> n -> b <> c -> b <> nf -> b <> cc -> h' !! b = h !! b) /\
  base.size h' = base.size h.
Proof.
  intros [xn Hn] [xc Hc] Hnc Hne Hnf Hcc h'.
  assert (Hd : n <> nf /\ n <> cc /\ c <> nf /\ c <> cc)
    by (repeat split; intros ->; congruence).
  destruct Hd as (D1 & D2 & D3 & D4). unfold h'.
  split; [rewrite !lookup_delete_ne, lookup_insert_eq by congruence; reflexivity|].
  split; [rewrite !lookup_delete_ne, lookup_insert_ne, lookup_insert_eq by congruence;
          reflexivity|].
  split; [apply lookup_delete_eq|].
  split; [rewrite lookup_delete_ne, lookup_delete_eq by congruence; reflexivity|].
  split; [intros b B1 B2 B3 B4;
          rewrite !lookup_delete_ne, !lookup_insert_ne by congruence; reflexivity|].
  rewrite map_size_delete_Some
    by (rewrite lookup_delete_ne, !lookup_insert_ne by congruence; eexists; exact Hn).
  rewrite map_size_delete_Some
    by (rewrite !lookup_insert_ne by congruence; eexists; exact Hc).
  rewrite map_size_insert_None by (rewrite lookup_insert_ne by congruence; exact Hnf).
  rewrite map_size_insert_None by exact Hcc. reflexivity.
Qed.

(** One call of [update_channel_filter] on a channel that holds a clone of a
    table entry. *)
Lemma update_channel_filter_entry (ch : channel F) (rate : Z) (m : memory F)
    (n c i : nat) :
  table_arrays_cover_orders ->
  holds_entry m ch n c i ->
  exists (r : Z) (ch' : channel F) (m' : memory F) (n' c' i' : nat),
    update_channel_filter ch rate m = Some (r, ch', m') /\
    ch_delay_line ch' = ch_delay_line ch /\
    holds_entry m' ch' n' c' i' /\
    (forall b : nat, is_Some (heap m !! b) -> b <> n -> b <> c ->
       heap m' !! b = heap m !! b) /\
    live_blocks m' = live_blocks m /\
    ((r = -1 /\ n' = n /\ c' = c /\ ch' = ch /\ heap m' = heap m) \/
     (r = 0 /\ heap m !! n' = None /\ heap m !! c' = None)).
Proof.
  intros Htab Hold. pose proof Hold as [Hfil _].
  pose proof Hfil as (Hcur & Hnc & (r0 & o0 & Hn) & Hc).
  destruct (update_channel_filter_heap ch rate m n c Htab Hfil)
    as (r & ch' & m' & Hup & [(-> & -> & Hh)|(-> & nf & cc & i' & r' & o' & l &
          -> & Hi & Hl & Hne & Hnf & Hcc & Hh)]).
  - exists (-1), ch, m', n, c, i. split; [exact Hup|]. split; [reflexivity|].
    split; [apply (holds_entry_transfer m m' ch n c i Hold); rewrite Hh; reflexivity|].
    split; [intros b _ _ _; rewrite Hh; reflexivity|].
    split; [unfold live_blocks; rewrite Hh; reflexivity|]. left. repeat split. exact Hh.
  - destruct (swap_heap_facts (heap m) n c nf cc
                (OFilter r' (Some (Dyn cc)) o') (OFloats (take (Z.to_nat o') l)))
      as (Lnf & Lcc & _ & _ & Lfr & Lsize); try assumption; [eexists; exact Hn|].
    rewrite <- Hh in Lnf, Lcc, Lfr, Lsize.
    exists 0, (mk_channel (ch_delay_line ch) (Some (Dyn nf))), m', nf, cc, i'.
    split; [exact Hup|]. split; [reflexivity|]. split.
    { split.
      - unfold holds_filter. cbn [current].
        split; [reflexivity|]. split; [exact Hne|].
        split; [exists r', o'; exact Lnf|eexists; exact Lcc].
      - exists (mk_fir_filter r' (take (Z.to_nat o') l) o'). split.
        + unfold cloned_entry. rewrite Hi. cbn [mbind option_bind]. rewrite Hl.
          reflexivity.
        + cbn [current]. unfold filter_at, floats_at. cbn [deref].
          rewrite Lnf. cbn [deref]. rewrite Lcc. reflexivity. }
    split.
    { intros b [y Hb] Hbn Hbc. apply Lfr; try assumption; intros ->; congruence. }
    split; [exact Lsize|]. right. repeat split; assumption.
Qed.

(** One turn of the loop of [select_filter_for_rate]. *)
Lemma select_turn_entry (ch : channel F) (rate a0 : Z) (m : memory F) (n c i : nat) :
  table_arrays_cover_orders ->
  holds_entry m ch n c i ->
  exists (r : Z) (ch1 ch2 : channel F) (m1 m2 : memory F) (actual : Z) (n' c' i' : nat),
    update_channel_filter ch rate m = Some (r, ch1, m1) /\
    (if r =? 0 then Some (ch1, a0, m1)
     else match update_channel_filter ch1 fallback_rate m1 with
          | Some (_, ch2, m2) => Some (ch2, fallback_rate, m2)
          | None => None
          end) = Some (ch2, actual, m2) /\
    ch_delay_line ch2 = ch_delay_line ch /\
    holds_entry m2 ch2 n' c' i' /\
    (forall b : nat, is_Some (heap m !! b) -> b <> n -> b <> c ->
       heap m2 !! b = heap m !! b) /\
    live_blocks m2 = live_blocks m /\
    ((n' = n /\ c' = c) \/ (heap m !! n' = None /\ heap m !! c' = None)) /\
    (actual = a0 \/ actual = fallback_rate) /\
    (r = 0 -> ch2 = ch1 /\ m2 = m1 /\ actual = a0).
Proof.
  intros Htab Hold.
  destruct (update_channel_filter_entry ch rate m n c i Htab Hold)
    as (r & ch1 & m1 & n1 & c1 & i1 & Hup & Hdl & Hh1 & Hfr & Hsz & Hcase).
  destruct Hcase as [(-> & -> & -> & -> & Hheap)|(-> & Hn1 & Hc1)].
  - destruct (update_channel_filter_entry ch fallback_rate m1 n c i1 Htab Hh1)
      as (r2 & ch2 & m2 & n2 & c2 & i2 & Hup2 & Hdl2 & Hh2 & Hfr2 & Hsz2 & Hcase2).
    exists (-1), ch, ch2, m1, m2, fallback_rate, n2, c2, i2.
    split; [exact Hup|]. split; [cbn; rewrite Hup2; reflexivity|].
    split; [exact Hdl2|]. split; [exact Hh2|]. split.
    { intros b Hb Hbn Hbc. rewrite <- Hheap. apply Hfr2; [rewrite Hheap|..]; assumption. }
    split; [rewrite Hsz2; unfold live_blocks; rewrite Hheap; reflexivity|]. split.
    { destruct Hcase2 as [(_ & -> & -> & _)|(_ & Hn2 & Hc2)];
        [left; split; reflexivity|right; rewrite <- Hheap; split; assumption]. }
    split; [right; reflexivity|]. intros Hr. discriminate Hr.
  - exists 0, ch1, ch1, m1, m1, a0, n1, c1, i1.
    split; [exact Hup|]. split; [reflexivity|].
    split; [exact Hdl|]. split; [exact Hh1|]. split; [exact Hfr|].
    split; [exact Hsz|]. split; [right; split; assumption|].
    split; [left; reflexivity|]. intros _. repeat split.
Qed.

(** With the next two allocations succeeding, the update installs the
    selected entry and leaves the allocations after them as they were. *)
Lemma update_channel_filter_allocated (ch : channel F) (rate : Z) (m : memory F)
    (n c k : nat) :
  table_arrays_cover_orders ->
  holds_filter m ch n c ->
  allocations_succeed (S (S k)) m ->
  exists (ch' : channel F) (m' : memory F) (i : nat) (f : fir_filter F),
    update_channel_filter ch rate m = Some (0, ch', m') /\
    selected rate i /\ cloned_entry i = Some f /\
    filter_at m' (current ch') = Some (Some f) /\
    allocations_succeed k m'.
Proof.
  intros Htab Hold Hk. pose proof Hold as (Hcur & Hnc & (r0 & o0 & Hn) & Hc).
  assert (Hsel : exists (i : nat) (r o : Z),
             FIR_FILTERS_fields !! i = Some (r, o) /\ selected rate i /\
             (clone_matching (seq 0 6) rate m ≫= fun '(new_filter, m1) =>
                match new_filter with
                | None => fir_filter_clone (Some (StaticFilter 5)) m1
                | Some _ => Some (new_filter, m1)
                end) = fir_filter_clone (Some (StaticFilter i)) m).
  { destruct (rate_in_table_or_not rate) as [[i [o Hi]]|Hno].
    - exists i, rate, o. split; [exact Hi|]. split; [left; exists o; exact Hi|].
      rewrite (clone_matching_match i rate o m Hi).
      destruct (FIR_COEFF_is_Some i rate o Hi) as [l Hl].
      destruct (fir_filter_clone_succeeds k m (StaticFilter i) rate o
                  (Some (StaticCoeffs i)))
        as (nf & cc & m' & -> & _);
        [apply deref_static_filter; exact Hi
        |eapply table_order_range; exact Hi
        |rewrite (floats_at_static m i l Hl); eapply Htab; eassumption
        |exact Hk|].
      reflexivity.
    - exists 5%nat, 192000, 16383. split; [reflexivity|].
      split; [right; split; [exact Hno|reflexivity]|].
      rewrite (clone_matching_no_match rate m Hno). reflexivity. }
  destruct Hsel as (i & r & o & Hi & Hwhich & Hstage).
  destruct (FIR_COEFF_is_Some i r o Hi) as [l Hl].
  destruct (fir_filter_clone_succeeds k m (StaticFilter i) r o (Some (StaticCoeffs i)))
    as (nf & cc & m2 & Hcl & Hne & Hnf & Hcc & Hh & Hk2);
    [apply deref_static_filter; exact Hi
    |eapply table_order_range; exact Hi
    |rewrite (floats_at_static m i l Hl); eapply Htab; eassumption
    |exact Hk|].
  rewrite (floats_at_static m i l Hl) in Hh.
  assert (Hd : n <> nf /\ n <> cc /\ c <> nf /\ c <> cc).
  { destruct Hc as [y Hc]. repeat split; intros ->; congruence. }
  destruct Hd as (D1 & D2 & D3 & D4).
  assert (Hfree : fir_filter_free (Some (Dyn n)) m2
                  = Some (mk_memory (delete n (delete c (heap m2))) (oracle m2))).
  { apply (free_owned m2 n c r0 o0 Hnc).
    - rewrite Hh, !lookup_insert_ne by congruence. exact Hn.
    - rewrite Hh, !lookup_insert_ne by congruence. exact Hc. }
  exists (mk_channel (ch_delay_line ch) (Some (Dyn nf))),
         (mk_memory (delete n (delete c (heap m2))) (oracle m2)), i,
         (mk_fir_filter r (take (Z.to_nat o) l) o).
  split.
  { unfold update_channel_filter. rewrite Hcl in Hstage.
    destruct (clone_matching (seq 0 6) rate m) as [[nf1 m1]|];
      cbn [mbind option_bind] in Hstage |- *; [|discriminate].
    rewrite Hstage. cbn [mbind option_bind]. rewrite Hcur, Hfree. reflexivity. }
  split; [exact Hwhich|]. split.
  { unfold cloned_entry. rewrite Hi. cbn [mbind option_bind]. rewrite Hl. reflexivity. }
  split; [|exact Hk2].
  cbn [current]. unfold filter_at, floats_at. cbn [deref heap].
  rewrite Hh, !lookup_delete_ne, lookup_insert_eq by congruence. cbn [deref heap].
  rewrite !lookup_delete_ne, lookup_insert_ne, lookup_insert_eq by congruence.
  reflexivity.
Qed.

Lemma holds_entries_transfer (m m' : memory F) (chs : list (channel F))
    (tl : list (nat * nat * nat)) :
  Forall2 (fun ch t => holds_entry m ch t.1.1 t.1.2 t.2) chs tl ->
  (forall b : nat, b ∈ blocks_of (map fst tl) -> heap m' !! b = heap m !! b) ->
  Forall2 (fun ch t => holds_entry m' ch t.1.1 t.1.2 t.2) chs tl.
Proof.
  induction 1 as [|ch [[n c] i] chs tl Hh _ IH]; intros Hsame; [constructor|].
  constructor.
  - cbn [fst snd] in *. apply (holds_entry_transfer m m' _ _ _ _ Hh); apply Hsame.
    + left.
    + right. left.
  - apply IH. intros b Hb. apply Hsame. do 2 right. exact Hb.
Qed.

Lemma held_entries_live (m : memory F) (chs : list (channel F))
    (tl : list (nat * nat * nat)) :
  Forall2 (fun ch t => holds_entry m ch t.1.1 t.1.2 t.2) chs tl ->
  forall b : nat, b ∈ blocks_of (map fst tl) -> is_Some (heap m !! b).
Proof.
  intros Hall. apply (held_blocks_live m chs (map fst tl)).
  induction Hall as [|ch [[n c] i] chs tl [Hh _] _ IH]; constructor; assumption.
Qed.

(** The loop of [select_filter_for_rate] on channels that hold clones of
    table entries in distinct blocks. *)
Lemma select_channels_entries (rate : Z) :
  table_arrays_cover_orders ->
  forall (chs : list (channel F)) (tl : list (nat * nat * nat)) (m : memory F)
         (protected : list nat) (a0 : Z),
    Forall2 (fun ch t => holds_entry m ch t.1.1 t.1.2 t.2) chs tl ->
    NoDup (protected ++ blocks_of (map fst tl)) ->
    (forall b : nat, b ∈ protected -> is_Some (heap m !! b)) ->
    exists (chs' : list (channel F)) (a : Z) (m' : memory F)
           (tl' : list (nat * nat * nat)),
      select_channels chs rate a0 m = Some (chs', a, m') /\
      map ch_delay_line chs' = map ch_delay_line chs /\
      Forall2 (fun ch t => holds_entry m' ch t.1.1 t.1.2 t.2) chs' tl' /\
      NoDup (protected ++ blocks_of (map fst tl')) /\
      (forall b : nat, b ∈ protected -> heap m' !! b = heap m !! b) /\
      live_blocks m' = live_blocks m /\
      (a = a0 \/ a = fallback_rate) /\
      (allocations_succeed (2 * length chs) m ->
         a = a0 /\
         Forall (fun ch => exists (i : nat) (f : fir_filter F),
                   selected rate i /\ cloned_entry i = Some f /\
                   filter_at m' (current ch) = Some (Some f)) chs').
Proof.
  intros Htab. induction chs as [|ch chs IH]; intros tl m protected a0 Hall Hnd Hlive.
  - inversion Hall; subst. exists [], a0, m, [].
    split; [reflexivity|]. split; [reflexivity|]. split; [constructor|].
    split; [exact Hnd|]. split; [intros b _; reflexivity|].
    split; [reflexivity|]. split; [left; reflexivity|].
    intros _. split; [reflexivity|constructor].
  - inversion Hall as [|? [[n c] i] ? tl_rest Hhead Hrest]; subst.
    cbn [fst snd] in Hhead.
    change (blocks_of (map fst ((n, c, i) :: tl_rest)))
      with (n :: c :: blocks_of (map fst tl_rest)) in Hnd.
    apply NoDup_app in Hnd as (Hndp & Hdisj & Hndb).
    apply NoDup_cons in Hndb as (Hn_rest & Hndb).
    apply NoDup_cons in Hndb as (Hc_rest & Hndb).
    destruct (select_turn_entry ch rate a0 m n c i Htab Hhead)
      as (r & ch1 & ch2 & m1 & m2 & actual & n' & c' & i' &
          Hup & Hturn & Hdl & Hh2 & Hfr & Hsz & Hwhere & Hact & Hr0).
    pose proof (held_entries_live m chs tl_rest Hrest) as Hrest_live.
    assert (Hp_nc : forall b, b ∈ protected -> b <> n /\ b <> c).
    { intros b Hb. pose proof (Hdisj b Hb) as Hnot.
      split; intros ->; apply Hnot; [left|right; left]. }
    assert (Hr_nc : forall b, b ∈ blocks_of (map fst tl_rest) -> b <> n /\ b <> c).
    { intros b Hb. split; intros ->.
      - apply Hn_rest. right. exact Hb.
      - apply Hc_rest. exact Hb. }
    assert (Hnew_p : (n' ∉ protected) /\ (c' ∉ protected)).
    { destruct Hwhere as [[-> ->]|[Hn' Hc']].
      - split; intros Hb; apply (Hdisj _ Hb); [left|right; left].
      - split; intros Hb; destruct (Hlive _ Hb) as [y Hy]; congruence. }
    assert (Hnew_r : (n' ∉ blocks_of (map fst tl_rest)) /\
                     (c' ∉ blocks_of (map fst tl_rest))).
    { destruct Hwhere as [[-> ->]|[Hn' Hc']].
      - split; [intros Hb; apply Hn_rest; right; exact Hb|exact Hc_rest].
      - split; intros Hb; destruct (Hrest_live _ Hb) as [y Hy]; congruence. }
    destruct Hnew_p as [Hnp Hcp]. destruct Hnew_r as [Hnr Hcr].
    pose proof Hh2 as [(_ & Hn'c' & (r2 & o2 & Hn'2) & Hc'2) (f2 & Hf2 & Hat2)].
    assert (Hrest2 : Forall2 (fun ch t => holds_entry m2 ch t.1.1 t.1.2 t.2)
                             chs tl_rest).
    { apply (holds_entries_transfer m m2 _ _ Hrest). intros b Hb.
      apply Hfr; [apply Hrest_live; exact Hb| |]; apply (Hr_nc b Hb). }
    destruct (IH tl_rest m2 (protected ++ [n'; c']) actual Hrest2)
      as (chs' & a & m3 & tl' & Hsel & Hdls & Hall3 & Hnd3 & Hkeep3 & Hsz3 & Ha3 & Hok3).
    { rewrite <- app_assoc. apply NoDup_app. split; [exact Hndp|]. split.
      - intros b Hb Hin. cbn [app] in Hin.
        apply elem_of_cons in Hin as [->|Hin]; [apply Hnp; exact Hb|].
        apply elem_of_cons in Hin as [->|Hin]; [apply Hcp; exact Hb|].
        apply (Hdisj b Hb). do 2 right. exact Hin.
      - cbn [app]. apply NoDup_cons. split.
        + intros Hin. apply elem_of_cons in Hin as [Heq|Hin]; [congruence|].
          apply Hnr. exact Hin.
        + apply NoDup_cons. split; [exact Hcr|exact Hndb]. }
    { intros b Hb. apply elem_of_app in Hb as [Hb|Hb].
      - rewrite Hfr; [apply Hlive; exact Hb|apply Hlive; exact Hb| |];
          apply (Hp_nc b Hb).
      - apply elem_of_cons in Hb as [->|Hb]; [eexists; exact Hn'2|].
        apply elem_of_cons in Hb as [->|Hb]; [exact Hc'2|]. inversion Hb. }
    assert (Hhead3 : holds_entry m3 ch2 n' c' i').
    { apply (holds_entry_transfer m2 m3 _ _ _ _ Hh2); apply Hkeep3;
        apply elem_of_app; right; [left|right; left]. }
    exists (ch2 :: chs'), a, m3, ((n', c', i') :: tl').
    split.
    { cbn [select_channels]. rewrite Hup. cbn [mbind option_bind].
      rewrite Hturn. cbn [mbind option_bind]. rewrite Hsel. reflexivity. }
    split; [cbn [map]; rewrite Hdl, Hdls; reflexivity|].
    split; [constructor; [exact Hhead3|exact Hall3]|].
    split.
    { change (blocks_of (map fst ((n', c', i') :: tl')))
        with ([n'; c'] ++ blocks_of (map fst tl')).
      rewrite app_assoc. exact Hnd3. }
    split.
    { intros b Hb. rewrite Hkeep3 by (apply elem_of_app; left; exact Hb).
      apply Hfr; [apply Hlive; exact Hb| |]; apply (Hp_nc b Hb). }
    split; [rewrite Hsz3, Hsz; reflexivity|].
    split; [destruct Ha3 as [->| ->]; [exact Hact|right; reflexivity]|].
    intros Hk.
    replace (2 * length (ch :: chs))%nat with (S (S (2 * length chs)))
      in Hk by (cbn [length]; lia).
    destruct Hhead as [Hfil _].
    destruct (update_channel_filter_allocated ch rate m n c (2 * length chs)
                Htab Hfil Hk) as (chB & mB & iB & fB & HupB & HselB & HfB & HatB & HkB).
    rewrite Hup in HupB. injection HupB as -> -> ->.
    destruct (Hr0 eq_refl) as (-> & -> & ->).
    destruct (Hok3 HkB) as [-> Hrest_ok].
    split; [reflexivity|]. constructor; [|exact Hrest_ok].
    exists iB, fB. split; [exact HselB|]. split; [exact HfB|].
    destruct Hhead3 as [_ (f3 & Hf3 & Hat3)]. rewrite Hat3.
    rewrite HatB in Hat2. injection Hat2 as <-.
    rewrite Hf2 in Hf3. injection Hf3 as <-. reflexivity.
Qed.
End ReadyFacts.

(** ** Initialisation with the delay lines by value *)

Section Release.
Context {F : Type} `{Arith F} `{Coefficients F}.

#[local] Arguments fir_filter_clone : simpl never.
#[local] Arguments fir_filter_free : simpl never.

Lemma without_blocks_unique (h h1 h2 : gmap nat (object F)) (bs : list nat) :
  without_blocks h bs h1 -> without_blocks h bs h2 -> h1 = h2.
Proof. intros H1 H2. apply map_eq. intros b. rewrite H1, H2. reflexivity. Qed.

Lemma without_blocks_size (bs : list nat) :
  forall h h0 : gmap nat (object F),
    without_blocks h bs h0 -> NoDup bs ->
    (forall b : nat, b ∈ bs -> is_Some (h !! b)) ->
    base.size h = (base.size h0 + length bs)%nat.
Proof.
  induction bs as [|b bs IH]; intros h h0 Hw Hnd Hlive.
  - replace h0 with h; [cbn [length]; lia|].
    apply map_eq. intros k. rewrite Hw. reflexivity.
  - apply NoDup_cons in Hnd as [Hb Hnd].
    destruct (Hlive b ltac:(left)) as [x Hx].
    assert (H0b : h0 !! b = None).
    { rewrite Hw. rewrite decide_True by left. reflexivity. }
    rewrite (IH h (<[b := x]> h0)).
    + rewrite map_size_insert_None by exact H0b. cbn [length]. lia.
    + intros k. destruct (decide (k = b)) as [->|Hkb].
      * rewrite lookup_insert_eq, decide_False by exact Hb. symmetry. exact Hx.
      * rewrite lookup_insert_ne by congruence. rewrite Hw.
        destruct (decide (k ∈ bs)) as [Hin|Hout].
        -- rewrite decide_True by (right; exact Hin). reflexivity.
        -- rewrite decide_False; [reflexivity|].
           intros Hin. apply elem_of_cons in Hin as [?|?]; congruence.
    + exact Hnd.
    + intros k Hk. apply Hlive. right. exact Hk.
Qed.

(** Releasing the filters of channels that hold them in distinct blocks
    removes exactly these blocks. *)
Lemma release_channels_held (chs : list (channel F)) :
  forall (bl : list (nat * nat)) (m : memory F),
    channels_hold m chs bl ->
    exists m' : memory F,
      release_channels chs m = Some m' /\
      oracle m' = oracle m /\
      without_blocks (heap m) (blocks_of bl) (heap m').
Proof.
  induction chs as [|ch chs IH]; intros bl m [Hall Hnd].
  - inversion Hall; subst. exists m. split; [reflexivity|]. split; [reflexivity|].
    intros b. rewrite decide_False by (intros Hb; inversion Hb). reflexivity.
  - inversion Hall as [|? [n c] ? bl_rest Hhead Hrest]; subst.
    cbn [fst snd] in Hhead.
    change (blocks_of ((n, c) :: bl_rest)) with (n :: c :: blocks_of bl_rest) in *.
    apply NoDup_cons in Hnd as (Hn_rest & Hnd).
    apply NoDup_cons in Hnd as (Hc_rest & Hnd).
    destruct Hhead as (Hcur & Hnc & (r & o & Hn) & Hc).
    cbn [release_channels]. rewrite Hcur.
    rewrite (free_owned m n c r o Hnc Hn Hc). cbn [mbind option_bind].
    set (m1 := mk_memory (delete n (delete c (heap m))) (oracle m)).
    assert (Hrest1 : Forall2 (fun ch b => holds_filter m1 ch (fst b) (snd b)) chs bl_rest).
    { apply (holds_all_transfer m m1 _ _ Hrest). intros b Hb. unfold m1. cbn [heap].
      rewrite !lookup_delete_ne; [reflexivity| |]; intros ->.
      - apply Hc_rest. exact Hb.
      - apply Hn_rest. right. exact Hb. }
    destruct (IH bl_rest m1 (conj Hrest1 Hnd)) as (m' & Hrel & Horacle & Hw).
    exists m'. split; [exact Hrel|]. split; [exact Horacle|].
    intros b. rewrite Hw. unfold m1. cbn [heap].
    destruct (decide (b ∈ blocks_of bl_rest)) as [Hin|Hout].
    + rewrite decide_True by (do 2 right; exact Hin). reflexivity.
    + destruct (decide (b = n)) as [->|Hbn].
      { rewrite decide_True by left. apply lookup_delete_eq. }
      destruct (decide (b = c)) as [->|Hbc].
      { rewrite decide_True by (right; left).
        rewrite lookup_delete_ne by congruence. apply lookup_delete_eq. }
      rewrite !lookup_delete_ne by congruence.
      rewrite decide_False; [reflexivity|].
      intros Hin. apply elem_of_cons in Hin as [?|Hin]; [congruence|].
      apply elem_of_cons in Hin as [?|Hin]; congruence.
Qed.

End Release.

Section Init.
Context {F : Type} `{Arith F} `{Coefficients F}.

#[local] Arguments fir_filter_clone : simpl never.
#[local] Arguments fir_filter_free : simpl never.

Lemma clone_holds_entry (m m1 : memory F) (ch : channel F) (i : nat) :
  is_clone_of (heap m) (heap m1) (current ch) i ->
  exists nf cc : nat,
    heap m !! nf = None /\ heap m !! cc = None /\ nf <> cc /\
    holds_entry m1 ch nf cc i /\
    (forall b : nat, b <> nf -> b <> cc -> heap m1 !! b = heap m !! b).
Proof.
  intros (nf & cc & r & o & l & Hcur & Hne & Hi & Hl & Hnf & Hcc & Hh).
  exists nf, cc. split; [exact Hnf|]. split; [exact Hcc|]. split; [exact Hne|].
  assert (Lnf : heap m1 !! nf = Some (OFilter r (Some (Dyn cc)) o))
    by (rewrite Hh, lookup_insert_eq; reflexivity).
  assert (Lcc : heap m1 !! cc = Some (OFloats (take (Z.to_nat o) l)))
    by (rewrite Hh, lookup_insert_ne, lookup_insert_eq by congruence; reflexivity).
  split; [|intros b B1 B2; rewrite Hh, !lookup_insert_ne by congruence; reflexivity].
  split.
  - unfold holds_filter. split; [exact Hcur|]. split; [exact Hne|].
    split; [exists r, o; exact Lnf|eexists; exact Lcc].
  - exists (mk_fir_filter r (take (Z.to_nat o) l) o). split.
    + unfold cloned_entry. rewrite Hi. cbn [mbind option_bind]. rewrite Hl. reflexivity.
    + rewrite Hcur. unfold filter_at, floats_at. cbn [deref].
      rewrite Lnf. cbn [deref]. rewrite Lcc. reflexivity.
Qed.

Lemma init_channel_cases (ok : bool) (delay_size : Z) (ch0 : channel F)
    (m : memory F) :
  table_arrays_cover_orders ->
  exists (r : Z) (ch : channel F) (m1 : memory F),
    init_channel ok delay_size ch0 m = Some (r, ch, m1) /\
    ((r = -1 /\ heap m1 = heap m) \/
     (r = 0 /\
      ch_delay_line ch = delay_line_init true (to_size_t delay_size) /\
      is_Some (ch_delay_line ch) /\
      is_clone_of (heap m) (heap m1) (current ch) 0)) /\
    (forall k : nat, ok = true -> to_size_t delay_size <> 0 ->
       allocations_succeed (S (S k)) m -> r = 0 /\ allocations_succeed k m1).
Proof.
  intros Htab. unfold init_channel.
  remember (to_size_t delay_size) as sz eqn:Hsz. clear Hsz.
  destruct (clone_static_cases 0 44100 4095 m Htab eq_refl) as (res & m1 & Hcl & Hcase).
  assert (Halloc : forall k : nat, allocations_succeed (S (S k)) m ->
            res <> None /\ allocations_succeed k m1).
  { intros k Hk.
    destruct (FIR_COEFF_is_Some 0 44100 4095 eq_refl) as [l Hl].
    destruct (fir_filter_clone_succeeds k m (StaticFilter 0) 44100 4095
                (Some (StaticCoeffs 0)))
      as (nf & cc & m' & Hcl' & _ & _ & _ & _ & Hk');
      [reflexivity|unfold INT_MAX; lia
      |rewrite (floats_at_static m 0 l Hl); apply (Htab 0%nat 44100 4095 l eq_refl Hl)
      |exact Hk|].
    rewrite Hcl in Hcl'. injection Hcl' as -> ->. split; [discriminate|exact Hk']. }
  unfold delay_line_init.
  destruct (Z.eqb_spec sz 0) as [Hz|Hnz].
  { eexists _, _, _. split; [reflexivity|]. split; [left; split; reflexivity|].
    intros k _ Hne _. contradiction. }
  destruct ok.
  - rewrite Hcl. cbn [mbind option_bind].
    destruct Hcase as [[-> Hh]|Hclone].
    + eexists _, _, _. split; [reflexivity|]. split; [left; split; [reflexivity|exact Hh]|].
      intros k _ _ Hk. destruct (Halloc k Hk) as [Hne _]. congruence.
    + pose proof Hclone as (nf & _ & _ & _ & _ & -> & _).
      eexists _, _, _. split; [reflexivity|]. split.
      * right. split; [reflexivity|]. cbn [ch_delay_line current].
        split; [reflexivity|]. split; [eexists; reflexivity|exact Hclone].
      * intros k _ _ Hk. split; [reflexivity|]. apply (Halloc k Hk).
  - eexists _, _, _. split; [reflexivity|]. split; [left; split; reflexivity|].
    intros k Hok. discriminate Hok.
Qed.

(** The loop of [init_fir_filters].  [h0] is the heap before the first
    channel was initialised. *)
Lemma init_channels_spec (delay_size : Z) (h0 : gmap nat (object F)) :
  table_arrays_cover_orders ->
  forall (todo : list (bool * channel F)) (done : list (channel F))
         (tl : list (nat * nat * nat)) (m : memory F),
    channels_hold_entries m done tl ->
    Forall (fun t : nat * nat * nat => t.2 = 0%nat) tl ->
    Forall (fun ch => ch_delay_line ch = delay_line_init true (to_size_t delay_size) /\
                      is_Some (ch_delay_line ch)) done ->
    without_blocks (heap m) (blocks_of (map fst tl)) h0 ->
    exists (r : Z) (chs : list (channel F)) (m' : memory F),
      init_channels todo delay_size done m = Some (r, chs, m') /\
      ((r = 0 /\ length chs = (length done + length todo)%nat /\
        exists tl' : list (nat * nat * nat),
          channels_hold_entries m' chs tl' /\
          Forall (fun t : nat * nat * nat => t.2 = 0%nat) tl' /\
          Forall (fun ch => ch_delay_line ch
                            = delay_line_init true (to_size_t delay_size) /\
                            is_Some (ch_delay_line ch)) chs /\
          without_blocks (heap m') (blocks_of (map fst tl')) h0) \/
       (r = -1 /\ heap m' = h0)) /\
      (Forall (fun p : bool * channel F => p.1 = true) todo ->
       to_size_t delay_size <> 0 ->
       allocations_succeed (2 * length todo) m -> r = 0).
Proof.
  intros Htab.
  induction todo as [|[ok ch0] rest IH]; intros done tl m [Hall Hnd] Hzero Hdls Hw.
  - exists 0, done, m. split; [reflexivity|]. split; [|intros; reflexivity].
    left. split; [reflexivity|]. split; [cbn [length]; lia|].
    exists tl. repeat split; assumption.
  - destruct (init_channel_cases ok delay_size ch0 m Htab)
      as (r & ch & m1 & Hinit & Hcase & Halloc).
    cbn [init_channels]. rewrite Hinit. cbn [mbind option_bind].
    pose proof (held_entries_live m done tl Hall) as Hlive.
    destruct Hcase as [[-> Hh]|(-> & Hdl & Hdl_some & Hclone)].
    + cbn [Z.eqb].
      assert (Hhold : channels_hold m1 done (map fst tl)).
      { split; [|exact Hnd]. apply Forall2_fmap_r.
        apply (Forall2_impl _ _ _ _ Hall). intros c0 [[n c] i] [Hf _]. cbn [fst snd] in *.
        apply (holds_filter_same_heap m m1 _ _ _ Hh Hf). }
      destruct (release_channels_held done (map fst tl) m1 Hhold) as (m2 & Hrel & _ & Hw2).
      rewrite Hrel. cbn [mbind option_bind].
      eexists _, _, _. split; [reflexivity|]. split.
      * right. split; [reflexivity|]. rewrite Hh in Hw2.
        apply (without_blocks_unique _ _ _ _ Hw2 Hw).
      * intros Htrue Hnz Hk. inversion Htrue as [|? ? Hok _]; subst.
        cbn [fst] in Hok. subst ok.
        replace (2 * length ((true, ch0) :: rest))%nat with (S (S (2 * length rest)))
          in Hk by (cbn [length]; lia).
        destruct (Halloc _ eq_refl Hnz Hk) as [Hr _]. discriminate Hr.
    + cbn [Z.eqb].
      destruct (clone_holds_entry m m1 ch 0 Hclone)
        as (nf & cc & Hnf & Hcc & Hne & Hentry & Hframe).
      assert (Hold_nf : forall b, b ∈ blocks_of (map fst tl) -> b <> nf /\ b <> cc).
      { intros b Hb. destruct (Hlive b Hb) as [y Hy]. split; intros ->; congruence. }
      assert (Hblocks : blocks_of (map fst (tl ++ [(nf, cc, 0%nat)]))
                        = blocks_of (map fst tl) ++ [nf; cc]).
      { rewrite map_app. unfold blocks_of. rewrite bind_app. reflexivity. }
      destruct (IH (done ++ [ch]) (tl ++ [(nf, cc, 0%nat)]) m1)
        as (r & chs & m' & Hrun & Hres & Hok).
      * split.
        -- apply Forall2_app; [|constructor; [exact Hentry|constructor]].
           apply (holds_entries_transfer m m1 _ _ Hall). intros b Hb.
           apply Hframe; apply (Hold_nf b Hb).
        -- rewrite Hblocks. apply NoDup_app. split; [exact Hnd|]. split.
           ++ intros b Hb Hin. destruct (Hold_nf b Hb) as [B1 B2].
              apply elem_of_cons in Hin as [->|Hin]; [congruence|].
              apply elem_of_cons in Hin as [->|Hin]; [congruence|]. inversion Hin.
           ++ apply NoDup_cons. split; [|apply NoDup_singleton].
              intros Hin. apply list_elem_of_singleton in Hin. congruence.
      * apply Forall_app. split; [exact Hzero|]. constructor; [reflexivity|constructor].
      * apply Forall_app. split; [exact Hdls|].
        constructor; [split; assumption|constructor].
      * rewrite Hblocks. intros b. rewrite Hw.
        destruct (decide (b ∈ blocks_of (map fst tl))) as [Hin|Hout].
        -- rewrite decide_True by (apply elem_of_app; left; exact Hin). reflexivity.
        -- destruct (decide (b = nf)) as [->|Bnf].
           { rewrite decide_True by (apply elem_of_app; right; left). exact Hnf. }
           destruct (decide (b = cc)) as [->|Bcc].
           { rewrite decide_True by (apply elem_of_app; right; right; left). exact Hcc. }
           rewrite decide_False; [symmetry; apply Hframe; assumption|].
           intros Hin. apply elem_of_app in Hin as [Hin|Hin]; [contradiction|].
           apply elem_of_cons in Hin as [?|Hin]; [congruence|].
           apply elem_of_cons in Hin as [?|Hin]; [congruence|]. inversion Hin.
      * exists r, chs, m'. split; [exact Hrun|]. split.
        -- destruct Hres as [(-> & Hlen & Hrest)|Hfail]; [left|right; exact Hfail].
           split; [reflexivity|]. split; [|exact Hrest].
           rewrite Hlen, length_app. cbn [length]. lia.
        -- intros Htrue Hnz Hk. inversion Htrue as [|? ? Hok1 Hrest_true]; subst.
           cbn [fst] in Hok1. subst ok.
           replace (2 * length ((true, ch0) :: rest))%nat with (S (S (2 * length rest)))
             in Hk by (cbn [length]; lia).
           destruct (Halloc _ eq_refl Hnz Hk) as [_ Hk1].
           apply Hok; assumption.
Qed.
End Init.

Section InitTheorems.
Context {F : Type} `{Arith F} `{Coefficients F}.

Lemma fresh_line_ready (ch : channel F) :
  ch_delay_line ch = delay_line_init true (to_size_t (MAX_FILTER_ORDER * 4)) ->
  ch_delay_line ch = delay_line_init true (MAX_FILTER_ORDER * 4) /\
  delay_line_ready ch.
Proof.
  change (to_size_t (MAX_FILTER_ORDER * 4)) with (MAX_FILTER_ORDER * 4).
  intros Hdl. split; [exact Hdl|].
  remember (MAX_FILTER_ORDER * 4) as sz eqn:Hsz.
  assert (Hval : sz = 65532) by (rewrite Hsz; reflexivity). clear Hsz.
  unfold delay_line_init in Hdl.
  destruct (Z.eqb_spec sz 0) as [Hz|_]; [lia|].
  eexists. split; [exact Hdl|].
  unfold cursor_in_range, MAX_FILTER_ORDER. cbn [buffer size index].
  rewrite length_replicate. lia.
Qed.

(** [init_fir_filters]: it returns 0 with the state ready, every channel
    with a fresh delay line and a clone of [FIR_FILTERS[0]] in new blocks, or
    it returns -1 with the heap as it was. *)
Lemma init_fir_filters_spec (allocs : list bool) (d0 : data F) (m : memory F) :
  table_arrays_cover_orders ->
  exists (r : Z) (d : data F) (m' : memory F),
    init_fir_filters allocs d0 m = Some (r, d, m') /\
    ((r = 0 /\ current_rate d = 44100 /\ ready d m' /\
      Forall (fun ch =>
                ch_delay_line ch = delay_line_init true (MAX_FILTER_ORDER * 4) /\
                exists f : fir_filter F,
                  cloned_entry 0 = Some f /\
                  filter_at m' (current ch) = Some (Some f)) (channels d) /\
      exists tl : list (nat * nat * nat),
        channels_hold_entries m' (channels d) tl /\
        without_blocks (heap m') (blocks_of (map fst tl)) (heap m)) \/
     (r = -1 /\ heap m' = heap m /\ current_rate d = current_rate d0)) /\
    (Forall (fun b : bool => b = true) allocs ->
     allocations_succeed (2 * NUM_CHANNELS) m -> r = 0).
Proof.
  intros Htab. unfold init_fir_filters.
  set (oks := map (fun ch : nat =>
                     (default true (allocs !! ch),
                      default (mk_channel None None) (channels d0 !! ch)))
                  (seq 0 NUM_CHANNELS)).
  assert (Hlen_oks : length oks = NUM_CHANNELS)
    by (unfold oks; rewrite length_map, length_seq; reflexivity).
  destruct (init_channels_spec (MAX_FILTER_ORDER * 4) (heap m) Htab oks [] [] m)
    as (r & chs & m' & Hrun & Hres & Hok).
  { split; constructor. }
  { constructor. }
  { constructor. }
  { intros b. rewrite decide_False by (intros Hb; inversion Hb). reflexivity. }
  rewrite Hrun. cbn [mbind option_bind].
  destruct Hres as [(-> & Hlen & tl & Hhold & Hzero & Hdls & Hw)|(-> & Hh)].
  - cbn [Z.eqb]. eexists _, _, _. split; [reflexivity|]. split; [|intros; reflexivity].
    left. split; [reflexivity|]. split; [reflexivity|]. cbn [channels].
    assert (Hready : Forall delay_line_ready chs).
    { apply (Forall_impl _ _ _ Hdls). intros ch [Hdl _].
      apply fresh_line_ready. exact Hdl. }
    split.
    { split; [cbn [channels]; rewrite Hlen, Hlen_oks; reflexivity|].
      split; [exact Hready|].
      exists tl. exact Hhold. }
    split; [|exists tl; split; assumption].
    destruct Hhold as [Hall _]. clear - Hall Hzero Hdls.
    induction Hall as [|ch [[n c] i] chs tl [_ (f & Hf & Hat)] _ IH]; [constructor|].
    inversion Hzero as [|? ? Hi Hzero']; subst.
    inversion Hdls as [|? ? [Hdl _] Hdls']; subst. cbn [snd] in Hi. subst i.
    constructor; [|apply IH; assumption].
    split; [apply fresh_line_ready; exact Hdl|]. exists f. split; assumption.
  - cbn [Z.eqb]. eexists _, _, _. split; [reflexivity|]. split.
    + right. split; [reflexivity|]. split; [exact Hh|reflexivity].
    + intros Htrue Hk. apply Hok.
      * unfold oks. apply Forall_forall. intros b Hb.
        apply list_elem_of_fmap in Hb as (ch & -> & _). cbn [fst].
        destruct (allocs !! ch) as [b|] eqn:Hb; [|reflexivity].
        rewrite Forall_forall in Htrue. cbn [default].
        apply Htrue. eapply list_elem_of_lookup_2. exact Hb.
      * change (to_size_t (MAX_FILTER_ORDER * 4)) with 65532. lia.
      * rewrite Hlen_oks. exact Hk.
Qed.

End InitTheorems.

(** ** Initialisation and clean-up on the blocks of the channels *)

Section LifetimeFacts.
Context {F : Type} `{Arith F} `{Coefficients F}.

#[local] Arguments fir_filter_clone : simpl never.
#[local] Arguments fir_filter_free : simpl never.

(** [delay_line_init] is never undefined: it returns the null pointer and
    leaves the heap as it was, or it adds the structure and the zeroed
    buffer. *)
Lemma delay_line_init_cases (size : Z) (m : memory F) :
  exists (p : option addr) (m1 : memory F),
    Lifetime.delay_line_init size m = Some (p, m1) /\
    ((p = None /\ heap m1 = heap m) \/
     (exists n b : nat,
        p = Some (Dyn n) /\ n <> b /\ size <> 0 /\
        heap m !! n = None /\ heap m !! b = None /\
        heap m1 = <[n := ODelayLine (Some (Dyn b)) size (size - 1)]>
                    (<[b := OFloats (replicate (Z.to_nat size) fzero)]> (heap m)))) /\
    (forall k : nat, size <> 0 -> size * SIZEOF_FLOAT <= PTRDIFF_MAX ->
       allocations_succeed (S (S k)) m -> p <> None /\ allocations_succeed k m1).
Proof.
  unfold Lifetime.delay_line_init.
  destruct (Z.eqb_spec size 0) as [Hz|Hnz].
  { eexists _, _. split; [reflexivity|]. split; [left; split; reflexivity|].
    intros k Hne. contradiction. }
  pose proof (malloc_cases SIZEOF_DELAY_LINE (ODelayLine None 0 0) m) as [Ho1 Hm1].
  pose proof (fun k => malloc_succeeds k SIZEOF_DELAY_LINE (ODelayLine None 0 0) m) as Hs1.
  destruct (malloc SIZEOF_DELAY_LINE (ODelayLine None 0 0) m) as [delay_line m1].
  cbn [fst snd] in Hm1, Ho1.
  destruct Hm1 as [[-> Hh1]|(n & -> & Hn & Hh1)].
  { eexists _, _. split; [reflexivity|]. split; [left; split; [reflexivity|exact Hh1]|].
    intros k _ _ Hk.
    destruct (Hs1 (S k) Hk) as (n & _ & Heq & _);
      [unfold SIZEOF_DELAY_LINE, PTRDIFF_MAX; lia|discriminate Heq]. }
  set (zeros := OFloats (replicate (Z.to_nat size) fzero)).
  pose proof (malloc_cases (size * SIZEOF_FLOAT) zeros m1) as [Ho2 Hm2].
  pose proof (fun k => malloc_succeeds k (size * SIZEOF_FLOAT) zeros m1) as Hs2.
  destruct (malloc (size * SIZEOF_FLOAT) zeros m1) as [buffer m2].
  cbn [fst snd] in Hm2, Ho2.
  destruct Hm2 as [[-> Hh2]|(b & -> & Hb & Hh2)].
  - unfold free. rewrite Hh2, Hh1, lookup_insert_eq. cbn [mbind option_bind].
    eexists _, _. split; [reflexivity|]. split.
    + left. split; [reflexivity|]. cbn [heap].
      apply delete_insert_id. exact Hn.
    + intros k _ Hbytes Hk.
      destruct (Hs1 (S k) Hk) as (n' & _ & Heq & Hk1);
        [unfold SIZEOF_DELAY_LINE, PTRDIFF_MAX; lia|].
      injection Heq as _ Hm1. rewrite <- Hm1 in Hk1.
      destruct (Hs2 k Hk1 Hbytes) as (b & _ & Heq & _). discriminate Heq.
  - rewrite Hh1 in Hb.
    assert (Hne : n <> b).
    { intros ->. rewrite lookup_insert_eq in Hb. discriminate. }
    rewrite lookup_insert_ne in Hb by exact Hne.
    eexists _, _. split; [reflexivity|]. split.
    + right. exists n, b. repeat split; try assumption.
      unfold write_block. cbn [heap]. rewrite Hh2, Hh1.
      apply map_eq. intros k.
      destruct (decide (k = n)) as [->|Hkn]; [rewrite !lookup_insert_eq; reflexivity|].
      rewrite !(lookup_insert_ne _ n k) by congruence.
      destruct (decide (k = b)) as [->|Hkb]; [rewrite !lookup_insert_eq; reflexivity|].
      rewrite !(lookup_insert_ne _ b k) by congruence.
      rewrite lookup_insert_ne by congruence. reflexivity.
    + intros k _ Hbytes Hk. split; [discriminate|].
      destruct (Hs1 (S k) Hk) as (n' & _ & Heq & Hk1);
        [unfold SIZEOF_DELAY_LINE, PTRDIFF_MAX; lia|].
      injection Heq as _ Hm1. rewrite <- Hm1 in Hk1.
      destruct (Hs2 k Hk1 Hbytes) as (b' & _ & Heq & Hk2).
      injection Heq as _ Hm2. rewrite <- Hm2 in Hk2.
      unfold allocations_succeed, write_block in *. cbn [oracle] in *. exact Hk2.
Qed.

(** [delay_line_init] by value is the line that the pointer returned by
    [Lifetime.delay_line_init] designates; its [alloc_ok] tells whether the
    pointer is not null. *)
Lemma delay_line_init_by_value (size : Z) (m m' : memory F) (p : option addr) :
  Lifetime.delay_line_init size m = Some (p, m') ->
  line_at m' p = Some (delay_line_init (bool_decide (p <> None)) size).
Proof.
  intros Hrun.
  destruct (delay_line_init_cases size m) as (p1 & m1 & Hrun1 & Hcase & _).
  rewrite Hrun in Hrun1. injection Hrun1 as <- <-.
  destruct Hcase as [[-> _]|(n & b & -> & Hnb & Hnz & _ & _ & Hh)].
  - cbn [line_at]. rewrite bool_decide_false by (intros Hne; apply Hne; reflexivity).
    unfold delay_line_init. destruct (size =? 0); reflexivity.
  - rewrite bool_decide_true by discriminate.
    unfold line_at. cbn [deref]. rewrite Hh, lookup_insert_eq. cbn [deref].
    rewrite Hh, lookup_insert_ne, lookup_insert_eq by congruence.
    unfold delay_line_init. destruct (Z.eqb_spec size 0) as [?|_]; [contradiction|].
    reflexivity.
Qed.

(** [delay_line_free] on a line whose structure and buffer are live blocks
    removes the two blocks. *)
Lemma delay_line_free_owned (m : memory F) (n b : nat) (sz idx : Z) :
  n <> b ->
  heap m !! n = Some (ODelayLine (Some (Dyn b)) sz idx) ->
  is_Some (heap m !! b) ->
  Lifetime.delay_line_free (Some (Dyn n)) m
  = Some (mk_memory (delete n (delete b (heap m))) (oracle m)).
Proof.
  intros Hne Hn [y Hb]. unfold Lifetime.delay_line_free, free. cbn [deref].
  rewrite Hn, Hb. cbn [mbind option_bind heap oracle].
  rewrite lookup_delete_ne, Hn by congruence. reflexivity.
Qed.

Lemma channel_initialised_transfer (size : Z) (m m' : memory F)
    (ch : Lifetime.channel) (t : nat * nat * nat * nat) :
  channel_initialised size m ch t ->
  (forall b : nat, b ∈ blocks4 t -> heap m' !! b = heap m !! b) ->
  channel_initialised size m' ch t.
Proof.
  destruct t as [[[n b] nf] cc].
  intros ((Hnd & Hdl & (sz & idx & Hn) & Hb & Hcur & (r & o & Hnf) & Hcc)
          & Hline & f & Hf & Hat)
         Hsame.
  cbn [fst snd] in *.
  assert (Sn : heap m' !! n = heap m !! n) by (apply Hsame; repeat constructor).
  assert (Sb : heap m' !! b = heap m !! b) by (apply Hsame; repeat constructor).
  assert (Snf : heap m' !! nf = heap m !! nf) by (apply Hsame; repeat constructor).
  assert (Scc : heap m' !! cc = heap m !! cc) by (apply Hsame; repeat constructor).
  split; [|split].
  - unfold channel_owns. cbn [fst snd]. rewrite Sn, Sb, Snf, Scc.
    split; [exact Hnd|].
    split; [exact Hdl|]. split; [exists sz, idx; exact Hn|]. split; [exact Hb|].
    split; [exact Hcur|]. split; [exists r, o; exact Hnf|exact Hcc].
  - rewrite <- Hline. rewrite Hdl. unfold line_at. cbn [deref].
    rewrite Sn, Hn. cbn [deref]. rewrite Sb. reflexivity.
  - exists f. split; [exact Hf|]. rewrite <- Hat. rewrite Hcur.
    unfold filter_at, floats_at. cbn [deref]. rewrite Snf, Hnf. cbn [deref].
    rewrite Scc. reflexivity.
Qed.

(** [init_channel] is never undefined: it returns -1 with the heap as it
    was and no delay line, or 0 with four new blocks. *)
Lemma lifetime_init_channel_cases (ch0 : Lifetime.channel) (delay_size : Z)
    (m : memory F) :
  table_arrays_cover_orders ->
  exists (r : Z) (ch : Lifetime.channel) (m1 : memory F),
    Lifetime.init_channel ch0 delay_size m = Some (r, ch, m1) /\
    ((r = -1 /\ heap m1 = heap m /\ Lifetime.ch_delay_line ch = None) \/
     (r = 0 /\
      exists t : nat * nat * nat * nat,
        NoDup (blocks4 t) /\
        (forall b : nat, b ∈ blocks4 t -> heap m !! b = None) /\
        (forall b : nat, b ∉ blocks4 t -> heap m1 !! b = heap m !! b) /\
        channel_initialised (to_size_t delay_size) m1 ch t)) /\
    (forall k : nat,
       to_size_t delay_size <> 0 ->
       to_size_t delay_size * SIZEOF_FLOAT <= PTRDIFF_MAX ->
       allocations_succeed (4 + k) m -> r = 0 /\ allocations_succeed k m1).
Proof.
  intros Htab. unfold Lifetime.init_channel.
  remember (to_size_t delay_size) as size eqn:Hsize. clear Hsize.
  destruct (delay_line_init_cases size m) as (dl & m1 & Hdl & Hcase1 & Halloc1).
  rewrite Hdl. cbn [mbind option_bind].
  destruct Hcase1 as [[-> Hh1]|(n & b & -> & Hnb & Hnz & Hn & Hb & Hh1)].
  { eexists _, _, _. split; [reflexivity|]. split.
    - left. split; [reflexivity|]. split; [exact Hh1|reflexivity].
    - intros k Hnz Hbytes Hk. destruct (Halloc1 (2 + k)%nat Hnz Hbytes Hk) as [Hne _].
      congruence. }
  destruct (clone_static_cases 0 44100 4095 m1 Htab eq_refl) as (cur & m2 & Hcl & Hcase2).
  assert (Halloc2 : forall k : nat, allocations_succeed (S (S k)) m1 ->
            cur <> None /\ allocations_succeed k m2).
  { intros k Hk.
    destruct (FIR_COEFF_is_Some 0 44100 4095 eq_refl) as [l Hl].
    destruct (fir_filter_clone_succeeds k m1 (StaticFilter 0) 44100 4095
                (Some (StaticCoeffs 0)))
      as (nf & cc & m' & Hcl' & _ & _ & _ & _ & Hk');
      [reflexivity|unfold INT_MAX; lia
      |rewrite (floats_at_static m1 0 l Hl); apply (Htab 0%nat 44100 4095 l eq_refl Hl)
      |exact Hk|].
    rewrite Hcl in Hcl'. injection Hcl' as -> ->. split; [discriminate|exact Hk']. }
  rewrite Hcl. cbn [mbind option_bind].
  assert (Ln : heap m1 !! n = Some (ODelayLine (Some (Dyn b)) size (size - 1)))
    by (rewrite Hh1, lookup_insert_eq; reflexivity).
  assert (Lb : heap m1 !! b = Some (OFloats (replicate (Z.to_nat size) fzero)))
    by (rewrite Hh1, lookup_insert_ne, lookup_insert_eq by congruence; reflexivity).
  destruct Hcase2 as [[-> Hh2]|(nf & cc & r & o & l & -> & Hne & Hi & Hl & Hnf & Hcc & Hh2)].
  - rewrite (delay_line_free_owned m2 n b size (size - 1) Hnb);
      [|rewrite Hh2; exact Ln|rewrite Hh2, Lb; eexists; reflexivity].
    cbn [mbind option_bind].
    eexists _, _, _. split; [reflexivity|]. split.
    + left. split; [reflexivity|]. split; [|reflexivity]. cbn [heap].
      rewrite Hh2, Hh1. apply map_eq. intros k.
      destruct (decide (k = n)) as [->|Hkn]; [rewrite lookup_delete_eq, Hn; reflexivity|].
      rewrite lookup_delete_ne by congruence.
      destruct (decide (k = b)) as [->|Hkb]; [rewrite lookup_delete_eq, Hb; reflexivity|].
      rewrite lookup_delete_ne, !lookup_insert_ne by congruence. reflexivity.
    + intros k Hnz' Hbytes Hk.
      destruct (Halloc1 (2 + k)%nat Hnz' Hbytes Hk) as [_ Hk1].
      destruct (Halloc2 k Hk1) as [Hcur _]. congruence.
  - injection Hi as <- <-.
    assert (Nnf : nf <> n) by (intros ->; congruence).
    assert (Nnfb : nf <> b) by (intros ->; congruence).
    assert (Ncc : cc <> n) by (intros ->; congruence).
    assert (Nccb : cc <> b) by (intros ->; congruence).
    assert (Lnf : heap m2 !! nf = Some (OFilter 44100 (Some (Dyn cc)) 4095))
      by (rewrite Hh2, lookup_insert_eq; reflexivity).
    assert (Lcc : heap m2 !! cc = Some (OFloats (take (Z.to_nat 4095) l)))
      by (rewrite Hh2, lookup_insert_ne, lookup_insert_eq by congruence; reflexivity).
    assert (Ln2 : heap m2 !! n = Some (ODelayLine (Some (Dyn b)) size (size - 1)))
      by (rewrite Hh2, !lookup_insert_ne by congruence; exact Ln).
    assert (Lb2 : heap m2 !! b = Some (OFloats (replicate (Z.to_nat size) fzero)))
      by (rewrite Hh2, !lookup_insert_ne by congruence; exact Lb).
    eexists _, _, _. split; [reflexivity|]. split.
    + right. split; [reflexivity|]. exists (n, b, nf, cc).
      unfold blocks4. cbn [fst snd].
      assert (Hnd : NoDup [n; b; nf; cc]).
      { repeat (apply NoDup_cons; split); [..|apply NoDup_nil_2];
          intros Hin; repeat (apply elem_of_cons in Hin as [?|Hin]; [congruence|]);
          inversion Hin. }
      split; [exact Hnd|].
      split.
      { intros k Hk. rewrite Hh1 in Hnf, Hcc.
        rewrite !lookup_insert_ne in Hnf, Hcc by congruence.
        repeat (apply elem_of_cons in Hk as [->|Hk]); try assumption. inversion Hk. }
      split.
      { intros k Hk. rewrite Hh2, Hh1.
        rewrite !lookup_insert_ne; [reflexivity|..]; intros ->; apply Hk;
          repeat constructor. }
      split; [|split].
      * unfold channel_owns, blocks4.
        cbn [fst snd Lifetime.ch_delay_line Lifetime.current].
        split; [exact Hnd|]. split; [reflexivity|]. split; [eexists _, _; exact Ln2|].
        split; [eexists; exact Lb2|]. split; [reflexivity|].
        split; [eexists _, _; exact Lnf|eexists; exact Lcc].
      * cbn [Lifetime.ch_delay_line]. unfold line_at. cbn [deref].
        rewrite Ln2. cbn [deref]. rewrite Lb2. unfold delay_line_init.
        destruct (Z.eqb_spec size 0) as [?|_]; [contradiction|]. reflexivity.
      * exists (mk_fir_filter 44100 (take (Z.to_nat 4095) l) 4095). split.
        -- unfold cloned_entry. cbn [FIR_FILTERS_fields lookup list_lookup mbind option_bind].
           rewrite Hl. reflexivity.
        -- cbn [Lifetime.current]. unfold filter_at, floats_at. cbn [deref].
           rewrite Lnf. cbn [deref]. rewrite Lcc. reflexivity.
    + intros k Hnz' Hbytes Hk. split; [reflexivity|].
      destruct (Halloc1 (2 + k)%nat Hnz' Hbytes Hk) as [_ Hk1].
      apply (Halloc2 k Hk1).
Qed.
End LifetimeFacts.

Section LifetimeRelease.
Context {F : Type} `{Arith F} `{Coefficients F}.

#[local] Arguments fir_filter_clone : simpl never.
#[local] Arguments fir_filter_free : simpl never.
#[local] Arguments Lifetime.delay_line_free : simpl never.

Lemma channel_owns_transfer (m m' : memory F) (ch : Lifetime.channel)
    (t : nat * nat * nat * nat) :
  channel_owns m ch t ->
  (forall b : nat, b ∈ blocks4 t -> heap m' !! b = heap m !! b) ->
  channel_owns m' ch t.
Proof.
  destruct t as [[[n b] nf] cc]. unfold channel_owns, blocks4. cbn [fst snd].
  intros Hown Hsame.
  rewrite !Hsame by (repeat constructor). exact Hown.
Qed.

Lemma channels_own_transfer (m m' : memory F) (chs : list Lifetime.channel)
    (ts : list (nat * nat * nat * nat)) :
  Forall2 (channel_owns m) chs ts ->
  (forall b : nat, b ∈ ts ≫= blocks4 -> heap m' !! b = heap m !! b) ->
  Forall2 (channel_owns m') chs ts.
Proof.
  induction 1 as [|ch t chs ts Hown _ IH]; intros Hsame; [constructor|].
  constructor.
  - apply (channel_owns_transfer m m' ch t Hown). intros b Hb. apply Hsame.
    cbn [mbind list_bind]. apply elem_of_app. left. exact Hb.
  - apply IH. intros b Hb. apply Hsame.
    cbn [mbind list_bind]. apply elem_of_app. right. exact Hb.
Qed.

Lemma owned_blocks_live (m : memory F) (chs : list Lifetime.channel)
    (ts : list (nat * nat * nat * nat)) :
  Forall2 (channel_owns m) chs ts ->
  forall b : nat, b ∈ ts ≫= blocks4 -> is_Some (heap m !! b).
Proof.
  induction 1 as [|ch [[[n b0] nf] cc] chs ts Hown _ IH]; intros b Hb.
  - inversion Hb.
  - cbn [mbind list_bind] in Hb. apply elem_of_app in Hb as [Hb|Hb]; [|apply IH; exact Hb].
    destruct Hown as (_ & _ & (sz & idx & Hn) & Hb0 & _ & (r & o & Hnf) & Hcc).
    unfold blocks4 in Hb. cbn [fst snd] in *.
    apply elem_of_cons in Hb as [->|Hb]; [eexists; exact Hn|].
    apply elem_of_cons in Hb as [->|Hb]; [exact Hb0|].
    apply elem_of_cons in Hb as [->|Hb]; [eexists; exact Hnf|].
    apply elem_of_cons in Hb as [->|Hb]; [exact Hcc|]. inversion Hb.
Qed.

(** Releasing channels that own their blocks removes exactly these
    blocks. *)
Lemma lifetime_release_channels_owned (chs : list Lifetime.channel) :
  forall (ts : list (nat * nat * nat * nat)) (m : memory F),
    channels_own m chs ts ->
    exists m' : memory F,
      Lifetime.release_channels chs m = Some m' /\
      oracle m' = oracle m /\
      without_blocks (heap m) (ts ≫= blocks4) (heap m').
Proof.
  induction chs as [|ch chs IH]; intros ts m [Hall Hnd].
  - inversion Hall; subst. exists m. split; [reflexivity|]. split; [reflexivity|].
    intros b. rewrite decide_False by (intros Hb; inversion Hb). reflexivity.
  - inversion Hall as [|? [[[n b0] nf] cc] ? ts_rest Hhead Hrest]; subst.
    change (((n, b0, nf, cc) :: ts_rest) ≫= blocks4)
      with (n :: b0 :: nf :: cc :: ts_rest ≫= blocks4) in *.
    apply NoDup_cons in Hnd as (Hn_rest & Hnd).
    apply NoDup_cons in Hnd as (Hb_rest & Hnd).
    apply NoDup_cons in Hnd as (Hnf_rest & Hnd).
    apply NoDup_cons in Hnd as (Hcc_rest & Hnd).
    destruct Hhead as (_ & Hdl & (sz & idx & Hn) & Hb0 & Hcur & (r & o & Hnf) & Hcc).
    cbn [fst snd] in *.
    assert (Nnb : n <> b0) by (intros ->; apply Hn_rest; left).
    assert (Nnnf : n <> nf) by (intros ->; apply Hn_rest; right; left).
    assert (Nncc : n <> cc) by (intros ->; apply Hn_rest; do 2 right; left).
    assert (Nbnf : b0 <> nf) by (intros ->; apply Hb_rest; left).
    assert (Nbcc : b0 <> cc) by (intros ->; apply Hb_rest; right; left).
    assert (Nnfcc : nf <> cc) by (intros ->; apply Hnf_rest; left).
    cbn [Lifetime.release_channels]. rewrite Hcur, Hdl.
    rewrite (free_owned m nf cc r o Nnfcc Hnf Hcc). cbn [mbind option_bind].
    rewrite (delay_line_free_owned _ n b0 sz idx Nnb);
      [|cbn [heap]; rewrite !lookup_delete_ne by congruence; exact Hn
       |cbn [heap]; rewrite !lookup_delete_ne by congruence; exact Hb0].
    cbn [mbind option_bind heap oracle].
    set (m1 := mk_memory (delete n (delete b0 (delete nf (delete cc (heap m)))))
                         (oracle m)).
    assert (Hrest1 : Forall2 (channel_owns m1) chs ts_rest).
    { apply (channels_own_transfer m m1 _ _ Hrest). intros k Hk. unfold m1. cbn [heap].
      rewrite !lookup_delete_ne; [reflexivity|..]; intros ->.
      - apply Hcc_rest. exact Hk.
      - apply Hnf_rest. right. exact Hk.
      - apply Hb_rest. do 2 right. exact Hk.
      - apply Hn_rest. do 3 right. exact Hk. }
    destruct (IH ts_rest m1 (conj Hrest1 Hnd)) as (m' & Hrel & Horacle & Hw).
    exists m'. split; [exact Hrel|]. split; [exact Horacle|].
    intros k. rewrite Hw. unfold m1. cbn [heap].
    destruct (decide (k ∈ ts_rest ≫= blocks4)) as [Hin|Hout].
    + rewrite decide_True by (do 4 right; exact Hin). reflexivity.
    + destruct (decide (k = n)) as [->|Hkn].
      { rewrite decide_True by left. apply lookup_delete_eq. }
      rewrite (lookup_delete_ne _ n k) by congruence.
      destruct (decide (k = b0)) as [->|Hkb].
      { rewrite decide_True by (right; left). apply lookup_delete_eq. }
      rewrite (lookup_delete_ne _ b0 k) by congruence.
      destruct (decide (k = nf)) as [->|Hknf].
      { rewrite decide_True by (do 2 right; left). apply lookup_delete_eq. }
      rewrite (lookup_delete_ne _ nf k) by congruence.
      destruct (decide (k = cc)) as [->|Hkcc].
      { rewrite decide_True by (do 3 right; left). apply lookup_delete_eq. }
      rewrite (lookup_delete_ne _ cc k) by congruence.
      rewrite decide_False; [reflexivity|].
      intros Hin. repeat (apply elem_of_cons in Hin as [?|Hin]; [congruence|]).
      contradiction.
Qed.

(** [cleanup_fir_filters] releases what the clean-up loop of
    [init_fir_filters] releases, and resets the pointers. *)
Lemma cleanup_channels_release (chs : list Lifetime.channel) :
  forall m : memory F,
    Lifetime.cleanup_channels chs m
    = m' ← Lifetime.release_channels chs m;
      Some (map (fun _ => Lifetime.mk_channel None None) chs, m').
Proof.
  induction chs as [|[dl cur] chs IH]; intros m; [reflexivity|].
  cbn [Lifetime.cleanup_channels Lifetime.release_channels map].
  unfold Lifetime.cleanup_channel.
  cbn [Lifetime.current Lifetime.ch_delay_line].
  destruct cur as [a|]; destruct dl as [p|]; cbn [mbind option_bind].
  - destruct (fir_filter_free (Some a) m) as [m1|]; [|reflexivity].
    cbn [mbind option_bind].
    destruct (Lifetime.delay_line_free (Some p) m1) as [m2|]; [|reflexivity].
    cbn [mbind option_bind]. rewrite IH.
    destruct (Lifetime.release_channels chs m2); reflexivity.
  - destruct (fir_filter_free (Some a) m) as [m1|]; [|reflexivity].
    cbn [mbind option_bind]. rewrite IH.
    destruct (Lifetime.release_channels chs m1); reflexivity.
  - destruct (Lifetime.delay_line_free (Some p) m) as [m2|]; [|reflexivity].
    cbn [mbind option_bind]. rewrite IH.
    destruct (Lifetime.release_channels chs m2); reflexivity.
  - rewrite IH. destruct (Lifetime.release_channels chs m); reflexivity.
Qed.

Lemma release_channels_null (chs : list Lifetime.channel) (m : memory F) :
  Forall channel_null chs -> Lifetime.release_channels chs m = Some m.
Proof.
  induction 1 as [|[dl cur] chs [Hdl Hcur] _ IH]; [reflexivity|].
  cbn [Lifetime.ch_delay_line Lifetime.current] in Hdl, Hcur. subst dl cur.
  cbn [Lifetime.release_channels Lifetime.current Lifetime.ch_delay_line
       mbind option_bind]. exact IH.
Qed.
End LifetimeRelease.

Section LifetimeInit.
Context {F : Type} `{Arith F} `{Coefficients F}.

#[local] Arguments fir_filter_clone : simpl never.
#[local] Arguments fir_filter_free : simpl never.
#[local] Arguments Lifetime.delay_line_free : simpl never.
#[local] Arguments Lifetime.init_channel : simpl never.

Lemma initialised_own (size : Z) (m : memory F) (chs : list Lifetime.channel)
    (ts : list (nat * nat * nat * nat)) :
  Forall2 (channel_initialised size m) chs ts -> Forall2 (channel_owns m) chs ts.
Proof. intros Hall. apply (Forall2_impl _ _ _ _ Hall). intros ch t [Hown _]. exact Hown. Qed.

Lemma initialised_transfer (size : Z) (m m' : memory F)
    (chs : list Lifetime.channel) (ts : list (nat * nat * nat * nat)) :
  Forall2 (channel_initialised size m) chs ts ->
  (forall b : nat, b ∈ ts ≫= blocks4 -> heap m' !! b = heap m !! b) ->
  Forall2 (channel_initialised size m') chs ts.
Proof.
  induction 1 as [|ch t chs ts Hinit _ IH]; intros Hsame; [constructor|].
  constructor.
  - apply (channel_initialised_transfer size m m' ch t Hinit). intros b Hb. apply Hsame.
    cbn [mbind list_bind]. apply elem_of_app. left. exact Hb.
  - apply IH. intros b Hb. apply Hsame.
    cbn [mbind list_bind]. apply elem_of_app. right. exact Hb.
Qed.

(** The loop of [init_fir_filters].  [h0] is the heap before the first
    channel was initialised. *)
Lemma lifetime_init_channels_spec (delay_size : Z) (h0 : gmap nat (object F)) :
  table_arrays_cover_orders ->
  forall (todo done : list Lifetime.channel) (ts : list (nat * nat * nat * nat))
         (m : memory F),
    Forall2 (channel_initialised (to_size_t delay_size) m) done ts ->
    NoDup (ts ≫= blocks4) ->
    without_blocks (heap m) (ts ≫= blocks4) h0 ->
    exists (r : Z) (chs : list Lifetime.channel) (m' : memory F),
      Lifetime.init_channels done todo delay_size m = Some (r, chs, m') /\
      length chs = (length done + length todo)%nat /\
      ((r = 0 /\
        exists ts' : list (nat * nat * nat * nat),
          Forall2 (channel_initialised (to_size_t delay_size) m') chs ts' /\
          NoDup (ts' ≫= blocks4) /\
          without_blocks (heap m') (ts' ≫= blocks4) h0) \/
       (r = -1 /\ heap m' = h0 /\
        exists (i : nat) (ch : Lifetime.channel),
          chs !! i = Some ch /\ Lifetime.ch_delay_line ch = None)) /\
      (forall k : nat,
         to_size_t delay_size <> 0 ->
         to_size_t delay_size * SIZEOF_FLOAT <= PTRDIFF_MAX ->
         allocations_succeed (4 * length todo + k) m ->
         r = 0 /\ allocations_succeed k m').
Proof.
  intros Htab.
  induction todo as [|ch0 rest IH]; intros done ts m Hall Hnd Hw.
  - exists 0, done, m. split; [reflexivity|]. split; [cbn [length]; lia|].
    split; [|intros k _ _ Hk; split; [reflexivity|exact Hk]].
    left. split; [reflexivity|]. exists ts. repeat split; assumption.
  - destruct (lifetime_init_channel_cases ch0 delay_size m Htab)
      as (r & ch & m1 & Hinit & Hcase & Halloc).
    cbn [Lifetime.init_channels]. rewrite Hinit. cbn [mbind option_bind].
    pose proof (owned_blocks_live m done ts (initialised_own _ _ _ _ Hall)) as Hlive.
    destruct Hcase as [(-> & Hh & Hnull)|(-> & t & Hndt & Hfresh & Hframe & Hnew)].
    + cbn [Z.eqb].
      assert (Hown1 : channels_own m1 done ts).
      { split; [|exact Hnd].
        apply (channels_own_transfer m m1 _ _ (initialised_own _ _ _ _ Hall)).
        intros b _. rewrite Hh. reflexivity. }
      destruct (lifetime_release_channels_owned done ts m1 Hown1) as (m2 & Hrel & _ & Hw2).
      rewrite Hrel. cbn [mbind option_bind].
      eexists _, _, _. split; [reflexivity|].
      split; [rewrite length_app; cbn [length]; lia|]. split.
      * right. split; [reflexivity|]. split.
        -- rewrite Hh in Hw2. apply (without_blocks_unique _ _ _ _ Hw2 Hw).
        -- exists (length done), ch. split; [|exact Hnull].
           rewrite lookup_app_r by lia. rewrite Nat.sub_diag. reflexivity.
      * intros k Hnz Hbytes Hk.
        replace (4 * length (ch0 :: rest) + k)%nat
          with (4 + (4 * length rest + k))%nat in Hk by (cbn [length]; lia).
        destruct (Halloc _ Hnz Hbytes Hk) as [Hr _]. discriminate Hr.
    + cbn [Z.eqb].
      assert (Hold : forall b, b ∈ ts ≫= blocks4 -> b ∉ blocks4 t).
      { intros b Hb Hin. destruct (Hlive b Hb) as [y Hy].
        rewrite (Hfresh b Hin) in Hy. discriminate. }
      assert (Hblocks : (ts ++ [t]) ≫= blocks4 = (ts ≫= blocks4) ++ blocks4 t).
      { rewrite bind_app. cbn [mbind list_bind]. rewrite app_nil_r. reflexivity. }
      destruct (IH (done ++ [ch]) (ts ++ [t]) m1)
        as (r & chs & m' & Hrun & Hlen & Hres & Hok).
      * apply Forall2_app; [|constructor; [exact Hnew|constructor]].
        apply (initialised_transfer _ m m1 _ _ Hall). intros b Hb.
        apply Hframe. apply Hold. exact Hb.
      * rewrite Hblocks. apply NoDup_app. split; [exact Hnd|]. split; [exact Hold|exact Hndt].
      * rewrite Hblocks. intros b. rewrite Hw.
        destruct (decide (b ∈ ts ≫= blocks4)) as [Hin|Hout].
        -- rewrite decide_True by (apply elem_of_app; left; exact Hin). reflexivity.
        -- destruct (decide (b ∈ blocks4 t)) as [Hin|Hout'].
           ++ rewrite decide_True by (apply elem_of_app; right; exact Hin).
              apply Hfresh. exact Hin.
           ++ rewrite decide_False; [symmetry; apply Hframe; exact Hout'|].
              intros Hin. apply elem_of_app in Hin as [Hin|Hin]; contradiction.
      * exists r, chs, m'. split; [exact Hrun|].
        split; [rewrite Hlen, length_app; cbn [length]; lia|].
        split; [exact Hres|].
        intros k Hnz Hbytes Hk.
        replace (4 * length (ch0 :: rest) + k)%nat
          with (4 + (4 * length rest + k))%nat in Hk by (cbn [length]; lia).
        destruct (Halloc _ Hnz Hbytes Hk) as [_ Hk1].
        apply Hok; assumption.
Qed.

(** The channels read by value. *)
Lemma initialised_by_value (size : Z) (m : memory F) (chs : list Lifetime.channel)
    (ts : list (nat * nat * nat * nat)) :
  Forall2 (channel_initialised size m) chs ts ->
  exists cvs : list (channel F),
    mapM (channel_by_value m) chs = Some cvs /\
    Forall2 (fun cv t => ch_delay_line cv = delay_line_init true size /\
                         holds_entry m cv t.1.2 t.2 0) cvs ts.
Proof.
  induction 1 as [|ch [[[n b] nf] cc] chs ts Hinit _ (cvs & Hmap & IH)].
  - exists []. split; [reflexivity|constructor].
  - destruct Hinit as ((Hnd4 & Hdl & (sz & idx & Hn) & Hb & Hcur & (r & o & Hnf) & Hcc)
                       & Hline & f & Hf & Hat).
    cbn [fst snd] in *.
    exists (mk_channel (delay_line_init true size) (Lifetime.current ch) :: cvs). split.
    + assert (Hcv : channel_by_value m ch
                    = Some (mk_channel (delay_line_init true size) (Lifetime.current ch)))
        by (unfold channel_by_value; rewrite Hline; reflexivity).
      cbn [mapM]. rewrite Hcv. cbn [mbind option_bind]. rewrite Hmap. reflexivity.
    + constructor; [|exact IH]. cbn [ch_delay_line fst snd]. split; [reflexivity|].
      split.
      * unfold holds_filter. cbn [current]. split; [exact Hcur|].
        split; [|split; [exists r, o; exact Hnf|exact Hcc]].
        unfold blocks4 in Hnd4. cbn [fst snd] in Hnd4.
        apply NoDup_cons in Hnd4 as [_ Hnd4]. apply NoDup_cons in Hnd4 as [_ Hnd4].
        apply NoDup_cons in Hnd4 as [Hnd4 _]. intros ->. apply Hnd4. left.
      * exists f. split; [exact Hf|exact Hat].
Qed.
End LifetimeInit.

Section LifetimeTheorems.
Context {F : Type} `{Arith F} `{Coefficients F}.

#[local] Arguments fir_filter_clone : simpl never.
#[local] Arguments fir_filter_free : simpl never.
#[local] Arguments Lifetime.delay_line_free : simpl never.
#[local] Arguments Lifetime.init_channel : simpl never.

Lemma filter_blocks_sublist (ts : list (nat * nat * nat * nat)) :
  blocks_of (map (fun t : nat * nat * nat * nat => (t.1.2, t.2)) ts)
  `sublist_of` ts ≫= blocks4.
Proof.
  induction ts as [|[[[n b] nf] cc] ts IH]; [constructor|].
  change (nf :: cc :: blocks_of (map (fun t : nat * nat * nat * nat => (t.1.2, t.2)) ts)
          `sublist_of` n :: b :: nf :: cc :: ts ≫= blocks4).
  do 2 apply sublist_cons. do 2 apply sublist_skip. exact IH.
Qed.

Lemma blocks4_length (ts : list (nat * nat * nat * nat)) :
  length (ts ≫= blocks4) = (4 * length ts)%nat.
Proof.
  induction ts as [|t ts IH]; [reflexivity|].
  cbn [mbind list_bind]. rewrite length_app, IH. cbn [length blocks4]. lia.
Qed.

(** The state by value after a successful initialisation. *)
Lemma initialised_ready (m : memory F) (d : Lifetime.data)
    (ts : list (nat * nat * nat * nat)) :
  length (Lifetime.channels d) = NUM_CHANNELS ->
  Forall2 (channel_initialised (to_size_t (MAX_FILTER_ORDER * 4)) m)
          (Lifetime.channels d) ts ->
  NoDup (ts ≫= blocks4) ->
  exists dv : data F,
    data_by_value m d = Some dv /\
    current_rate dv = Lifetime.current_rate d /\
    ready dv m /\
    Forall (fun ch =>
              ch_delay_line ch = delay_line_init true (MAX_FILTER_ORDER * 4) /\
              exists f : fir_filter F,
                cloned_entry 0 = Some f /\
                filter_at m (current ch) = Some (Some f)) (channels dv).
Proof.
  intros Hlen Hall Hnd.
  destruct (initialised_by_value _ m _ ts Hall) as (cvs & Hmap & Hcvs).
  exists (mk_data cvs (Lifetime.current_rate d)).
  split; [unfold data_by_value; rewrite Hmap; reflexivity|].
  split; [reflexivity|]. cbn [channels].
  assert (Hlen' : length cvs = NUM_CHANNELS).
  { apply length_mapM in Hmap. congruence. }
  split; [split; [exact Hlen'|split]|].
  - clear - Hcvs. induction Hcvs as [|cv t cvs ts [Hdl _] _ IH]; constructor; [|exact IH].
    apply fresh_line_ready. exact Hdl.
  - exists (map (fun t : nat * nat * nat * nat => (t.1.2, t.2, 0%nat)) ts). split.
    + apply Forall2_fmap_r. apply (Forall2_impl _ _ _ _ Hcvs).
      intros cv t [_ Hentry]. exact Hentry.
    + rewrite map_map. cbn [fst].
      apply (sublist_NoDup _ _ Hnd (filter_blocks_sublist ts)).
  - clear - Hcvs.
    induction Hcvs as [|cv t cvs ts [Hdl [_ Hf]] _ IH]; constructor; [|exact IH].
    split; [apply fresh_line_ready; exact Hdl|exact Hf].
Qed.

(** [init_fir_filters] on the blocks: whatever allocations are refused it
    returns 0 with four new blocks for each channel, or -1 with the heap as
    it was. *)
Lemma lifetime_init_fir_filters_spec (d0 : Lifetime.data) (m : memory F) :
  table_arrays_cover_orders ->
  length (Lifetime.channels d0) = NUM_CHANNELS ->
  exists (r : Z) (d : Lifetime.data) (m' : memory F),
    Lifetime.init_fir_filters d0 m = Some (r, d, m') /\
    length (Lifetime.channels d) = NUM_CHANNELS /\
    ((r = 0 /\ Lifetime.current_rate d = 44100 /\
      exists ts : list (nat * nat * nat * nat),
        Forall2 (channel_initialised (to_size_t (MAX_FILTER_ORDER * 4)) m')
                (Lifetime.channels d) ts /\
        NoDup (ts ≫= blocks4) /\
        without_blocks (heap m') (ts ≫= blocks4) (heap m)) \/
     (r = -1 /\ heap m' = heap m /\
      Lifetime.current_rate d = Lifetime.current_rate d0 /\
      exists (i : nat) (ch : Lifetime.channel),
        Lifetime.channels d !! i = Some ch /\ Lifetime.ch_delay_line ch = None)) /\
    (forall k : nat, allocations_succeed (4 * NUM_CHANNELS + k) m ->
       r = 0 /\ allocations_succeed k m').
Proof.
  intros Htab Hlen. unfold Lifetime.init_fir_filters.
  rewrite decide_True by exact Hlen.
  destruct (lifetime_init_channels_spec (MAX_FILTER_ORDER * 4) (heap m) Htab
              (Lifetime.channels d0) [] [] m)
    as (r & chs & m' & Hrun & Hlen' & Hres & Hok).
  { constructor. }
  { constructor. }
  { intros b. rewrite decide_False by (intros Hb; inversion Hb). reflexivity. }
  rewrite Hrun. cbn [mbind option_bind].
  assert (Hk : forall k : nat, allocations_succeed (4 * NUM_CHANNELS + k) m ->
                               r = 0 /\ allocations_succeed k m').
  { intros k Hk. apply Hok.
    - change (to_size_t (MAX_FILTER_ORDER * 4)) with 65532. lia.
    - change (to_size_t (MAX_FILTER_ORDER * 4)) with 65532.
      unfold SIZEOF_FLOAT, PTRDIFF_MAX. lia.
    - rewrite Hlen. exact Hk. }
  cbn [length Nat.add] in Hlen'. rewrite Hlen in Hlen'.
  destruct Hres as [(-> & ts & Hall & Hnd & Hw)|(-> & Hh & Hnull)].
  - cbn [Z.eqb]. eexists _, _, _. split; [reflexivity|].
    split; [exact Hlen'|]. split; [|exact Hk].
    left. split; [reflexivity|]. split; [reflexivity|].
    exists ts. repeat split; assumption.
  - cbn [Z.eqb]. eexists _, _, _. split; [reflexivity|].
    split; [exact Hlen'|]. split; [|exact Hk].
    right. split; [reflexivity|]. split; [exact Hh|]. split; [reflexivity|exact Hnull].
Qed.

Lemma initialised_blocks (size : Z) (m m0 : memory F) (chs : list Lifetime.channel)
    (ts : list (nat * nat * nat * nat)) :
  Forall2 (channel_initialised size m) chs ts ->
  NoDup (ts ≫= blocks4) ->
  without_blocks (heap m) (ts ≫= blocks4) (heap m0) ->
  channels_own m chs ts /\
  live_blocks m = (live_blocks m0 + 4 * length chs)%nat.
Proof.
  intros Hall Hnd Hw.
  pose proof (initialised_own _ _ _ _ Hall) as Hown.
  split; [split; assumption|].
  unfold live_blocks.
  rewrite (without_blocks_size (ts ≫= blocks4) (heap m) (heap m0) Hw Hnd
             (owned_blocks_live m chs ts Hown)).
  rewrite blocks4_length. apply Forall2_length in Hall. lia.
Qed.

(** [cleanup_fir_filters] on channels that own their blocks. *)
Lemma lifetime_cleanup_spec (d : Lifetime.data) (m : memory F)
    (ts : list (nat * nat * nat * nat)) :
  length (Lifetime.channels d) = NUM_CHANNELS ->
  channels_own m (Lifetime.channels d) ts ->
  exists (d' : Lifetime.data) (m' : memory F),
    Lifetime.cleanup_fir_filters d m = Some (d', m') /\
    length (Lifetime.channels d') = NUM_CHANNELS /\
    Forall channel_null (Lifetime.channels d') /\
    Lifetime.current_rate d' = Lifetime.current_rate d /\
    oracle m' = oracle m /\
    without_blocks (heap m) (ts ≫= blocks4) (heap m') /\
    Lifetime.cleanup_fir_filters d' m' = Some (d', m').
Proof.
  intros Hlen Hown. unfold Lifetime.cleanup_fir_filters at 1.
  rewrite decide_True by exact Hlen.
  rewrite cleanup_channels_release.
  destruct (lifetime_release_channels_owned _ ts m Hown) as (m' & Hrel & Horacle & Hw).
  rewrite Hrel. cbn [mbind option_bind].
  set (nulls := map (fun _ : Lifetime.channel => Lifetime.mk_channel None None)
                    (Lifetime.channels d)).
  assert (Hnulls : Forall channel_null nulls).
  { unfold nulls. apply Forall_fmap. apply Forall_forall. intros ch _.
    split; reflexivity. }
  assert (Hlen' : length nulls = NUM_CHANNELS)
    by (unfold nulls; rewrite length_map; exact Hlen).
  eexists _, _. split; [reflexivity|]. cbn [Lifetime.channels Lifetime.current_rate].
  split; [exact Hlen'|]. split; [exact Hnulls|]. split; [reflexivity|].
  split; [exact Horacle|]. split; [exact Hw|].
  unfold Lifetime.cleanup_fir_filters. cbn [Lifetime.channels Lifetime.current_rate].
  rewrite decide_True by exact Hlen'.
  rewrite cleanup_channels_release, (release_channels_null nulls m' Hnulls).
  cbn [mbind option_bind].
  replace (map (fun _ : Lifetime.channel => Lifetime.mk_channel None None) nulls)
    with nulls; [reflexivity|].
  unfold nulls. rewrite map_map. reflexivity.
Qed.

(** X7.  When the eight allocations are served, [init_fir_filters] returns 0
    and sets the rate to 44100; every channel owns four new blocks: the
    structure and the zeroed buffer of a delay line of [4 * MAX_FILTER_ORDER]
    slots with the cursor on the last slot, and the structure and the
    coefficients of its own clone of [FIR_FILTERS[0]].  The heap has
    [4 * NUM_CHANNELS] more live blocks and is otherwise as before; read by
    value, the state is [ready]. *)
Theorem init_fir_filters_starts_ready (d0 : Lifetime.data) (m : memory F) :
  table_arrays_cover_orders ->
  length (Lifetime.channels d0) = NUM_CHANNELS ->
  allocations_succeed (4 * NUM_CHANNELS) m ->
  exists (d : Lifetime.data) (m' : memory F) (ts : list (nat * nat * nat * nat))
         (dv : data F),
    Lifetime.init_fir_filters d0 m = Some (0, d, m') /\
    Lifetime.current_rate d = 44100 /\
    channels_own m' (Lifetime.channels d) ts /\
    without_blocks (heap m') (ts ≫= blocks4) (heap m) /\
    live_blocks m' = (live_blocks m + 4 * NUM_CHANNELS)%nat /\
    data_by_value m' d = Some dv /\
    current_rate dv = 44100 /\
    ready dv m' /\
    Forall (fun ch =>
              ch_delay_line ch = delay_line_init true (MAX_FILTER_ORDER * 4) /\
              exists f : fir_filter F,
                cloned_entry 0 = Some f /\
                filter_at m' (current ch) = Some (Some f)) (channels dv).
Proof.
  intros Htab Hlen Hk.
  destruct (lifetime_init_fir_filters_spec d0 m Htab Hlen)
    as (r & d & m' & Hrun & Hlen' & Hres & Hok).
  replace (4 * NUM_CHANNELS)%nat with (4 * NUM_CHANNELS + 0)%nat in Hk by lia.
  destruct (Hok 0%nat Hk) as [-> _].
  destruct Hres as [(_ & Hrate & ts & Hall & Hnd & Hw)|(Hr & _)]; [|discriminate Hr].
  destruct (initialised_blocks _ m' m _ ts Hall Hnd Hw) as [Hown Hlive].
  destruct (initialised_ready m' d ts Hlen' Hall Hnd) as (dv & Hdv & Hdvrate & Hready & Hchs).
  exists d, m', ts, dv. split; [exact Hrun|]. split; [exact Hrate|].
  split; [exact Hown|]. split; [exact Hw|].
  split; [rewrite Hlive, Hlen'; reflexivity|]. split; [exact Hdv|].
  split; [rewrite Hdvrate; exact Hrate|]. split; assumption.
Qed.

(** X8.  [init_fir_filters] is all-or-nothing, whatever allocations are
    refused: it is defined and returns 0 or -1.  With 0 the rate is 44100
    and every channel owns four new blocks, the only change of the heap.
    With -1 every block allocated on the way has been freed, the delay
    lines as well as the filters, so the heap is as before the call; the
    rate is not set, one of the first eight allocations was refused, and
    the channel that failed has no delay line. *)
Theorem init_fir_filters_all_or_nothing (d0 : Lifetime.data) (m : memory F) :
  table_arrays_cover_orders ->
  length (Lifetime.channels d0) = NUM_CHANNELS ->
  exists (r : Z) (d : Lifetime.data) (m' : memory F),
    Lifetime.init_fir_filters d0 m = Some (r, d, m') /\
    length (Lifetime.channels d) = NUM_CHANNELS /\
    ((r = 0 /\ Lifetime.current_rate d = 44100 /\
      exists (ts : list (nat * nat * nat * nat)) (dv : data F),
        channels_own m' (Lifetime.channels d) ts /\
        without_blocks (heap m') (ts ≫= blocks4) (heap m) /\
        live_blocks m' = (live_blocks m + 4 * NUM_CHANNELS)%nat /\
        data_by_value m' d = Some dv /\ ready dv m') \/
     (r = -1 /\ heap m' = heap m /\
      Lifetime.current_rate d = Lifetime.current_rate d0 /\
      ~ allocations_succeed (4 * NUM_CHANNELS) m /\
      exists (i : nat) (ch : Lifetime.channel),
        Lifetime.channels d !! i = Some ch /\ Lifetime.ch_delay_line ch = None)).
Proof.
  intros Htab Hlen.
  destruct (lifetime_init_fir_filters_spec d0 m Htab Hlen)
    as (r & d & m' & Hrun & Hlen' & Hres & Hok).
  exists r, d, m'. split; [exact Hrun|]. split; [exact Hlen'|].
  destruct Hres as [(-> & Hrate & ts & Hall & Hnd & Hw)|(-> & Hh & Hrate & Hnull)].
  - left. split; [reflexivity|]. split; [exact Hrate|].
    destruct (initialised_blocks _ m' m _ ts Hall Hnd Hw) as [Hown Hlive].
    destruct (initialised_ready m' d ts Hlen' Hall Hnd) as (dv & Hdv & _ & Hready & _).
    exists ts, dv. split; [exact Hown|]. split; [exact Hw|].
    split; [rewrite Hlive, Hlen'; reflexivity|]. split; assumption.
  - right. split; [reflexivity|]. split; [exact Hh|]. split; [exact Hrate|].
    split; [|exact Hnull].
    intros Hk.
    replace (4 * NUM_CHANNELS)%nat with (4 * NUM_CHANNELS + 0)%nat in Hk by lia.
    destruct (Hok 0%nat Hk) as [Hr _]. discriminate Hr.
Qed.

(** X9.  [cleanup_fir_filters] on channels that own their blocks frees
    exactly these blocks, the two of each delay line and the two of each
    filter, and leaves every channel with both pointers null, so that a
    second call changes nothing: no block is freed twice. *)
Theorem cleanup_fir_filters_releases_blocks (d : Lifetime.data) (m : memory F)
    (ts : list (nat * nat * nat * nat)) :
  length (Lifetime.channels d) = NUM_CHANNELS ->
  channels_own m (Lifetime.channels d) ts ->
  exists (d' : Lifetime.data) (m' : memory F),
    Lifetime.cleanup_fir_filters d m = Some (d', m') /\
    length (Lifetime.channels d') = NUM_CHANNELS /\
    Forall channel_null (Lifetime.channels d') /\
    Lifetime.current_rate d' = Lifetime.current_rate d /\
    without_blocks (heap m) (ts ≫= blocks4) (heap m') /\
    live_blocks m = (live_blocks m' + 4 * NUM_CHANNELS)%nat /\
    Lifetime.cleanup_fir_filters d' m' = Some (d', m').
Proof.
  intros Hlen Hown.
  destruct (lifetime_cleanup_spec d m ts Hlen Hown)
    as (d' & m' & Hrun & Hlen' & Hnull & Hrate & _ & Hw & Hagain).
  exists d', m'. split; [exact Hrun|]. split; [exact Hlen'|]. split; [exact Hnull|].
  split; [exact Hrate|]. split; [exact Hw|]. split; [|exact Hagain].
  destruct Hown as [Hall Hnd]. unfold live_blocks.
  rewrite (without_blocks_size (ts ≫= blocks4) (heap m) (heap m') Hw Hnd
             (owned_blocks_live m _ ts Hall)).
  rewrite blocks4_length. apply Forall2_length in Hall. lia.
Qed.

(** X10.  [cleanup_fir_filters] after a successful [init_fir_filters]
    returns the heap to what it was before the initialisation: every block
    that the initialisation allocated, of the delay lines and of the
    filters, is freed, and no other block is touched. *)
Theorem cleanup_undoes_init (d0 d : Lifetime.data) (m m' : memory F) :
  table_arrays_cover_orders ->
  length (Lifetime.channels d0) = NUM_CHANNELS ->
  Lifetime.init_fir_filters d0 m = Some (0, d, m') ->
  exists (d' : Lifetime.data) (m'' : memory F),
    Lifetime.cleanup_fir_filters d m' = Some (d', m'') /\
    heap m'' = heap m /\
    Forall channel_null (Lifetime.channels d').
Proof.
  intros Htab Hlen Hinit.
  destruct (lifetime_init_fir_filters_spec d0 m Htab Hlen)
    as (r & d1 & m1 & Hrun & Hlen' & Hres & _).
  rewrite Hinit in Hrun. injection Hrun as <- <- <-.
  destruct Hres as [(_ & _ & ts & Hall & Hnd & Hw)|(Hr & _)]; [|discriminate Hr].
  destruct (initialised_blocks _ m' m _ ts Hall Hnd Hw) as [Hown _].
  destruct (lifetime_cleanup_spec d m' ts Hlen' Hown)
    as (d' & m'' & Hrun & _ & Hnull & _ & _ & Hw' & _).
  exists d', m''. split; [exact Hrun|]. split; [|exact Hnull].
  apply (without_blocks_unique _ _ _ _ Hw' Hw).
Qed.
End LifetimeTheorems.

(** ** [select_filter_for_rate] on the program state *)

Section SelectReady.
Context {F : Type} `{Arith F} `{Coefficients F}.

Lemma delay_lines_ready_map (chs chs' : list (channel F)) :
  map ch_delay_line chs' = map ch_delay_line chs ->
  Forall delay_line_ready chs -> Forall delay_line_ready chs'.
Proof.
  revert chs'. induction chs as [|ch chs IH]; intros [|ch' chs'] Hmap Hall;
    try discriminate; [constructor|].
  cbn [map] in Hmap. injection Hmap as Hdl Hrest.
  inversion Hall as [|? ? (dl & Hd & Hr) Hall']; subst.
  constructor; [|apply IH; assumption].
  exists dl. rewrite Hdl. split; assumption.
Qed.

(** [select_filter_for_rate] from a ready state. *)
Lemma select_filter_for_rate_ready (d : data F) (rate : Z) (m : memory F) :
  table_arrays_cover_orders ->
  ready d m ->
  exists (d' : data F) (m' : memory F),
    select_filter_for_rate d rate m = Some (d', m') /\
    ready d' m' /\
    map ch_delay_line (channels d') = map ch_delay_line (channels d) /\
    live_blocks m' = live_blocks m /\
    (current_rate d' = rate \/ current_rate d' = fallback_rate) /\
    (allocations_succeed (2 * NUM_CHANNELS) m ->
       current_rate d' = rate /\
       Forall (fun ch => exists (i : nat) (f : fir_filter F),
                 selected rate i /\ cloned_entry i = Some f /\
                 filter_at m' (current ch) = Some (Some f)) (channels d')).
Proof.
  intros Htab (Hlen & Hdls & tl & Hall & Hnd).
  destruct (select_channels_entries rate Htab (channels d) tl m [] rate Hall Hnd)
    as (chs' & a & m' & tl' & Hsel & Hmap & Hall' & Hnd' & _ & Hsz & Ha & Hok).
  { intros b Hb. inversion Hb. }
  assert (Hlen' : length chs' = NUM_CHANNELS).
  { rewrite <- Hlen, <- (length_map ch_delay_line chs'), Hmap. apply length_map. }
  exists (mk_data chs' a), m'. split.
  { unfold select_filter_for_rate. rewrite Hsel. cbn [mbind option_bind].
    destruct chs' as [|ch0 chs']; [discriminate Hlen'|].
    inversion Hall' as [|? [[n0 c0] i0] ? ? [_ (f0 & _ & Hat0)] _]; subst.
    cbn [lookup list_lookup mbind option_bind fst snd] in *.
    rewrite Hat0. reflexivity. }
  split.
  { split; [exact Hlen'|]. split; [exact (delay_lines_ready_map _ _ Hmap Hdls)|].
    exists tl'. split; assumption. }
  split; [exact Hmap|]. split; [exact Hsz|]. split; [exact Ha|].
  intros Hk. apply Hok. rewrite Hlen. exact Hk.
Qed.

(** X11.  From a ready state [select_filter_for_rate] is always defined,
    whatever the rate and whatever the allocator serves: the state is ready
    again (every channel has a live clone of a table entry), the delay
    lines are as they were, as many blocks are live as before (the blocks of
    a replaced filter are released), and the rate recorded is the requested
    one or 192000. *)
Theorem select_filter_for_rate_keeps_ready (d : data F) (rate : Z) (m : memory F) :
  table_arrays_cover_orders ->
  ready d m ->
  exists (d' : data F) (m' : memory F),
    select_filter_for_rate d rate m = Some (d', m') /\
    ready d' m' /\
    map ch_delay_line (channels d') = map ch_delay_line (channels d) /\
    live_blocks m' = live_blocks m /\
    (current_rate d' = rate \/ current_rate d' = fallback_rate).
Proof.
  intros Htab Hready.
  destruct (select_filter_for_rate_ready d rate m Htab Hready)
    as (d' & m' & Hsel & Hr & Hmap & Hsz & Ha & _).
  exists d', m'. split; [exact Hsel|]. split; [exact Hr|].
  split; [exact Hmap|]. split; [exact Hsz|exact Ha].
Qed.

(** X12.  When the allocations succeed, [select_filter_for_rate] records
    the requested rate, also when the table has no entry for it, and leaves
    every channel with a clone of the entry of that rate, or of the last
    entry when there is none. *)
Theorem select_filter_for_rate_installs_selected
    (d : data F) (rate : Z) (m : memory F) :
  table_arrays_cover_orders ->
  ready d m ->
  allocations_succeed (2 * NUM_CHANNELS) m ->
  exists (d' : data F) (m' : memory F),
    select_filter_for_rate d rate m = Some (d', m') /\
    current_rate d' = rate /\
    Forall (fun ch => exists (i : nat) (f : fir_filter F),
              selected rate i /\ cloned_entry i = Some f /\
              filter_at m' (current ch) = Some (Some f)) (channels d').
Proof.
  intros Htab Hready Hk.
  destruct (select_filter_for_rate_ready d rate m Htab Hready)
    as (d' & m' & Hsel & _ & _ & _ & _ & Hok).
  destruct (Hok Hk) as [Hrate Hall].
  exists d', m'. split; [exact Hsel|]. split; [exact Hrate|exact Hall].
Qed.
End SelectReady.

(** ** [select_filter_for_rate] when nothing can be allocated *)

Section Exhausted.
Context {F : Type} `{Arith F} `{Coefficients F}.

#[local] Arguments fir_filter_clone : simpl never.
#[local] Arguments fir_filter_free : simpl never.
#[local] Arguments clone_matching : simpl never.
#[local] Arguments update_channel_filter : simpl never.

Lemma fir_filter_clone_refused (a : addr) (m : memory F) (tl : list bool) :
  oracle m = false :: tl ->
  fir_filter_clone (Some a) m = Some (None, mk_memory (heap m) tl).
Proof.
  intros Ho. unfold fir_filter_clone, malloc. rewrite Ho. reflexivity.
Qed.

(** With no allocation served, [update_channel_filter] returns -1 after one
    or two attempts and changes nothing. *)
Lemma update_channel_filter_refused (ch : channel F) (rate : Z) (h : gmap nat (object F))
    (k : nat) :
  (2 <= k)%nat ->
  exists j : nat,
    (1 <= j <= 2)%nat /\
    update_channel_filter ch rate (mk_memory h (replicate k false))
    = Some (-1, ch, mk_memory h (replicate (k - j) false)).
Proof.
  intros Hk. destruct k as [|[|k]]; try lia.
  unfold update_channel_filter.
  destruct (rate_in_table_or_not rate) as [[i [o Hi]]|Hno].
  - exists 2%nat. split; [lia|].
    rewrite (clone_matching_match i rate o _ Hi).
    rewrite (fir_filter_clone_refused _ _ (replicate (S k) false)) by reflexivity.
    cbn [mbind option_bind heap].
    rewrite (fir_filter_clone_refused _ _ (replicate k false)) by reflexivity.
    cbn [mbind option_bind heap].
    replace (S (S k) - 2)%nat with k by lia. reflexivity.
  - exists 1%nat. split; [lia|].
    rewrite (clone_matching_no_match rate _ Hno). cbn [mbind option_bind].
    rewrite (fir_filter_clone_refused _ _ (replicate (S k) false)) by reflexivity.
    cbn [mbind option_bind heap].
    replace (S (S k) - 1)%nat with (S k) by lia. reflexivity.
Qed.

Lemma select_channels_refused (rate : Z) (chs : list (channel F)) :
  forall (h : gmap nat (object F)) (k : nat) (a0 : Z),
    (4 * length chs <= k)%nat ->
    exists j : nat,
      (j <= 4 * length chs)%nat /\
      select_channels chs rate a0 (mk_memory h (replicate k false))
      = Some (chs, if decide (chs = []) then a0 else fallback_rate,
              mk_memory h (replicate (k - j) false)).
Proof.
  induction chs as [|ch chs IH]; intros h k a0 Hk.
  - exists 0%nat. split; [lia|]. cbn [select_channels].
    rewrite Nat.sub_0_r. reflexivity.
  - cbn [length] in Hk.
    destruct (update_channel_filter_refused ch rate h k ltac:(lia)) as (j1 & Hj1 & Hup1).
    destruct (update_channel_filter_refused ch fallback_rate h (k - j1) ltac:(lia))
      as (j2 & Hj2 & Hup2).
    destruct (IH h (k - j1 - j2)%nat fallback_rate ltac:(lia)) as (j3 & Hj3 & Hsel).
    exists (j1 + j2 + j3)%nat. split; [cbn [length]; lia|].
    cbn [select_channels]. rewrite Hup1. cbn [mbind option_bind Z.eqb].
    rewrite Hup2. cbn [mbind option_bind]. rewrite Hsel. cbn [mbind option_bind].
    rewrite (decide_False (P := ch :: chs = [])) by (intros Hx; discriminate Hx).
    replace (k - j1 - j2 - j3)%nat with (k - (j1 + j2 + j3))%nat by lia.
    destruct (decide (chs = [])); reflexivity.
Qed.

(** X13.  When no allocation is served, [select_filter_for_rate] leaves
    every channel with the filter it had and the heap as it was, and records
    192000 as the current rate, whatever rate was requested and whatever
    the rate of the filters that stay in place. *)
Theorem select_filter_for_rate_when_exhausted
    (d : data F) (rate : Z) (m : memory F) (k : nat) (ch0 : channel F)
    (f0 : fir_filter F) :
  channels d !! 0%nat = Some ch0 ->
  filter_at m (current ch0) = Some (Some f0) ->
  oracle m = replicate k false ->
  (4 * length (channels d) <= k)%nat ->
  exists m' : memory F,
    select_filter_for_rate d rate m
      = Some (mk_data (channels d) fallback_rate, m') /\
    heap m' = heap m.
Proof.
  intros Hch0 Hf0 Horacle Hk. destruct m as [h o]. cbn [oracle heap] in *. subst o.
  destruct (select_channels_refused rate (channels d) h k rate Hk) as (j & _ & Hsel).
  unfold select_filter_for_rate. rewrite Hsel. cbn [mbind option_bind].
  rewrite Hch0. cbn [mbind option_bind].
  assert (Hat : filter_at (mk_memory h (replicate (k - j) false)) (current ch0)
                = Some (Some f0)) by exact Hf0.
  rewrite Hat. cbn [mbind option_bind].
  rewrite decide_False by (intros Hnil; rewrite Hnil in Hch0; discriminate Hch0).
  eexists. split; reflexivity.
Qed.
End Exhausted.

(** ** [update_channel_filter] when a clone is refused *)

Section CloneRefused.
Context {F : Type} `{Arith F} `{Coefficients F}.

#[local] Arguments fir_filter_clone : simpl never.
#[local] Arguments fir_filter_free : simpl never.
#[local] Arguments clone_matching : simpl never.

(** The structure is obtained and the coefficient array is refused: the
    structure is released again. *)
Lemma fir_filter_clone_array_refused (a : addr) (m : memory F) (tl : list bool)
    (r o : Z) (c : option addr) :
  deref m a = Some (OFilter r c o) ->
  oracle m = true :: false :: tl ->
  fir_filter_clone (Some a) m = Some (None, mk_memory (heap m) tl).
Proof.
  intros Ha Ho. unfold fir_filter_clone, malloc. rewrite Ho.
  change (SIZEOF_FIR_FILTER <=? PTRDIFF_MAX) with true. cbn [andb].
  rewrite Ha. cbn [oracle heap andb]. unfold free. cbn [heap oracle].
  rewrite lookup_insert_eq. cbn [mbind option_bind]. do 3 f_equal.
  apply delete_insert_id. apply not_elem_of_dom, is_fresh.
Qed.

(** A refused clone of a table entry, in either way. *)
Lemma clone_static_refused (i : nat) (r o : Z) (m : memory F) (tl : list bool) :
  FIR_FILTERS_fields !! i = Some (r, o) ->
  oracle m = false :: tl \/ oracle m = true :: false :: tl ->
  fir_filter_clone (Some (StaticFilter i)) m = Some (None, mk_memory (heap m) tl).
Proof.
  intros Hi [Ho|Ho].
  - apply fir_filter_clone_refused. exact Ho.
  - apply (fir_filter_clone_array_refused _ m tl r o (Some (StaticCoeffs i)));
      [apply deref_static_filter; exact Hi|exact Ho].
Qed.

Lemma owns_filter_same_heap (m m' : memory F) (p : option addr) :
  heap m' = heap m -> owns_filter m p -> owns_filter m' p.
Proof.
  intros Hh [Hn|(n & c & r0 & o0 & Hp & Hnc & Hn & Hc)]; [left; exact Hn|right].
  exists n, c, r0, o0. rewrite Hh. repeat split; assumption.
Qed.

Lemma filter_at_same_heap (m m' : memory F) (p : option addr) :
  heap m' = heap m -> filter_at m' p = filter_at m p.
Proof.
  intros Hh. destruct m as [h o], m' as [h' o']. cbn in Hh. subst h'. reflexivity.
Qed.

(** The filter that was released is no longer there. *)
Lemma fir_filter_free_gone (p : option addr) (m m' : memory F) :
  p <> None -> fir_filter_free p m = Some m' -> filter_at m' p = None.
Proof.
  intros Hp. unfold fir_filter_free. destruct p as [a|]; [|congruence].
  destruct (deref m a) as [[l|r c o|lb ls li]|] eqn:Ha; try discriminate.
  destruct (free c m) as [m1|]; cbn [mbind option_bind]; [|discriminate].
  unfold free. destruct a as [i|i|n]; try discriminate.
  destruct (heap m1 !! n); [|discriminate]. intros Heq. injection Heq as <-.
  unfold filter_at, deref. cbn [heap]. rewrite lookup_delete_eq. reflexivity.
Qed.

(** C5.  When the clone of the entry of the requested rate is refused (the
    structure, or the coefficient array after the structure),
    [update_channel_filter] on a channel that owns its filter is defined and
    goes on to clone the last entry of the table.  If that clone is refused
    as well, or if the rate has no entry so that the refused clone was
    already that of the last entry, it returns -1 with the channel and the
    heap as they were: the channel keeps the filter it had.  If that clone
    is served, it returns 0: the channel has a clone of the last entry, the
    filter it had is released, and no failure is reported.  In every case
    the delay line is as it was and a channel that had a filter has one. *)
Theorem clone_failure_falls_back_or_keeps_filter
    (ch : channel F) (rate : Z) (m : memory F) (tl : list bool) :
  table_arrays_cover_orders ->
  owns_filter m (current ch) ->
  oracle m = false :: tl \/ oracle m = true :: false :: tl ->
  exists (r : Z) (ch' : channel F) (m' : memory F),
    update_channel_filter ch rate m = Some (r, ch', m') /\
    ch_delay_line ch' = ch_delay_line ch /\
    owns_filter m' (current ch') /\
    (current ch <> None -> current ch' <> None) /\
    ((r = -1 /\ ch' = ch /\ heap m' = heap m /\
      filter_at m' (current ch') = filter_at m (current ch) /\
      (no_entry_for rate \/
       exists tl' : list bool, tl = false :: tl' \/ tl = true :: false :: tl')) \/
     (r = 0 /\
      (exists (i : nat) (o : Z), FIR_FILTERS_fields !! i = Some (rate, o)) /\
      forallb (fun b : bool => b) (take 2 tl) = true /\
      (exists f : fir_filter F,
         cloned_entry 5 = Some f /\ filter_at m' (current ch') = Some (Some f)) /\
      (current ch <> None -> filter_at m' (current ch) = None))).
Proof.
  intros Htab Hown Ho.
  set (m1 := mk_memory (heap m) tl).
  assert (Hfail : forall ml : memory F, heap ml = heap m ->
            exists r ch' m',
              Some (-1, ch, ml) = Some (r, ch', m') /\
              ch_delay_line ch' = ch_delay_line ch /\
              owns_filter m' (current ch') /\
              (current ch <> None -> current ch' <> None) /\
              r = -1 /\ ch' = ch /\ heap m' = heap m /\
              filter_at m' (current ch') = filter_at m (current ch)).
  { intros ml Hml. exists (-1), ch, ml. split; [reflexivity|]. split; [reflexivity|].
    split; [apply (owns_filter_same_heap m); assumption|]. split; [tauto|].
    split; [reflexivity|]. split; [reflexivity|]. split; [exact Hml|].
    apply filter_at_same_heap. exact Hml. }
  unfold update_channel_filter.
  destruct (rate_in_table_or_not rate) as [[i [o Hi]]|Hno].
  - rewrite (clone_matching_match i rate o m Hi).
    rewrite (clone_static_refused i rate o m tl Hi Ho). cbn [mbind option_bind].
    fold m1.
    assert (Hcases : (exists tl', tl = false :: tl' \/ tl = true :: false :: tl') \/
                     forallb (fun b : bool => b) (take 2 tl) = true).
    { destruct tl as [|[|] [|[|] tl']]; cbn; eauto. }
    destruct Hcases as [[tl' Htl]|Hserved].
    + rewrite (clone_static_refused 5 192000 16383 m1 tl' eq_refl)
        by (cbn [oracle m1]; exact Htl).
      cbn [mbind option_bind].
      destruct (Hfail (mk_memory (heap m1) tl') eq_refl)
        as (r & ch' & m' & Heq & Hdl & Hown' & Hnn & -> & -> & Hh & Hat).
      exists (-1), ch, m'. split; [exact Heq|]. split; [exact Hdl|].
      split; [exact Hown'|]. split; [exact Hnn|]. left.
      split; [reflexivity|]. split; [reflexivity|]. split; [exact Hh|].
      split; [exact Hat|]. right. exists tl'. exact Htl.
    + destruct (FIR_COEFF_is_Some 5 192000 16383 eq_refl) as [l Hl].
      destruct (fir_filter_clone_succeeds 0 m1 (StaticFilter 5) 192000 16383
                  (Some (StaticCoeffs 5)))
        as (nf & cc & m2 & Hcl & Hne & Hnf & Hcc & Hh & _);
        [reflexivity|unfold INT_MAX; lia
        |rewrite (floats_at_static m1 5 l Hl); apply (Htab 5%nat 192000 16383 l eq_refl Hl)
        |exact Hserved|].
      rewrite (floats_at_static m1 5 l Hl) in Hh.
      assert (Hc : is_clone_of (heap m) (heap m2) (Some (Dyn nf)) 5).
      { exists nf, cc, 192000, 16383, l. repeat split; assumption. }
      destruct (install_clone ch m m2 _ 5 Hown Hc) as (m3 & f & Hfree & Hf & Hat & Hown3 & _).
      rewrite Hcl. cbn [mbind option_bind]. rewrite Hfree. cbn [mbind option_bind].
      exists 0, (mk_channel (ch_delay_line ch) (Some (Dyn nf))), m3.
      split; [reflexivity|]. split; [reflexivity|]. cbn [current].
      split; [exact Hown3|]. split; [discriminate|]. right.
      split; [reflexivity|]. split; [exists i, o; exact Hi|]. split; [exact Hserved|].
      split; [exists f; split; assumption|].
      intros Hcur. apply (fir_filter_free_gone _ m2 m3 Hcur Hfree).
  - rewrite (clone_matching_no_match rate m Hno). cbn [mbind option_bind].
    rewrite (clone_static_refused 5 192000 16383 m tl eq_refl Ho).
    cbn [mbind option_bind].
    destruct (Hfail m1 eq_refl)
      as (r & ch' & m' & Heq & Hdl & Hown' & Hnn & -> & -> & Hh & Hat).
    exists (-1), ch, m'. split; [exact Heq|]. split; [exact Hdl|].
    split; [exact Hown'|]. split; [exact Hnn|]. left.
    split; [reflexivity|]. split; [reflexivity|]. split; [exact Hh|].
    split; [exact Hat|]. left. exact Hno.
Qed.
End CloneRefused.

(** ** The processing callback *)

Section Process.
Context {F : Type} `{Arith F} `{Coefficients F}.

(** A call with [count] samples taken from a longer block is the call on
    the block of exactly these samples. *)
Lemma append_samples_take (f : fir_filter F) (d : delay_line F) (s : list F)
    (count : Z) :
  0 < count <= Z.of_nat (length s) ->
  delay_line_append_samples (Some f) (Some d) (Some s) count
  = delay_line_append_samples (Some f) (Some d)
      (Some (take (Z.to_nat count) s))
      (Z.of_nat (length (take (Z.to_nat count) s))).
Proof.
  intros Hc. rewrite length_take.
  replace (Z.of_nat (Z.to_nat count `min` length s)) with count by lia.
  unfold delay_line_append_samples.
  destruct (count <=? 0) eqn:E0; [lia|].
  destruct (negb (int_ok (order f * 2))); [reflexivity|].
  rewrite length_take.
  destruct (Z.ltb_spec (Z.of_nat (length s)) count); [lia|].
  destruct (Z.ltb_spec (Z.of_nat (Z.to_nat count `min` length s)) count); [lia|].
  rewrite take_take. replace (Z.to_nat count `min` Z.to_nat count)%nat
    with (Z.to_nat count) by lia.
  reflexivity.
Qed.

(** The orders of the table and the length of a clone's array. *)
Lemma cloned_entry_shape (i : nat) (f : fir_filter F) :
  table_arrays_cover_orders ->
  cloned_entry i = Some f ->
  4095 <= order f <= MAX_FILTER_ORDER /\
  Z.of_nat (length (coeffs f)) = order f.
Proof.
  intros Htab. unfold cloned_entry.
  destruct (FIR_FILTERS_fields !! i) as [[r o]|] eqn:Hi; [|discriminate].
  cbn [mbind option_bind].
  destruct (FIR_COEFF i) as [l|] eqn:Hl; [|discriminate].
  cbn [mbind option_bind]. intros Hf. injection Hf as <-. cbn [order coeffs].
  pose proof (Htab i r o l Hi Hl) as Hlen.
  assert (Ho : 4095 <= o <= MAX_FILTER_ORDER).
  { unfold MAX_FILTER_ORDER.
    do 6 (destruct i as [|i]; [cbn in Hi; injection Hi as <- <-; lia|]).
    cbn in Hi. discriminate. }
  split; [exact Ho|]. rewrite length_take. lia.
Qed.

(** One channel of the processing loop, from a ready channel. *)
Lemma process_channel_ready (ch : channel F) (m : memory F) (n c i : nat)
    (inp out : list F) (count : Z) :
  table_arrays_cover_orders ->
  holds_entry m ch n c i -> delay_line_ready ch ->
  0 <= count <= 8190 ->
  count <= Z.of_nat (length inp) -> count <= Z.of_nat (length out) ->
  exists (ch' : channel F) (out' : list F),
    process_channel ch m (Some inp) (Some out) count = Some (ch', Some out') /\
    current ch' = current ch /\ delay_line_ready ch' /\
    length out' = length out.
Proof.
  intros Htab [_ (f & Hf & Hat)] (dl & Hdl & Hrange) Hcount Hinp Hout.
  destruct (cloned_entry_shape i f Htab Hf) as [Ho Hlen].
  unfold process_channel. rewrite Hat, Hdl. cbn [mbind option_bind].
  destruct (decide (count = 0)) as [->|Hpos].
  - cbn. exists (mk_channel (Some dl) (current ch)), out.
    split; [reflexivity|]. split; [reflexivity|]. split; [|reflexivity].
    exists dl. split; [reflexivity|exact Hrange].
  - rewrite append_samples_take by lia.
    destruct (append_in_range MAX_FILTER_ORDER f dl (take (Z.to_nat count) inp))
      as (dl' & Hrun & Hrange' & Hs & _);
      [exact Hrange|lia|unfold MAX_FILTER_ORDER, INT_MAX; lia
      |rewrite length_take; lia|].
    rewrite Hrun. cbn [mbind option_bind].
    pose proof Hrange' as (Hsz' & Hbig' & Hidx').
    rewrite fir_filter_apply_result
      by (unfold INT_MAX, MAX_FILTER_ORDER in *; lia).
    cbn [mbind option_bind].
    eexists. eexists. split; [reflexivity|]. cbn [current].
    split; [reflexivity|]. split; [exists dl'; split; [reflexivity|exact Hrange']|].
    rewrite length_app, length_map, length_seq, length_drop. lia.
Qed.

Lemma holds_entry_current (m : memory F) (ch ch' : channel F) (n c i : nat) :
  current ch' = current ch -> holds_entry m ch n c i -> holds_entry m ch' n c i.
Proof.
  unfold holds_entry, holds_filter. intros ->. tauto.
Qed.

Lemma process_channels_ready (m : memory F) (count : Z) :
  table_arrays_cover_orders ->
  0 <= count <= 8190 ->
  forall (chs : list (channel F)) (tl : list (nat * nat * nat))
         (inputs outputs : list (option (list F))),
    Forall2 (fun ch t => holds_entry m ch t.1.1 t.1.2 t.2) chs tl ->
    Forall delay_line_ready chs ->
    length inputs = length chs -> length outputs = length chs ->
    Forall (block_for count) inputs -> Forall (block_for count) outputs ->
    exists (chs' : list (channel F)) (outs : list (option (list F))),
      process_channels chs m inputs outputs count = Some (chs', outs) /\
      Forall2 (fun ch t => holds_entry m ch t.1.1 t.1.2 t.2) chs' tl /\
      Forall delay_line_ready chs' /\
      length chs' = length chs /\
      map (fmap length) outs = map (fmap length) outputs.
Proof.
  intros Htab Hcount.
  induction chs as [|ch chs IH]; intros tl inputs outputs Hall Hdls Hli Hlo Hin Hout.
  - inversion Hall; subst.
    destruct outputs; [|discriminate Hlo].
    exists [], []. repeat split; try constructor.
  - inversion Hall as [|? [[n c] i] ? tl_rest Hhead Hrest]; subst.
    inversion Hdls as [|? ? Hdl Hdls']; subst.
    destruct inputs as [|inp inputs]; [discriminate Hli|].
    destruct outputs as [|out outputs]; [discriminate Hlo|].
    inversion Hin as [|? ? (li & -> & Hli') Hin']; subst.
    inversion Hout as [|? ? (lo & -> & Hlo') Hout']; subst.
    cbn [length] in Hli, Hlo. cbn [fst snd] in Hhead.
    destruct (process_channel_ready ch m n c i li lo count Htab Hhead Hdl Hcount Hli' Hlo')
      as (ch' & out' & Hp & Hcur & Hdl' & Hlen').
    destruct (IH tl_rest inputs outputs Hrest Hdls' ltac:(lia) ltac:(lia) Hin' Hout')
      as (chs' & outs & Hps & Hall' & Hdls'' & Hlen'' & Hlens).
    cbn [process_channels]. rewrite Hp. cbn [mbind option_bind]. rewrite Hps.
    cbn [mbind option_bind]. eexists. eexists. split; [reflexivity|].
    split; [constructor; [apply (holds_entry_current m ch); assumption|exact Hall']|].
    split; [constructor; assumption|].
    split; [cbn [length]; lia|].
    cbn [map fmap option_fmap option_map]. rewrite Hlen', Hlens. reflexivity.
Qed.

Lemma to_int_range (z : Z) : INT_MIN <= to_int z <= INT_MAX.
Proof.
  unfold to_int, INT_MIN, INT_MAX.
  pose proof (Z.mod_pos_bound (z + 2 ^ 31) (2 ^ 32) ltac:(lia)). lia.
Qed.

(** [memset] of the first [count] floats of a block that has room. *)
Lemma silence_room (count : Z) (b : option (list F)) :
  0 <= count <= INT_MAX -> has_room count b ->
  silence count b
  = Some ((fun l => replicate (Z.to_nat count) fzero ++ drop (Z.to_nat count) l) <$> b).
Proof.
  intros Hc Hroom. destruct b as [l|]; [|reflexivity].
  specialize (Hroom l eq_refl). unfold silence.
  assert (Hbytes : to_size_t (to_size_t count * SIZEOF_FLOAT) = 4 * count).
  { unfold to_size_t, SIZEOF_FLOAT, SIZE_MAX. unfold INT_MAX in Hc.
    rewrite (Z.mod_small count) by lia. rewrite Z.mod_small by lia. lia. }
  rewrite Hbytes. unfold SIZEOF_FLOAT.
  destruct (Z.leb_spec (4 * count) (4 * Z.of_nat (length l))); [|lia].
  replace (4 * count / 4) with count by (rewrite Z.mul_comm, Z.div_mul; lia).
  reflexivity.
Qed.

Lemma silence_all (count : Z) (outputs : list (option (list F))) :
  0 <= count <= INT_MAX -> Forall (has_room count) outputs ->
  mapM (silence count) outputs
  = Some (map (fmap (fun l => replicate (Z.to_nat count) fzero
                              ++ drop (Z.to_nat count) l)) outputs).
Proof.
  intros Hc Hall. apply mapM_Some.
  induction Hall as [|b outputs Hb _ IH]; constructor; [|exact IH].
  apply silence_room; assumption.
Qed.

Lemma all_present (count : Z) (bs : list (option (list F))) :
  forallb (fun b : option (list F) => bool_decide (is_Some b)) bs = true ->
  Forall (has_room count) bs -> Forall (block_for count) bs.
Proof.
  intros Hp Hall. induction Hall as [|b bs Hb _ IH]; [constructor|].
  cbn [forallb] in Hp. apply andb_prop in Hp as [Hb1 Hp].
  constructor; [|apply IH; exact Hp].
  apply bool_decide_eq_true in Hb1 as [l ->]. exists l. split; [reflexivity|].
  apply Hb. reflexivity.
Qed.

(** X14.  From a ready state, a call of [on_filter_process] with a quantum
    of at most 8190 samples (twice the smallest order of the table) and
    with blocks that have room for the quantum is defined, whatever the
    rate of the position and whatever the allocator serves: no load or
    store leaves its array, no null or dangling pointer is followed.  The
    state is ready again, as many blocks are live as before, and the output
    blocks have the lengths they had. *)
Theorem on_filter_process_is_safe (d : data F) (m : memory F) (pos : spa_io_position)
    (inputs outputs : list (option (list F))) :
  table_arrays_cover_orders ->
  ready d m ->
  0 <= to_int (clock_duration pos) <= 8190 ->
  length inputs = NUM_CHANNELS -> length outputs = NUM_CHANNELS ->
  Forall (has_room (to_int (clock_duration pos))) inputs ->
  Forall (has_room (to_int (clock_duration pos))) outputs ->
  exists (d' : data F) (m' : memory F) (outs : list (option (list F))),
    on_filter_process d m (Some pos) inputs outputs = Some (d', m', outs) /\
    ready d' m' /\
    live_blocks m' = live_blocks m /\
    map (fmap length) outs = map (fmap length) outputs.
Proof.
  intros Htab Hready Hn Hli Hlo Hin Hout.
  unfold on_filter_process.
  set (n_samples := to_int (clock_duration pos)) in *.
  set (rate := to_int (clock_rate_denom pos)).
  assert (Hsel : exists (d1 : data F) (m1 : memory F),
             (if (0 <? rate) && negb (rate =? current_rate d)
              then select_filter_for_rate d rate m else Some (d, m)) = Some (d1, m1) /\
             ready d1 m1 /\ live_blocks m1 = live_blocks m).
  { destruct ((0 <? rate) && negb (rate =? current_rate d)).
    - destruct (select_filter_for_rate_ready d rate m Htab Hready)
        as (d1 & m1 & Hs & Hr & _ & Hsz & _).
      exists d1, m1. split; [exact Hs|]. split; assumption.
    - exists d, m. split; [reflexivity|]. split; [exact Hready|reflexivity]. }
  destruct Hsel as (d1 & m1 & -> & Hready1 & Hsz1). cbn [mbind option_bind].
  rewrite (take_ge inputs), (take_ge outputs) by lia.
  destruct (forallb (fun b : option (list F) => bool_decide (is_Some b))
              (inputs ++ outputs)) eqn:Hvalid.
  - rewrite forallb_app in Hvalid. apply andb_prop in Hvalid as [Hvi Hvo].
    destruct Hready1 as (Hlen1 & Hdls1 & tl & Hall1 & Hnd1).
    destruct (process_channels_ready m1 n_samples Htab Hn (channels d1) tl
                inputs outputs Hall1 Hdls1)
      as (chs & outs & Hp & Hall' & Hdls' & Hlen' & Hlens);
      [congruence|congruence|apply all_present; assumption
      |apply all_present; assumption|].
    rewrite Hp. cbn [mbind option_bind].
    exists (mk_data chs (current_rate d1)), m1, outs.
    split; [reflexivity|]. split; [|split; [exact Hsz1|exact Hlens]].
    split; [cbn [channels]; congruence|]. split; [exact Hdls'|].
    exists tl. split; assumption.
  - rewrite silence_all; [|unfold INT_MAX; lia|exact Hout].
    cbn [mbind option_bind]. eexists. eexists. eexists.
    split; [reflexivity|]. split; [exact Hready1|]. split; [exact Hsz1|].
    rewrite <- list_fmap_compose. apply list_fmap_ext. intros k [l|] Hk; [|reflexivity].
    cbn. f_equal. rewrite Forall_lookup in Hout.
    pose proof (Hout k (Some l) Hk l eq_refl) as Hroom.
    rewrite length_app, length_replicate, length_drop. lia.
Qed.
End Process.

Section MissingBuffer.
Context {F : Type} `{Arith F} `{Coefficients F}.

(** X15.  When one of the blocks of the channels is missing and the rate is
    the current one (or not positive), [on_filter_process] zeroes the first
    [n_samples] floats of every output block that is there and changes
    nothing else: no channel's delay line receives the input of this
    quantum, not even a channel whose own blocks are both there. *)
Theorem missing_buffer_skips_the_quantum (d : data F) (m : memory F)
    (pos : spa_io_position) (inputs outputs : list (option (list F))) :
  to_int (clock_rate_denom pos) <= 0 \/
    to_int (clock_rate_denom pos) = current_rate d ->
  None ∈ take NUM_CHANNELS inputs ++ take NUM_CHANNELS outputs ->
  0 <= to_int (clock_duration pos) ->
  Forall (has_room (to_int (clock_duration pos))) (take NUM_CHANNELS outputs) ->
  on_filter_process d m (Some pos) inputs outputs
  = Some (d, m,
          map (fmap (fun l => replicate (Z.to_nat (to_int (clock_duration pos))) fzero
                              ++ drop (Z.to_nat (to_int (clock_duration pos))) l))
              (take NUM_CHANNELS outputs)).
Proof.
  intros Hrate Hnone Hn Hroom. unfold on_filter_process.
  assert (Hsame : (0 <? to_int (clock_rate_denom pos))
                  && negb (to_int (clock_rate_denom pos) =? current_rate d) = false).
  { destruct Hrate as [Hle|Heq].
    - destruct (Z.ltb_spec 0 (to_int (clock_rate_denom pos))); [lia|reflexivity].
    - rewrite Heq, Z.eqb_refl. apply andb_false_r. }
  rewrite Hsame. cbn [mbind option_bind].
  assert (Hinvalid : forallb (fun b : option (list F) => bool_decide (is_Some b))
                       (take NUM_CHANNELS inputs ++ take NUM_CHANNELS outputs) = false).
  { apply not_true_is_false. intros Hall.
    rewrite forallb_forall in Hall.
    apply list_elem_of_In, Hall in Hnone.
    apply bool_decide_eq_true in Hnone as [x Hx]. discriminate Hx. }
  rewrite Hinvalid.
  rewrite silence_all; [reflexivity| |exact Hroom].
  pose proof (to_int_range (clock_duration pos)). lia.
Qed.
End MissingBuffer.

(** ** Successive callbacks *)

(** A value that fits [int] is not changed by the conversion. *)
Lemma to_int_small (z : Z) : 0 <= z <= INT_MAX -> to_int z = z.
Proof.
  unfold to_int, INT_MAX. intros Hz. rewrite Z.mod_small by lia. lia.
Qed.

Section CallbackRing.
Context {F : Type} `{Arith F} `{Coefficients F}.
Variables (f : fir_filter F) (sz beta cmax rate : Z) (m : memory F).
Hypothesis Horder : 1 <= order f <= Z.of_nat (length (coeffs f)).
Hypothesis Hint : 2 * order f <= INT_MAX.
Hypothesis Hsz : 4 * order f <= sz.
Hypothesis Hbeta : 0 <= beta.
Hypothesis Hfits : order f + cmax <= 2 * order f - beta.
Hypothesis Hrate : 0 < rate <= INT_MAX.
Hypothesis Hstep : forall (b xs : list F) (d : delay_line F),
  0 < Z.of_nat (length b) <= cmax ->
  size d = sz ->
  ring_invariant sz (order f * 2) beta xs (buffer d) (index d) ->
  exists d',
    delay_line_append_samples (Some f) (Some d) (Some b) (Z.of_nat (length b))
      = Some (Some d') /\
    size d' = sz /\
    ring_invariant sz (order f * 2) beta (xs ++ b) (buffer d') (index d').

(** One channel of the processing loop, on a delay line that holds the
    stream so far. *)
Lemma process_channel_ring (ch : channel F) (xs b out : list F) (n : Z) :
  channel_tracks m f sz beta ch xs ->
  Z.of_nat (length b) = n -> Z.of_nat (length out) = n ->
  1 <= n <= cmax ->
  exists ch',
    process_channel ch m (Some b) (Some out) n
    = Some (ch', Some (map (fun t => fir_response f (xs ++ b) (length xs + t))
                           (seq 0 (length b)))) /\
    channel_tracks m f sz beta ch' (xs ++ b).
Proof.
  intros (Hat & dl & Hdl & Hsize & Hinv) <- Hout Hb.
  destruct (Hstep b xs dl ltac:(lia) Hsize Hinv) as (d' & Hrun & Hsize' & Hinv').
  pose proof Hinv' as (Hlen & Hw & _ & _).
  unfold process_channel. rewrite Hat, Hdl. cbn [mbind option_bind].
  rewrite Hrun. cbn [mbind option_bind].
  rewrite fir_filter_apply_result by (unfold INT_MAX in *; lia).
  cbn [mbind option_bind]. eexists. split.
  - do 3 f_equal. rewrite Nat2Z.id.
    rewrite drop_ge by lia. rewrite app_nil_r.
    apply map_ext_in. intros i Hi. apply in_seq in Hi.
    rewrite scalar_sum_sigma. unfold fir_response.
    apply sigma_ext. intros j Hj. f_equal.
    unfold kernel_window. rewrite rd_drop.
    replace (Z.to_nat (index d' - order f - Z.of_nat (length b)) + (i + j))%nat
      with (Z.to_nat (index d' - (order f + Z.of_nat (length b) - Z.of_nat i - Z.of_nat j)))
      by lia.
    erewrite rd_lookup;
      [|apply (ring_lookup_back sz (order f * 2) beta (xs ++ b)); try assumption; lia].
    f_equal. rewrite length_app. lia.
  - split; [exact Hat|]. exists d'. split; [reflexivity|]. split; assumption.
Qed.

Lemma process_channels_ring (n : Z) :
  1 <= n <= cmax ->
  forall (chs : list (channel F)) (hs : list (list F))
         (inputs outputs : list (option (list F))),
    Forall2 (channel_tracks m f sz beta) chs hs ->
    length inputs = length chs -> length outputs = length chs ->
    Forall (fun b => exists l : list F, b = Some l /\ Z.of_nat (length l) = n) inputs ->
    Forall (fun b => exists l : list F, b = Some l /\ Z.of_nat (length l) = n) outputs ->
    exists (chs' : list (channel F)) (outs : list (option (list F)))
           (hs' : list (list F)),
      process_channels chs m inputs outputs n = Some (chs', outs) /\
      length chs' = length chs /\
      Forall2 (channel_tracks m f sz beta) chs' hs' /\
      forall (c : nat) (h : list F), hs !! c = Some h ->
        hs' !! c = Some (h ++ channel_block c inputs) /\
        channel_block c outs
        = map (fun t => fir_response f (h ++ channel_block c inputs) (length h + t))
              (seq 0 (length (channel_block c inputs))).
Proof.
  intros Hn.
  induction chs as [|ch chs IH]; intros hs inputs outputs Hall Hli Hlo Hin Hout.
  - inversion Hall; subst. exists [], [], [].
    split; [reflexivity|]. split; [reflexivity|]. split; [constructor|].
    intros c h Hc. discriminate Hc.
  - inversion Hall as [|? h0 ? hs0 Hhead Hrest]; subst.
    destruct inputs as [|inp inputs]; [discriminate Hli|].
    destruct outputs as [|out outputs]; [discriminate Hlo|].
    apply Forall_cons in Hin as [(b & -> & Hb) Hin'].
    apply Forall_cons in Hout as [(o & -> & Ho) Hout'].
    cbn [length] in Hli, Hlo.
    destruct (process_channel_ring ch h0 b o n Hhead Hb Ho Hn) as (ch' & Hp & Htr).
    destruct (IH hs0 inputs outputs Hrest ltac:(lia) ltac:(lia) Hin' Hout')
      as (chs' & outs & hs' & Hps & Hlen' & Hall' & Hstreams).
    cbn [process_channels]. rewrite Hp. cbn [mbind option_bind].
    rewrite Hps. cbn [mbind option_bind].
    eexists _, _, ((h0 ++ b) :: hs'). split; [reflexivity|].
    split; [cbn [length]; lia|].
    split; [constructor; assumption|].
    intros [|c] h Hc.
    + cbn in Hc. injection Hc as <-. unfold channel_block. cbn. split; reflexivity.
    + cbn in Hc. apply (Hstreams c h Hc).
Qed.

(** Successive calls at the recorded rate. *)
Lemma callbacks_ring (calls : list (call F)) :
  Forall (steady_call rate cmax) calls ->
  forall (d : data F) (hs : list (list F)),
    current_rate d = rate ->
    length (channels d) = NUM_CHANNELS ->
    Forall2 (channel_tracks m f sz beta) (channels d) hs ->
    exists (d' : data F) (outs : list (list (option (list F)))),
      callbacks d m calls = Some (d', m, outs) /\
      length outs = length calls /\
      forall (c : nat) (h : list F), hs !! c = Some h ->
        channel_stream c outs
        = map (fun t => fir_response f (h ++ channel_stream c (map inputs_of calls))
                                       (length h + t))
              (seq 0 (length (channel_stream c (map inputs_of calls)))).
Proof.
  induction 1 as [|[[pos inputs] outputs] calls Hcall _ IH]; intros d hs Hcur Hlen Hall.
  - exists d, []. split; [reflexivity|]. split; [reflexivity|].
    intros c h _. reflexivity.
  - destruct Hcall as (Hr & Hn & Hli & Hlo & Hblocks). cbn [fst snd] in *.
    apply Forall_app in Hblocks as [Hin Hout].
    destruct (process_channels_ring (clock_duration pos) Hn (channels d) hs
                inputs outputs Hall ltac:(congruence) ltac:(congruence) Hin Hout)
      as (chs' & outs & hs' & Hps & Hlen' & Hall' & Hstreams).
    assert (Hvalid : forallb (fun b : option (list F) => bool_decide (is_Some b))
                       (inputs ++ outputs) = true).
    { apply forallb_forall. intros b Hb. apply bool_decide_eq_true.
      apply list_elem_of_In in Hb.
      assert (Hex : exists l : list F,
                 b = Some l /\ Z.of_nat (length l) = clock_duration pos).
      { apply elem_of_app in Hb as [Hb|Hb];
          [rewrite Forall_forall in Hin; apply Hin
          |rewrite Forall_forall in Hout; apply Hout]; exact Hb. }
      destruct Hex as (l & -> & _). eexists. reflexivity. }
    assert (Hone : on_filter_process d m (Some pos) inputs outputs
                   = Some (mk_data chs' rate, m, outs)).
    { unfold on_filter_process.
      rewrite (to_int_small (clock_rate_denom pos)) by lia.
      rewrite (to_int_small (clock_duration pos))
        by (unfold INT_MAX in *; lia).
      rewrite Hr, Hcur, Z.eqb_refl, andb_false_r. cbn [mbind option_bind].
      rewrite (take_ge inputs), (take_ge outputs) by lia.
      rewrite Hvalid, Hps. cbn [mbind option_bind]. rewrite Hcur. reflexivity. }
    destruct (IH (mk_data chs' rate) hs') as (d' & later & Hrun & Hlater & Hrest).
    { reflexivity. }
    { cbn [channels]. congruence. }
    { exact Hall'. }
    exists d', (outs :: later). split.
    { cbn [callbacks]. rewrite Hone. cbn [mbind option_bind]. rewrite Hrun.
      reflexivity. }
    split; [cbn [length]; lia|].
    intros c h Hc. destruct (Hstreams c h Hc) as [Hc' Hblock].
    specialize (Hrest c _ Hc').
    unfold channel_stream in *. cbn [map concat]. unfold inputs_of at 1 3. cbn [fst snd].
    set (b := channel_block c inputs) in *.
    set (rest := concat (map (channel_block c) (map inputs_of calls))) in *.
    rewrite Hblock, Hrest, (length_app b), seq_app, map_app. f_equal.
    + apply map_ext_in. intros i Hi. apply in_seq in Hi.
      rewrite app_assoc. symmetry. apply fir_response_app; [exact Horder|].
      rewrite length_app. lia.
    + cbn [Nat.add].
      rewrite <- (map_seq_shift
                    (fun t => fir_response f (h ++ b ++ rest) (length h + t)) (length b)).
      apply map_ext. intros t.
      rewrite length_app, app_assoc. f_equal. lia.
Qed.
End CallbackRing.

Section Oracle.
Context {F : Type} `{Arith F} `{Coefficients F}.

Lemma take_add_all_true (b : nat) :
  forall (a : nat) (l : list bool),
    forallb (fun x : bool => x) (take (a + b) l) = true ->
    forallb (fun x : bool => x) (take a l) = true /\
    forallb (fun x : bool => x) (take b (drop a l)) = true.
Proof.
  induction a as [|a IH]; intros l Hl.
  - split; [reflexivity|]. rewrite drop_0. exact Hl.
  - destruct l as [|x l].
    + split; [reflexivity|]. destruct b; reflexivity.
    + cbn [Nat.add take forallb drop] in *.
      apply andb_prop in Hl as [Hx Hl]. destruct (IH l Hl) as [H1 H2].
      split; [rewrite Hx, H1; reflexivity|exact H2].
Qed.

(** A successful clone takes two answers of the allocator. *)
Lemma fir_filter_clone_oracle (p : option addr) (m m' : memory F) (a : addr) :
  fir_filter_clone p m = Some (Some a, m') -> oracle m' = drop 2 (oracle m).
Proof.
  unfold fir_filter_clone. destruct p as [src|]; [|discriminate].
  pose proof (malloc_cases SIZEOF_FIR_FILTER (OFilter 0 None 0) m) as [Ho1 _].
  destruct (malloc SIZEOF_FIR_FILTER (OFilter 0 None 0) m) as [[nf|] m1];
    [|discriminate].
  cbn [fst snd] in Ho1.
  destruct (deref m src) as [[l|r c o|lb ls li]|]; try discriminate.
  pose proof (malloc_cases (to_size_t (SIZEOF_FLOAT * o))
                (OFloats (replicate (Z.to_nat o) fzero)) m1) as [Ho2 _].
  destruct (malloc (to_size_t (SIZEOF_FLOAT * o))
              (OFloats (replicate (Z.to_nat o) fzero)) m1) as [[cc|] m2].
  - cbn [fst snd] in Ho2.
    destruct ((0 <? o) && (Z.of_nat (length (floats_at m c)) <? o)); [discriminate|].
    intros Heq. injection Heq as _ <-. cbn [oracle write_block].
    rewrite Ho2, Ho1, drop_drop. reflexivity.
  - destruct (free (Some (Dyn nf)) m2); discriminate.
Qed.

Lemma init_channel_oracle (ok : bool) (delay_size : Z) (m m' : memory F)
    (ch0 ch : channel F) :
  init_channel ok delay_size ch0 m = Some (0, ch, m') -> oracle m' = drop 2 (oracle m).
Proof.
  unfold init_channel.
  destruct (delay_line_init ok (to_size_t delay_size)); [|discriminate].
  destruct (fir_filter_clone (Some (StaticFilter 0)) m) as [[[a|] m1]|] eqn:Hclone;
    cbn [mbind option_bind]; try discriminate.
  intros Heq. injection Heq as _ <-. apply (fir_filter_clone_oracle _ _ _ _ Hclone).
Qed.

Lemma init_channels_oracle (delay_size : Z) (oks : list (bool * channel F)) :
  forall (done chs : list (channel F)) (m m' : memory F),
    init_channels oks delay_size done m = Some (0, chs, m') ->
    oracle m' = drop (2 * length oks) (oracle m).
Proof.
  induction oks as [|[ok ch0] oks IH]; intros done chs m m' Hrun.
  - cbn in Hrun. injection Hrun as _ <-. reflexivity.
  - cbn [init_channels] in Hrun.
    destruct (init_channel ok delay_size ch0 m) as [[[r ch] m1]|] eqn:Hch;
      cbn [mbind option_bind] in Hrun; [|discriminate].
    destruct (Z.eqb_spec r 0) as [->|Hr].
    + rewrite (IH _ _ _ _ Hrun), (init_channel_oracle _ _ _ _ _ _ Hch), drop_drop.
      f_equal. cbn [length]. lia.
    + destruct (release_channels done m1); cbn [mbind option_bind] in Hrun;
        discriminate.
Qed.

Lemma init_fir_filters_oracle (allocs : list bool) (d0 d : data F) (m m' : memory F) :
  init_fir_filters allocs d0 m = Some (0, d, m') ->
  oracle m' = drop (2 * NUM_CHANNELS) (oracle m).
Proof.
  unfold init_fir_filters.
  destruct (init_channels _ _ _ _) as [[[r chs] m1]|] eqn:Hrun;
    cbn [mbind option_bind]; [|discriminate].
  destruct (Z.eqb_spec r 0) as [->|Hr]; [|discriminate].
  intros Heq. injection Heq as _ <-.
  rewrite (init_channels_oracle _ _ _ _ _ _ Hrun), length_map, length_seq. reflexivity.
Qed.

(** The rates of the table are distinct: one entry is selected for a rate. *)
Lemma selected_unique (rate : Z) (i j : nat) :
  selected rate i -> selected rate j -> i = j.
Proof.
  unfold selected, no_entry_for.
  intros [[o Hi]|[Hno ->]] [[o' Hj]|[Hno' ->]].
  - do 6 (destruct i as [|i];
          [cbn in Hi; injection Hi as <- <-;
           do 6 (destruct j as [|j]; [cbn in Hj; try discriminate Hj; reflexivity|]);
           cbn in Hj; discriminate Hj|]).
    cbn in Hi. discriminate Hi.
  - exfalso. apply (Hno' i rate o Hi). reflexivity.
  - exfalso. apply (Hno j rate o' Hj). reflexivity.
  - reflexivity.
Qed.
End Oracle.

Section Streams.
Context {F : Type} `{Arith F} `{Coefficients F}.

(** The call after which the rate of the position is the recorded one goes
    on as a call from the state with the filters selected. *)
Lemma first_call_after_selection (d d1 : data F) (m m1 : memory F)
    (pos : spa_io_position) (inputs outputs : list (option (list F))) :
  (if (0 <? to_int (clock_rate_denom pos))
      && negb (to_int (clock_rate_denom pos) =? current_rate d)
   then select_filter_for_rate d (to_int (clock_rate_denom pos)) m
   else Some (d, m)) = Some (d1, m1) ->
  current_rate d1 = to_int (clock_rate_denom pos) ->
  on_filter_process d m (Some pos) inputs outputs
  = on_filter_process d1 m1 (Some pos) inputs outputs.
Proof.
  intros Hsel Hcur. unfold on_filter_process.
  rewrite Hsel, Hcur, Z.eqb_refl, andb_false_r. reflexivity.
Qed.

Lemma selection_after_init (d : data F) (m : memory F) (rate : Z) (i : nat)
    (f : fir_filter F) :
  table_arrays_cover_orders ->
  ready d m -> current_rate d = 44100 ->
  Forall (fun ch =>
            ch_delay_line ch = delay_line_init true (MAX_FILTER_ORDER * 4) /\
            exists f0 : fir_filter F,
              cloned_entry 0 = Some f0 /\
              filter_at m (current ch) = Some (Some f0)) (channels d) ->
  allocations_succeed (2 * NUM_CHANNELS) m ->
  0 < rate -> selected rate i -> cloned_entry i = Some f ->
  exists (d1 : data F) (m1 : memory F),
    (if (0 <? rate) && negb (rate =? current_rate d)
     then select_filter_for_rate d rate m else Some (d, m)) = Some (d1, m1) /\
    current_rate d1 = rate /\ length (channels d1) = NUM_CHANNELS /\
    Forall (fun ch =>
              ch_delay_line ch = delay_line_init true (MAX_FILTER_ORDER * 4) /\
              filter_at m1 (current ch) = Some (Some f)) (channels d1).
Proof.
  intros Htab Hready Hcur Hchs Halloc Hrate Hsel Hf.
  destruct (Z.eqb_spec rate (current_rate d)) as [Heq|Hne].
  - rewrite andb_false_r. exists d, m. split; [reflexivity|].
    split; [congruence|]. split; [apply Hready|].
    assert (Hi : i = 0%nat).
    { apply (selected_unique rate); [exact Hsel|].
      left. exists 4095. rewrite Heq, Hcur. reflexivity. }
    subst i. apply (Forall_impl _ _ _ Hchs).
    intros ch (Hdl & f0 & Hf0 & Hat). split; [exact Hdl|]. congruence.
  - destruct (Z.ltb_spec 0 rate) as [_|]; [|lia]. cbn [andb negb].
    destruct (select_filter_for_rate_ready d rate m Htab Hready)
      as (d1 & m1 & Hs & Hready1 & Hmap & _ & _ & Hok).
    destruct (Hok Halloc) as [Hcur1 Hfilters].
    exists d1, m1. split; [exact Hs|]. split; [exact Hcur1|].
    split; [apply Hready1|].
    apply Forall_and. split.
    + assert (Hlines : Forall (fun o => o = delay_line_init true (MAX_FILTER_ORDER * 4))
                         (map ch_delay_line (channels d1))).
      { rewrite Hmap. apply Forall_fmap. apply (Forall_impl _ _ _ Hchs).
        intros ch [Hdl _]. exact Hdl. }
      apply Forall_fmap in Hlines. exact Hlines.
    + apply (Forall_impl _ _ _ Hfilters).
      intros ch (i' & f' & Hsel' & Hf' & Hat).
      rewrite (selected_unique rate i' i Hsel' Hsel) in Hf'. congruence.
Qed.

Lemma fresh_channel_tracks (m : memory F) (f : fir_filter F) (beta : Z)
    (ch : channel F) :
  1 <= order f -> 4 * order f <= MAX_FILTER_ORDER * 4 -> 0 <= beta ->
  ch_delay_line ch = delay_line_init true (MAX_FILTER_ORDER * 4) /\
  filter_at m (current ch) = Some (Some f) ->
  channel_tracks m f (MAX_FILTER_ORDER * 4) beta ch [].
Proof.
  intros Ho Hsz Hbeta [Hdl Hat].
  remember (MAX_FILTER_ORDER * 4) as sz eqn:Hval.
  assert (Hpos : 0 < sz) by (rewrite Hval; reflexivity). clear Hval.
  unfold delay_line_init in Hdl.
  destruct (Z.eqb_spec sz 0) as [Hz|_]; [lia|].
  split; [exact Hat|]. eexists. split; [exact Hdl|]. cbn [size buffer index].
  split; [reflexivity|]. apply ring_invariant_init; lia.
Qed.

Lemma all_track_silence (P : channel F -> list F -> Prop) (chs : list (channel F)) :
  Forall (fun ch => P ch []) chs -> Forall2 P chs (replicate (length chs) []).
Proof.
  induction 1 as [|ch chs Hch _ IH]; cbn [length replicate]; constructor; assumption.
Qed.

(** X19.  After a successful [init_fir_filters], successive calls of
    [on_filter_process] at one rate filter the stream of every channel with
    the table entry selected for that rate (the entry of the rate, or the
    last one when there is none): the output blocks of a channel, put end to
    end, are the response of that filter to the input blocks of the channel
    put end to end, [y[t] = sum over j < order of coeff[j] * x[t - order + j]]
    with silence before the stream.  This holds when every call has between
    1 and [cmax] samples and blocks of that length, with
    [2 * cmax <= order + 1] (2048 samples for the entries of order 4095), or
    with [cmax <= order] for the entries of the largest order, for which the
    delay line has exactly [4 * order] slots. *)
Theorem callbacks_filter_the_streams
    (allocs : list bool) (d0 : data F) (m0 : memory F)
    (rate cmax : Z) (i : nat) (f : fir_filter F) (calls : list (call F)) :
  table_arrays_cover_orders ->
  Forall (fun b : bool => b = true) allocs ->
  allocations_succeed (4 * NUM_CHANNELS) m0 ->
  0 < rate <= INT_MAX ->
  selected rate i -> cloned_entry i = Some f ->
  1 <= cmax ->
  2 * cmax <= order f + 1 \/ (order f = MAX_FILTER_ORDER /\ cmax <= order f) ->
  Forall (steady_call rate cmax) calls ->
  exists (d d' : data F) (m m' : memory F) (outs : list (list (option (list F)))),
    init_fir_filters allocs d0 m0 = Some (0, d, m) /\
    callbacks d m calls = Some (d', m', outs) /\
    length outs = length calls /\
    forall c : nat, (c < NUM_CHANNELS)%nat ->
      channel_stream c outs
      = map (fir_response f (channel_stream c (map inputs_of calls)))
            (seq 0 (length (channel_stream c (map inputs_of calls)))).
Proof.
  intros Htab Htrue Halloc Hrate Hsel Hf Hcmax Hregime Hcalls.
  change (4 * NUM_CHANNELS)%nat with (2 * NUM_CHANNELS + 2 * NUM_CHANNELS)%nat in Halloc.
  apply take_add_all_true in Halloc as [Halloc0 Halloc1].
  destruct (init_fir_filters_spec allocs d0 m0 Htab) as (r & d & m & Hinit & Hres & Hok).
  rewrite (Hok Htrue Halloc0) in *.
  destruct Hres as [(_ & Hcur & Hready & Hchs & _)|(Hr & _)]; [|discriminate Hr].
  assert (Halloc' : allocations_succeed (2 * NUM_CHANNELS) m).
  { unfold allocations_succeed. rewrite (init_fir_filters_oracle _ _ _ _ _ Hinit).
    exact Halloc1. }
  destruct calls as [|[[pos inputs] outputs] calls].
  { exists d, d, m, m, []. split; [exact Hinit|]. split; [reflexivity|].
    split; [reflexivity|]. intros c _. reflexivity. }
  destruct (selection_after_init d m rate i f Htab Hready Hcur Hchs Halloc'
              ltac:(lia) Hsel Hf) as (d1 & m1 & Hs & Hcur1 & Hlen1 & Hchs1).
  destruct (cloned_entry_shape i f Htab Hf) as [Ho Hlen].
  assert (Hpos : to_int (clock_rate_denom pos) = rate).
  { inversion Hcalls as [|? ? (Hr & _) _]; subst. cbn [fst] in Hr.
    rewrite Hr. apply to_int_small. lia. }
  assert (Hfirst : callbacks d m ((pos, inputs, outputs) :: calls)
                   = callbacks d1 m1 ((pos, inputs, outputs) :: calls)).
  { cbn [callbacks].
    rewrite (first_call_after_selection d d1 m m1 pos inputs outputs);
      [reflexivity|rewrite Hpos; exact Hs|congruence]. }
  assert (Hrun : forall beta : Z,
             0 <= beta -> order f + cmax <= 2 * order f - beta ->
             (forall (b xs : list F) (dl : delay_line F),
                0 < Z.of_nat (length b) <= cmax ->
                size dl = MAX_FILTER_ORDER * 4 ->
                ring_invariant (MAX_FILTER_ORDER * 4) (order f * 2) beta xs
                               (buffer dl) (index dl) ->
                exists d',
                  delay_line_append_samples (Some f) (Some dl) (Some b)
                    (Z.of_nat (length b)) = Some (Some d') /\
                  size d' = MAX_FILTER_ORDER * 4 /\
                  ring_invariant (MAX_FILTER_ORDER * 4) (order f * 2) beta (xs ++ b)
                                 (buffer d') (index d')) ->
             exists (d' : data F) (outs : list (list (option (list F)))),
               callbacks d1 m1 ((pos, inputs, outputs) :: calls) = Some (d', m1, outs) /\
               length outs = length ((pos, inputs, outputs) :: calls) /\
               forall c : nat, (c < NUM_CHANNELS)%nat ->
                 channel_stream c outs
                 = map (fir_response f
                          (channel_stream c (map inputs_of ((pos, inputs, outputs) :: calls))))
                       (seq 0 (length (channel_stream c
                                 (map inputs_of ((pos, inputs, outputs) :: calls)))))).
  { intros beta Hbeta Hfits Hstep.
    destruct (callbacks_ring f (MAX_FILTER_ORDER * 4) beta cmax rate m1
                ltac:(lia) ltac:(unfold INT_MAX, MAX_FILTER_ORDER in *; lia)
                ltac:(unfold MAX_FILTER_ORDER in *; lia) Hbeta Hfits Hrate Hstep
                _ Hcalls d1 (replicate (length (channels d1)) []) Hcur1 Hlen1)
      as (d' & outs & Hcb & Hlo & Hstreams).
    { apply all_track_silence. apply (Forall_impl _ _ _ Hchs1). intros ch Hch.
      apply fresh_channel_tracks; [lia|unfold MAX_FILTER_ORDER in *; lia|exact Hbeta|exact Hch]. }
    exists d', outs. split; [exact Hcb|]. split; [exact Hlo|].
    intros c Hc. apply (Hstreams c []). apply lookup_replicate_2. lia. }
  assert (Hint : 2 * order f <= INT_MAX)
    by (unfold INT_MAX, MAX_FILTER_ORDER in *; lia).
  destruct Hregime as [Hsmall|[Hmax Hle]].
  - destruct (Hrun (cmax - 1) ltac:(lia) ltac:(lia)) as (d' & outs & Hcb & Hlo & Hst).
    { intros b xs dl Hb Hsize Hinv. apply single_batch_step.
      apply (append_batches_ring f (MAX_FILTER_ORDER * 4) (cmax - 1) [b]);
        try assumption; try (unfold MAX_FILTER_ORDER in *; lia).
      constructor; [lia|constructor]. }
    exists d, d', m, m1, outs. split; [exact Hinit|].
    split; [exact (eq_trans Hfirst Hcb)|]. split; [exact Hlo|exact Hst].
  - destruct (Hrun 0 ltac:(lia) ltac:(lia)) as (d' & outs & Hcb & Hlo & Hst).
    { intros b xs dl Hb Hsize Hinv. apply single_batch_step.
      apply (append_batches_ring_exact f (MAX_FILTER_ORDER * 4) [b]);
        try assumption; try (unfold MAX_FILTER_ORDER in *; lia).
      constructor; [lia|constructor]. }
    exists d, d', m, m1, outs. split; [exact Hinit|].
    split; [exact (eq_trans Hfirst Hcb)|]. split; [exact Hlo|exact Hst].
Qed.

(** X18.  The bound of 8190 samples cannot be raised.  Right after a
    successful [init_fir_filters], a call of [on_filter_process] at 44100 Hz
    with 8191 samples or more (at most as many as the delay line has slots),
    with every block there and large enough, is undefined: the convolution
    of the first channel reads before the start of its delay line. *)
Theorem first_quantum_above_bound_is_undefined
    (allocs : list bool) (d0 : data F) (m0 : memory F) (pos : spa_io_position)
    (inputs outputs : list (option (list F))) :
  table_arrays_cover_orders ->
  Forall (fun b : bool => b = true) allocs ->
  allocations_succeed (2 * NUM_CHANNELS) m0 ->
  clock_rate_denom pos = 44100 ->
  8191 <= clock_duration pos <= MAX_FILTER_ORDER * 4 ->
  length inputs = NUM_CHANNELS -> length outputs = NUM_CHANNELS ->
  Forall (block_for (clock_duration pos)) inputs ->
  Forall (block_for (clock_duration pos)) outputs ->
  exists (d : data F) (m : memory F),
    init_fir_filters allocs d0 m0 = Some (0, d, m) /\
    on_filter_process d m (Some pos) inputs outputs = None.
Proof.
  intros Htab Htrue Halloc Hr Hn Hli Hlo Hin Hout.
  destruct (init_fir_filters_spec allocs d0 m0 Htab) as (r & d & m & Hinit & Hres & Hok).
  rewrite (Hok Htrue Halloc) in *.
  destruct Hres as [(_ & Hcur & Hready & Hchs & _)|(Hr0 & _)]; [|discriminate Hr0].
  exists d, m. split; [exact Hinit|].
  destruct Hready as (Hlen & _).
  destruct (channels d) as [|ch chs] eqn:Hchannels; [discriminate Hlen|].
  destruct inputs as [|inp inputs]; [discriminate Hli|].
  destruct outputs as [|out outputs]; [discriminate Hlo|].
  apply Forall_cons in Hchs as [(Hdl & f0 & Hf0 & Hat) _].
  pose proof Hin as Hin0. pose proof Hout as Hout0.
  apply Forall_cons in Hin0 as [(b & -> & Hb) _].
  apply Forall_cons in Hout0 as [(o & -> & Hob) _].
  assert (Hvalid : forallb (fun b : option (list F) => bool_decide (is_Some b))
                     (take NUM_CHANNELS (Some b :: inputs)
                      ++ take NUM_CHANNELS (Some o :: outputs)) = true).
  { rewrite !take_ge by lia. apply forallb_forall. intros x Hx.
    apply bool_decide_eq_true. apply list_elem_of_In in Hx.
    assert (Hex : block_for (clock_duration pos) x).
    { apply elem_of_app in Hx as [Hx|Hx];
        [rewrite Forall_forall in Hin; apply Hin
        |rewrite Forall_forall in Hout; apply Hout]; exact Hx. }
    destruct Hex as (l & -> & _). eexists. reflexivity. }
  assert (Hord : order f0 = 4095).
  { unfold cloned_entry in Hf0. cbn [FIR_FILTERS_fields lookup list_lookup] in Hf0.
    cbn [mbind option_bind] in Hf0.
    destruct (FIR_COEFF 0) as [l|]; [|discriminate Hf0].
    cbn [mbind option_bind] in Hf0. injection Hf0 as <-. reflexivity. }
  unfold on_filter_process.
  rewrite (to_int_small (clock_rate_denom pos)) by (unfold INT_MAX; lia).
  rewrite (to_int_small (clock_duration pos))
    by (unfold INT_MAX, MAX_FILTER_ORDER in *; lia).
  rewrite Hr, Hcur. cbn [Z.eqb Z.ltb Z.compare Pos.compare Pos.compare_cont Pos.eqb
                          negb andb mbind option_bind].
  rewrite Hvalid, Hchannels. cbn [process_channels].
  assert (Hch : process_channel ch m (Some b) (Some o) (clock_duration pos) = None).
  { unfold process_channel. rewrite Hat, Hdl. cbn [mbind option_bind].
    set (blk := take (Z.to_nat (clock_duration pos)) b).
    assert (Hblk : Z.of_nat (length blk) = clock_duration pos)
      by (unfold blk; rewrite length_take; lia).
    remember (MAX_FILTER_ORDER * 4) as sz eqn:Hval.
    assert (Hsz : sz = 65532) by (rewrite Hval; reflexivity). clear Hval.
    destruct (append_overlong f0 sz blk) as (buf' & Happ & Hlen');
      [lia|unfold INT_MAX; lia|lia|lia|].
    unfold delay_line_init. destruct (Z.eqb_spec sz 0) as [Hz|_]; [lia|].
    rewrite append_samples_take by lia. fold blk.
    rewrite Happ. cbn [mbind option_bind].
    unfold fir_filter_apply. cbn [index buffer].
    destruct (Z.leb_spec (clock_duration pos) 0); [lia|].
    destruct (Z.leb_spec 0 (Z.of_nat (length blk) - 1 - order f0 - clock_duration pos));
      [lia|reflexivity]. }
  rewrite Hch. reflexivity.
Qed.
End Streams.

(** ** A swap between filters of one order *)

Section SwapHistory.
Context {F : Type} `{Arith F} `{Coefficients F}.



End SwapHistory.

(** ** The format callback *)

Section ParamChangedFacts.
Context {F : Type} `{Arith F} `{Coefficients F}.

(** X16.  [on_filter_param_changed] changes nothing for the null parameter
    and for a parameter it does not accept.  From a ready state, for a
    format it accepts it selects the filters for the rate of the format,
    even when that is the current rate: the state is ready again with the
    delay lines as they were and as many live blocks, and when the
    allocations succeed the rate of the format is recorded and every channel
    has a new clone of the entry selected for it. *)
Theorem on_filter_param_changed_reselects (d : data F) (m : memory F)
    (p : format_param) :
  table_arrays_cover_orders ->
  ready d m ->
  accepted_format p ->
  on_filter_param_changed d m None = Some (d, m) /\
  (forall q : format_param, ~ accepted_format q ->
     on_filter_param_changed d m (Some q) = Some (d, m)) /\
  exists (d' : data F) (m' : memory F),
    on_filter_param_changed d m (Some p) = Some (d', m') /\
    ready d' m' /\
    map ch_delay_line (channels d') = map ch_delay_line (channels d) /\
    live_blocks m' = live_blocks m /\
    (allocations_succeed (2 * NUM_CHANNELS) m ->
       current_rate d' = to_int (raw_rate p) /\
       Forall (fun ch => exists (i : nat) (f : fir_filter F),
                 selected (to_int (raw_rate p)) i /\ cloned_entry i = Some f /\
                 filter_at m' (current ch) = Some (Some f)) (channels d')).
Proof.
  intros Htab Hready (H1 & H2 & H3 & H4). split; [reflexivity|]. split.
  - intros q Hrej. unfold on_filter_param_changed.
    destruct (id_is_format q) eqn:Q1; [|reflexivity].
    destruct (Z.ltb_spec (format_parse q) 0) as [|Q2]; [reflexivity|].
    destruct (media_is_raw_audio q) eqn:Q3; [|reflexivity].
    destruct (Z.ltb_spec (raw_parse q) 0) as [|Q4]; [reflexivity|].
    exfalso. apply Hrej. split; [exact Q1|]. split; [exact Q2|].
    split; [exact Q3|exact Q4].
  - destruct (select_filter_for_rate_ready d (to_int (raw_rate p)) m Htab Hready)
      as (d1 & m1 & Hsel & Hr1 & Hmap1 & Hsz1 & _ & Hok).
    exists d1, m1. split.
    { unfold on_filter_param_changed. rewrite H1, H3.
      destruct (Z.ltb_spec (format_parse p) 0); [lia|].
      destruct (Z.ltb_spec (raw_parse p) 0); [lia|]. exact Hsel. }
    split; [exact Hr1|]. split; [exact Hmap1|]. split; [exact Hsz1|exact Hok].
Qed.
End ParamChangedFacts.

(** ** The properties of the program state on concrete states *)

Lemma started_ready :
  exists (d : data Binary32.t) (m : memory Binary32.t),
    started = Some (0, d, m) /\ ready d m /\ current_rate d = 44100.
Proof.
  destruct (init_fir_filters_spec [] (mk_data [] 0) empty_memory flat_arrays_cover_orders)
    as (r & d & m & Hinit & Hres & Hok).
  rewrite (Hok ltac:(constructor) ltac:(reflexivity)) in *.
  destruct Hres as [(_ & Hrate & Hready & _)|(Hr & _)]; [|discriminate Hr].
  exists d, m. split; [exact Hinit|]. split; assumption.
Qed.

Lemma ready_same_heap {F : Type} `{Arith F} `{Coefficients F}
    (d : data F) (m m' : memory F) :
  heap m' = heap m -> ready d m -> ready d m'.
Proof.
  intros Hh (Hlen & Hdls & tl & Hall & Hnd).
  split; [exact Hlen|]. split; [exact Hdls|]. exists tl. split; [|exact Hnd].
  apply (holds_entries_transfer m m' _ _ Hall). intros b _. rewrite Hh. reflexivity.
Qed.

Lemma quantum_is_defined_witness :
  exists (d' : delay_line Binary32.t) (out : list Binary32.t),
    quantum Scenario.filter Scenario.after_impulse [Binary32.zero] = Some (d', out) /\
    cursor_in_range 3 d' /\ size d' = size Scenario.after_impulse /\
    length out = length [Binary32.zero].
Proof.
  apply (quantum_is_defined 3 Scenario.filter Scenario.after_impulse [Binary32.zero]).
  - unfold cursor_in_range. cbn. lia.
  - cbn. lia.
  - cbn. lia.
  - unfold INT_MAX. lia.
  - cbn. lia.
  - cbn. lia.
Defined.

Lemma quanta_filter_the_stream_witness :
  exists (d0 d : delay_line Binary32.t) (outs : list (list Binary32.t)),
    delay_line_init true 12 = Some d0 /\
    quanta Scenario.filter d0 Scenario.blocks = Some (d, outs) /\
    map length outs = map length Scenario.blocks /\
    concat outs
    = map (fir_response Scenario.filter (concat Scenario.blocks))
          (seq 0 (length (concat Scenario.blocks))).
Proof.
  apply (quanta_filter_the_stream Scenario.filter 12 1 Scenario.blocks).
  - cbn. lia.
  - cbn. unfold INT_MAX. lia.
  - repeat constructor.
  - left. split; [reflexivity|]. repeat constructor; cbn; lia.
Defined.

Lemma append_is_chunking_invariant_witness :
  exists d' : delay_line Binary32.t,
    append_batches Scenario.filter Scenario.after_impulse
      [[Binary32.one; Binary32.zero]; [Binary32.one]] = Some d' /\
    delay_line_append_samples (Some Scenario.filter) (Some Scenario.after_impulse)
      (Some (concat [[Binary32.one; Binary32.zero]; [Binary32.one]]))
      (Z.of_nat (length (concat [[Binary32.one; Binary32.zero]; [Binary32.one]])))
    = Some (Some d') /\
    Z.of_nat (length (buffer d')) = size d' /\
    size d' = size Scenario.after_impulse /\
    size Scenario.after_impulse - 2 * order Scenario.filter <= index d'
      < size Scenario.after_impulse.
Proof.
  apply (append_is_chunking_invariant Scenario.filter Scenario.after_impulse
           [[Binary32.one; Binary32.zero]; [Binary32.one]]).
  - cbn. lia.
  - cbn. unfold INT_MAX. lia.
  - reflexivity.
  - reflexivity.
  - cbn. lia.
  - repeat constructor.
  - vm_compute. discriminate.
Defined.

Lemma fir_filter_clone_failure_is_clean_witness :
  exists m' : memory Binary32.t,
    fir_filter_clone (Some (Dyn 0))
      (mk_memory (heap Scenario.heap_with_filter) [true; false]) = Some (None, m') /\
    heap m' = heap Scenario.heap_with_filter.
Proof.
  apply (fir_filter_clone_failure_is_clean
           (mk_memory (heap Scenario.heap_with_filter) [true; false]) (Dyn 0)
           48000 3 (Some (Dyn 1))).
  - reflexivity.
  - right. left. exists []. reflexivity.
Defined.

Lemma select_filter_for_rate_keeps_ready_witness :
  exists (d : data Binary32.t) (m : memory Binary32.t),
    started = Some (0, d, m) /\
    exists (d' : data Binary32.t) (m' : memory Binary32.t),
      select_filter_for_rate d 48000 m = Some (d', m') /\
      ready d' m' /\
      map ch_delay_line (channels d') = map ch_delay_line (channels d) /\
      live_blocks m' = live_blocks m /\
      (current_rate d' = 48000 \/ current_rate d' = fallback_rate).
Proof.
  destruct started_ready as (d & m & Hs & Hready & _).
  exists d, m. split; [exact Hs|].
  apply (select_filter_for_rate_keeps_ready d 48000 m).
  - exact flat_arrays_cover_orders.
  - exact Hready.
Defined.

Lemma select_filter_for_rate_installs_selected_witness :
  exists (d : data Binary32.t) (m : memory Binary32.t),
    started = Some (0, d, m) /\
    exists (d' : data Binary32.t) (m' : memory Binary32.t),
      select_filter_for_rate d 22050 (mk_memory (heap m) []) = Some (d', m') /\
      current_rate d' = 22050 /\
      Forall (fun ch => exists (i : nat) (f : fir_filter Binary32.t),
                selected 22050 i /\ cloned_entry i = Some f /\
                filter_at m' (current ch) = Some (Some f)) (channels d').
Proof.
  destruct started_ready as (d & m & Hs & Hready & _).
  exists d, m. split; [exact Hs|].
  apply (select_filter_for_rate_installs_selected d 22050 (mk_memory (heap m) [])).
  - exact flat_arrays_cover_orders.
  - apply (ready_same_heap d m); [reflexivity|exact Hready].
  - reflexivity.
Defined.

Lemma select_filter_for_rate_when_exhausted_witness :
  exists m' : memory Binary32.t,
    select_filter_for_rate (mk_data [Scenario.a_channel] 48000) 44100 starved_memory
      = Some (mk_data [Scenario.a_channel] fallback_rate, m') /\
    heap m' = heap starved_memory.
Proof.
  apply (select_filter_for_rate_when_exhausted
           (mk_data [Scenario.a_channel] 48000) 44100 starved_memory 4
           Scenario.a_channel (mk_fir_filter 48000 Scenario.taps 3)).
  - reflexivity.
  - reflexivity.
  - reflexivity.
  - cbn. lia.
Defined.

Lemma on_filter_process_is_safe_witness :
  exists (d : data Binary32.t) (m : memory Binary32.t),
    started = Some (0, d, m) /\
    exists (d' : data Binary32.t) (m' : memory Binary32.t)
           (outs : list (option (list Binary32.t))),
      on_filter_process d m (Some (mk_position 2 48000))
        [Some [Binary32.one; Binary32.zero]; Some [Binary32.zero; Binary32.one]]
        [Some [Binary32.zero; Binary32.zero]; Some [Binary32.zero; Binary32.zero]]
      = Some (d', m', outs) /\
      ready d' m' /\
      live_blocks m' = live_blocks m /\
      map (fmap length) outs
      = map (fmap length)
          [Some [Binary32.zero; Binary32.zero]; Some [Binary32.zero; Binary32.zero]].
Proof.
  destruct started_ready as (d & m & Hs & Hready & _).
  exists d, m. split; [exact Hs|].
  apply (on_filter_process_is_safe d m (mk_position 2 48000)).
  - exact flat_arrays_cover_orders.
  - exact Hready.
  - vm_compute. split; discriminate.
  - reflexivity.
  - reflexivity.
  - repeat constructor; intros l Hl; injection Hl as <-; vm_compute; discriminate.
  - repeat constructor; intros l Hl; injection Hl as <-; vm_compute; discriminate.
Defined.

Lemma missing_buffer_skips_the_quantum_witness :
  on_filter_process (mk_data [Scenario.a_channel; Scenario.a_channel] 48000)
    Scenario.heap_with_filter (Some (mk_position 2 48000))
    [Some [Binary32.one; Binary32.one]; None]
    [Some [Binary32.one; Binary32.one; Binary32.one]; None]
  = Some (mk_data [Scenario.a_channel; Scenario.a_channel] 48000,
          Scenario.heap_with_filter,
          map (fmap (fun l => replicate (Z.to_nat (to_int 2)) Binary32.zero
                              ++ drop (Z.to_nat (to_int 2)) l))
              (take NUM_CHANNELS
                 [Some [Binary32.one; Binary32.one; Binary32.one]; None])).
Proof.
  refine (missing_buffer_skips_the_quantum
            (mk_data [Scenario.a_channel; Scenario.a_channel] 48000)
            Scenario.heap_with_filter (mk_position 2 48000)
            [Some [Binary32.one; Binary32.one]; None]
            [Some [Binary32.one; Binary32.one; Binary32.one]; None] _ _ _ _).
  - right. reflexivity.
  - apply list_elem_of_In. cbn. right. left. reflexivity.
  - vm_compute. discriminate.
  - repeat constructor; intros l Hl; try discriminate Hl;
      injection Hl as <-; vm_compute; discriminate.
Defined.

Lemma on_filter_param_changed_reselects_witness :
  exists (d : data Binary32.t) (m : memory Binary32.t),
    started = Some (0, d, m) /\
    on_filter_param_changed d m None = Some (d, m) /\
    (forall q : format_param, ~ accepted_format q ->
       on_filter_param_changed d m (Some q) = Some (d, m)) /\
    exists (d' : data Binary32.t) (m' : memory Binary32.t),
      on_filter_param_changed d m (Some (mk_format_param true 0 true 0 96000))
      = Some (d', m') /\
      ready d' m' /\
      map ch_delay_line (channels d') = map ch_delay_line (channels d) /\
      live_blocks m' = live_blocks m /\
      (allocations_succeed (2 * NUM_CHANNELS) m ->
         current_rate d' = to_int (raw_rate (mk_format_param true 0 true 0 96000)) /\
         Forall (fun ch => exists (i : nat) (f : fir_filter Binary32.t),
                   selected (to_int (raw_rate (mk_format_param true 0 true 0 96000))) i /\
                   cloned_entry i = Some f /\
                   filter_at m' (current ch) = Some (Some f)) (channels d')).
Proof.
  destruct started_ready as (d & m & Hs & Hready & _).
  exists d, m. split; [exact Hs|].
  apply (on_filter_param_changed_reselects d m (mk_format_param true 0 true 0 96000)).
  - exact flat_arrays_cover_orders.
  - exact Hready.
  - unfold accepted_format. cbn. split; [reflexivity|]. split; [lia|].
    split; [reflexivity|lia].
Defined.

Lemma overlong_first_quantum_is_undefined_witness :
  exists d0 d1 : delay_line Binary32.t,
    delay_line_init true 12 = Some d0 /\
    delay_line_append_samples (Some Scenario.filter) (Some d0)
      (Some (replicate 7 Binary32.one))
      (Z.of_nat (length (replicate 7 Binary32.one))) = Some (Some d1) /\
    index d1 = Z.of_nat (length (replicate 7 Binary32.one)) - 1 /\
    index d1 - order Scenario.filter - Z.of_nat (length (replicate 7 Binary32.one)) < 0 /\
    fir_filter_apply (Some Scenario.filter) (Some d1)
      (Z.of_nat (length (replicate 7 Binary32.one)))
      (Some (replicate 7 Binary32.zero)) = None.
Proof.
  apply (overlong_first_quantum_is_undefined Scenario.filter 12
           (replicate 7 Binary32.one) (replicate 7 Binary32.zero)).
  - cbn. lia.
  - cbn. unfold INT_MAX. lia.
  - cbn. lia.
  - cbn. lia.
Defined.

Lemma first_quantum_above_bound_is_undefined_witness :
  exists (d : data Binary32.t) (m : memory Binary32.t),
    init_fir_filters [] (mk_data [] 0) empty_memory = Some (0, d, m) /\
    on_filter_process d m (Some (mk_position 8192 44100))
      [Some (replicate (Z.to_nat 8192) Binary32.one);
       Some (replicate (Z.to_nat 8192) Binary32.one)]
      [Some (replicate (Z.to_nat 8192) Binary32.zero);
       Some (replicate (Z.to_nat 8192) Binary32.zero)] = None.
Proof.
  apply (first_quantum_above_bound_is_undefined [] (mk_data [] 0) empty_memory
           (mk_position 8192 44100)).
  - exact flat_arrays_cover_orders.
  - constructor.
  - reflexivity.
  - reflexivity.
  - cbn [clock_duration]. unfold MAX_FILTER_ORDER. lia.
  - reflexivity.
  - reflexivity.
  - repeat constructor; eexists; (split; [reflexivity|]);
      rewrite length_replicate; cbn [clock_duration]; lia.
  - repeat constructor; eexists; (split; [reflexivity|]);
      rewrite length_replicate; cbn [clock_duration]; lia.
Defined.

Lemma callbacks_filter_the_streams_witness :
  exists (d d' : data Binary32.t) (m m' : memory Binary32.t)
         (outs : list (list (option (list Binary32.t)))),
    init_fir_filters [] (mk_data [] 0) empty_memory = Some (0, d, m) /\
    callbacks d m
      [(mk_position 2 48000,
        [Some [Binary32.one; Binary32.zero]; Some [Binary32.zero; Binary32.one]],
        [Some [Binary32.zero; Binary32.zero]; Some [Binary32.zero; Binary32.zero]]);
       (mk_position 1 48000,
        [Some [Binary32.one]; Some [Binary32.one]],
        [Some [Binary32.zero]; Some [Binary32.zero]])]
    = Some (d', m', outs) /\
    length outs
    = length
        [(mk_position 2 48000,
          [Some [Binary32.one; Binary32.zero]; Some [Binary32.zero; Binary32.one]],
          [Some [Binary32.zero; Binary32.zero]; Some [Binary32.zero; Binary32.zero]]);
         (mk_position 1 48000,
          [Some [Binary32.one]; Some [Binary32.one]],
          [Some [Binary32.zero]; Some [Binary32.zero]])] /\
    forall c : nat, (c < NUM_CHANNELS)%nat ->
      channel_stream c outs
      = map (fir_response
               (mk_fir_filter 48000 (take (Z.to_nat 4095) FIR_COEFF_48000) 4095)
               (channel_stream c
                  (map inputs_of
                     [(mk_position 2 48000,
                       [Some [Binary32.one; Binary32.zero];
                        Some [Binary32.zero; Binary32.one]],
                       [Some [Binary32.zero; Binary32.zero];
                        Some [Binary32.zero; Binary32.zero]]);
                      (mk_position 1 48000,
                       [Some [Binary32.one]; Some [Binary32.one]],
                       [Some [Binary32.zero]; Some [Binary32.zero]])])))
            (seq 0 (length
                      (channel_stream c
                         (map inputs_of
                            [(mk_position 2 48000,
                              [Some [Binary32.one; Binary32.zero];
                               Some [Binary32.zero; Binary32.one]],
                              [Some [Binary32.zero; Binary32.zero];
                               Some [Binary32.zero; Binary32.zero]]);
                             (mk_position 1 48000,
                              [Some [Binary32.one]; Some [Binary32.one]],
                              [Some [Binary32.zero]; Some [Binary32.zero]])])))).
Proof.
  apply (callbacks_filter_the_streams [] (mk_data [] 0) empty_memory 48000 2048 3
           (mk_fir_filter 48000 (take (Z.to_nat 4095) FIR_COEFF_48000) 4095)).
  - exact flat_arrays_cover_orders.
  - constructor.
  - reflexivity.
  - unfold INT_MAX. lia.
  - left. exists 4095. reflexivity.
  - reflexivity.
  - lia.
  - left. cbn [order]. lia.
  - constructor; [|constructor; [|constructor]].
    + split; [reflexivity|]. split; [cbn; lia|]. split; [reflexivity|].
      split; [reflexivity|].
      repeat constructor; eexists; (split; [reflexivity|reflexivity]).
    + split; [reflexivity|]. split; [cbn; lia|]. split; [reflexivity|].
      split; [reflexivity|].
      repeat constructor; eexists; (split; [reflexivity|reflexivity]).
Defined.

Lemma clone_failure_falls_back_or_keeps_filter_witness :
  exists (r : Z) (ch' : channel Binary32.t) (m' : memory Binary32.t),
    update_channel_filter Scenario.a_channel 44100 Scenario.exhausted_heap
      = Some (r, ch', m') /\
    ch_delay_line ch' = ch_delay_line Scenario.a_channel /\
    owns_filter m' (current ch') /\
    (current Scenario.a_channel <> None -> current ch' <> None) /\
    ((r = -1 /\ ch' = Scenario.a_channel /\ heap m' = heap Scenario.exhausted_heap /\
      filter_at m' (current ch')
      = filter_at Scenario.exhausted_heap (current Scenario.a_channel) /\
      (no_entry_for 44100 \/
       exists tl' : list bool, [false] = false :: tl' \/ [false] = true :: false :: tl')) \/
     (r = 0 /\
      (exists (i : nat) (o : Z), FIR_FILTERS_fields !! i = Some (44100, o)) /\
      forallb (fun b : bool => b) (take 2 [false]) = true /\
      (exists f : fir_filter Binary32.t,
         cloned_entry 5 = Some f /\ filter_at m' (current ch') = Some (Some f)) /\
      (current Scenario.a_channel <> None ->
       filter_at m' (current Scenario.a_channel) = None))).
Proof.
  apply (clone_failure_falls_back_or_keeps_filter Scenario.a_channel 44100
           Scenario.exhausted_heap [false]).
  - exact flat_arrays_cover_orders.
  - exact a_channel_owns_filter_exhausted.
  - left. reflexivity.
Defined.

(** C5 as stated fails.  The first allocation is refused, so the clone of
    the entry for 44100 Hz fails; the next ones are served.
    [update_channel_filter] returns 0, not -1; the channel has a clone of the
    entry for 192000 Hz and the filter it had is released. *)
Lemma clone_failure_replaces_filter_counterexample :
  exists (ch' : channel Binary32.t) (m1 m' : memory Binary32.t)
         (f : fir_filter Binary32.t),
    fir_filter_clone (Some (StaticFilter 0))
      (mk_memory (heap Scenario.heap_with_filter) [false]) = Some (None, m1) /\
    update_channel_filter Scenario.a_channel 44100
      (mk_memory (heap Scenario.heap_with_filter) [false])
    = Some (0, ch', m') /\
    current ch' <> current Scenario.a_channel /\
    filter_at (mk_memory (heap Scenario.heap_with_filter) [false])
      (current Scenario.a_channel) = Some (Some (mk_fir_filter 48000 Scenario.taps 3)) /\
    filter_at m' (current Scenario.a_channel) = None /\
    filter_at m' (current ch') = Some (Some f) /\
    rate f = 192000 /\ order f = 16383.
Proof.
  eexists. eexists. eexists. eexists.
  split; [vm_compute; reflexivity|].
  split; [vm_compute; reflexivity|].
  split; [vm_compute; discriminate|].
  split; [vm_compute; reflexivity|].
  split; [vm_compute; reflexivity|].
  split; [vm_compute; reflexivity|].
  split; reflexivity.
Qed.



(** The same on a short line.  The delay line has 16
    slots; the samples 1 and 2 are appended with the filter of order 1; after
    the swap the quantum with the sample 3 is processed with the filter of
    order 4 and coefficients 1, 1, 1, 1.  That filter applied to the
    history 1, 2, 3 gives [x[0] + x[1] = 3] at time 2, and the output
    is 0: the mirror copies of the samples 1 and 2 are two slots behind them,
    not eight, and the window of the new filter lies where they are not. *)
Lemma swap_on_short_line_differs :
  exists (d0 d : delay_line Binary32.t) (outs : list (list Binary32.t))
         (ch'' : channel Binary32.t) (out : list Binary32.t),
    delay_line_init true (4 * 4) = Some d0 /\
    quanta SwapScenario.order1 d0 [[Binary32.one]; [SwapScenario.two]]
      = Some (d, outs) /\
    filter_at SwapScenario.heap_after (Some (Dyn 0))
      = Some (Some SwapScenario.order4) /\
    process_channel (mk_channel (Some d) (Some (Dyn 0))) SwapScenario.heap_after
      (Some [SwapScenario.three]) (Some [Binary32.zero]) 1
    = Some (ch'', Some out) /\
    ch_delay_line ch'' <> None /\
    out = [Binary32.zero] /\
    fir_response SwapScenario.order4
      [Binary32.one; SwapScenario.two; SwapScenario.three] 2 = SwapScenario.three /\
    out <> [fir_response SwapScenario.order4
              [Binary32.one; SwapScenario.two; SwapScenario.three] 2].
Proof.
  eexists. eexists. eexists. eexists. eexists.
  split; [reflexivity|].
  split; [vm_compute; reflexivity|].
  split; [reflexivity|].
  split; [vm_compute; reflexivity|].
  split; [discriminate|].
  split; [reflexivity|].
  split; [vm_compute; reflexivity|].
  vm_compute. discriminate.
Qed.

(** The sixth allocation refused: [init_fir_filters] returns -1 with the
    heap empty again; the first channel keeps the pointers to its freed
    blocks and the second has none. *)
Lemma refused_buffer_releases_first_channel :
  exists (d : Lifetime.data) (m' : memory Binary32.t),
    Lifetime.init_fir_filters zeroed_data sixth_refused = Some (-1, d, m') /\
    heap m' = ∅ /\
    Lifetime.channels d = [Lifetime.mk_channel (Some (Dyn 0)) (Some (Dyn 2));
                           Lifetime.mk_channel None None].
Proof.
  remember (Lifetime.init_fir_filters zeroed_data sixth_refused) as res eqn:Hres.
  vm_compute in Hres. subst res.
  eexists _, _. split; [reflexivity|]. split; reflexivity.
Qed.

Lemma two_channels_own :
  channels_own OwnedScenario.heap_of_two
    (Lifetime.channels OwnedScenario.two_channels) OwnedScenario.blocks.
Proof.
  split.
  - repeat constructor; try (eexists; reflexivity); try (eexists _, _; reflexivity);
      apply (bool_decide_unpack _); reflexivity.
  - apply (bool_decide_unpack _). reflexivity.
Qed.

Lemma init_fir_filters_starts_ready_witness :
  exists (d : Lifetime.data) (m' : memory Binary32.t)
         (ts : list (nat * nat * nat * nat)) (dv : data Binary32.t),
    Lifetime.init_fir_filters zeroed_data empty_memory = Some (0, d, m') /\
    Lifetime.current_rate d = 44100 /\
    channels_own m' (Lifetime.channels d) ts /\
    without_blocks (heap m') (ts ≫= blocks4) (heap empty_memory) /\
    live_blocks m' = (live_blocks empty_memory + 4 * NUM_CHANNELS)%nat /\
    data_by_value m' d = Some dv /\
    current_rate dv = 44100 /\
    ready dv m' /\
    Forall (fun ch =>
              ch_delay_line ch = delay_line_init true (MAX_FILTER_ORDER * 4) /\
              exists f : fir_filter Binary32.t,
                cloned_entry 0 = Some f /\
                filter_at m' (current ch) = Some (Some f)) (channels dv).
Proof.
  apply (init_fir_filters_starts_ready zeroed_data empty_memory).
  - exact flat_arrays_cover_orders.
  - reflexivity.
  - reflexivity.
Defined.

Lemma init_fir_filters_all_or_nothing_witness :
  exists (r : Z) (d : Lifetime.data) (m' : memory Binary32.t),
    Lifetime.init_fir_filters zeroed_data sixth_refused = Some (r, d, m') /\
    length (Lifetime.channels d) = NUM_CHANNELS /\
    ((r = 0 /\ Lifetime.current_rate d = 44100 /\
      exists (ts : list (nat * nat * nat * nat)) (dv : data Binary32.t),
        channels_own m' (Lifetime.channels d) ts /\
        without_blocks (heap m') (ts ≫= blocks4) (heap sixth_refused) /\
        live_blocks m' = (live_blocks sixth_refused + 4 * NUM_CHANNELS)%nat /\
        data_by_value m' d = Some dv /\ ready dv m') \/
     (r = -1 /\ heap m' = heap sixth_refused /\
      Lifetime.current_rate d = Lifetime.current_rate zeroed_data /\
      ~ allocations_succeed (4 * NUM_CHANNELS) sixth_refused /\
      exists (i : nat) (ch : Lifetime.channel),
        Lifetime.channels d !! i = Some ch /\ Lifetime.ch_delay_line ch = None)).
Proof.
  apply (init_fir_filters_all_or_nothing zeroed_data sixth_refused).
  - exact flat_arrays_cover_orders.
  - reflexivity.
Defined.

Lemma cleanup_fir_filters_releases_blocks_witness :
  exists (d' : Lifetime.data) (m' : memory Binary32.t),
    Lifetime.cleanup_fir_filters OwnedScenario.two_channels OwnedScenario.heap_of_two
    = Some (d', m') /\
    length (Lifetime.channels d') = NUM_CHANNELS /\
    Forall channel_null (Lifetime.channels d') /\
    Lifetime.current_rate d' = Lifetime.current_rate OwnedScenario.two_channels /\
    without_blocks (heap OwnedScenario.heap_of_two) (OwnedScenario.blocks ≫= blocks4)
                   (heap m') /\
    live_blocks OwnedScenario.heap_of_two = (live_blocks m' + 4 * NUM_CHANNELS)%nat /\
    Lifetime.cleanup_fir_filters d' m' = Some (d', m').
Proof.
  apply (cleanup_fir_filters_releases_blocks
           OwnedScenario.two_channels OwnedScenario.heap_of_two OwnedScenario.blocks).
  - reflexivity.
  - exact two_channels_own.
Defined.

Lemma cleanup_undoes_init_witness :
  exists (d : Lifetime.data) (m' : memory Binary32.t),
    Lifetime.init_fir_filters zeroed_data empty_memory = Some (0, d, m') /\
    exists (d' : Lifetime.data) (m'' : memory Binary32.t),
      Lifetime.cleanup_fir_filters d m' = Some (d', m'') /\
      heap m'' = heap empty_memory /\
      Forall channel_null (Lifetime.channels d').
Proof.
  assert (Hzero : (fun res : option (Z * Lifetime.data * memory Binary32.t) =>
                     match res with
                     | Some (0, _, _) => true
                     | _ => false
                     end) (Lifetime.init_fir_filters zeroed_data empty_memory) = true)
    by (vm_compute; reflexivity).
  destruct (Lifetime.init_fir_filters zeroed_data empty_memory)
    as [[[r d] m']|] eqn:Hrun; [|discriminate Hzero].
  destruct r; try discriminate Hzero.
  exists d, m'. split; [reflexivity|].
  exact (cleanup_undoes_init zeroed_data d empty_memory m'
           flat_arrays_cover_orders eq_refl Hrun).
Defined.
